(** * A shallow embedding of the scanning and output engine of grep.c

    The development follows [src/grep.c]: the counters ([add_count]), the
    line scanner ([nlscan]), the output formatter ([print_offset],
    [print_line_head], [print_line_middle], [print_line_tail], [prline]),
    the context tracker ([prpending], [prtext]), the match loop
    ([grepbuf]), the per-file driver ([fillbuf], [zap_nuls], [grep]), the
    worker ([worker_thread_func]) and the exit status computed by [main].

    Conventions.
    - A byte is an integer in [0, 256); [uintmax_t] values are integers
      with the wrap-around at [2^64] written out; [intmax_t] values are
      integers (signed overflow is undefined in C and is not reached by the
      counters modelled here).
    - The buffer is the list of its bytes from its base; a pointer into
      the buffer is an index into that list and [NULL] is [None].  Reading
      or writing outside the list, and arithmetic on [NULL], are undefined
      behaviour in C and give the outcome [Undefined].
    - The code runs in a small state-and-exit monad: a computation either
      returns, or calls [exit], or is undefined, or runs out of the fuel
      that bounds the loops whose termination depends on the matcher.
    - The matcher ([execute]) and the locale ([unibyte_mask], [mbrlen])
      are collaborators outside [grep.c]; they are parameters.
    - Platform: POSIX without [SEEK_DATA]/[SEEK_HOLE] (the fallback
      [enum]s of the source), [O_BINARY = 0] (so [undossify_input] and
      [dossified_pos] are the identity) and no ASAN poisoning.  Writes to
      standard output succeed ([stdout_errno] stays 0) and memory
      allocation succeeds. *)

From Stdlib Require Import ZArith Lia Bool String Ascii.
From stdpp Require Import base tactics option list numbers.

Local Open Scope Z_scope.

(** ** Bytes *)

Notation byte := Z (only parsing).

Definition byte_of_ascii (c : ascii) : byte := Z.of_N (N_of_ascii c).

Definition bytes_of_string (s : string) : list byte :=
  List.map byte_of_ascii (list_ascii_of_string s).

Definition NUL : byte := 0.
Definition LF : byte := 10.
Definition CR : byte := 13.
Definition ESC : byte := 27.

Definition SEP_CHAR_SELECTED : byte := 58. (* ':' *)
Definition SEP_CHAR_REJECTED : byte := 45. (* '-' *)
Definition SEP_STR_GROUP : list byte := [45; 45].

Definition EXIT_SUCCESS : Z := 0.
Definition EXIT_FAILURE : Z := 1.
Definition EXIT_TROUBLE : Z := 2.

(** [uintmax_t] is 64 bits wide. *)
Definition UINTMAX_WIDTH : Z := 64.
Definition uintmax_modulus : Z := 2 ^ UINTMAX_WIDTH.
Definition INTMAX_MAX : Z := 2 ^ 63 - 1.

(** ** Options: the globals that are fixed once [main] has read the
    command line *)

Inductive binary_files_type : Type :=
| BINARY_BINARY_FILES
| TEXT_BINARY_FILES
| WITHOUT_MATCH_BINARY_FILES.

Inductive list_files_type : Type :=
| LISTFILES_NONE
| LISTFILES_MATCHING
| LISTFILES_NONMATCHING.

Definition binary_files_eqb (a b : binary_files_type) : bool :=
  match a, b with
  | BINARY_BINARY_FILES, BINARY_BINARY_FILES
  | TEXT_BINARY_FILES, TEXT_BINARY_FILES
  | WITHOUT_MATCH_BINARY_FILES, WITHOUT_MATCH_BINARY_FILES => true
  | _, _ => false
  end.

Definition list_files_eqb (a b : list_files_type) : bool :=
  match a, b with
  | LISTFILES_NONE, LISTFILES_NONE
  | LISTFILES_MATCHING, LISTFILES_MATCHING
  | LISTFILES_NONMATCHING, LISTFILES_NONMATCHING => true
  | _, _ => false
  end.

Record options : Type := mkOptions {
  suppress_errors : bool;
  color_option : Z;
  only_matching : bool;
  align_tabs : bool;
  group_separator : option (list byte);
  selected_match_color : list byte;
  context_match_color : list byte;
  filename_color : list byte;
  line_num_color : list byte;
  byte_num_color : list byte;
  sep_color : list byte;
  selected_line_color : list byte;
  context_line_color : list byte;
  sgr_el : bool;             (* false once "ne" was given in GREP_COLORS *)
  eolbyte : byte;
  out_file : bool;
  global_out_quiet : bool;   (* the static [out_quiet] *)
  global_done_on_match : bool; (* the static [done_on_match] *)
  skip_empty_lines : bool;
  binary_files : binary_files_type;
  list_files : list_files_type;
  filename_mask : bool;      (* false: output a NUL after file names *)
  out_invert : bool;
  out_line : bool;
  out_byte : bool;
  out_before : Z;
  out_after : Z;
  count_matches : bool;
  max_count : Z;
  line_buffered : bool;
  exit_on_match : bool;
  exit_failure : Z
}.

(** ** What the operating system answers *)

(** One call of [safe_read] inside [fillbuf].  [ReadData moved data]: the
    read returns the bytes [data] (none at end of file); [moved] tells
    whether [fillbuf] had to move the saved bytes to make room (its second
    branch), which depends on the allocation and is left to the
    environment.  A list of answers that is used up stands for end of
    file. *)
Inductive read_event : Type :=
| ReadData (moved : bool) (data : list byte)
| ReadError (moved : bool).

Record state : Type := mkState {
  out_quiet : bool; (* Suppress all normal output. *)
  totalcc : Z; (* Total character count before bufbeg. *)
  lastnl : nat; (* Pointer after last newline counted. *)
  lastout : option nat; (* Pointer after last character output; None is NULL. *)
  outleft : Z; (* Maximum number of lines to be output. *)
  pending : Z; (* Pending lines of output. *)
  done_on_match : bool; (* Stop scanning file on first match. *)
  encoding_error_output : bool; (* Output was suppressed because of an encoding error. *)
  filename : list byte; (* The input file name. *)
  buffer : list byte; (* The bytes of the buffer, from its base. *)
  bufdesc : list read_event; (* File descriptor: what the coming reads return. *)
  bufbeg : nat; (* Beginning of user-visible stuff. *)
  buflim : nat; (* Limit of user-visible stuff. *)
  bufoffset : Z; (* Read offset. *)
  after_last_match : Z; (* Offset after the last matching line. *)
  skip_nuls : bool; (* Skip NUL bytes in data. *)
  totalnl : Z; (* Total newline count before lastnl. *)
  used : bool; (* prtext's static flag: some output was produced. *)
  errseen : bool; (* An error was reported. *)
  stdout : list byte; (* Bytes written to standard output. *)
  stderr : list (list byte); (* Diagnostics written to standard error. *)
}.

Definition set_out_quiet (v : bool) (s : state) : state :=
  mkState v (totalcc s) (lastnl s) (lastout s) (outleft s) (pending s) (done_on_match s) (encoding_error_output s) (filename s) (buffer s) (bufdesc s) (bufbeg s) (buflim s) (bufoffset s) (after_last_match s) (skip_nuls s) (totalnl s) (used s) (errseen s) (stdout s) (stderr s).
Definition set_totalcc (v : Z) (s : state) : state :=
  mkState (out_quiet s) v (lastnl s) (lastout s) (outleft s) (pending s) (done_on_match s) (encoding_error_output s) (filename s) (buffer s) (bufdesc s) (bufbeg s) (buflim s) (bufoffset s) (after_last_match s) (skip_nuls s) (totalnl s) (used s) (errseen s) (stdout s) (stderr s).
Definition set_lastnl (v : nat) (s : state) : state :=
  mkState (out_quiet s) (totalcc s) v (lastout s) (outleft s) (pending s) (done_on_match s) (encoding_error_output s) (filename s) (buffer s) (bufdesc s) (bufbeg s) (buflim s) (bufoffset s) (after_last_match s) (skip_nuls s) (totalnl s) (used s) (errseen s) (stdout s) (stderr s).
Definition set_lastout (v : option nat) (s : state) : state :=
  mkState (out_quiet s) (totalcc s) (lastnl s) v (outleft s) (pending s) (done_on_match s) (encoding_error_output s) (filename s) (buffer s) (bufdesc s) (bufbeg s) (buflim s) (bufoffset s) (after_last_match s) (skip_nuls s) (totalnl s) (used s) (errseen s) (stdout s) (stderr s).
Definition set_outleft (v : Z) (s : state) : state :=
  mkState (out_quiet s) (totalcc s) (lastnl s) (lastout s) v (pending s) (done_on_match s) (encoding_error_output s) (filename s) (buffer s) (bufdesc s) (bufbeg s) (buflim s) (bufoffset s) (after_last_match s) (skip_nuls s) (totalnl s) (used s) (errseen s) (stdout s) (stderr s).
Definition set_pending (v : Z) (s : state) : state :=
  mkState (out_quiet s) (totalcc s) (lastnl s) (lastout s) (outleft s) v (done_on_match s) (encoding_error_output s) (filename s) (buffer s) (bufdesc s) (bufbeg s) (buflim s) (bufoffset s) (after_last_match s) (skip_nuls s) (totalnl s) (used s) (errseen s) (stdout s) (stderr s).
Definition set_done_on_match (v : bool) (s : state) : state :=
  mkState (out_quiet s) (totalcc s) (lastnl s) (lastout s) (outleft s) (pending s) v (encoding_error_output s) (filename s) (buffer s) (bufdesc s) (bufbeg s) (buflim s) (bufoffset s) (after_last_match s) (skip_nuls s) (totalnl s) (used s) (errseen s) (stdout s) (stderr s).
Definition set_encoding_error_output (v : bool) (s : state) : state :=
  mkState (out_quiet s) (totalcc s) (lastnl s) (lastout s) (outleft s) (pending s) (done_on_match s) v (filename s) (buffer s) (bufdesc s) (bufbeg s) (buflim s) (bufoffset s) (after_last_match s) (skip_nuls s) (totalnl s) (used s) (errseen s) (stdout s) (stderr s).
Definition set_filename (v : list byte) (s : state) : state :=
  mkState (out_quiet s) (totalcc s) (lastnl s) (lastout s) (outleft s) (pending s) (done_on_match s) (encoding_error_output s) v (buffer s) (bufdesc s) (bufbeg s) (buflim s) (bufoffset s) (after_last_match s) (skip_nuls s) (totalnl s) (used s) (errseen s) (stdout s) (stderr s).
Definition set_buffer (v : list byte) (s : state) : state :=
  mkState (out_quiet s) (totalcc s) (lastnl s) (lastout s) (outleft s) (pending s) (done_on_match s) (encoding_error_output s) (filename s) v (bufdesc s) (bufbeg s) (buflim s) (bufoffset s) (after_last_match s) (skip_nuls s) (totalnl s) (used s) (errseen s) (stdout s) (stderr s).
Definition set_bufdesc (v : list read_event) (s : state) : state :=
  mkState (out_quiet s) (totalcc s) (lastnl s) (lastout s) (outleft s) (pending s) (done_on_match s) (encoding_error_output s) (filename s) (buffer s) v (bufbeg s) (buflim s) (bufoffset s) (after_last_match s) (skip_nuls s) (totalnl s) (used s) (errseen s) (stdout s) (stderr s).
Definition set_bufbeg (v : nat) (s : state) : state :=
  mkState (out_quiet s) (totalcc s) (lastnl s) (lastout s) (outleft s) (pending s) (done_on_match s) (encoding_error_output s) (filename s) (buffer s) (bufdesc s) v (buflim s) (bufoffset s) (after_last_match s) (skip_nuls s) (totalnl s) (used s) (errseen s) (stdout s) (stderr s).
Definition set_buflim (v : nat) (s : state) : state :=
  mkState (out_quiet s) (totalcc s) (lastnl s) (lastout s) (outleft s) (pending s) (done_on_match s) (encoding_error_output s) (filename s) (buffer s) (bufdesc s) (bufbeg s) v (bufoffset s) (after_last_match s) (skip_nuls s) (totalnl s) (used s) (errseen s) (stdout s) (stderr s).
Definition set_bufoffset (v : Z) (s : state) : state :=
  mkState (out_quiet s) (totalcc s) (lastnl s) (lastout s) (outleft s) (pending s) (done_on_match s) (encoding_error_output s) (filename s) (buffer s) (bufdesc s) (bufbeg s) (buflim s) v (after_last_match s) (skip_nuls s) (totalnl s) (used s) (errseen s) (stdout s) (stderr s).
Definition set_after_last_match (v : Z) (s : state) : state :=
  mkState (out_quiet s) (totalcc s) (lastnl s) (lastout s) (outleft s) (pending s) (done_on_match s) (encoding_error_output s) (filename s) (buffer s) (bufdesc s) (bufbeg s) (buflim s) (bufoffset s) v (skip_nuls s) (totalnl s) (used s) (errseen s) (stdout s) (stderr s).
Definition set_skip_nuls (v : bool) (s : state) : state :=
  mkState (out_quiet s) (totalcc s) (lastnl s) (lastout s) (outleft s) (pending s) (done_on_match s) (encoding_error_output s) (filename s) (buffer s) (bufdesc s) (bufbeg s) (buflim s) (bufoffset s) (after_last_match s) v (totalnl s) (used s) (errseen s) (stdout s) (stderr s).
Definition set_totalnl (v : Z) (s : state) : state :=
  mkState (out_quiet s) (totalcc s) (lastnl s) (lastout s) (outleft s) (pending s) (done_on_match s) (encoding_error_output s) (filename s) (buffer s) (bufdesc s) (bufbeg s) (buflim s) (bufoffset s) (after_last_match s) (skip_nuls s) v (used s) (errseen s) (stdout s) (stderr s).
Definition set_used (v : bool) (s : state) : state :=
  mkState (out_quiet s) (totalcc s) (lastnl s) (lastout s) (outleft s) (pending s) (done_on_match s) (encoding_error_output s) (filename s) (buffer s) (bufdesc s) (bufbeg s) (buflim s) (bufoffset s) (after_last_match s) (skip_nuls s) (totalnl s) v (errseen s) (stdout s) (stderr s).
Definition set_errseen (v : bool) (s : state) : state :=
  mkState (out_quiet s) (totalcc s) (lastnl s) (lastout s) (outleft s) (pending s) (done_on_match s) (encoding_error_output s) (filename s) (buffer s) (bufdesc s) (bufbeg s) (buflim s) (bufoffset s) (after_last_match s) (skip_nuls s) (totalnl s) (used s) v (stdout s) (stderr s).
Definition set_stdout (v : list byte) (s : state) : state :=
  mkState (out_quiet s) (totalcc s) (lastnl s) (lastout s) (outleft s) (pending s) (done_on_match s) (encoding_error_output s) (filename s) (buffer s) (bufdesc s) (bufbeg s) (buflim s) (bufoffset s) (after_last_match s) (skip_nuls s) (totalnl s) (used s) (errseen s) v (stderr s).
Definition set_stderr (v : list (list byte)) (s : state) : state :=
  mkState (out_quiet s) (totalcc s) (lastnl s) (lastout s) (outleft s) (pending s) (done_on_match s) (encoding_error_output s) (filename s) (buffer s) (bufdesc s) (bufbeg s) (buflim s) (bufoffset s) (after_last_match s) (skip_nuls s) (totalnl s) (used s) (errseen s) (stdout s) v.

(** ** The monad *)

Inductive outcome (A : Type) : Type :=
| Ret (a : A) (s : state)        (* normal return *)
| Exits (status : Z) (s : state) (* the process called exit *)
| Undefined                      (* undefined behaviour *)
| OutOfFuel.                     (* a loop did not end within the fuel *)

Arguments Ret {A} a s.
Arguments Exits {A} status s.
Arguments Undefined {A}.
Arguments OutOfFuel {A}.

Definition M (A : Type) : Type := state -> outcome A.

Definition ret {A : Type} (a : A) : M A := fun s => Ret a s.

Definition bind {A B : Type} (m : M A) (k : A -> M B) : M B :=
  fun s =>
    match m s with
    | Ret a s' => k a s'
    | Exits c s' => Exits c s'
    | Undefined => Undefined
    | OutOfFuel => OutOfFuel
    end.

Declare Scope grep_scope.
Delimit Scope grep_scope with grep.
Notation "x <- m ;; k" := (bind m (fun x => k))
  (at level 100, m at next level, right associativity) : grep_scope.
Notation "m ;;; k" := (bind m (fun _ => k))
  (at level 100, right associativity) : grep_scope.
Local Open Scope grep_scope.

Definition gets {A : Type} (f : state -> A) : M A := fun s => Ret (f s) s.
Definition modify (f : state -> state) : M unit := fun s => Ret tt (f s).
Definition exit {A : Type} (status : Z) : M A := fun s => Exits status s.
Definition undefined {A : Type} : M A := fun _ => Undefined.
Definition out_of_fuel {A : Type} : M A := fun _ => OutOfFuel.

Definition when (b : bool) (m : M unit) : M unit := if b then m else ret tt.

(** [mapM]: run a computation on each element, in order. *)
Fixpoint mapM {A B : Type} (f : A -> M B) (l : list A) : M (list B) :=
  match l with
  | [] => ret []
  | a :: l' => b <- f a ;; bs <- mapM f l' ;; ret (b :: bs)
  end.

(** Memory accesses. *)
Definition load (p : nat) : M byte :=
  fun s => match buffer s !! p with
           | Some c => Ret c s
           | None => Undefined
           end.

Definition store (p : nat) (c : byte) : M unit :=
  fun s => if decide (p < length (buffer s))%nat
           then Ret tt (set_buffer (<[p := c]> (buffer s)) s)
           else Undefined.

(** The bytes [p, p + n) of the buffer; undefined when they are not all
    inside. *)
Definition load_range (p n : nat) : M (list byte) :=
  fun s => if decide (p + n <= length (buffer s))%nat
           then Ret (take n (drop p (buffer s))) s
           else Undefined.

(** ** Library functions of C on the buffer *)

(** [memchr buf p n c]: the first index in [p, p + n) that holds [c]. *)
Fixpoint memchr (buf : list byte) (p n : nat) (c : byte) : option nat :=
  match n with
  | O => None
  | S n' =>
      match buf !! p with
      | Some x => if x =? c then Some p else memchr buf (S p) n' c
      | None => None
      end
  end.

(** [memrchr buf p n c]: the last index in [p, p + n) that holds [c]. *)
Fixpoint memrchr (buf : list byte) (p n : nat) (c : byte) : option nat :=
  match n with
  | O => None
  | S n' =>
      match buf !! (p + n')%nat with
      | Some x => if x =? c then Some (p + n')%nat else memrchr buf p n' c
      | None => None
      end
  end.

(** The length of the NUL-terminated string that [l] starts with. *)
Fixpoint strlen_list (l : list byte) : option nat :=
  match l with
  | [] => None
  | c :: l' => if c =? 0 then Some O else S <$> strlen_list l'
  end.

Definition strlen (p : nat) : M nat :=
  fun s => match strlen_list (drop p (buffer s)) with
           | Some n => Ret n s
           | None => Undefined
           end.

(** [all_zeros]: true if the bytes are all zeros. *)
Fixpoint all_zeros (l : list byte) : bool :=
  match l with
  | [] => true
  | c :: l' => if c =? 0 then all_zeros l' else false
  end.

Definition nonempty (s : list byte) : bool :=
  match s with [] => false | _ :: _ => true end.

(** The answer of [mbrlen]: [(size_t) -1], [(size_t) -2] or a length. *)
Inductive mbrlen_result : Type :=
| MB_INVALID
| MB_INCOMPLETE
| MB_LEN (clen : nat).

(** An input file taken from the work queue, with what the operating
    system will answer for it. *)
Record workfile : Type := mkWorkfile {
  wf_is_stdin : bool;          (* fd == STDIN_FILENO *)
  wf_path : list byte;
  wf_is_reg : bool;            (* S_ISREG (st.st_mode) *)
  wf_lseek_cur : option Z;     (* lseek (fd, 0, SEEK_CUR), None on failure *)
  wf_reads : list read_event;  (* the answers of safe_read *)
  wf_lseek_set_ok : bool;      (* lseek (fd, offset, SEEK_SET) succeeds *)
  wf_close_ok : bool           (* close (fd) succeeds *)
}.

(** The variables of the loop of [grep]. *)
Record grep_vars : Type := mkGrepVars {
  firsttime : bool;
  nlines : Z;
  residue : nat;
  save : nat;
  nlines_first_null : Z;
  nul_zapper : byte
}.

(** How the loop of [grep] is left. *)
Inductive loop_exit : Type :=
| LoopBreak     (* break: end of file *)
| GotoFinish    (* goto finish_grep *)
| ReturnZero.   (* return 0: a binary file that is not to be matched *)

(** ** The collaborators of the engine *)

(** The function [execute] of a compiled pattern.  [execute range start]
    searches the bytes [range]; [start] is [start_ptr] as an offset into
    [range], [None] for [NULL].  The answer [None] is [(size_t) -1] and
    [Some (match_offset, match_size)] is a match. *)
Definition matcher : Type := list byte -> option nat -> option (nat * nat).

(** The locale: [unibyte_mask] as [initialize_unibyte_mask] leaves it,
    and [mbrlen] with its conversion state. *)
Record locale : Type := mkLocale {
  unibyte_mask : Z;
  mbstate : Type;
  mbs_initial : mbstate;
  mbrlen : list byte -> mbstate -> mbrlen_result * mbstate
}.

Record collaborators : Type := mkCollaborators {
  execute : matcher;
  locale_of : locale
}.

Section Engine.

Variable X : collaborators.
Variable o : options.

(** *** Output on stdout *)

Definition putchar_errno (c : byte) : M unit :=
  modify (fun s => set_stdout (stdout s ++ [c]) s).

Definition fputs_errno (str : list byte) : M unit :=
  modify (fun s => set_stdout (stdout s ++ str) s).

Definition fwrite_errno (ptr n : nat) : M unit :=
  bytes <- load_range ptr n ;;
  fputs_errno bytes.

Definition fflush_errno : M unit := ret tt.

(** The output lock is recursive and there is one thread in a run of
    the model. *)
Definition lock_output : M unit := ret tt.
Definition unlock_output : M unit := ret tt.

(** [print_start_colorize (sgr_start, s)] and [print_end_colorize
    (sgr_end)]: "\33[%sm\33[K" and "\33[m\33[K", without the "\33[K"
    after "ne". *)
Definition sgr_start (s : list byte) : list byte :=
  [ESC; 91] ++ s ++ [109] ++ (if sgr_el o then [ESC; 91; 75] else []).
Definition sgr_end : list byte :=
  [ESC; 91; 109] ++ (if sgr_el o then [ESC; 91; 75] else []).

Definition pr_sgr_start (s : list byte) : M unit :=
  when (nonempty s) (fputs_errno (sgr_start s)).
Definition pr_sgr_end (s : list byte) : M unit :=
  when (nonempty s) (fputs_errno sgr_end).
Definition pr_sgr_start_if (s : list byte) : M unit :=
  when (negb (color_option o =? 0)) (pr_sgr_start s).
Definition pr_sgr_end_if (s : list byte) : M unit :=
  when (negb (color_option o =? 0)) (pr_sgr_end s).

(** *** Errors *)

(** [ts_error (status, errnum, ...)]: the diagnostic goes to stderr and
    a nonzero [status] ends the process. *)
Definition ts_error (status : Z) (mesg : list byte) : M unit :=
  modify (fun s => set_stderr (stderr s ++ [mesg]) s) ;;;
  if status =? 0 then ret tt else exit status.

Definition suppressible_error (mesg : list byte) : M unit :=
  when (negb (suppress_errors o)) (ts_error 0 mesg) ;;;
  modify (set_errseen true).

(** *** Counting *)

Definition add_count (a b : Z) : M Z :=
  let sum := (a + b) mod uintmax_modulus in
  when (sum <? a)
       (ts_error EXIT_TROUBLE (bytes_of_string "input is too large to count")) ;;;
  ret sum.

(** The loop of [nlscan]; [fuel] bounds the iterations, each of which
    moves [beg] forward. *)
Fixpoint nlscan_loop (fuel : nat) (buf : list byte) (beg lim : nat)
         (newlines : Z) : Z :=
  match fuel with
  | O => newlines
  | S fuel' =>
      if (beg <? lim)%nat then
        match memchr buf beg (lim - beg) (eolbyte o) with
        | None => newlines
        | Some q => nlscan_loop fuel' buf (S q) lim (newlines + 1)
        end
      else newlines
  end.

Definition nlscan (lim : nat) : M unit :=
  s <- gets id ;;
  (if (lastnl s <? lim)%nat then load_range (lastnl s) (lim - lastnl s) ;;; ret tt
   else ret tt) ;;;
  let newlines := nlscan_loop (lim - lastnl s) (buffer s) (lastnl s) lim 0 in
  t <- add_count (totalnl s) newlines ;;
  modify (set_totalnl t) ;;;
  modify (set_lastnl lim).

(** *** The output formatter *)

Definition print_filename : M unit :=
  pr_sgr_start_if (filename_color o) ;;;
  name <- gets filename ;;
  fputs_errno name ;;;
  pr_sgr_end_if (filename_color o).

Definition print_sep (sep : byte) : M unit :=
  pr_sgr_start_if (sep_color o) ;;;
  putchar_errno sep ;;;
  pr_sgr_end_if (sep_color o).

(** The do-while loop of [print_offset]: the digits of [pos], last
    first, in front of [acc]; [fuel] is the size of the local array. *)
Fixpoint offset_digits (fuel : nat) (pos min_width : Z) (acc : list byte)
  : list byte * Z :=
  match fuel with
  | O => (acc, min_width)
  | S fuel' =>
      let acc' := (48 + pos mod 10) :: acc in
      let min_width' := min_width - 1 in
      let pos' := pos / 10 in
      if pos' =? 0 then (acc', min_width')
      else offset_digits fuel' pos' min_width' acc'
  end.

Definition print_offset (pos min_width : Z) (color : list byte) : M unit :=
  let '(digits, min_width') := offset_digits 64 pos min_width [] in
  let p := if align_tabs o
           then replicate (Z.to_nat min_width') 32 ++ digits
           else digits in
  pr_sgr_start_if color ;;;
  fputs_errno p ;;;
  pr_sgr_end_if color.

(** [skip_easy_bytes]: the first byte at or after [p] that has a bit of
    [unibyte_mask]; the word-wise search of the source finds the same
    byte. *)
Fixpoint skip_easy (l : list byte) : option nat :=
  match l with
  | [] => None
  | c :: l' => if Z.land c (unibyte_mask (locale_of X)) =? 0 then S <$> skip_easy l' else Some O
  end.

Definition skip_easy_bytes (p : nat) : M nat :=
  fun s => match skip_easy (drop p (buffer s)) with
           | Some k => Ret (p + k)%nat s
           | None => Undefined
           end.

(** The loop of [buf_has_encoding_errors]; [lim] is [buf + size]. *)
Fixpoint encoding_errors_loop (fuel : nat) (lim p : nat) (mbs : mbstate (locale_of X))
  : M bool :=
  match fuel with
  | O => out_of_fuel
  | S fuel' =>
      q <- skip_easy_bytes p ;;
      if (q <? lim)%nat then
        bytes <- load_range q (lim - q) ;;
        match mbrlen (locale_of X) bytes mbs with
        | (MB_INVALID, _) | (MB_INCOMPLETE, _) => ret true
        | (MB_LEN clen, mbs') => encoding_errors_loop fuel' lim (q + clen)%nat mbs'
        end
      else ret false
  end.

Definition buf_has_encoding_errors (buf size : nat) : M bool :=
  if unibyte_mask (locale_of X) =? 0 then ret false
  else
    store (buf + size) 255 ;;;
    encoding_errors_loop (S size) (buf + size) buf (mbs_initial (locale_of X)).

Definition buf_has_nulls (buf size : nat) : M bool :=
  store (buf + size) 0 ;;;
  n <- strlen buf ;;
  ret (negb (n =? size)%nat).

(** Without [SEEK_HOLE] the function finds nothing. *)
Definition file_must_have_nulls (size : nat) : M bool := ret false.

(** The first lines of [print_line_head]: the test for an encoding
    error, around which the byte behind the line is kept. *)
Definition line_has_encoding_errors (beg len : nat) : M bool :=
  if negb (binary_files_eqb (binary_files o) TEXT_BINARY_FILES) then
    ch <- load (beg + len) ;;
    e <- buf_has_encoding_errors beg len ;;
    store (beg + len) ch ;;;
    ret e
  else ret false.

Definition print_line_head (beg len lim : nat) (sep : byte) : M bool :=
  encoding_errors <- line_has_encoding_errors beg len ;;
  if encoding_errors : bool then
    modify (fun s => set_encoding_error_output true
                       (set_done_on_match true (set_out_quiet true s))) ;;;
    ret false
  else
    pending_sep <-
      (if out_file o then
         print_filename ;;;
         if filename_mask o then ret true
         else putchar_errno 0 ;;; ret false
       else ret false) ;;
    pending_sep <-
      (if out_line o then
         s <- gets id ;;
         when (lastnl s <? lim)%nat
              (nlscan beg ;;;
               t <- gets totalnl ;;
               t' <- add_count t 1 ;;
               modify (set_totalnl t') ;;;
               modify (set_lastnl lim)) ;;;
         when pending_sep (print_sep sep) ;;;
         t <- gets totalnl ;;
         print_offset t 4 (line_num_color o) ;;;
         ret true
       else ret pending_sep) ;;
    pending_sep <-
      (if out_byte o then
         s <- gets id ;;
         pos <- add_count (totalcc s)
                          ((Z.of_nat beg - Z.of_nat (bufbeg s)) mod uintmax_modulus) ;;
         when pending_sep (print_sep sep) ;;;
         print_offset pos 6 (byte_num_color o) ;;;
         ret true
       else ret pending_sep) ;;
    when pending_sep
         (when (align_tabs o) (fputs_errno [9; 8]) ;;;
          print_sep sep) ;;;
    ret true.

Fixpoint print_line_middle_loop (fuel : nat) (beg lim : nat)
         (line_color match_color : list byte) (cur : nat) (mid : option nat)
  : M (option (nat * option nat)) :=
  match fuel with
  | O => out_of_fuel
  | S fuel' =>
      if (cur <? lim)%nat then
        range <- load_range beg (lim - beg) ;;
        match execute X range (Some (cur - beg)%nat) with
        | None => ret (Some (cur, mid))
        | Some (match_offset, match_size) =>
            let b := (beg + match_offset)%nat in
            if (b =? lim)%nat then ret (Some (cur, mid))
            else if (match_size =? 0)%nat then
              let mid' := match mid with None => Some cur | Some _ => mid end in
              print_line_middle_loop fuel' beg lim line_color match_color
                                     (b + 1)%nat mid'
            else
              r <-
                (if only_matching o then
                   let sep := if out_invert o then SEP_CHAR_REJECTED
                              else SEP_CHAR_SELECTED in
                   ok <- print_line_head b match_size lim sep ;;
                   ret (if ok : bool then Some mid else None)
                 else
                   pr_sgr_start line_color ;;;
                   let cur' := match mid with Some m => m | None => cur end in
                   (if (b <? cur')%nat then undefined else ret tt) ;;;
                   fwrite_errno cur' (b - cur') ;;;
                   ret (Some None)) ;;
              match r with
              | None => ret None
              | Some mid' =>
                  pr_sgr_start_if match_color ;;;
                  fwrite_errno b match_size ;;;
                  pr_sgr_end_if match_color ;;;
                  when (only_matching o) (putchar_errno (eolbyte o)) ;;;
                  print_line_middle_loop fuel' beg lim line_color match_color
                                         (b + match_size)%nat mid'
              end
        end
      else ret (Some (cur, mid))
  end.

Definition print_line_middle (fuel : nat) (beg lim : nat)
           (line_color match_color : list byte) : M (option nat) :=
  r <- print_line_middle_loop fuel beg lim line_color match_color beg None ;;
  match r with
  | None => ret None
  | Some (cur, mid) =>
      if only_matching o then ret (Some lim)
      else match mid with
           | Some m => ret (Some m)
           | None => ret (Some cur)
           end
  end.

Definition print_line_tail (beg lim : nat) (line_color : list byte) : M nat :=
  eol_size <-
    (if (beg <? lim)%nat then
       c <- load (lim - 1) ;;
       ret (if c =? eolbyte o then 1%nat else 0%nat)
     else ret 0%nat) ;;
  eol_size <-
    (if (beg <? lim - eol_size)%nat then
       c <- load (lim - (1 + eol_size)) ;;
       ret (if c =? CR then (eol_size + 1)%nat else eol_size)
     else ret eol_size) ;;
  (if (lim - eol_size <? beg)%nat then undefined else ret tt) ;;;
  let tail_size := (lim - eol_size - beg)%nat in
  if (0 <? tail_size)%nat then
    pr_sgr_start line_color ;;;
    fwrite_errno beg tail_size ;;;
    pr_sgr_end line_color ;;;
    ret (beg + tail_size)%nat
  else ret beg.

Definition prline (fuel : nat) (beg lim : nat) (sep : byte) : M unit :=
  head_ok <-
    (if negb (only_matching o) then
       (if (lim <? beg + 1)%nat then undefined else ret tt) ;;;
       print_line_head beg (lim - beg - 1) lim sep
     else ret true) ;;
  if negb head_ok then ret tt
  else
    let matching := xorb (sep =? SEP_CHAR_SELECTED) (out_invert o) in
    let line_color :=
      if xorb (sep =? SEP_CHAR_SELECTED) (out_invert o && (color_option o <? 0))
      then selected_line_color o else context_line_color o in
    let match_color :=
      if sep =? SEP_CHAR_SELECTED then selected_match_color o
      else context_match_color o in
    let colored := negb (color_option o =? 0) in
    r <-
      (if (only_matching o && matching)
          || (colored && (nonempty line_color || nonempty match_color))
       then
         r1 <-
           (if matching && (only_matching o || nonempty match_color) then
              print_line_middle fuel beg lim line_color match_color
            else ret (Some beg)) ;;
         match r1 with
         | None => ret None
         | Some beg1 =>
             if negb (only_matching o) && nonempty line_color then
               beg2 <- print_line_tail beg1 lim line_color ;;
               ret (Some beg2)
             else ret (Some beg1)
         end
       else ret (Some beg)) ;;
    match r with
    | None => ret tt
    | Some beg' =>
        when (negb (only_matching o) && (beg' <? lim)%nat)
             (fwrite_errno beg' (lim - beg')) ;;;
        when (line_buffered o) fflush_errno ;;;
        modify (set_lastout (Some lim))
    end.

(** *** The context tracker *)

(** The loop of [prpending]; [n] bounds the iterations, each of which
    decrements [pending]. *)
Fixpoint prpending_loop (n : nat) (fuel : nat) (lim : nat) : M unit :=
  match n with
  | O => ret tt
  | S n' =>
      s <- gets id ;;
      match lastout s with
      | None => undefined
      | Some lo =>
          if (0 <? pending s) && (lo <? lim)%nat then
            load_range lo (lim - lo) ;;;
            let nl := memchr (buffer s) lo (lim - lo) (eolbyte o) in
            modify (set_pending (pending s - 1)) ;;;
            match nl with
            | None => undefined
            | Some nl =>
                selected <-
                  (if negb (outleft s =? 0) then ret true
                   else
                     range <- load_range lo (nl + 1 - lo) ;;
                     ret (eqb (match execute X range None with
                               | None => true
                               | Some _ => false
                               end)
                              (negb (out_invert o)))) ;;
                (if selected : bool
                 then prline fuel lo (nl + 1) SEP_CHAR_REJECTED
                 else modify (set_pending 0)) ;;;
                prpending_loop n' fuel lim
            end
          else ret tt
      end
  end.

Definition prpending (fuel : nat) (lim : nat) : M unit :=
  modify (fun s => match lastout s with
                   | None => set_lastout (Some (bufbeg s)) s
                   | Some _ => s
                   end) ;;;
  lock_output ;;;
  p <- gets pending ;;
  prpending_loop (Z.to_nat p) fuel lim ;;;
  unlock_output.

(** [do --p; while (p[-1] != eol);] *)
Fixpoint line_back (buf : list byte) (eol : byte) (p : nat) : option nat :=
  match p with
  | O => None
  | S q =>
      match q with
      | O => None
      | S r =>
          match buf !! r with
          | Some c => if c =? eol then Some q else line_back buf eol q
          | None => None
          end
      end
  end.

(** The loop on the leading context in [prtext]: [n] iterations are
    left; once [p > bp] fails the remaining ones do nothing. *)
Fixpoint leading_context (n : nat) (buf : list byte) (bp p : nat)
  : option nat :=
  match n with
  | O => Some p
  | S n' =>
      if (bp <? p)%nat then
        match line_back buf (eolbyte o) p with
        | Some p' => leading_context n' buf bp p'
        | None => None
        end
      else Some p
  end.

(** [while (p < beg)] of [prtext]: the lines of leading context. *)
Fixpoint prtext_context_loop (n : nat) (fuel : nat) (p beg : nat) : M unit :=
  match n with
  | O => if (p <? beg)%nat then out_of_fuel else ret tt
  | S n' =>
      if (p <? beg)%nat then
        load_range p (beg - p) ;;;
        buf <- gets buffer ;;
        match memchr buf p (beg - p) (eolbyte o) with
        | None => undefined
        | Some nl =>
            prline fuel p (nl + 1) SEP_CHAR_REJECTED ;;;
            prtext_context_loop n' fuel (nl + 1) beg
        end
      else ret tt
  end.

(** The loop of [prtext] on the lines of an inverted region; returns
    [n] and [p]. *)
Fixpoint prtext_invert_loop (k : nat) (fuel : nat) (p lim : nat) (n : Z)
  : M (Z * nat) :=
  match k with
  | O => ret (n, p)
  | S k' =>
      s <- gets id ;;
      if (p <? lim)%nat && (n <? outleft s) then
        load_range p (lim - p) ;;;
        match memchr (buffer s) p (lim - p) (eolbyte o) with
        | None => undefined
        | Some nl =>
            when (negb (out_quiet s)) (prline fuel p (nl + 1) SEP_CHAR_SELECTED) ;;;
            prtext_invert_loop k' fuel (nl + 1) lim (n + 1)
        end
      else ret (n, p)
  end.

Definition prtext (fuel : nat) (beg lim : nat) : M unit :=
  s <- gets id ;;
  when (negb (out_quiet s) && (0 <? pending s)) (prpending fuel beg) ;;;
  lock_output ;;;
  s <- gets id ;;
  p <-
    (if negb (out_quiet s) then
       let bp := match lastout s with Some lo => lo | None => bufbeg s end in
       match leading_context (Z.to_nat (out_before o)) (buffer s) bp beg with
       | None => undefined
       | Some p =>
           when (((0 <=? out_before o) || (0 <=? out_after o))
                 && used s
                 && negb (bool_decide (Some p = lastout s))
                 && bool_decide (is_Some (group_separator o)))
                (pr_sgr_start_if (sep_color o) ;;;
                 fputs_errno (default [] (group_separator o)) ;;;
                 pr_sgr_end_if (sep_color o) ;;;
                 putchar_errno LF) ;;;
           prtext_context_loop (beg - p) fuel p beg ;;;
           ret beg
       end
     else ret beg) ;;
  np <-
    (if out_invert o then
       prtext_invert_loop (lim - p) fuel p lim 0
     else
       s <- gets id ;;
       when (negb (out_quiet s)) (prline fuel beg lim SEP_CHAR_SELECTED) ;;;
       ret (1, lim)) ;;
  let '(n, p) := np in
  modify (fun s => set_after_last_match
                     (bufoffset s - (Z.of_nat (buflim s) - Z.of_nat p)) s) ;;;
  modify (fun s => set_pending
                     (if out_quiet s then 0 else Z.max 0 (out_after o)) s) ;;;
  modify (set_used true) ;;;
  modify (fun s => set_outleft (outleft s - n) s) ;;;
  unlock_output.

(** *** NUL bytes *)

(** [do *p++ = eol; while (!*p);] *)
Fixpoint zap_run (fuel : nat) (p : nat) (eol : byte) : M nat :=
  match fuel with
  | O => out_of_fuel
  | S fuel' =>
      store p eol ;;;
      c <- load (S p) ;;
      if c =? 0 then zap_run fuel' (S p) eol else ret (S p)
  end.

Fixpoint zap_nuls_loop (fuel : nat) (p lim : nat) (eol : byte) : M unit :=
  match fuel with
  | O => out_of_fuel
  | S fuel' =>
      store lim 0 ;;;
      n <- strlen p ;;
      let p := (p + n)%nat in
      store lim eol ;;;
      if (p =? lim)%nat then ret tt
      else
        p <- zap_run (lim - p) p eol ;;
        zap_nuls_loop fuel' p lim eol
  end.

(** [zap_nuls]: each turn of the loop moves [p] forward, so the
    distance to [lim] bounds it. *)
Definition zap_nuls (p lim : nat) (eol : byte) : M unit :=
  if eol =? 0 then ret tt
  else zap_nuls_loop (S (lim - p)) p lim eol.

(** *** The match loop *)

Fixpoint grepbuf_loop (fuel : nat) (p lim : nat) : M unit :=
  match fuel with
  | O => if (p <? lim)%nat then out_of_fuel else ret tt
  | S fuel' =>
      if (p <? lim)%nat then
        range <- load_range p (lim - p) ;;
        let r :=
          match execute X range None with
          | Some m => Some m
          | None => if out_invert o then Some ((lim - p)%nat, 0%nat) else None
          end in
        match r with
        | None => ret tt
        | Some (match_offset, match_size) =>
            let b := (p + match_offset)%nat in
            let endp := (b + match_size)%nat in
            if negb (out_invert o) && (b =? lim)%nat then ret tt
            else if negb (out_invert o) || (p <? b)%nat then
              let prbeg := if out_invert o then p else b in
              let prend := if out_invert o then b else endp in
              prtext fuel prbeg prend ;;;
              s <- gets id ;;
              if (outleft s =? 0) || done_on_match s then
                if exit_on_match o then
                  exit (if errseen s then exit_failure o else EXIT_SUCCESS)
                else ret tt
              else grepbuf_loop fuel' endp lim
            else grepbuf_loop fuel' endp lim
        end
      else ret tt
  end.

Definition grepbuf (fuel : nat) (beg lim : nat) : M Z :=
  outleft0 <- gets outleft ;;
  grepbuf_loop fuel beg lim ;;;
  outleft1 <- gets outleft ;;
  ret (outleft0 - outleft1).

(** *** The buffer *)

(** [reset]: the buffer starts anew, one byte past its base, behind a
    sentinel end-of-line byte. *)
Definition reset (wf : workfile) : M bool :=
  modify (fun s => set_bufbeg 1%nat (set_buflim 1%nat s)) ;;;
  modify (set_buffer [eolbyte o]) ;;;
  modify (set_bufdesc (wf_reads wf)) ;;;
  if wf_is_reg wf then
    if negb (wf_is_stdin wf) then
      modify (set_bufoffset 0) ;;; ret true
    else
      match wf_lseek_cur wf with
      | Some off => modify (set_bufoffset off) ;;; ret true
      | None =>
          modify (set_bufoffset (-1)) ;;;
          suppressible_error (bytes_of_string "lseek failed") ;;;
          ret false
      end
  else ret true.

(** The loop of [fillbuf] around [safe_read]: chunks of zeros are
    skipped and counted while [skip_nuls] holds.  Returns the bytes read
    into [readbuf] and [cc]. *)
Fixpoint fillbuf_read (script : list read_event) : M (list byte * bool) :=
  match script with
  | [] => modify (set_bufdesc []) ;;; ret ([], true)
  | ev :: rest =>
      modify (set_bufdesc rest) ;;;
      match ev with
      | ReadError _ => ret ([], false)
      | ReadData _ data =>
          modify (fun s => set_bufoffset (bufoffset s + Z.of_nat (length data)) s) ;;;
          skip <- gets skip_nuls ;;
          if negb (nonempty data) || negb skip || negb (all_zeros data)
          then ret (data, true)
          else
            t <- gets totalnl ;;
            t' <- add_count t (Z.of_nat (length data)) ;;
            modify (set_totalnl t') ;;;
            fillbuf_read rest
      end
  end.

Definition fillbuf_moved (script : list read_event) : bool :=
  match script with
  | ReadData moved _ :: _ | ReadError moved :: _ => moved
  | [] => false
  end.

(** [fillbuf]: keep the last [save] bytes and read new ones behind
    them. *)
Definition fillbuf (save : nat) : M bool :=
  s <- gets id ;;
  (if (buflim s <? save)%nat then undefined else ret tt) ;;;
  readbuf <-
    (if negb (fillbuf_moved (bufdesc s)) then
       modify (set_bufbeg (buflim s - save)%nat) ;;;
       ret (buflim s)
     else
       saved <- load_range (buflim s - save) save ;;
       modify (set_buffer (eolbyte o :: saved)) ;;;
       modify (set_bufbeg 1%nat) ;;;
       ret (1 + save)%nat) ;;
  r <- fillbuf_read (bufdesc s) ;;
  let '(data, cc) := r in
  modify (set_buflim (readbuf + length data)%nat) ;;;
  modify (fun s => set_buffer (take readbuf (buffer s) ++ data ++ replicate 8 0) s) ;;;
  ret cc.

(** *** The per-file driver *)

(** The backward walk over the leading context at the end of the
    buffer, in [grep]. *)
Fixpoint save_context (n : nat) (buf : list byte) (bufbeg : nat)
         (lastout : option nat) (beg : nat) : option nat :=
  match n with
  | O => Some beg
  | S n' =>
      if (bufbeg <? beg)%nat && negb (bool_decide (Some beg = lastout)) then
        match line_back buf (eolbyte o) beg with
        | Some beg' => save_context n' buf bufbeg lastout beg'
        | None => None
        end
      else Some beg
  end.

(** The loop of [grep], first part: the test for NUL bytes.  Returns
    the variables, or [None] for [return 0]. *)
Definition grep_binary_check (v : grep_vars) : M (option grep_vars) :=
  let eol := eolbyte o in
  s <- gets id ;;
  has_nulls <-
    (if (nlines_first_null v <? 0) && negb (eol =? 0)
        && negb (binary_files_eqb (binary_files o) TEXT_BINARY_FILES) then
       b <- buf_has_nulls (bufbeg s) (buflim s - bufbeg s) ;;
       if b : bool then ret true
       else if firsttime v then file_must_have_nulls (buflim s - bufbeg s)
       else ret false
     else ret false) ;;
  if has_nulls && binary_files_eqb (binary_files o) WITHOUT_MATCH_BINARY_FILES
  then ret None
  else
    when (has_nulls && negb (count_matches o))
         (modify (fun s => set_done_on_match true (set_out_quiet true s))) ;;;
    when has_nulls (modify (set_skip_nuls (skip_empty_lines o))) ;;;
    ret (Some (if has_nulls : bool
               then mkGrepVars (firsttime v) (nlines v) (residue v) (save v)
                               (nlines v) eol
               else v)).

(** Second part, for a buffer with new data from [beg] on: the NUL
    bytes are zapped and the limit of the complete lines is found.
    Returns the new [beg], [lim] and [residue]. *)
Definition grep_limits (v : grep_vars) (beg : nat) : M (nat * nat * nat) :=
  let eol := eolbyte o in
  s <- gets id ;;
  zap_nuls beg (buflim s) (nul_zapper v) ;;;
  (if (beg =? 0)%nat || (buflim s <? beg)%nat then undefined else ret tt) ;;;
  oldc <- load (beg - 1) ;;
  store (beg - 1) eol ;;;
  buf <- gets buffer ;;
  load_range (beg - 1) (buflim s - beg + 1) ;;;
  match memrchr buf (beg - 1) (buflim s - beg + 1) eol with
  | None => undefined
  | Some q =>
      let lim := (q + 1)%nat in
      store (beg - 1) oldc ;;;
      (if (beg <? residue v)%nat then undefined else ret tt) ;;;
      let lim := if (lim =? beg)%nat then (beg - residue v)%nat else lim in
      let beg := (beg - residue v)%nat in
      ret (beg, lim, (buflim s - lim)%nat)
  end.

(** Third part, for [beg < lim]: the lines are searched and the end
    of the scan is decided.  Returns the new [nlines] and whether to go
    to [finish_grep]. *)
Definition grep_scan (fuel : nat) (v : grep_vars) (beg lim : nat)
  : M (Z * bool) :=
  s <- gets id ;;
  n <- (if negb (outleft s =? 0) then grepbuf fuel beg lim else ret 0) ;;
  let nlines' := nlines v + n in
  s <- gets id ;;
  when (negb (pending s =? 0)) (prpending fuel lim) ;;;
  s <- gets id ;;
  ret (nlines',
       ((outleft s =? 0) && (pending s =? 0))
       || (done_on_match s && (Z.max 0 (nlines_first_null v) <? nlines'))).

(** Last part: the leading context and the residue are saved and the
    buffer is filled again. *)
Definition grep_refill (v : grep_vars) (lim : nat)
  : M (grep_vars + grep_vars * loop_exit) :=
  s <- gets id ;;
  match save_context (Z.to_nat (out_before o)) (buffer s) (bufbeg s)
                     (lastout s) lim with
  | None => undefined
  | Some beg =>
      when (negb (bool_decide (Some beg = lastout s)))
           (modify (set_lastout None)) ;;;
      (if (lim <? beg)%nat then undefined else ret tt) ;;;
      let save' := (residue v + lim - beg)%nat in
      when (out_byte o)
           (t <- add_count (totalcc s)
                   ((Z.of_nat (buflim s) - Z.of_nat (bufbeg s)
                     - Z.of_nat save') mod uintmax_modulus) ;;
            modify (set_totalcc t)) ;;;
      when (out_line o) (nlscan beg) ;;;
      let v := mkGrepVars false (nlines v) (residue v) save'
                          (nlines_first_null v) (nul_zapper v) in
      cc <- fillbuf save' ;;
      if cc : bool then ret (inl v)
      else
        name <- gets filename ;;
        suppressible_error name ;;;
        ret (inr (v, GotoFinish))
  end.

(** One turn of the loop of [grep], up to the call of [fillbuf] that
    ends it.  [inl v]: go round again with the variables [v];
    [inr (v, e)]: the loop is left by [e]. *)
Definition grep_body (fuel : nat) (v : grep_vars)
  : M (grep_vars + grep_vars * loop_exit) :=
  c <- grep_binary_check v ;;
  match c with
  | None => ret (inr (v, ReturnZero))
  | Some v =>
      modify (fun s => set_lastnl (bufbeg s) s) ;;;
      modify (fun s => match lastout s with
                       | Some _ => set_lastout (Some (bufbeg s)) s
                       | None => s
                       end) ;;;
      s <- gets id ;;
      let beg := (bufbeg s + save v)%nat in
      if (beg =? buflim s)%nat then ret (inr (v, LoopBreak))
      else
        l <- grep_limits v beg ;;
        let '(beg, lim, residue') := l in
        r <- (if (beg <? lim)%nat then grep_scan fuel v beg lim
              else ret (nlines v, false)) ;;
        let '(nlines', finish) := r in
        let v := mkGrepVars (firsttime v) nlines' residue' (save v)
                            (nlines_first_null v) (nul_zapper v) in
        if finish : bool then ret (inr (v, GotoFinish))
        else grep_refill v lim
  end.

Fixpoint grep_loop (fuel : nat) (n : nat) (v : grep_vars)
  : M (grep_vars * loop_exit) :=
  match n with
  | O => out_of_fuel
  | S n' =>
      r <- grep_body fuel v ;;
      match r with
      | inl v' => grep_loop fuel n' v'
      | inr ve => ret ve
      end
  end.

(** After the loop: the line at the end of the file that has no
    end-of-line byte. *)
Definition grep_residue (fuel : nat) (v : grep_vars) : M grep_vars :=
  if negb (residue v =? 0)%nat then
    s <- gets id ;;
    store (buflim s) (eolbyte o) ;;;
    modify (set_buflim (buflim s + 1)%nat) ;;;
    (if (bufbeg s + save v <? residue v)%nat then undefined else ret tt) ;;;
    s <- gets id ;;
    n <- (if negb (outleft s =? 0)
          then grepbuf fuel (bufbeg s + save v - residue v)%nat (buflim s)
          else ret 0) ;;
    s <- gets id ;;
    when (negb (pending s =? 0)) (prpending fuel (buflim s)) ;;;
    ret (mkGrepVars (firsttime v) (nlines v + n) (residue v) (save v)
                    (nlines_first_null v) (nul_zapper v))
  else ret v.

(** The label [finish_grep]. *)
Definition finish_grep (done_on_match_0 out_quiet_0 : bool) (v : grep_vars)
  : M Z :=
  modify (set_done_on_match done_on_match_0) ;;;
  modify (set_out_quiet out_quiet_0) ;;;
  s <- gets id ;;
  when (negb (out_quiet s)
        && (encoding_error_output s
            || ((0 <=? nlines_first_null v)
                && (nlines_first_null v <? nlines v))))
       (lock_output ;;;
        fputs_errno (bytes_of_string "Binary file " ++ filename s
                     ++ bytes_of_string " matches" ++ [LF]) ;;;
        when (line_buffered o) fflush_errno ;;;
        unlock_output) ;;;
  ret (nlines v).

(** [grep]: search a file; return a count of lines printed.  [fuel]
    bounds the match loops and the number of buffers. *)
Definition grep (fuel : nat) (wf : workfile) : M Z :=
  s0 <- gets id ;;
  let done_on_match_0 := done_on_match s0 in
  let out_quiet_0 := out_quiet s0 in
  ok <- reset wf ;;
  if negb ok then ret 0
  else
    modify (set_totalcc 0) ;;;
    modify (set_lastout None) ;;;
    modify (set_totalnl 0) ;;;
    modify (set_outleft (max_count o)) ;;;
    modify (set_after_last_match 0) ;;;
    modify (set_pending 0) ;;;
    modify (set_skip_nuls (skip_empty_lines o && (eolbyte o =? 0))) ;;;
    modify (set_encoding_error_output false) ;;;
    cc <- fillbuf 0 ;;
    if negb cc then
      name <- gets filename ;;
      suppressible_error name ;;;
      ret 0
    else
      ve <- grep_loop fuel fuel (mkGrepVars true 0 0%nat 0%nat (-1) 0) ;;
      let '(v, e) := ve in
      match e with
      | ReturnZero => ret 0
      | GotoFinish => finish_grep done_on_match_0 out_quiet_0 v
      | LoopBreak =>
          v' <- grep_residue fuel v ;;
          finish_grep done_on_match_0 out_quiet_0 v'
      end.

(** *** The worker *)

(** The decimal digits of a nonnegative number ([printf] with
    [PRIdMAX]); a negative one gets its sign. *)
Definition decimal (n : Z) : list byte :=
  if n <? 0 then 45 :: fst (offset_digits 64 (- n) 0 [])
  else fst (offset_digits 64 n 0 []).

(** What [worker_thread_func] does with one file of the queue; returns
    the [count] of [grep]. *)
Definition process_workfile (fuel : nat) (wf : workfile) : M Z :=
  modify (set_filename (wf_path wf)) ;;;
  count <- grep fuel wf ;;
  when (count_matches o)
       (lock_output ;;;
        when (out_file o)
             (print_filename ;;;
              if filename_mask o then print_sep SEP_CHAR_SELECTED
              else putchar_errno 0) ;;;
        fputs_errno (decimal count ++ [LF]) ;;;
        when (line_buffered o) fflush_errno ;;;
        unlock_output) ;;;
  when ((list_files_eqb (list_files o) LISTFILES_MATCHING && (0 <? count))
        || (list_files_eqb (list_files o) LISTFILES_NONMATCHING && (count =? 0)))
       (lock_output ;;;
        print_filename ;;;
        putchar_errno (if filename_mask o then LF else 0) ;;;
        when (line_buffered o) fflush_errno ;;;
        unlock_output) ;;;
  when (wf_is_stdin wf)
       (s <- gets id ;;
        let required_offset :=
          if negb (outleft s =? 0) then bufoffset s else after_last_match s in
        when (negb (required_offset =? bufoffset s)
              && negb (wf_lseek_set_ok wf) && wf_is_reg wf)
             (suppressible_error (wf_path wf))) ;;;
  when (negb (wf_is_stdin wf) && negb (wf_close_ok wf))
       (suppressible_error (wf_path wf)) ;;;
  ret count.

(** The loop of [worker_thread_func] over the files it takes from the
    queue. *)
Fixpoint worker_loop (fuel : nat) (wfs : list workfile) (status : bool)
  : M bool :=
  match wfs with
  | [] => ret status
  | wf :: rest =>
      count <- process_workfile fuel wf ;;
      let status := negb (negb (count =? 0)) && status in
      worker_loop fuel rest status
  end.

Definition worker_thread_func (fuel : nat) (wfs : list workfile) : M bool :=
  modify (fun s => set_out_quiet (global_out_quiet o)
                     (set_done_on_match (global_done_on_match o) s)) ;;;
  worker_loop fuel wfs true.

(** *** The exit status *)

(** The loop of [main] that joins the workers: each worker runs on the
    files it took; the status is combined as in the source. *)
Fixpoint join_workers (fuel : nat) (workers : list (list workfile))
         (status : Z) : M Z :=
  match workers with
  | [] => ret status
  | wfs :: rest =>
      worker_status <- worker_thread_func fuel wfs ;;
      let status := if negb (status =? 0) && worker_status then 1 else 0 in
      join_workers fuel rest status
  end.

(** [main] from the test on [max_count] to its end.  [open_errors]:
    the diagnostics of [search_command_line_arg] for the arguments that
    could not be opened or read; [workers]: for each worker thread the
    files it takes from the queue. *)
Fixpoint report_errors (l : list (list byte)) : M unit :=
  match l with
  | [] => ret tt
  | e :: l' => suppressible_error e ;;; report_errors l'
  end.

Definition main_search (fuel : nat) (open_errors : list (list byte))
           (workers : list (list workfile)) : M Z :=
  if max_count o =? 0 then ret EXIT_FAILURE
  else
    report_errors open_errors ;;;
    status <- join_workers fuel workers 1 ;;
    s <- gets id ;;
    ret (if errseen s then EXIT_TROUBLE else status).

(** The counts of [grep] for the files of one worker, and of all
    workers. *)
Definition worker_counts (fuel : nat) (wfs : list workfile) : M (list Z) :=
  modify (fun s => set_out_quiet (global_out_quiet o)
                     (set_done_on_match (global_done_on_match o) s)) ;;;
  mapM (process_workfile fuel) wfs.

End Engine.

(** The exit status in terms of the error flag and of the counts of
    [grep] for every file of every worker. *)
Definition no_match (counts : list Z) : bool := forallb (fun c => c =? 0) counts.


(** ** The command line *)

(** The options of the switch of [main] that set the globals of the
    engine, with their arguments already converted
    ([context_length_arg], [xstrtoimax]).  The options that select the
    matcher, walk directories or exclude files are outside the engine. *)
Inductive flag : Type :=
| Flag_A (n : Z)
| Flag_B (n : Z)
| Flag_C (n : Z)
| Flag_H
| Flag_I
| Flag_T
| Flag_V
| Flag_a
| Flag_b
| Flag_c
| Flag_e (pattern : list byte)
| Flag_h
| Flag_L
| Flag_l
| Flag_m (n : Z)
| Flag_n
| Flag_o
| Flag_q
| Flag_s
| Flag_v
| Flag_Z
| Flag_z
| Flag_binary_files (t : binary_files_type)
| Flag_color (c : Z)
| Flag_group_separator (sep : option (list byte))
| Flag_line_buffered
| Flag_help.

(** The locals and globals of [main] while it reads the options. *)
Record main_state : Type := mkMainState {
  opts : options;
  with_filenames : bool;
  no_filenames : bool;
  default_context : Z;
  show_help : bool;
  show_version : bool;
  keys : option (list byte)
}.

Definition set_opts (f : options -> options) (m : main_state) : main_state :=
  mkMainState (f (opts m)) (with_filenames m) (no_filenames m)
              (default_context m) (show_help m) (show_version m) (keys m).

(** The values of the globals when [main] starts to read the options. *)
Definition initial_options : options :=
  {| suppress_errors := false;
     color_option := 0;
     only_matching := false;
     align_tabs := false;
     group_separator := Some SEP_STR_GROUP;
     selected_match_color := bytes_of_string "01;31";
     context_match_color := bytes_of_string "01;31";
     filename_color := bytes_of_string "35";
     line_num_color := bytes_of_string "32";
     byte_num_color := bytes_of_string "32";
     sep_color := bytes_of_string "36";
     selected_line_color := [];
     context_line_color := [];
     sgr_el := true;
     eolbyte := LF;
     out_file := false;
     global_out_quiet := false;
     global_done_on_match := false;
     skip_empty_lines := false;
     binary_files := BINARY_BINARY_FILES;
     list_files := LISTFILES_NONE;
     filename_mask := true;
     out_invert := false;
     out_line := false;
     out_byte := false;
     out_before := -1;
     out_after := -1;
     count_matches := false;
     max_count := INTMAX_MAX;
     line_buffered := false;
     exit_on_match := false;
     exit_failure := EXIT_TROUBLE |}.

Definition initial_main_state : main_state :=
  mkMainState initial_options false false (-1) false false None.

Definition with_suppress_errors (v : bool) (o : options) : options :=
  mkOptions v (color_option o) (only_matching o) (align_tabs o)
    (group_separator o) (selected_match_color o) (context_match_color o)
    (filename_color o) (line_num_color o) (byte_num_color o) (sep_color o)
    (selected_line_color o) (context_line_color o) (sgr_el o) (eolbyte o)
    (out_file o) (global_out_quiet o) (global_done_on_match o)
    (skip_empty_lines o) (binary_files o) (list_files o) (filename_mask o)
    (out_invert o) (out_line o) (out_byte o) (out_before o) (out_after o)
    (count_matches o) (max_count o) (line_buffered o) (exit_on_match o)
    (exit_failure o).
Definition with_color_option (v : Z) (o : options) : options :=
  mkOptions (suppress_errors o) v (only_matching o) (align_tabs o)
    (group_separator o) (selected_match_color o) (context_match_color o)
    (filename_color o) (line_num_color o) (byte_num_color o) (sep_color o)
    (selected_line_color o) (context_line_color o) (sgr_el o) (eolbyte o)
    (out_file o) (global_out_quiet o) (global_done_on_match o)
    (skip_empty_lines o) (binary_files o) (list_files o) (filename_mask o)
    (out_invert o) (out_line o) (out_byte o) (out_before o) (out_after o)
    (count_matches o) (max_count o) (line_buffered o) (exit_on_match o)
    (exit_failure o).
Definition with_only_matching (v : bool) (o : options) : options :=
  mkOptions (suppress_errors o) (color_option o) v (align_tabs o)
    (group_separator o) (selected_match_color o) (context_match_color o)
    (filename_color o) (line_num_color o) (byte_num_color o) (sep_color o)
    (selected_line_color o) (context_line_color o) (sgr_el o) (eolbyte o)
    (out_file o) (global_out_quiet o) (global_done_on_match o)
    (skip_empty_lines o) (binary_files o) (list_files o) (filename_mask o)
    (out_invert o) (out_line o) (out_byte o) (out_before o) (out_after o)
    (count_matches o) (max_count o) (line_buffered o) (exit_on_match o)
    (exit_failure o).
Definition with_align_tabs (v : bool) (o : options) : options :=
  mkOptions (suppress_errors o) (color_option o) (only_matching o) v
    (group_separator o) (selected_match_color o) (context_match_color o)
    (filename_color o) (line_num_color o) (byte_num_color o) (sep_color o)
    (selected_line_color o) (context_line_color o) (sgr_el o) (eolbyte o)
    (out_file o) (global_out_quiet o) (global_done_on_match o)
    (skip_empty_lines o) (binary_files o) (list_files o) (filename_mask o)
    (out_invert o) (out_line o) (out_byte o) (out_before o) (out_after o)
    (count_matches o) (max_count o) (line_buffered o) (exit_on_match o)
    (exit_failure o).
Definition with_group_separator (v : option (list byte)) (o : options) : options :=
  mkOptions (suppress_errors o) (color_option o) (only_matching o)
    (align_tabs o) v (selected_match_color o) (context_match_color o)
    (filename_color o) (line_num_color o) (byte_num_color o) (sep_color o)
    (selected_line_color o) (context_line_color o) (sgr_el o) (eolbyte o)
    (out_file o) (global_out_quiet o) (global_done_on_match o)
    (skip_empty_lines o) (binary_files o) (list_files o) (filename_mask o)
    (out_invert o) (out_line o) (out_byte o) (out_before o) (out_after o)
    (count_matches o) (max_count o) (line_buffered o) (exit_on_match o)
    (exit_failure o).
Definition with_eolbyte (v : byte) (o : options) : options :=
  mkOptions (suppress_errors o) (color_option o) (only_matching o)
    (align_tabs o) (group_separator o) (selected_match_color o)
    (context_match_color o) (filename_color o) (line_num_color o)
    (byte_num_color o) (sep_color o) (selected_line_color o)
    (context_line_color o) (sgr_el o) v (out_file o) (global_out_quiet o)
    (global_done_on_match o) (skip_empty_lines o) (binary_files o)
    (list_files o) (filename_mask o) (out_invert o) (out_line o) (out_byte o)
    (out_before o) (out_after o) (count_matches o) (max_count o)
    (line_buffered o) (exit_on_match o) (exit_failure o).
Definition with_out_file (v : bool) (o : options) : options :=
  mkOptions (suppress_errors o) (color_option o) (only_matching o)
    (align_tabs o) (group_separator o) (selected_match_color o)
    (context_match_color o) (filename_color o) (line_num_color o)
    (byte_num_color o) (sep_color o) (selected_line_color o)
    (context_line_color o) (sgr_el o) (eolbyte o) v (global_out_quiet o)
    (global_done_on_match o) (skip_empty_lines o) (binary_files o)
    (list_files o) (filename_mask o) (out_invert o) (out_line o) (out_byte o)
    (out_before o) (out_after o) (count_matches o) (max_count o)
    (line_buffered o) (exit_on_match o) (exit_failure o).
Definition with_global_out_quiet (v : bool) (o : options) : options :=
  mkOptions (suppress_errors o) (color_option o) (only_matching o)
    (align_tabs o) (group_separator o) (selected_match_color o)
    (context_match_color o) (filename_color o) (line_num_color o)
    (byte_num_color o) (sep_color o) (selected_line_color o)
    (context_line_color o) (sgr_el o) (eolbyte o) (out_file o) v
    (global_done_on_match o) (skip_empty_lines o) (binary_files o)
    (list_files o) (filename_mask o) (out_invert o) (out_line o) (out_byte o)
    (out_before o) (out_after o) (count_matches o) (max_count o)
    (line_buffered o) (exit_on_match o) (exit_failure o).
Definition with_global_done_on_match (v : bool) (o : options) : options :=
  mkOptions (suppress_errors o) (color_option o) (only_matching o)
    (align_tabs o) (group_separator o) (selected_match_color o)
    (context_match_color o) (filename_color o) (line_num_color o)
    (byte_num_color o) (sep_color o) (selected_line_color o)
    (context_line_color o) (sgr_el o) (eolbyte o) (out_file o)
    (global_out_quiet o) v (skip_empty_lines o) (binary_files o)
    (list_files o) (filename_mask o) (out_invert o) (out_line o) (out_byte o)
    (out_before o) (out_after o) (count_matches o) (max_count o)
    (line_buffered o) (exit_on_match o) (exit_failure o).
Definition with_skip_empty_lines (v : bool) (o : options) : options :=
  mkOptions (suppress_errors o) (color_option o) (only_matching o)
    (align_tabs o) (group_separator o) (selected_match_color o)
    (context_match_color o) (filename_color o) (line_num_color o)
    (byte_num_color o) (sep_color o) (selected_line_color o)
    (context_line_color o) (sgr_el o) (eolbyte o) (out_file o)
    (global_out_quiet o) (global_done_on_match o) v (binary_files o)
    (list_files o) (filename_mask o) (out_invert o) (out_line o) (out_byte o)
    (out_before o) (out_after o) (count_matches o) (max_count o)
    (line_buffered o) (exit_on_match o) (exit_failure o).
Definition with_binary_files (v : binary_files_type) (o : options) : options :=
  mkOptions (suppress_errors o) (color_option o) (only_matching o)
    (align_tabs o) (group_separator o) (selected_match_color o)
    (context_match_color o) (filename_color o) (line_num_color o)
    (byte_num_color o) (sep_color o) (selected_line_color o)
    (context_line_color o) (sgr_el o) (eolbyte o) (out_file o)
    (global_out_quiet o) (global_done_on_match o) (skip_empty_lines o) v
    (list_files o) (filename_mask o) (out_invert o) (out_line o) (out_byte o)
    (out_before o) (out_after o) (count_matches o) (max_count o)
    (line_buffered o) (exit_on_match o) (exit_failure o).
Definition with_list_files (v : list_files_type) (o : options) : options :=
  mkOptions (suppress_errors o) (color_option o) (only_matching o)
    (align_tabs o) (group_separator o) (selected_match_color o)
    (context_match_color o) (filename_color o) (line_num_color o)
    (byte_num_color o) (sep_color o) (selected_line_color o)
    (context_line_color o) (sgr_el o) (eolbyte o) (out_file o)
    (global_out_quiet o) (global_done_on_match o) (skip_empty_lines o)
    (binary_files o) v (filename_mask o) (out_invert o) (out_line o)
    (out_byte o) (out_before o) (out_after o) (count_matches o) (max_count o)
    (line_buffered o) (exit_on_match o) (exit_failure o).
Definition with_filename_mask (v : bool) (o : options) : options :=
  mkOptions (suppress_errors o) (color_option o) (only_matching o)
    (align_tabs o) (group_separator o) (selected_match_color o)
    (context_match_color o) (filename_color o) (line_num_color o)
    (byte_num_color o) (sep_color o) (selected_line_color o)
    (context_line_color o) (sgr_el o) (eolbyte o) (out_file o)
    (global_out_quiet o) (global_done_on_match o) (skip_empty_lines o)
    (binary_files o) (list_files o) v (out_invert o) (out_line o) (out_byte o)
    (out_before o) (out_after o) (count_matches o) (max_count o)
    (line_buffered o) (exit_on_match o) (exit_failure o).
Definition with_out_invert (v : bool) (o : options) : options :=
  mkOptions (suppress_errors o) (color_option o) (only_matching o)
    (align_tabs o) (group_separator o) (selected_match_color o)
    (context_match_color o) (filename_color o) (line_num_color o)
    (byte_num_color o) (sep_color o) (selected_line_color o)
    (context_line_color o) (sgr_el o) (eolbyte o) (out_file o)
    (global_out_quiet o) (global_done_on_match o) (skip_empty_lines o)
    (binary_files o) (list_files o) (filename_mask o) v (out_line o)
    (out_byte o) (out_before o) (out_after o) (count_matches o) (max_count o)
    (line_buffered o) (exit_on_match o) (exit_failure o).
Definition with_out_line (v : bool) (o : options) : options :=
  mkOptions (suppress_errors o) (color_option o) (only_matching o)
    (align_tabs o) (group_separator o) (selected_match_color o)
    (context_match_color o) (filename_color o) (line_num_color o)
    (byte_num_color o) (sep_color o) (selected_line_color o)
    (context_line_color o) (sgr_el o) (eolbyte o) (out_file o)
    (global_out_quiet o) (global_done_on_match o) (skip_empty_lines o)
    (binary_files o) (list_files o) (filename_mask o) (out_invert o) v
    (out_byte o) (out_before o) (out_after o) (count_matches o) (max_count o)
    (line_buffered o) (exit_on_match o) (exit_failure o).
Definition with_out_byte (v : bool) (o : options) : options :=
  mkOptions (suppress_errors o) (color_option o) (only_matching o)
    (align_tabs o) (group_separator o) (selected_match_color o)
    (context_match_color o) (filename_color o) (line_num_color o)
    (byte_num_color o) (sep_color o) (selected_line_color o)
    (context_line_color o) (sgr_el o) (eolbyte o) (out_file o)
    (global_out_quiet o) (global_done_on_match o) (skip_empty_lines o)
    (binary_files o) (list_files o) (filename_mask o) (out_invert o)
    (out_line o) v (out_before o) (out_after o) (count_matches o)
    (max_count o) (line_buffered o) (exit_on_match o) (exit_failure o).
Definition with_out_before (v : Z) (o : options) : options :=
  mkOptions (suppress_errors o) (color_option o) (only_matching o)
    (align_tabs o) (group_separator o) (selected_match_color o)
    (context_match_color o) (filename_color o) (line_num_color o)
    (byte_num_color o) (sep_color o) (selected_line_color o)
    (context_line_color o) (sgr_el o) (eolbyte o) (out_file o)
    (global_out_quiet o) (global_done_on_match o) (skip_empty_lines o)
    (binary_files o) (list_files o) (filename_mask o) (out_invert o)
    (out_line o) (out_byte o) v (out_after o) (count_matches o) (max_count o)
    (line_buffered o) (exit_on_match o) (exit_failure o).
Definition with_out_after (v : Z) (o : options) : options :=
  mkOptions (suppress_errors o) (color_option o) (only_matching o)
    (align_tabs o) (group_separator o) (selected_match_color o)
    (context_match_color o) (filename_color o) (line_num_color o)
    (byte_num_color o) (sep_color o) (selected_line_color o)
    (context_line_color o) (sgr_el o) (eolbyte o) (out_file o)
    (global_out_quiet o) (global_done_on_match o) (skip_empty_lines o)
    (binary_files o) (list_files o) (filename_mask o) (out_invert o)
    (out_line o) (out_byte o) (out_before o) v (count_matches o) (max_count o)
    (line_buffered o) (exit_on_match o) (exit_failure o).
Definition with_count_matches (v : bool) (o : options) : options :=
  mkOptions (suppress_errors o) (color_option o) (only_matching o)
    (align_tabs o) (group_separator o) (selected_match_color o)
    (context_match_color o) (filename_color o) (line_num_color o)
    (byte_num_color o) (sep_color o) (selected_line_color o)
    (context_line_color o) (sgr_el o) (eolbyte o) (out_file o)
    (global_out_quiet o) (global_done_on_match o) (skip_empty_lines o)
    (binary_files o) (list_files o) (filename_mask o) (out_invert o)
    (out_line o) (out_byte o) (out_before o) (out_after o) v (max_count o)
    (line_buffered o) (exit_on_match o) (exit_failure o).
Definition with_max_count (v : Z) (o : options) : options :=
  mkOptions (suppress_errors o) (color_option o) (only_matching o)
    (align_tabs o) (group_separator o) (selected_match_color o)
    (context_match_color o) (filename_color o) (line_num_color o)
    (byte_num_color o) (sep_color o) (selected_line_color o)
    (context_line_color o) (sgr_el o) (eolbyte o) (out_file o)
    (global_out_quiet o) (global_done_on_match o) (skip_empty_lines o)
    (binary_files o) (list_files o) (filename_mask o) (out_invert o)
    (out_line o) (out_byte o) (out_before o) (out_after o) (count_matches o) v
    (line_buffered o) (exit_on_match o) (exit_failure o).
Definition with_line_buffered (v : bool) (o : options) : options :=
  mkOptions (suppress_errors o) (color_option o) (only_matching o)
    (align_tabs o) (group_separator o) (selected_match_color o)
    (context_match_color o) (filename_color o) (line_num_color o)
    (byte_num_color o) (sep_color o) (selected_line_color o)
    (context_line_color o) (sgr_el o) (eolbyte o) (out_file o)
    (global_out_quiet o) (global_done_on_match o) (skip_empty_lines o)
    (binary_files o) (list_files o) (filename_mask o) (out_invert o)
    (out_line o) (out_byte o) (out_before o) (out_after o) (count_matches o)
    (max_count o) v (exit_on_match o) (exit_failure o).
Definition with_exit_on_match (v : bool) (o : options) : options :=
  mkOptions (suppress_errors o) (color_option o) (only_matching o)
    (align_tabs o) (group_separator o) (selected_match_color o)
    (context_match_color o) (filename_color o) (line_num_color o)
    (byte_num_color o) (sep_color o) (selected_line_color o)
    (context_line_color o) (sgr_el o) (eolbyte o) (out_file o)
    (global_out_quiet o) (global_done_on_match o) (skip_empty_lines o)
    (binary_files o) (list_files o) (filename_mask o) (out_invert o)
    (out_line o) (out_byte o) (out_before o) (out_after o) (count_matches o)
    (max_count o) (line_buffered o) v (exit_failure o).
Definition with_exit_failure (v : Z) (o : options) : options :=
  mkOptions (suppress_errors o) (color_option o) (only_matching o)
    (align_tabs o) (group_separator o) (selected_match_color o)
    (context_match_color o) (filename_color o) (line_num_color o)
    (byte_num_color o) (sep_color o) (selected_line_color o)
    (context_line_color o) (sgr_el o) (eolbyte o) (out_file o)
    (global_out_quiet o) (global_done_on_match o) (skip_empty_lines o)
    (binary_files o) (list_files o) (filename_mask o) (out_invert o)
    (out_line o) (out_byte o) (out_before o) (out_after o) (count_matches o)
    (max_count o) (line_buffered o) (exit_on_match o) v.

(** One case of the switch of [main]. *)
Definition apply_flag (f : flag) (m : main_state) : main_state :=
  match f with
  | Flag_A n => set_opts (with_out_after n) m
  | Flag_B n => set_opts (with_out_before n) m
  | Flag_C n =>
      mkMainState (opts m) (with_filenames m) (no_filenames m) n
                  (show_help m) (show_version m) (keys m)
  | Flag_H =>
      mkMainState (opts m) true false (default_context m)
                  (show_help m) (show_version m) (keys m)
  | Flag_I => set_opts (with_binary_files WITHOUT_MATCH_BINARY_FILES) m
  | Flag_T => set_opts (with_align_tabs true) m
  | Flag_V =>
      mkMainState (opts m) (with_filenames m) (no_filenames m)
                  (default_context m) (show_help m) true (keys m)
  | Flag_a => set_opts (with_binary_files TEXT_BINARY_FILES) m
  | Flag_b => set_opts (with_out_byte true) m
  | Flag_c => set_opts (with_count_matches true) m
  | Flag_e pattern =>
      mkMainState (opts m) (with_filenames m) (no_filenames m)
                  (default_context m) (show_help m) (show_version m)
                  (Some (default [] (keys m) ++ pattern ++ [LF]))
  | Flag_h =>
      mkMainState (opts m) false true (default_context m)
                  (show_help m) (show_version m) (keys m)
  | Flag_L => set_opts (with_list_files LISTFILES_NONMATCHING) m
  | Flag_l => set_opts (with_list_files LISTFILES_MATCHING) m
  | Flag_m n => set_opts (with_max_count n) m
  | Flag_n => set_opts (with_out_line true) m
  | Flag_o => set_opts (with_only_matching true) m
  | Flag_q => set_opts (fun o => with_exit_failure 0 (with_exit_on_match true o)) m
  | Flag_s => set_opts (with_suppress_errors true) m
  | Flag_v => set_opts (with_out_invert true) m
  | Flag_Z => set_opts (with_filename_mask false) m
  | Flag_z => set_opts (with_eolbyte 0) m
  | Flag_binary_files t => set_opts (with_binary_files t) m
  | Flag_color c => set_opts (with_color_option c) m
  | Flag_group_separator sep => set_opts (with_group_separator sep) m
  | Flag_line_buffered => set_opts (with_line_buffered true) m
  | Flag_help =>
      mkMainState (opts m) (with_filenames m) (no_filenames m)
                  (default_context m) true (show_version m) (keys m)
  end.

(** What [main] learns from its environment. *)
Record environment : Type := mkEnvironment {
  stdout_is_dev_null : bool;      (* stdout is the null device *)
  stdout_colorize : bool;         (* a terminal that is to be colorized *)
  version_text : list byte;       (* what version_etc prints *)
  help_text : list byte;          (* what usage (0) prints *)
  open_errors : list (list byte); (* the arguments that cannot be opened *)
  workers : list (list workfile)  (* the files each worker thread takes *)
}.

(** The empty file behind a descriptor: the state in which [main]
    starts. *)
Definition initial_state : state :=
  {| out_quiet := false; totalcc := 0; lastnl := 0%nat; lastout := None;
     outleft := 0; pending := 0; done_on_match := false;
     encoding_error_output := false; filename := []; buffer := [];
     bufdesc := []; bufbeg := 0%nat; buflim := 0%nat; bufoffset := 0;
     after_last_match := 0; skip_nuls := false; totalnl := 0;
     used := false; errseen := false; stdout := []; stderr := [] |}.

Section Main.

(** [compile]: the matcher for a pattern; [None] when [compile] ends
    the process with a diagnostic (an invalid pattern). *)
Variable compile : list byte -> option matcher.
Variable L : locale.

(** [usage]: the text goes to stderr for a nonzero status, to stdout
    for 0; the process exits. *)
Definition usage (env : environment) (status : Z) : M Z :=
  (if negb (status =? 0)
   then modify (fun s => set_stderr (stderr s ++ [bytes_of_string "Usage"]) s)
   else modify (fun s => set_stdout (stdout s ++ help_text env) s)) ;;;
  exit status.

(** [main], from the end of the loop on the options. [operands] are
    the arguments that are not options. *)
Definition main_after_options (fuel : nat) (env : environment)
           (m : main_state) (operands : list (list byte)) : M Z :=
  if show_version m then
    modify (fun s => set_stdout (stdout s ++ version_text env) s) ;;;
    ret EXIT_SUCCESS
  else if show_help m then usage env EXIT_SUCCESS
  else
    let o := opts m in
    let exit_on_match' := exit_on_match o || stdout_is_dev_null env in
    let color_option' :=
      if color_option o =? 2 then (if stdout_colorize env then 1 else 0)
      else color_option o in
    let list_files' := if exit_on_match' then LISTFILES_NONE else list_files o in
    let quiet_mode :=
      exit_on_match' || negb (list_files_eqb list_files' LISTFILES_NONE) in
    let count_matches' := if quiet_mode then false else count_matches o in
    let done_on_match' := quiet_mode in
    let out_quiet' := count_matches' || done_on_match' in
    let out_after' :=
      if out_after o <? 0 then default_context m else out_after o in
    let out_before' :=
      if out_before o <? 0 then default_context m else out_before o in
    let pattern :=
      match keys m, operands with
      | Some k, _ => Some (take (length k - 1) k, operands)
      | None, p :: files => Some (p, files)
      | None, [] => None
      end in
    match pattern with
    | None => usage env EXIT_TROUBLE
    | Some (pat, files) =>
        match compile pat with
        | None =>
            modify (fun s => set_stderr (stderr s ++ [pat]) s) ;;;
            exit EXIT_TROUBLE
        | Some exec =>
            let skip_empty_lines' :=
              eqb (match exec [eolbyte o] None with
                   | Some (O, _) => true
                   | _ => false
                   end)
                  (out_invert o) in
            let out_file' :=
              ((1 <? length files)%nat && negb (no_filenames m))
              || with_filenames m in
            let o :=
              with_out_file out_file'
                (with_skip_empty_lines skip_empty_lines'
                   (with_out_before out_before'
                      (with_out_after out_after'
                         (with_global_out_quiet out_quiet'
                            (with_global_done_on_match done_on_match'
                               (with_count_matches count_matches'
                                  (with_list_files list_files'
                                     (with_color_option color_option'
                                        (with_exit_on_match exit_on_match'
                                           o))))))))) in
            main_search (mkCollaborators exec L) o
                        fuel (open_errors env) (workers env)
        end
    end.

(** [main]: the loop on the options, then the rest. *)
Definition main (fuel : nat) (env : environment) (flags : list flag)
           (operands : list (list byte)) : M Z :=
  main_after_options fuel env
    (fold_left (fun m f => apply_flag f m) flags initial_main_state)
    operands.

(** The exit status of the process. *)
Definition exit_status (r : outcome Z) : option Z :=
  match r with
  | Ret status _ | Exits status _ => Some status
  | Undefined | OutOfFuel => None
  end.

End Main.

(** ** A matcher and two locales to run the engine on *)

Fixpoint is_prefix (pat l : list byte) : bool :=
  match pat, l with
  | [], _ => true
  | _ :: _, [] => false
  | a :: pat', b :: l' => (a =? b) && is_prefix pat' l'
  end.

(** The offset of the first occurrence of [pat] in [l]. *)
Fixpoint find_sub (pat l : list byte) : option nat :=
  if is_prefix pat l then Some O
  else match l with
       | [] => None
       | _ :: l' => S <$> find_sub pat l'
       end.

(** The first line of [l] (a line is closed by [eol]) whose text, without
    [eol], satisfies [sel]: its offset and its length with [eol].  [off]
    is the offset of the line being read, [acc] its bytes so far, last
    first. *)
Fixpoint line_search (sel : list byte -> bool) (eol : byte) (l : list byte)
         (off : nat) (acc : list byte) : option (nat * nat) :=
  match l with
  | [] => None
  | c :: l' =>
      if c =? eol then
        if sel (rev acc) then Some (off, S (length acc))
        else line_search sel eol l' (off + S (length acc))%nat []
      else line_search sel eol l' off (c :: acc)
  end.

(** Modelled from the spec: the matcher back-ends ([search.h],
    [kwsearch.c], [dfasearch.c]) are not in [src/].  This is the
    fixed-string matcher of section 4.1: without a start hint the answer
    is the first line that contains the pattern, with its length
    including the terminator; with a start hint it is the first
    occurrence of the pattern at or after the hint, with the length of
    the match. *)
Definition fixed_execute (eol : byte) (pat : list byte) : matcher :=
  fun range start =>
  match start with
  | None => line_search (fun line => bool_decide (is_Some (find_sub pat line)))
                        eol range 0 []
  | Some st =>
      match find_sub pat (drop st range) with
      | Some i => Some ((st + i)%nat, length pat)
      | None => None
      end
  end.

Definition fixed_compile (eol : byte) (pat : list byte) : option matcher :=
  Some (fixed_execute eol pat).

(** A unibyte locale: every byte is a character, [unibyte_mask] is 0. *)
Definition unibyte_mbrlen (bytes : list byte) (mbs : unit)
  : mbrlen_result * unit := (MB_LEN 1, tt).

Definition unibyte_locale : locale := mkLocale 0 unit tt unibyte_mbrlen.

(** A locale whose characters are the bytes below 128; the others are
    encoding errors and [unibyte_mask] is 0x8080808080808080. *)
Definition ascii_unibyte_mask : Z := 0x8080808080808080.
Definition ascii_mbrlen (bytes : list byte) (mbs : unit)
  : mbrlen_result * unit :=
  match bytes with
  | c :: _ => if c <? 128 then (MB_LEN 1, tt) else (MB_INVALID, tt)
  | [] => (MB_INCOMPLETE, tt)
  end.

Definition ascii_locale : locale :=
  mkLocale ascii_unibyte_mask unit tt ascii_mbrlen.

(** Standard input as the only file, read in the given chunks. *)
Definition stdin_file (chunks : list (list byte)) : workfile :=
  {| wf_is_stdin := true;
     wf_path := bytes_of_string "(standard input)";
     wf_is_reg := false;
     wf_lseek_cur := None;
     wf_reads := List.map (ReadData false) chunks;
     wf_lseek_set_ok := false;
     wf_close_ok := true |}.

Definition stdin_environment (chunks : list (list byte)) : environment :=
  {| stdout_is_dev_null := false;
     stdout_colorize := false;
     version_text := [];
     help_text := [];
     open_errors := [];
     workers := [[stdin_file chunks]] |}.

(** [grep FLAGS PATTERN] on standard input, in the unibyte locale; the
    result is what was written on stdout and the exit status. *)
Definition run_grep (flags : list flag) (pattern : list byte)
           (chunks : list (list byte)) : option (list byte * Z) :=
  match main (fixed_compile LF) unibyte_locale 1000
             (stdin_environment chunks) flags [pattern] initial_state with
  | Ret status s | Exits status s => Some (stdout s, status)
  | Undefined | OutOfFuel => None
  end.

(** Lines of text: each string is followed by a line feed. *)
Definition text (lines : list string) : list byte :=
  concat (List.map (fun l => bytes_of_string l ++ [LF]) lines).
(** ** The colors of [GREP_COLORS] *)

(** The variables that a capability of [GREP_COLORS] sets. *)
Definition with_selected_match_color (v : list byte) (o : options) : options :=
  mkOptions (suppress_errors o) (color_option o) (only_matching o)
    (align_tabs o) (group_separator o) v (context_match_color o)
    (filename_color o) (line_num_color o) (byte_num_color o) (sep_color o)
    (selected_line_color o) (context_line_color o) (sgr_el o) (eolbyte o)
    (out_file o) (global_out_quiet o) (global_done_on_match o)
    (skip_empty_lines o) (binary_files o) (list_files o) (filename_mask o)
    (out_invert o) (out_line o) (out_byte o) (out_before o) (out_after o)
    (count_matches o) (max_count o) (line_buffered o) (exit_on_match o)
    (exit_failure o).
Definition with_context_match_color (v : list byte) (o : options) : options :=
  mkOptions (suppress_errors o) (color_option o) (only_matching o)
    (align_tabs o) (group_separator o) (selected_match_color o) v
    (filename_color o) (line_num_color o) (byte_num_color o) (sep_color o)
    (selected_line_color o) (context_line_color o) (sgr_el o) (eolbyte o)
    (out_file o) (global_out_quiet o) (global_done_on_match o)
    (skip_empty_lines o) (binary_files o) (list_files o) (filename_mask o)
    (out_invert o) (out_line o) (out_byte o) (out_before o) (out_after o)
    (count_matches o) (max_count o) (line_buffered o) (exit_on_match o)
    (exit_failure o).
Definition with_filename_color (v : list byte) (o : options) : options :=
  mkOptions (suppress_errors o) (color_option o) (only_matching o)
    (align_tabs o) (group_separator o) (selected_match_color o)
    (context_match_color o) v (line_num_color o) (byte_num_color o)
    (sep_color o) (selected_line_color o) (context_line_color o) (sgr_el o)
    (eolbyte o) (out_file o) (global_out_quiet o) (global_done_on_match o)
    (skip_empty_lines o) (binary_files o) (list_files o) (filename_mask o)
    (out_invert o) (out_line o) (out_byte o) (out_before o) (out_after o)
    (count_matches o) (max_count o) (line_buffered o) (exit_on_match o)
    (exit_failure o).
Definition with_line_num_color (v : list byte) (o : options) : options :=
  mkOptions (suppress_errors o) (color_option o) (only_matching o)
    (align_tabs o) (group_separator o) (selected_match_color o)
    (context_match_color o) (filename_color o) v (byte_num_color o)
    (sep_color o) (selected_line_color o) (context_line_color o) (sgr_el o)
    (eolbyte o) (out_file o) (global_out_quiet o) (global_done_on_match o)
    (skip_empty_lines o) (binary_files o) (list_files o) (filename_mask o)
    (out_invert o) (out_line o) (out_byte o) (out_before o) (out_after o)
    (count_matches o) (max_count o) (line_buffered o) (exit_on_match o)
    (exit_failure o).
Definition with_byte_num_color (v : list byte) (o : options) : options :=
  mkOptions (suppress_errors o) (color_option o) (only_matching o)
    (align_tabs o) (group_separator o) (selected_match_color o)
    (context_match_color o) (filename_color o) (line_num_color o) v
    (sep_color o) (selected_line_color o) (context_line_color o) (sgr_el o)
    (eolbyte o) (out_file o) (global_out_quiet o) (global_done_on_match o)
    (skip_empty_lines o) (binary_files o) (list_files o) (filename_mask o)
    (out_invert o) (out_line o) (out_byte o) (out_before o) (out_after o)
    (count_matches o) (max_count o) (line_buffered o) (exit_on_match o)
    (exit_failure o).
Definition with_sep_color (v : list byte) (o : options) : options :=
  mkOptions (suppress_errors o) (color_option o) (only_matching o)
    (align_tabs o) (group_separator o) (selected_match_color o)
    (context_match_color o) (filename_color o) (line_num_color o)
    (byte_num_color o) v (selected_line_color o) (context_line_color o)
    (sgr_el o) (eolbyte o) (out_file o) (global_out_quiet o)
    (global_done_on_match o) (skip_empty_lines o) (binary_files o)
    (list_files o) (filename_mask o) (out_invert o) (out_line o)
    (out_byte o) (out_before o) (out_after o) (count_matches o)
    (max_count o) (line_buffered o) (exit_on_match o) (exit_failure o).
Definition with_selected_line_color (v : list byte) (o : options) : options :=
  mkOptions (suppress_errors o) (color_option o) (only_matching o)
    (align_tabs o) (group_separator o) (selected_match_color o)
    (context_match_color o) (filename_color o) (line_num_color o)
    (byte_num_color o) (sep_color o) v (context_line_color o) (sgr_el o)
    (eolbyte o) (out_file o) (global_out_quiet o) (global_done_on_match o)
    (skip_empty_lines o) (binary_files o) (list_files o) (filename_mask o)
    (out_invert o) (out_line o) (out_byte o) (out_before o) (out_after o)
    (count_matches o) (max_count o) (line_buffered o) (exit_on_match o)
    (exit_failure o).
Definition with_context_line_color (v : list byte) (o : options) : options :=
  mkOptions (suppress_errors o) (color_option o) (only_matching o)
    (align_tabs o) (group_separator o) (selected_match_color o)
    (context_match_color o) (filename_color o) (line_num_color o)
    (byte_num_color o) (sep_color o) (selected_line_color o) v (sgr_el o)
    (eolbyte o) (out_file o) (global_out_quiet o) (global_done_on_match o)
    (skip_empty_lines o) (binary_files o) (list_files o) (filename_mask o)
    (out_invert o) (out_line o) (out_byte o) (out_before o) (out_after o)
    (count_matches o) (max_count o) (line_buffered o) (exit_on_match o)
    (exit_failure o).
Definition with_sgr_el (v : bool) (o : options) : options :=
  mkOptions (suppress_errors o) (color_option o) (only_matching o)
    (align_tabs o) (group_separator o) (selected_match_color o)
    (context_match_color o) (filename_color o) (line_num_color o)
    (byte_num_color o) (sep_color o) (selected_line_color o)
    (context_line_color o) v (eolbyte o) (out_file o) (global_out_quiet o)
    (global_done_on_match o) (skip_empty_lines o) (binary_files o)
    (list_files o) (filename_mask o) (out_invert o) (out_line o)
    (out_byte o) (out_before o) (out_after o) (count_matches o)
    (max_count o) (line_buffered o) (exit_on_match o) (exit_failure o).

(** [color_cap_mt_fct]: the caller just set [selected_match_color]. *)
Definition color_cap_mt_fct (o : options) : options :=
  with_context_match_color (selected_match_color o) o.

Definition color_cap_rv_fct (o : options) : options := with_color_option (-1) o.

(** [color_cap_ne_fct]: the SGR sequences lose their "\33[K". *)
Definition color_cap_ne_fct (o : options) : options := with_sgr_el false o.

(** An entry of [color_dict]: the name, the variable that takes the
    value and the function to call; [None] is [NULL]. *)
Record color_cap : Type := mkColorCap {
  cap_name : list byte;
  cap_var : option (list byte -> options -> options);
  cap_fct : option (options -> options)
}.

Definition color_dict : list color_cap :=
  [ mkColorCap (bytes_of_string "mt") (Some with_selected_match_color)
               (Some color_cap_mt_fct);
    mkColorCap (bytes_of_string "ms") (Some with_selected_match_color) None;
    mkColorCap (bytes_of_string "mc") (Some with_context_match_color) None;
    mkColorCap (bytes_of_string "fn") (Some with_filename_color) None;
    mkColorCap (bytes_of_string "ln") (Some with_line_num_color) None;
    mkColorCap (bytes_of_string "bn") (Some with_byte_num_color) None;
    mkColorCap (bytes_of_string "se") (Some with_sep_color) None;
    mkColorCap (bytes_of_string "sl") (Some with_selected_line_color) None;
    mkColorCap (bytes_of_string "cx") (Some with_context_line_color) None;
    mkColorCap (bytes_of_string "rv") None (Some color_cap_rv_fct);
    mkColorCap (bytes_of_string "ne") None (Some color_cap_ne_fct) ].

(** The search of [name] in [color_dict]; the entry that ends the table
    has neither variable nor function. *)
Fixpoint find_cap (dict : list color_cap) (name : list byte) : color_cap :=
  match dict with
  | [] => mkColorCap [] None None
  | cap :: dict' =>
      if bool_decide (cap_name cap = name) then cap else find_cap dict' name
  end.

(** What [parse_grep_colors] does at the end of a capability, with the
    name and the value it has read; [val] is [None] without a "=". *)
Definition apply_cap (name : list byte) (val : option (list byte))
           (o : options) : options :=
  let cap := find_cap color_dict name in
  let o := match cap_var cap, val with
           | Some var, Some v => var v o
           | _, _ => o
           end in
  match cap_fct cap with
  | Some fct => fct o
  | None => o
  end.

(** The loop of [parse_grep_colors] over the copy of the string: [q] is
    what is left to read, [name] and [val] are the strings that the
    pointers of the same names delimit, which the NUL bytes written into
    the copy terminate.  The end of the list is the NUL byte of the
    string. *)
Fixpoint parse_colors_loop (q : list byte) (name : list byte)
         (val : option (list byte)) (o : options) : options :=
  match q with
  | [] => apply_cap name val o
  | c :: q' =>
      if (c =? 58) || (c =? 0) then
        let o := apply_cap name val o in
        if c =? 0 then o else parse_colors_loop q' [] None o
      else if c =? 61 then
        if bool_decide (name = []) || bool_decide (is_Some val) then o
        else parse_colors_loop q' name (Some []) o
      else
        match val with
        | None => parse_colors_loop q' (name ++ [c]) None o
        | Some v =>
            if (c =? 59) || ((48 <=? c) && (c <=? 57))
            then parse_colors_loop q' name (Some (v ++ [c])) o
            else o
        end
  end.

(** [parse_grep_colors]; [env] is what [getenv ("GREP_COLORS")]
    answers. *)
Definition parse_grep_colors (env : option (list byte)) (o : options) : options :=
  match env with
  | None | Some [] => o
  | Some p => parse_colors_loop p [] None o
  end.

(** ** The options of [GREP_OPTIONS] *)

(** [c_isspace]: the white space of the C locale. *)
Definition c_isspace (c : byte) : bool := (c =? 32) || ((9 <=? c) && (c <=? 13)).

(** The do-while loop of [prepend_args]: the option that [o] starts
    with, as it is copied to [buf], and what is left of [o].  A backslash
    in front of a byte is dropped and the byte is kept as it is.  The end
    of the list and a NUL byte both end the string. *)
Fixpoint prepend_args_token (o : list byte) : list byte * list byte :=
  match o with
  | [] => ([], [])
  | c :: o1 =>
      let continue (ch : byte) (o2 : list byte) (more : list byte * list byte) :=
        match o2 with
        | [] => ([ch], o2)
        | d :: _ =>
            if (d =? 0) || c_isspace d then ([ch], o2)
            else (ch :: fst more, snd more)
        end in
      if c =? 92 then
        match o1 with
        | [] => continue c o1 ([], [])
        | d :: o2 =>
            if d =? 0 then continue c o1 ([], [])
            else continue d o2 (prepend_args_token o2)
        end
      else continue c o1 (prepend_args_token o1)
  end.

(** [while (c_isspace (to_uchar ( *o))) o++;] *)
Fixpoint skip_spaces (o : list byte) : list byte :=
  match o with
  | c :: o' => if c_isspace c then skip_spaces o' else o
  | [] => []
  end.

(** The outer loop of [prepend_args]: the options found, in order; the
    function returns their number.  Each turn reads at least one byte. *)
Fixpoint prepend_args_loop (fuel : nat) (o : list byte) : list (list byte) :=
  match fuel with
  | O => []
  | S fuel' =>
      match skip_spaces o with
      | [] => []
      | c :: o' =>
          if c =? 0 then []
          else
            let '(tok, rest) := prepend_args_token (c :: o') in
            tok :: prepend_args_loop fuel' rest
      end
  end.

Definition prepend_args (options : list byte) : list (list byte) :=
  prepend_args_loop (length options) options.

(** The bytes that [prepend_args] writes to [buf]: each option and the
    NUL byte behind it. *)
Definition prepend_args_size (args : list (list byte)) : nat :=
  list_sum (List.map (fun arg => S (length arg)) args).

(** ** From a fixed string to a regular expression *)

(** [strchr ("$*.[\\^", c) != NULL]; the NUL byte that ends the string is
    found as well. *)
Definition fgrep_special (c : byte) : bool :=
  (c =? 36) || (c =? 42) || (c =? 46) || (c =? 91) || (c =? 92) || (c =? 94)
  || (c =? 0).

(** [*p = '\\'; p += strchr (...) != NULL; *p++ = *keys;] *)
Definition fgrep_escape (c : byte) : list byte :=
  if fgrep_special c then [92; c] else [c].

(** The loop of [fgrep_to_grep_pattern]; [mb_clen] is the [mbrlen] of the
    locale.  Each turn reads at least one byte. *)
Fixpoint fgrep_to_grep_loop (L : locale) (fuel : nat) (keys : list byte)
         (mb_state : mbstate L) : list byte :=
  match fuel with
  | O => []
  | S fuel' =>
      match keys with
      | [] => []
      | c :: keys' =>
          match mbrlen L keys mb_state with
          | (MB_INCOMPLETE, _) => keys
          | (MB_INVALID, _) =>
              fgrep_escape c ++ fgrep_to_grep_loop L fuel' keys' (mbs_initial L)
          | (MB_LEN clen, mb_state') =>
              match clen with
              | O => c :: fgrep_to_grep_loop L fuel' keys' mb_state'
              | S O => fgrep_escape c ++ fgrep_to_grep_loop L fuel' keys' mb_state'
              | _ => take clen keys
                       ++ fgrep_to_grep_loop L fuel' (drop clen keys) mb_state'
              end
          end
      end
  end.

(** [fgrep_to_grep_pattern]: the new keys. *)
Definition fgrep_to_grep_pattern (L : locale) (keys : list byte) : list byte :=
  fgrep_to_grep_loop L (length keys) keys (mbs_initial L).

(** What a regular expression makes of a backslash: the byte behind it
    stands for itself. *)
Fixpoint unescape (l : list byte) : list byte :=
  match l with
  | [] => []
  | c :: l' =>
      if c =? 92 then
        match l' with
        | d :: l'' => d :: unescape l''
        | [] => [c]
        end
      else c :: unescape l'
  end.

(** ** The mask of the unibyte characters *)

(** [while (ms1b * 2 <= i) ms1b *= 2;] *)
Fixpoint ms1b_loop (fuel : nat) (ms1b i : Z) : Z :=
  match fuel with
  | O => ms1b
  | S fuel' => if ms1b * 2 <=? i then ms1b_loop fuel' (ms1b * 2) i else ms1b
  end.

(** One turn of the loop of [initialize_unibyte_mask], on [mask] and
    [ms1b]; [mask] is an unsigned char. *)
Definition unibyte_mask_step (mbclen_cache : Z -> Z) (st : Z * Z) (i : Z)
  : Z * Z :=
  let '(mask, ms1b) := st in
  if negb (mbclen_cache i =? 1) && (Z.land mask i =? 0) then
    let ms1b := ms1b_loop 8 ms1b i in
    (Z.lor mask ms1b mod 256, ms1b)
  else (mask, ms1b).

Definition UCHAR_MAX : Z := 255.

(** The byte mask that the loop computes. *)
Definition unibyte_byte_mask (mbclen_cache : Z -> Z) : Z :=
  fst (fold_left (unibyte_mask_step mbclen_cache) (seqZ 1 UCHAR_MAX) (0, 1)).

(** [initialize_unibyte_mask]: the value of [unibyte_mask], the byte
    mask repeated to fill a [uword]. *)
Definition initialize_unibyte_mask (mbclen_cache : Z -> Z) : Z :=
  (uintmax_modulus - 1) / UCHAR_MAX * unibyte_byte_mask mbclen_cache.


(** ** The vocabulary of the statements *)

(** [preserves R m]: whenever [m] returns or exits, the final state is
    related to the initial one by [R]. *)
Definition preserves {A : Type} (R : relation state) (m : M A) : Prop :=
  forall s, match m s with
            | Ret _ s' | Exits _ s' => R s s'
            | Undefined | OutOfFuel => True
            end.

(** [reads_only m]: [m] returns in the state it started in and never
    exits. *)
Definition reads_only {A : Type} (m : M A) : Prop :=
  forall s, match m s with
            | Ret _ s' => s' = s
            | Exits _ _ => False
            | Undefined | OutOfFuel => True
            end.

(** The three flags that an encoding error sets together. *)
Definition quiet_flags (s : state) : bool * bool * bool :=
  (out_quiet s, done_on_match s, encoding_error_output s).

(** What the formatter, the context tracker and the match loop keep of
    the state: they only add to the output, the three flags change only
    by being set together, the buffer and the position in the file stay,
    and [outleft] does not grow. *)
Record scan_rel (s s' : state) : Prop := mkScanRel {
  sr_errseen : errseen s' = errseen s;
  sr_flags : quiet_flags s' = quiet_flags s \/ quiet_flags s' = (true, true, true);
  sr_stdout : stdout s `prefix_of` stdout s';
  sr_stderr : stderr s `prefix_of` stderr s';
  sr_filename : filename s' = filename s;
  sr_buffer : buffer s' = buffer s;
  sr_bufdesc : bufdesc s' = bufdesc s;
  sr_bufbeg : bufbeg s' = bufbeg s;
  sr_buflim : buflim s' = buflim s;
  sr_bufoffset : bufoffset s' = bufoffset s;
  sr_totalcc : totalcc s' = totalcc s;
  sr_skip_nuls : skip_nuls s' = skip_nuls s;
  sr_outleft : outleft s' <= outleft s;
  sr_used : used s = true -> used s' = true
}.

(** What the formatter keeps besides: the budget, the pending context
    and the mark of the last match. *)
Record line_rel (s s' : state) : Prop := mkLineRel {
  lr_scan : scan_rel s s';
  lr_outleft : outleft s' = outleft s;
  lr_pending : pending s' = pending s;
  lr_used : used s' = used s;
  lr_after_last_match : after_last_match s' = after_last_match s
}.

(** What [prpending] keeps: [pending] goes down but not below zero. *)
Record pend_rel (s s' : state) : Prop := mkPendRel {
  pr_scan : scan_rel s s';
  pr_outleft : outleft s' = outleft s;
  pr_pending : 0 <= pending s -> 0 <= pending s' <= pending s;
  pr_used : used s' = used s;
  pr_after_last_match : after_last_match s' = after_last_match s
}.

(** [post m s Q E]: if [m] returns from [s], the result and the final
    state satisfy [Q]; if it exits, the status and the final state
    satisfy [E]. *)
Definition post {A : Type} (m : M A) (s : state)
           (Q : A -> state -> Prop) (E : Z -> state -> Prop) : Prop :=
  match m s with
  | Ret a s' => Q a s'
  | Exits c s' => E c s'
  | Undefined | OutOfFuel => True
  end.

(** [returns m P]: the results of [m] satisfy [P]. *)
Definition returns {A : Type} (m : M A) (P : A -> Prop) : Prop :=
  forall s, post m s (fun a _ => P a) (fun _ _ => True).

(** What the management of the buffer ([fillbuf], [zap_nuls], [nlscan],
    the sentinels, the test for NUL bytes) keeps: the budget, the pending
    context and the output; the flags [out_quiet] and [done_on_match]
    change only by being set together. *)
Record io_rel (s s' : state) : Prop := mkIoRel {
  ir_outleft : outleft s' = outleft s;
  ir_pending : pending s' = pending s;
  ir_encoding : encoding_error_output s' = encoding_error_output s;
  ir_quiet : (out_quiet s', done_on_match s') = (out_quiet s, done_on_match s)
             \/ (out_quiet s', done_on_match s') = (true, true);
  ir_stdout : stdout s' = stdout s;
  ir_used : used s' = used s;
  ir_filename : filename s' = filename s;
  ir_after_last_match : after_last_match s' = after_last_match s;
  ir_errseen : errseen s = true -> errseen s' = true
}.

(** The error flag is never taken back. *)
Definition err_rel (s s' : state) : Prop :=
  errseen s = true -> errseen s' = true.



(** What [prtext] changes in a state that is quiet: the four fields
    that it sets at its end. *)
Definition prtext_quiet_state (s : state) (n : Z) (p : nat) : state :=
  set_outleft (outleft s - n)
    (set_used true
       (set_pending 0
          (set_after_last_match
             (bufoffset s - (Z.of_nat (buflim s) - Z.of_nat p)) s))).

(** ** NUL bytes *)

(** What [zap_nuls] makes of a byte. *)
Definition zap (eol c : byte) : byte := if c =? 0 then eol else c.

(** No NUL byte at the indices from [a] to [b]. *)
Definition no_nul (buf : list byte) (a b : nat) : Prop :=
  forall i, (a <= i < b)%nat -> buf !! i <> Some 0.

(** A buffer as [fillbuf] leaves it, with the line [a NUL b] read behind
    the sentinel. *)
Definition zap_example_state : state :=
  set_buffer [10; 97; 0; 98; 10; 0; 0; 0; 0; 0; 0; 0; 0]
    (set_bufbeg 1%nat (set_buflim 5%nat initial_state)).

(** [finishes m]: the fuel of [m] is enough in every state. *)
Definition finishes {A : Type} (m : M A) : Prop := forall s, m s <> OutOfFuel.

(** What the match loops expect of [execute].  With a start position the
    match is not in front of it. *)
Definition start_contract (e : matcher) : Prop :=
  forall range start off size,
    e range (Some start) = Some (off, size) -> (start <= off)%nat.

(** Without a start position the match is a line of the range with its
    end-of-line byte. *)
Definition line_contract (e : matcher) : Prop :=
  forall range off size,
    e range None = Some (off, size) ->
    (1 <= size)%nat /\ (off + size <= length range)%nat.

(** [mbrlen] on a byte that [skip_easy_bytes] stops at: a character is
    at least that byte. *)
Definition locale_contract (L : locale) : Prop :=
  forall c bytes mbs clen mbs',
    Z.land c (unibyte_mask L) <> 0 ->
    mbrlen L (c :: bytes) mbs = (MB_LEN clen, mbs') -> (1 <= clen)%nat.

(** A matcher that reports an empty match at the start of every range. *)
Definition empty_execute : matcher := fun _ _ => Some (0%nat, 0%nat).

(** ** Counting and printing numbers *)

(** The number of bytes [c] in [l]. *)
Fixpoint count_byte (c : byte) (l : list byte) : nat :=
  match l with
  | [] => O
  | x :: l' => if x =? c then S (count_byte c l') else count_byte c l'
  end.

(** The bytes of [buf] from index [a] up to [b]. *)
Definition slice (buf : list byte) (a b : nat) : list byte :=
  take (b - a) (drop a buf).

(** The number that a string of decimal digits stands for. *)
Definition decimal_value (digits : list byte) : Z :=
  fold_left (fun a d => 10 * a + (d - 48)) digits 0.

(** A buffer with the line [a], a byte that is no character, and the
    end-of-line byte, behind the sentinel. *)
Definition encoding_example_state : state :=
  set_buffer [10; 97; 200; 10; 0; 0; 0; 0; 0; 0; 0; 0]
    (set_bufbeg 1%nat (set_buflim 4%nat initial_state)).

(** ** Plain output *)

(** The options of [grep PATTERN] on one file or on standard input:
    the selected lines are printed as they are, without file name, line
    number, byte offset, context or colors. *)
Definition plain_output (o : options) : Prop :=
  only_matching o = false /\ color_option o = 0
  /\ out_file o = false /\ out_line o = false /\ out_byte o = false
  /\ out_before o < 0 /\ out_after o < 0 /\ exit_on_match o = false.

(** The test for encoding errors finds nothing: the file is read as
    text, or every byte is a character. *)
Definition no_encoding_test (X : collaborators) (o : options) : Prop :=
  binary_files o = TEXT_BINARY_FILES \/ unibyte_mask (locale_of X) = 0.


(** A state in which lines are counted, printed or not: the scan does
    not stop at the first match and no context is owed. *)
Definition scanning (s : state) : Prop :=
  done_on_match s = false /\ pending s = 0.

(** What is written of [out]: nothing when [out_quiet] is set. *)
Definition shown (s : state) (out : list byte) : list byte :=
  if out_quiet s then [] else out.

(** Lines given by their text: each is followed by the end-of-line byte
    and holds none. *)
Definition unlines (eol : byte) (lines : list (list byte)) : list byte :=
  concat (List.map (fun l => l ++ [eol]) lines).

Definition eol_free (eol : byte) (l : list byte) : Prop :=
  Forall (fun c => c <> eol) l.

(** What [execute] answers without a start position on a range of
    lines, for a matcher that selects the lines whose text satisfies
    [sel]: the first such line. *)
Definition selects_lines (e : matcher) (eol : byte) (sel : list byte -> bool)
  : Prop :=
  forall range, e range None = line_search sel eol range 0 [].

(** What printing lines changes in the state: the output and the marks
    of the context tracker ([lastout], [after_last_match], [pending],
    [used]) and the budget [outleft]; everything else stays. *)
Definition printed (s s' : state) : Prop :=
  s' = set_stdout (stdout s')
         (set_lastout (lastout s')
            (set_after_last_match (after_last_match s')
               (set_pending (pending s')
                  (set_used (used s')
                     (set_outleft (outleft s') s))))).

(** The lines that are selected: those that [sel] accepts, or with [-v]
    the others. *)
Definition selected_lines (sel : list byte -> bool) (invert : bool)
           (lines : list (list byte)) : list (list byte) :=
  List.filter (fun l => xorb (sel l) invert) lines.

(** ** The syntax of [GREP_COLORS] *)

(** The bytes of an SGR parameter: digits and semicolons. *)
Definition sgr_chars (l : list byte) : Prop :=
  Forall (fun c => c = 59 \/ 48 <= c <= 57) l.

(** The bytes of a name: neither a colon, nor "=", nor NUL. *)
Definition name_chars (l : list byte) : Prop :=
  Forall (fun c => c <> 58 /\ c <> 0 /\ c <> 61) l.

(** Every color is an SGR parameter. *)
Definition colors_safe (o : options) : Prop :=
  sgr_chars (selected_match_color o) /\ sgr_chars (context_match_color o)
  /\ sgr_chars (filename_color o) /\ sgr_chars (line_num_color o)
  /\ sgr_chars (byte_num_color o) /\ sgr_chars (sep_color o)
  /\ sgr_chars (selected_line_color o) /\ sgr_chars (context_line_color o).

(** A capability as it is written: [name] or [name=value]. *)
Definition render_cap (cap : list byte * option (list byte)) : list byte :=
  fst cap ++ match snd cap with Some v => 61 :: v | None => [] end.

Definition well_formed_cap (cap : list byte * option (list byte)) : Prop :=
  name_chars (fst cap)
  /\ match snd cap with
     | Some v => fst cap <> [] /\ sgr_chars v
     | None => True
     end.

(** Capabilities with colons between them. *)
Fixpoint join_caps (caps : list (list byte * option (list byte))) : list byte :=
  match caps with
  | [] => []
  | [cap] => render_cap cap
  | cap :: caps' => render_cap cap ++ 58 :: join_caps caps'
  end.

Definition apply_caps (caps : list (list byte * option (list byte)))
           (o : options) : options :=
  fold_left (fun o cap => apply_cap (fst cap) (snd cap) o) caps o.

(** ** Writing options for [GREP_OPTIONS] *)

(** An option written so that [prepend_args] reads it back: a backslash
    in front of each white space and of each backslash. *)
Definition escape_arg (arg : list byte) : list byte :=
  concat (List.map (fun c => if c_isspace c || (c =? 92) then [92; c] else [c])
                   arg).

(** Options with a blank between them. *)
Fixpoint join_args (args : list (list byte)) : list byte :=
  match args with
  | [] => []
  | [arg] => escape_arg arg
  | arg :: args' => escape_arg arg ++ 32 :: join_args args'
  end.

(** An option that can be passed: not empty, without NUL byte. *)
Definition passable_arg (arg : list byte) : Prop :=
  arg <> [] /\ Forall (fun c => c <> 0) arg.
(** What is left behind an option starts with white space or NUL, or is
    empty. *)
Definition at_break (o : list byte) : Prop :=
  match o with
  | [] => True
  | d :: _ => (d =? 0) || c_isspace d = true
  end.

(** ** Locales of one-byte characters *)

(** Every byte is a character: [mbrlen] answers 1. *)
Definition one_byte_chars (L : locale) : Prop :=
  forall bytes mbs, bytes <> [] -> fst (mbrlen L bytes mbs) = MB_LEN 1.

(** ** The mask of the unibyte characters *)

(** What the loop of [initialize_unibyte_mask] keeps, after the bytes up
    to [n]: the mask is a byte, [ms1b] is a power of two that is not
    above the bytes seen, and the mask has a bit of every byte seen that
    is not a character by itself. *)
Definition mask_inv (mbclen_cache : Z -> Z) (n : Z) (st : Z * Z) : Prop :=
  0 <= fst st < 256
  /\ (exists k, 0 <= k /\ snd st = 2 ^ k /\ snd st <= Z.max 1 n)
  /\ forall j, 1 <= j <= n -> mbclen_cache j <> 1 -> Z.land (fst st) j <> 0.

(** ** A file read in one piece *)

(** [reset] accepts the file: it is not both a regular file and standard
    input, or [lseek] tells the offset. *)
Definition reset_ok (wf : workfile) : Prop :=
  wf_is_reg wf = false \/ wf_is_stdin wf = false \/ is_Some (wf_lseek_cur wf).

(** The lines of a file: the complete ones and, if the file does not end
    with the end-of-line byte, the tail. *)
Definition file_lines (lines : list (list byte)) (tail : list byte)
  : list (list byte) :=
  lines ++ match tail with [] => [] | _ => [tail] end.

(** The complete lines of a string of bytes and the tail behind the last
    end-of-line byte. *)
Fixpoint lines_of (eol : byte) (l : list byte) : list (list byte) * list byte :=
  match l with
  | [] => ([], [])
  | c :: l' =>
      let '(ls, t) := lines_of eol l' in
      if c =? eol then ([] :: ls, t)
      else match ls with
           | [] => ([], c :: t)
           | x :: ls' => ((c :: x) :: ls', t)
           end
  end.

(** The buffer holds [live] from [bufbeg] to [buflim], behind [pre] and
    before a word of zeros. *)
Definition buffer_holds (pre live : list byte) (s : state) : Prop :=
  buffer s = pre ++ live ++ replicate 8 0
  /\ bufbeg s = length pre /\ buflim s = (length pre + length live)%nat
  /\ (1 <= length pre)%nat.

(** What the reads of a file deliver: for each read whether the buffer
    had to be moved, and the bytes. *)
Definition reads_of (chunks : list (bool * list byte)) : list read_event :=
  List.map (fun p => ReadData (fst p) (snd p)) chunks.

Definition file_data (chunks : list (bool * list byte)) : list byte :=
  concat (List.map snd chunks).

(** The file is searched as text: with [-a], or because it holds no NUL
    byte. *)
Definition read_as_text (o : options) (data : list byte) : Prop :=
  binary_files o = TEXT_BINARY_FILES \/ Forall (fun c => c <> 0) data.

(** ** The program on one file *)

(** The options that leave the output plain: they change which lines
    are selected, how many are printed and how the file is read, not
    what is printed of a line. *)
Definition plain_flag (f : flag) : bool :=
  match f with
  | Flag_v | Flag_a | Flag_I | Flag_T | Flag_h | Flag_s | Flag_Z
  | Flag_binary_files _ | Flag_group_separator _ | Flag_line_buffered => true
  | Flag_m n => 0 <? n
  | _ => false
  end.

(** The same, or [-c]. *)
Definition counting_flag (f : flag) : bool :=
  plain_flag f || match f with Flag_c => true | _ => false end.

(** What the switch of [main] keeps while it reads such flags. *)
Definition plain_main (m : main_state) : Prop :=
  plain_output (opts m) /\ eolbyte (opts m) = LF /\ 0 < max_count (opts m)
  /\ list_files (opts m) = LISTFILES_NONE
  /\ with_filenames m = false /\ default_context m = -1
  /\ show_help m = false /\ show_version m = false /\ keys m = None.

(** The file is given back without an error: standard input need not be
    repositioned, or can be; another file is closed. *)
Definition released_ok (wf : workfile) : Prop :=
  if wf_is_stdin wf then wf_is_reg wf = false \/ wf_lseek_set_ok wf = true
  else wf_close_ok wf = true.

(** ** Stopping at the first match *)

(** The state in which a file is only tested for a match ([-l], [-L],
    [-q]): nothing is printed and the scan stops at the first selected
    line. *)
Definition match_only (s : state) : Prop :=
  done_on_match s = true /\ out_quiet s = true.

(** How the match loop ends at a selected line: with [-q] the process
    exits. *)
Definition stopped {A : Type} (o : options) (a : A) (s : state) : outcome A :=
  if exit_on_match o
  then Exits (if errseen s then exit_failure o else EXIT_SUCCESS) s
  else Ret a s.

(** What filling the buffer and the bookkeeping of the loop of [grep]
    keep: the budget, the flags, the output and the error state. *)
Definition refilled (s s' : state) : Prop :=
  outleft s' = outleft s /\ pending s' = pending s
  /\ done_on_match s' = done_on_match s /\ out_quiet s' = out_quiet s
  /\ skip_nuls s' = skip_nuls s /\ stdout s' = stdout s
  /\ stderr s' = stderr s /\ errseen s' = errseen s
  /\ encoding_error_output s' = encoding_error_output s
  /\ filename s' = filename s.

(** Nothing was written and no error was recorded. *)
Definition silent (s s' : state) : Prop :=
  stdout s' = stdout s /\ stderr s' = stderr s /\ errseen s' = errseen s
  /\ filename s' = filename s.

(** The same, and the mark of a suppressed line is as it was. *)
Definition quiet_step (s s' : state) : Prop :=
  stdout s' = stdout s /\ stderr s' = stderr s /\ errseen s' = errseen s
  /\ encoding_error_output s' = encoding_error_output s
  /\ filename s' = filename s.

(** The options that leave the output plain, and those that only test
    the file for a match or count. *)
Definition testing_flag (f : flag) : bool :=
  counting_flag f
  || match f with Flag_l | Flag_L | Flag_q => true | _ => false end.

(** What the switch of [main] keeps while it reads such flags. *)
Definition bare_main (m : main_state) : Prop :=
  only_matching (opts m) = false /\ color_option (opts m) = 0
  /\ out_file (opts m) = false /\ out_line (opts m) = false
  /\ out_byte (opts m) = false /\ out_before (opts m) < 0
  /\ out_after (opts m) < 0 /\ eolbyte (opts m) = LF
  /\ 0 < max_count (opts m)
  /\ with_filenames m = false /\ default_context m = -1
  /\ show_help m = false /\ show_version m = false /\ keys m = None.

(** The file name is printed: with [-l] for a file with a selected
    line, with [-L] for a file without. *)
Definition listed (o : options) (count : Z) : bool :=
  (list_files_eqb (list_files o) LISTFILES_MATCHING && (0 <? count))
  || (list_files_eqb (list_files o) LISTFILES_NONMATCHING && (count =? 0)).

(** ** Runs of the whole program *)

(** The environment of a run: the texts of [--help] and [--version], and
    a file with the line [x] on standard input. *)
Definition help_environment : environment :=
  {| stdout_is_dev_null := false;
     stdout_colorize := false;
     version_text := bytes_of_string "grep (GNU grep)";
     help_text := bytes_of_string "Usage: grep [OPTION]... PATTERN [FILE]...";
     open_errors := [];
     workers := [[stdin_file [[120; 10]]]] |}.

(** ** The arguments that cannot be opened *)




(** * Proofs *)

(** ** The monad *)

Lemma bind_Ret {A B : Type} (m : M A) (k : A -> M B) s a s' :
  m s = Ret a s' -> bind m k s = k a s'.
Proof. intros H. unfold bind. now rewrite H. Qed.


Lemma bind_Undefined {A B : Type} (m : M A) (k : A -> M B) s :
  m s = Undefined -> bind m k s = Undefined.
Proof. intros H. unfold bind. now rewrite H. Qed.

Lemma bind_OutOfFuel {A B : Type} (m : M A) (k : A -> M B) s :
  m s = OutOfFuel -> bind m k s = OutOfFuel.
Proof. intros H. unfold bind. now rewrite H. Qed.

Lemma bind_inv_Ret {A B : Type} (m : M A) (k : A -> M B) s b s' :
  bind m k s = Ret b s' -> exists a s1, m s = Ret a s1 /\ k a s1 = Ret b s'.
Proof. unfold bind. destruct (m s); try discriminate. eauto. Qed.

Lemma bind_assoc {A B C : Type} (m : M A) (k : A -> M B) (h : B -> M C) s :
  bind (bind m k) h s = bind m (fun a => bind (k a) h) s.
Proof. unfold bind. destruct (m s); reflexivity. Qed.

(** ** C9: [add_count] *)

Lemma uintmax_wrap_iff a b :
  0 <= a < uintmax_modulus -> 0 <= b < uintmax_modulus ->
  ((a + b) mod uintmax_modulus < a <-> uintmax_modulus <= a + b).
Proof.
  intros Ha Hb. unfold uintmax_modulus, UINTMAX_WIDTH in *.
  destruct (Z_lt_le_dec (a + b) (2 ^ 64)) as [Hlt | Hge].
  - rewrite Z.mod_small by lia. lia.
  - replace ((a + b) mod 2 ^ 64) with (a + b - 2 ^ 64).
    + lia.
    + apply Z.mod_unique with (q := 1); lia.
Qed.

Lemma add_count_exact a b s :
  0 <= a -> 0 <= b -> a + b < uintmax_modulus ->
  add_count a b s = Ret (a + b) s.
Proof.
  intros Ha Hb Hlt. unfold add_count.
  rewrite Z.mod_small by lia.
  destruct (Z.ltb_spec (a + b) a) as [H | H]; [lia |]. reflexivity.
Qed.

Lemma add_count_overflow a b s :
  (a + b) mod uintmax_modulus < a ->
  add_count a b s =
  Exits EXIT_TROUBLE
        (set_stderr (stderr s ++ [bytes_of_string "input is too large to count"]) s).
Proof.
  intros H. unfold add_count.
  destruct (Z.ltb_spec ((a + b) mod uintmax_modulus) a) as [H' | H']; [| lia].
  reflexivity.
Qed.

Lemma add_count_cases a b s :
  (~ (a + b) mod uintmax_modulus < a /\
   add_count a b s = Ret ((a + b) mod uintmax_modulus) s) \/
  ((a + b) mod uintmax_modulus < a /\
   add_count a b s =
   Exits EXIT_TROUBLE
         (set_stderr (stderr s ++ [bytes_of_string "input is too large to count"]) s)).
Proof.
  destruct (Z_lt_le_dec ((a + b) mod uintmax_modulus) a) as [H | H].
  - right. split; [assumption |]. now apply add_count_overflow.
  - left. split; [lia |]. unfold add_count.
    destruct (Z.ltb_spec ((a + b) mod uintmax_modulus) a) as [H' | H']; [lia |].
    reflexivity.
Qed.

(** C9.  For two counts [a] and [b] in the range of [uintmax_t],
    [add_count] returns their exact sum, leaving the state alone, when
    the sum is representable; and it ends the process with the diagnostic
    "input is too large to count" and exit status 2 exactly when the sum
    modulo [2^64] is below [a], which is exactly when the sum is not
    representable. *)
Theorem add_count_spec (a b : Z) (s : state) :
  0 <= a < uintmax_modulus -> 0 <= b < uintmax_modulus ->
  (a + b < uintmax_modulus -> add_count a b s = Ret (a + b) s) /\
  ((exists s', add_count a b s = Exits EXIT_TROUBLE s' /\
               stderr s' = stderr s ++ [bytes_of_string "input is too large to count"])
   <-> (a + b) mod uintmax_modulus < a) /\
  ((a + b) mod uintmax_modulus < a <-> uintmax_modulus <= a + b).
Proof.
  intros Ha Hb. split; [| split].
  - intros Hlt. apply add_count_exact; lia.
  - split.
    + intros (s' & He & _).
      destruct (add_count_cases a b s) as [[_ Hr] | [Hw _]]; [| assumption].
      rewrite Hr in He. discriminate.
    + intros Hw. eexists. split; [now apply add_count_overflow |]. reflexivity.
  - now apply uintmax_wrap_iff.
Qed.

Lemma add_count_spec_witness :
  (3 + 4 < uintmax_modulus -> add_count 3 4 initial_state = Ret (3 + 4) initial_state) /\
  ((exists s', add_count 3 4 initial_state = Exits EXIT_TROUBLE s' /\
               stderr s' = stderr initial_state
                             ++ [bytes_of_string "input is too large to count"])
   <-> (3 + 4) mod uintmax_modulus < 3) /\
  ((3 + 4) mod uintmax_modulus < 3 <-> uintmax_modulus <= 3 + 4).
Proof. apply (add_count_spec 3 4 initial_state); vm_compute; split; congruence. Defined.

(** ** The status of the workers and of the process in terms of the
    counts of [grep] *)

Section Status.
Variable X : collaborators.
Variable o : options.

Lemma worker_loop_counts fuel wfs status s :
  worker_loop X o fuel wfs status s =
  (counts <- mapM (process_workfile X o fuel) wfs ;;
   ret (no_match counts && status)) s.
Proof.
  revert status s. induction wfs as [| wf wfs IH]; intros status s.
  - reflexivity.
  - cbn [worker_loop mapM]. unfold bind at 1 2 3.
    destruct (process_workfile X o fuel wf s) as [c s1 | | |];
      try reflexivity.
    rewrite IH. unfold bind.
    destruct (mapM (process_workfile X o fuel) wfs s1) as [cs s2 | | |];
      try reflexivity.
    unfold ret, no_match. cbn [forallb]. f_equal.
    destruct (c =? 0), (forallb _ cs), status; reflexivity.
Qed.

Lemma worker_thread_func_counts fuel wfs s :
  worker_thread_func X o fuel wfs s =
  (counts <- worker_counts X o fuel wfs ;; ret (no_match counts)) s.
Proof.
  unfold worker_thread_func, worker_counts.
  unfold bind at 1 2 3, modify.
  rewrite worker_loop_counts. unfold bind.
  destruct (mapM _ wfs _); try reflexivity.
  unfold ret. now rewrite andb_true_r.
Qed.



End Status.
(** ** What a computation keeps *)

Section Preserves.

Variable R : relation state.
Context `{!PreOrder R}.

Lemma preserves_ret {A : Type} (a : A) : preserves R (ret a).
Proof. intros s. cbn. reflexivity. Qed.

Lemma preserves_bind {A B : Type} (m : M A) (k : A -> M B) :
  preserves R m -> (forall a, preserves R (k a)) -> preserves R (bind m k).
Proof.
  intros Hm Hk s. unfold bind. specialize (Hm s).
  destruct (m s) as [a s1 | c s1 | |]; try done.
  specialize (Hk a s1). destruct (k a s1); try done; by etrans.
Qed.

Lemma preserves_gets {A : Type} (f : state -> A) : preserves R (gets f).
Proof. intros s. cbn. reflexivity. Qed.

Lemma preserves_modify (f : state -> state) :
  (forall s, R s (f s)) -> preserves R (modify f).
Proof. intros H s. cbn. apply H. Qed.

Lemma preserves_exit {A : Type} (c : Z) : preserves R (@exit A c).
Proof. intros s. cbn. reflexivity. Qed.

Lemma preserves_undefined {A : Type} : preserves R (@undefined A).
Proof. intros s. exact I. Qed.

Lemma preserves_out_of_fuel {A : Type} : preserves R (@out_of_fuel A).
Proof. intros s. exact I. Qed.

Lemma preserves_when (b : bool) (m : M unit) :
  preserves R m -> preserves R (when b m).
Proof. intros H. destruct b; [exact H | apply preserves_ret]. Qed.

Lemma preserves_load p : preserves R (load p).
Proof. intros s. unfold load. destruct (buffer s !! p); [reflexivity | exact I]. Qed.

Lemma preserves_load_range p n : preserves R (load_range p n).
Proof. intros s. unfold load_range. case_decide; [reflexivity | exact I]. Qed.

Lemma preserves_strlen p : preserves R (strlen p).
Proof. intros s. unfold strlen. destruct (strlen_list _); [reflexivity | exact I]. Qed.

Lemma preserves_skip_easy_bytes X p : preserves R (skip_easy_bytes X p).
Proof. intros s. unfold skip_easy_bytes. destruct (skip_easy _ _); [reflexivity | exact I]. Qed.

Lemma preserves_store p c :
  (forall s, R s (set_buffer (<[p := c]> (buffer s)) s)) ->
  preserves R (store p c).
Proof. intros H s. unfold store. case_decide; [apply H | exact I]. Qed.


End Preserves.

Lemma preserves_bind_post {A B : Type} (R : relation state) `{!PreOrder R}
      (Q : A -> Prop) (m : M A) (k : A -> M B) :
  preserves R m ->
  (forall s, match m s with Ret a _ => Q a | _ => True end) ->
  (forall a, Q a -> preserves R (k a)) ->
  preserves R (bind m k).
Proof.
  intros Hm HQ Hk s. unfold bind. specialize (Hm s). specialize (HQ s).
  destruct (m s) as [a s1 | c s1 | |]; try done.
  specialize (Hk a HQ s1). destruct (k a s1); try done; by etrans.
Qed.

Lemma preserves_bind_gets {A B : Type} (R : relation state)
      (f : state -> A) (k : A -> M B) :
  (forall s, match k (f s) s with
             | Ret _ s' | Exits _ s' => R s s'
             | Undefined | OutOfFuel => True
             end) ->
  preserves R (bind (gets f) k).
Proof. intros H s. exact (H s). Qed.

Lemma preserves_after_modify {B : Type} (R : relation state) `{!PreOrder R}
      (f : state -> state) (k : unit -> M B) s :
  R s (f s) -> preserves R (k tt) ->
  match bind (modify f) k s with
  | Ret _ s' | Exits _ s' => R s s'
  | Undefined | OutOfFuel => True
  end.
Proof.
  intros Hf Hk. unfold bind, modify. specialize (Hk (f s)).
  destruct (k tt (f s)); try done; by etrans.
Qed.

Lemma preserves_Ret {A : Type} (R : relation state) (m : M A) s a s' :
  preserves R m -> m s = Ret a s' -> R s s'.
Proof. intros H E. specialize (H s). now rewrite E in H. Qed.

Lemma preserves_Exits {A : Type} (R : relation state) (m : M A) s c s' :
  preserves R m -> m s = Exits c s' -> R s s'.
Proof. intros H E. specialize (H s). now rewrite E in H. Qed.

Lemma reads_only_ret {A : Type} (a : A) : reads_only (ret a).
Proof. intros s. reflexivity. Qed.

Lemma reads_only_bind {A B : Type} (m : M A) (k : A -> M B) :
  reads_only m -> (forall a, reads_only (k a)) -> reads_only (bind m k).
Proof.
  intros Hm Hk s. unfold bind. specialize (Hm s).
  destruct (m s) as [a s1 | c s1 | |]; try done.
  subst s1. apply Hk.
Qed.

Lemma reads_only_gets {A : Type} (f : state -> A) : reads_only (gets f).
Proof. intros s. reflexivity. Qed.

Lemma reads_only_undefined {A : Type} : reads_only (@undefined A).
Proof. intros s. exact I. Qed.

Lemma reads_only_out_of_fuel {A : Type} : reads_only (@out_of_fuel A).
Proof. intros s. exact I. Qed.

Lemma reads_only_load p : reads_only (load p).
Proof. intros s. unfold load. destruct (buffer s !! p); [reflexivity | exact I]. Qed.

Lemma reads_only_load_range p n : reads_only (load_range p n).
Proof. intros s. unfold load_range. case_decide; [reflexivity | exact I]. Qed.

Lemma reads_only_strlen p : reads_only (strlen p).
Proof. intros s. unfold strlen. destruct (strlen_list _); [reflexivity | exact I]. Qed.

Lemma reads_only_skip_easy_bytes X p : reads_only (skip_easy_bytes X p).
Proof.
  intros s. unfold skip_easy_bytes. destruct (skip_easy _ _); [reflexivity | exact I].
Qed.

Lemma reads_only_preserves {A : Type} (R : relation state) `{!Reflexive R}
      (m : M A) :
  reads_only m -> preserves R m.
Proof.
  intros H s. specialize (H s). destruct (m s); try done. now subst.
Qed.

Create HintDb reads discriminated.

#[export] Hint Resolve reads_only_ret reads_only_gets reads_only_undefined
  reads_only_out_of_fuel reads_only_load reads_only_load_range
  reads_only_strlen reads_only_skip_easy_bytes : reads.

Ltac reads_step :=
  cbv beta;
  lazymatch goal with
  | |- reads_only (bind _ _) => apply reads_only_bind; [| intros ?]
  | |- reads_only (if ?b then _ else _) => destruct b
  | |- reads_only (match ?x with _ => _ end) => destruct x
  | |- reads_only _ => solve [auto with reads]
  end.

Ltac reads := repeat reads_step.

Create HintDb pres discriminated.

#[export] Hint Extern 0 (PreOrder _) => typeclasses eauto : pres.

#[export] Hint Resolve preserves_ret preserves_gets preserves_exit
  preserves_undefined preserves_out_of_fuel preserves_load preserves_load_range
  preserves_strlen preserves_skip_easy_bytes : pres.

(** One step through the structure of a computation. *)
Ltac pres_step :=
  cbv beta;
  lazymatch goal with
  | |- preserves _ (bind _ _) => apply preserves_bind; [apply _ | | intros ?]
  | |- preserves _ (when _ _) => apply preserves_when; [apply _ |]
  | |- preserves _ (if ?b then _ else _) => destruct b
  | |- preserves _ (match ?x with _ => _ end) => destruct x
  | |- preserves _ (let '(_, _) := ?x in _) => destruct x
  | |- preserves _ _ => solve [auto 2 with pres nocore]
  end.

Ltac pres := repeat pres_step.

#[export] Instance scan_rel_preorder : PreOrder scan_rel.
Proof.
  split.
  - intros s. split; try reflexivity; auto.
  - intros s1 s2 s3 [] []. split; try (etrans; eassumption); auto.
    destruct sr_flags1 as [E | E]; [| by right].
    rewrite E. assumption.
Qed.

Ltac solve_scan_rel :=
  intros; split; cbn;
  first [ reflexivity | by left | by right | by apply prefix_app_r | lia | tauto | done ].

#[export] Instance line_rel_preorder : PreOrder line_rel.
Proof.
  split.
  - intros s. split; reflexivity.
  - intros s1 s2 s3 [] []. split; etrans; eassumption.
Qed.

#[export] Instance pend_rel_preorder : PreOrder pend_rel.
Proof.
  split.
  - intros s. split; try reflexivity. lia.
  - intros s1 s2 s3 [] []. split; try (etrans; eassumption). lia.
Qed.

Lemma line_rel_pend_rel s s' : line_rel s s' -> pend_rel s s'.
Proof. intros []. split; try assumption. lia. Qed.

Lemma pend_rel_scan_rel s s' : pend_rel s s' -> scan_rel s s'.
Proof. now intros []. Qed.

Lemma line_rel_scan_rel s s' : line_rel s s' -> scan_rel s s'.
Proof. now intros []. Qed.

Ltac solve_line_rel :=
  intros; split; [solve_scan_rel | reflexivity ..].

Ltac solve_pend_rel :=
  intros; split; [solve_scan_rel | cbn; first [reflexivity | lia] ..].

Lemma preserves_weaken {A : Type} (R R' : relation state) (m : M A) :
  (forall s s', R s s' -> R' s s') -> preserves R m -> preserves R' m.
Proof.
  intros HR H s. specialize (H s). destruct (m s); auto.
Qed.

Lemma set_buffer_id s : set_buffer (buffer s) s = s.
Proof. now destruct s. Qed.

Lemma set_buffer_set_buffer b b' s : set_buffer b (set_buffer b' s) = set_buffer b s.
Proof. reflexivity. Qed.

Section LinePreserves.

Variable X : collaborators.
Variable o : options.

Lemma preserves_putchar_errno c : preserves line_rel (putchar_errno c).
Proof. apply preserves_modify. solve_line_rel. Qed.

Lemma preserves_fputs_errno l : preserves line_rel (fputs_errno l).
Proof. apply preserves_modify. solve_line_rel. Qed.

Hint Resolve preserves_putchar_errno preserves_fputs_errno : pres.

Lemma preserves_fwrite_errno p n : preserves line_rel (fwrite_errno p n).
Proof. unfold fwrite_errno. pres. Qed.

Lemma preserves_pr_sgr_start l : preserves line_rel (pr_sgr_start o l).
Proof. unfold pr_sgr_start. pres. Qed.
Lemma preserves_pr_sgr_end l : preserves line_rel (pr_sgr_end o l).
Proof. unfold pr_sgr_end. pres. Qed.
Hint Resolve preserves_fwrite_errno preserves_pr_sgr_start preserves_pr_sgr_end : pres.
Lemma preserves_pr_sgr_start_if l : preserves line_rel (pr_sgr_start_if o l).
Proof. unfold pr_sgr_start_if. pres. Qed.
Lemma preserves_pr_sgr_end_if l : preserves line_rel (pr_sgr_end_if o l).
Proof. unfold pr_sgr_end_if. pres. Qed.
Hint Resolve preserves_pr_sgr_start_if preserves_pr_sgr_end_if : pres.

Lemma preserves_ts_error c l : preserves line_rel (ts_error c l).
Proof.
  unfold ts_error. pres. apply preserves_modify. solve_line_rel.
Qed.
Hint Resolve preserves_ts_error : pres.

Lemma preserves_add_count a b : preserves line_rel (add_count a b).
Proof. unfold add_count. pres. Qed.
Hint Resolve preserves_add_count : pres.

Lemma preserves_nlscan lim : preserves line_rel (nlscan o lim).
Proof.
  unfold nlscan. pres; apply preserves_modify; solve_line_rel.
Qed.
Hint Resolve preserves_nlscan : pres.

Lemma preserves_print_filename : preserves line_rel (print_filename o).
Proof. unfold print_filename. pres. Qed.
Lemma preserves_print_sep c : preserves line_rel (print_sep o c).
Proof. unfold print_sep. pres. Qed.
Lemma preserves_print_offset pos w c : preserves line_rel (print_offset o pos w c).
Proof. unfold print_offset. pres. Qed.
Hint Resolve preserves_print_filename preserves_print_sep preserves_print_offset : pres.

Lemma encoding_errors_loop_reads fuel lim p mbs :
  reads_only (encoding_errors_loop X fuel lim p mbs).
Proof.
  revert p mbs. induction fuel as [| fuel IH]; intros p mbs;
    cbn [encoding_errors_loop]; reads.
Qed.

(** The test for encoding errors gives the buffer back as it was. *)
Lemma line_has_encoding_errors_reads beg len :
  reads_only (line_has_encoding_errors X o beg len).
Proof.
  unfold line_has_encoding_errors.
  destruct (negb _); [| reads].
  intros s. unfold bind at 1, load.
  destruct (buffer s !! (beg + len)%nat) as [ch |] eqn:Hch; [| exact I].
  apply lookup_lt_Some in Hch as Hlt.
  unfold buf_has_encoding_errors.
  destruct (unibyte_mask (locale_of X) =? 0).
  - unfold bind, ret, store.
    case_decide; [| exact I].
    rewrite list_insert_id by assumption. now rewrite set_buffer_id.
  - unfold bind at 1 2, store.
    case_decide; [| lia].
    match goal with
    | |- context [encoding_errors_loop ?X ?f ?l ?p ?m ?s] =>
        pose proof (encoding_errors_loop_reads f l p m s) as Hl;
        destruct (encoding_errors_loop X f l p m s) as [e s1 | c s1 | |]
    end; try done.
    subst s1. unfold bind, ret. cbn.
    rewrite length_insert. case_decide; [| lia].
    rewrite list_insert_insert_eq, list_insert_id by assumption.
    now destruct s.
Qed.

Lemma preserves_line_has_encoding_errors beg len :
  preserves line_rel (line_has_encoding_errors X o beg len).
Proof.
  apply reads_only_preserves; [apply _ |]. apply line_has_encoding_errors_reads.
Qed.
Hint Resolve preserves_line_has_encoding_errors : pres.

Ltac pres_modify :=
  repeat first [ pres_step | apply preserves_modify; solve_line_rel ].

Lemma preserves_print_line_head beg len lim sep :
  preserves line_rel (print_line_head X o beg len lim sep).
Proof. unfold print_line_head. pres_modify. Qed.
Hint Resolve preserves_print_line_head : pres.

Lemma preserves_print_line_middle_loop fuel beg lim lc mc cur mid :
  preserves line_rel (print_line_middle_loop X o fuel beg lim lc mc cur mid).
Proof.
  revert cur mid. induction fuel as [| fuel IH]; intros cur mid;
    cbn [print_line_middle_loop]; pres_modify.
Qed.
Hint Resolve preserves_print_line_middle_loop : pres.

Lemma preserves_print_line_middle fuel beg lim lc mc :
  preserves line_rel (print_line_middle X o fuel beg lim lc mc).
Proof. unfold print_line_middle. pres_modify. Qed.

Lemma preserves_print_line_tail beg lim lc :
  preserves line_rel (print_line_tail o beg lim lc).
Proof. unfold print_line_tail. pres_modify. Qed.
Hint Resolve preserves_print_line_middle preserves_print_line_tail : pres.

Lemma preserves_prline fuel beg lim sep :
  preserves line_rel (prline X o fuel beg lim sep).
Proof. unfold prline, fflush_errno. pres_modify. Qed.
Hint Resolve preserves_prline : pres.


End LinePreserves.

#[export] Hint Resolve preserves_putchar_errno preserves_fputs_errno
  preserves_fwrite_errno preserves_pr_sgr_start preserves_pr_sgr_end
  preserves_pr_sgr_start_if preserves_pr_sgr_end_if preserves_ts_error
  preserves_add_count preserves_nlscan preserves_print_filename
  preserves_print_sep preserves_print_offset preserves_print_line_head
  preserves_print_line_middle preserves_print_line_tail preserves_prline : pres.

Section ScanPreserves.

Variable X : collaborators.
Variable o : options.

Lemma prline_pend_rel fuel beg lim sep :
  preserves pend_rel (prline X o fuel beg lim sep).
Proof. eapply preserves_weaken; [apply line_rel_pend_rel | auto with pres]. Qed.

Lemma prline_scan_rel fuel beg lim sep :
  preserves scan_rel (prline X o fuel beg lim sep).
Proof. eapply preserves_weaken; [apply line_rel_scan_rel | auto with pres]. Qed.

Lemma fputs_errno_scan_rel l : preserves scan_rel (fputs_errno l).
Proof. eapply preserves_weaken; [apply line_rel_scan_rel | auto with pres]. Qed.
Lemma putchar_errno_scan_rel c : preserves scan_rel (putchar_errno c).
Proof. eapply preserves_weaken; [apply line_rel_scan_rel | auto with pres]. Qed.
Lemma pr_sgr_start_if_scan_rel c : preserves scan_rel (pr_sgr_start_if o c).
Proof. eapply preserves_weaken; [apply line_rel_scan_rel | auto with pres]. Qed.
Lemma pr_sgr_end_if_scan_rel c : preserves scan_rel (pr_sgr_end_if o c).
Proof. eapply preserves_weaken; [apply line_rel_scan_rel | auto with pres]. Qed.

Hint Resolve prline_pend_rel prline_scan_rel fputs_errno_scan_rel
  putchar_errno_scan_rel pr_sgr_start_if_scan_rel pr_sgr_end_if_scan_rel : pres.

Ltac pres_modify :=
  repeat first [ pres_step | apply preserves_modify; solve_scan_rel ].

Lemma preserves_prpending_loop n fuel lim :
  preserves pend_rel (prpending_loop X o n fuel lim).
Proof.
  induction n as [| n IH]; cbn [prpending_loop]; [pres |].
  apply preserves_bind_gets. intros s. cbn [id].
  destruct (lastout s) as [lo |]; [| done].
  destruct (0 <? pending s) eqn:Hpos; cbn [andb]; [| cbn; reflexivity].
  apply Z.ltb_lt in Hpos.
  destruct (lo <? lim)%nat; [| cbn; reflexivity].
  unfold bind at 1.
  pose proof (reads_only_load_range lo (lim - lo) s) as Hr.
  destruct (load_range lo (lim - lo) s) as [r s1 | | |]; try done.
  subst s1.
  apply preserves_after_modify; [apply _ | |].
  - solve_pend_rel.
  - destruct (memchr _ _ _ _); [| pres].
    apply preserves_bind; [apply _ | pres | intros sel].
    apply preserves_bind; [apply _ | | intros _; apply IH].
    destruct sel; [pres |].
    apply preserves_modify. solve_pend_rel.
Qed.
Hint Resolve preserves_prpending_loop : pres.

Lemma preserves_prpending fuel lim :
  preserves pend_rel (prpending X o fuel lim).
Proof.
  unfold prpending, lock_output, unlock_output. pres.
  apply preserves_modify. intros s.
  destruct (lastout s); solve_pend_rel.
Qed.

Lemma prpending_scan_rel fuel lim :
  preserves scan_rel (prpending X o fuel lim).
Proof.
  eapply preserves_weaken; [apply pend_rel_scan_rel | apply preserves_prpending].
Qed.
Hint Resolve preserves_prpending prpending_scan_rel : pres.

Lemma preserves_prtext_context_loop n fuel p beg :
  preserves scan_rel (prtext_context_loop X o n fuel p beg).
Proof.
  revert p. induction n as [| n IH]; intros p; cbn [prtext_context_loop];
    pres_modify.
Qed.

Lemma prtext_invert_loop_count k fuel p lim n s :
  match prtext_invert_loop X o k fuel p lim n s with
  | Ret (n', _) _ => n <= n'
  | _ => True
  end.
Proof.
  revert p n s. induction k as [| k IH]; intros p n s; cbn [prtext_invert_loop].
  - cbn. lia.
  - unfold bind at 1, gets. cbn [id].
    destruct (_ && _); [| cbn; lia].
    unfold bind at 1. destruct (load_range _ _ s); try done.
    destruct (memchr _ _ _ _); try done.
    unfold bind at 1. destruct (when _ _ _); try done.
    specialize (IH (n0 + 1)%nat (n + 1) s1).
    destruct (prtext_invert_loop _ _ _ _ _ _ _ _) as [[] | | |]; try done. lia.
Qed.

Lemma preserves_prtext_invert_loop k fuel p lim n :
  preserves scan_rel (prtext_invert_loop X o k fuel p lim n).
Proof.
  revert p n. induction k as [| k IH]; intros p n; cbn [prtext_invert_loop];
    pres_modify.
Qed.
Hint Resolve preserves_prtext_context_loop preserves_prtext_invert_loop : pres.

Lemma preserves_prtext fuel beg lim :
  preserves scan_rel (prtext X o fuel beg lim).
Proof.
  unfold prtext, lock_output, unlock_output.
  do 4 (apply preserves_bind; [apply _ | pres_modify | intros ?]).
  apply preserves_bind; [apply _ | pres_modify | intros p].
  apply (preserves_bind_post scan_rel (fun np : Z * nat => 0 <= fst np)).
  - pres_modify.
  - intros s. destruct (out_invert o).
    + pose proof (prtext_invert_loop_count (lim - p) fuel p lim 0 s) as H.
      destruct (prtext_invert_loop _ _ _ _ _ _ _ _) as [[] | | |]; done.
    + unfold bind, gets. destruct (when _ _ _); done.
  - intros [n p'] Hn. cbn in Hn. pres_modify.
Qed.
Hint Resolve preserves_prtext : pres.

Lemma preserves_grepbuf_loop fuel p lim :
  preserves scan_rel (grepbuf_loop X o fuel p lim).
Proof.
  revert p. induction fuel as [| fuel IH]; intros p; cbn [grepbuf_loop];
    pres_modify.
Qed.
Hint Resolve preserves_grepbuf_loop : pres.

Lemma preserves_grepbuf fuel p lim :
  preserves scan_rel (grepbuf X o fuel p lim).
Proof. unfold grepbuf. pres_modify. Qed.

End ScanPreserves.

#[export] Hint Resolve prline_pend_rel prline_scan_rel fputs_errno_scan_rel
  putchar_errno_scan_rel pr_sgr_start_if_scan_rel pr_sgr_end_if_scan_rel
  preserves_prpending_loop preserves_prpending prpending_scan_rel
  preserves_prtext_context_loop preserves_prtext_invert_loop preserves_prtext
  preserves_grepbuf_loop preserves_grepbuf : pres.

(** ** What the management of the buffer keeps *)

#[export] Instance io_rel_preorder : PreOrder io_rel.
Proof.
  split.
  - intros s. split; first [reflexivity | by left | done].
  - intros s1 s2 s3 [? ? ? Hq1 ? ? ? ? ?] [? ? ? Hq2 ? ? ? ? ?].
    split; try (etrans; eassumption); [| auto].
    destruct Hq2 as [E | E]; [| by right]. rewrite E. assumption.
Qed.

Ltac solve_io_rel :=
  intros; split; first [reflexivity | by left | by right | done].

Ltac pres_io := repeat first [ pres_step | apply preserves_modify; solve_io_rel ].

Section IoPreserves.

Variable X : collaborators.
Variable o : options.

Lemma store_io_rel p c : preserves io_rel (store p c).
Proof. apply preserves_store. solve_io_rel. Qed.
Hint Resolve store_io_rel : pres.

Lemma ts_error_io_rel c l : preserves io_rel (ts_error c l).
Proof. unfold ts_error. pres_io. Qed.
Hint Resolve ts_error_io_rel : pres.

Lemma add_count_io_rel a b : preserves io_rel (add_count a b).
Proof. unfold add_count. pres_io. Qed.
Hint Resolve add_count_io_rel : pres.

Lemma suppressible_error_io_rel l : preserves io_rel (suppressible_error o l).
Proof. unfold suppressible_error. pres_io. Qed.

Lemma nlscan_io_rel lim : preserves io_rel (nlscan o lim).
Proof. unfold nlscan. pres_io. Qed.

Lemma buf_has_nulls_io_rel p n : preserves io_rel (buf_has_nulls p n).
Proof. unfold buf_has_nulls. pres_io. Qed.

Lemma zap_run_io_rel fuel p eol : preserves io_rel (zap_run fuel p eol).
Proof.
  revert p. induction fuel as [| fuel IH]; intros p; cbn [zap_run]; pres_io.
Qed.
Hint Resolve zap_run_io_rel : pres.

Lemma zap_nuls_loop_io_rel fuel p lim eol :
  preserves io_rel (zap_nuls_loop fuel p lim eol).
Proof.
  revert p. induction fuel as [| fuel IH]; intros p; cbn [zap_nuls_loop]; pres_io.
Qed.
Hint Resolve zap_nuls_loop_io_rel : pres.

Lemma zap_nuls_io_rel p lim eol : preserves io_rel (zap_nuls p lim eol).
Proof. unfold zap_nuls. pres_io. Qed.

Lemma fillbuf_read_io_rel script : preserves io_rel (fillbuf_read script).
Proof.
  induction script as [| ev script IH]; cbn [fillbuf_read]; pres_io.
Qed.
Hint Resolve fillbuf_read_io_rel : pres.

Lemma fillbuf_io_rel save : preserves io_rel (fillbuf o save).
Proof. unfold fillbuf. pres_io. Qed.

Lemma file_must_have_nulls_io_rel n : preserves io_rel (file_must_have_nulls n).
Proof. unfold file_must_have_nulls. pres_io. Qed.

Hint Resolve suppressible_error_io_rel nlscan_io_rel buf_has_nulls_io_rel
  zap_nuls_io_rel fillbuf_io_rel file_must_have_nulls_io_rel : pres.

Lemma grep_binary_check_io_rel v : preserves io_rel (grep_binary_check o v).
Proof. unfold grep_binary_check. pres_io. Qed.

Lemma grep_limits_io_rel v beg : preserves io_rel (grep_limits o v beg).
Proof. unfold grep_limits. pres_io. Qed.

Lemma grep_refill_io_rel v lim : preserves io_rel (grep_refill o v lim).
Proof. unfold grep_refill. pres_io. Qed.

End IoPreserves.

#[export] Hint Resolve store_io_rel ts_error_io_rel add_count_io_rel
  suppressible_error_io_rel nlscan_io_rel buf_has_nulls_io_rel zap_run_io_rel
  zap_nuls_loop_io_rel zap_nuls_io_rel fillbuf_read_io_rel fillbuf_io_rel
  file_must_have_nulls_io_rel grep_binary_check_io_rel grep_limits_io_rel
  grep_refill_io_rel : pres.

(** ** Postconditions *)

Lemma post_bind {A B : Type} (m : M A) (k : A -> M B) s Q E :
  post m s (fun a s1 => post (k a) s1 Q E) E -> post (bind m k) s Q E.
Proof. unfold post, bind. destruct (m s); auto. Qed.

Lemma post_weaken {A : Type} (m : M A) s (Q Q' : A -> state -> Prop)
      (E E' : Z -> state -> Prop) :
  post m s Q E -> (forall a s', Q a s' -> Q' a s') ->
  (forall c s', E c s' -> E' c s') ->
  post m s Q' E'.
Proof. unfold post. destruct (m s); auto. Qed.


Lemma post_reads_only {A : Type} (m : M A) s :
  reads_only m -> post m s (fun _ s' => s' = s) (fun _ _ => False).
Proof. intros H. exact (H s). Qed.


Lemma post_bind_reads {A B : Type} (m : M A) (k : A -> M B) s Q E :
  reads_only m -> (forall a, post (k a) s Q E) -> post (bind m k) s Q E.
Proof.
  intros Hm Hk. apply post_bind. eapply post_weaken.
  - apply post_reads_only. exact Hm.
  - cbn. intros a s' ->. apply Hk.
  - cbn. tauto.
Qed.

Lemma post_bind_gets {A B : Type} (f : state -> A) (k : A -> M B) s Q E :
  post (k (f s)) s Q E -> post (bind (gets f) k) s Q E.
Proof. auto. Qed.

Lemma post_bind_modify {B : Type} (f : state -> state) (k : unit -> M B) s Q E :
  post (k tt) (f s) Q E -> post (bind (modify f) k) s Q E.
Proof. auto. Qed.

Lemma post_ret {A : Type} (a : A) s (Q : A -> state -> Prop) E :
  Q a s -> post (ret a) s Q E.
Proof. auto. Qed.

Lemma post_Ret {A : Type} (m : M A) s Q E a s' :
  post m s Q E -> m s = Ret a s' -> Q a s'.
Proof. unfold post. intros H Hm. now rewrite Hm in H. Qed.

Lemma post_Exits {A : Type} (m : M A) s Q E c s' :
  post m s Q E -> m s = Exits c s' -> E c s'.
Proof. unfold post. intros H Hm. now rewrite Hm in H. Qed.

Section Budget.

Variable X : collaborators.
Variable o : options.


Lemma prtext_context_loop_line_rel n fuel p beg :
  preserves line_rel (prtext_context_loop X o n fuel p beg).
Proof.
  revert p. induction n as [| n IH]; intros p; cbn [prtext_context_loop]; pres.
Qed.
Hint Resolve prtext_context_loop_line_rel : pres.




End Budget.

(** ** The budget of a file *)

Lemma returns_ret {A : Type} (a : A) (P : A -> Prop) : P a -> returns (ret a) P.
Proof. intros H s. exact H. Qed.

Lemma returns_bind {A B : Type} (m : M A) (k : A -> M B) (P : B -> Prop) :
  (forall a, returns (k a) P) -> returns (bind m k) P.
Proof.
  intros H s. unfold post, bind. destruct (m s) as [a s1 | | |]; try done.
  apply (H a s1).
Qed.

Lemma returns_undefined {A : Type} (P : A -> Prop) : returns undefined P.
Proof. intros s. exact I. Qed.

Lemma returns_out_of_fuel {A : Type} (P : A -> Prop) : returns out_of_fuel P.
Proof. intros s. exact I. Qed.

Lemma returns_exit {A : Type} c (P : A -> Prop) : returns (exit c) P.
Proof. intros s. exact I. Qed.



Ltac rets_step :=
  cbv beta;
  lazymatch goal with
  | |- returns (bind _ _) _ => apply returns_bind; intros ?
  | |- returns (ret _) _ => apply returns_ret
  | |- returns undefined _ => apply returns_undefined
  | |- returns out_of_fuel _ => apply returns_out_of_fuel
  | |- returns (exit _) _ => apply returns_exit
  | |- returns (if ?b then _ else _) _ => destruct b
  | |- returns (match ?x with _ => _ end) _ => destruct x
  end.

Ltac rets := repeat rets_step.

Section GrepBudget.

Variable X : collaborators.
Variable o : options.

Hypothesis max_count_nonneg : 0 <= max_count o.












End GrepBudget.

(** ** Quiet states *)

Section Quiet.

Variable X : collaborators.
Variable o : options.

Lemma prtext_invert_loop_quiet k fuel p lim n s :
  out_quiet s = true ->
  post (prtext_invert_loop X o k fuel p lim n) s
       (fun _ s' => s' = s) (fun _ _ => False).
Proof.
  intros Hq. revert p n. induction k as [| k IH]; intros p n;
    cbn [prtext_invert_loop]; [done |].
  apply post_bind_gets. cbn [id].
  destruct (_ && _); [| done].
  apply post_bind_reads; [auto with reads | intros _].
  destruct (memchr _ _ _ _); [| done].
  rewrite Hq. cbn [negb when]. apply post_bind. apply post_ret.
  apply IH.
Qed.

Lemma prtext_quiet fuel beg lim s :
  out_quiet s = true ->
  post (prtext X o fuel beg lim) s
       (fun _ s' => exists n p, s' = prtext_quiet_state s n p)
       (fun _ _ => False).
Proof.
  intros Hq. unfold prtext, lock_output, unlock_output.
  apply post_bind_gets. cbn [id]. rewrite Hq. cbn [negb andb when].
  do 2 (apply post_bind; apply post_ret).
  apply post_bind_gets. cbn [id]. rewrite Hq. cbn [negb].
  apply post_bind. apply post_ret.
  apply post_bind.
  assert (post (if out_invert o
                then prtext_invert_loop X o (lim - beg) fuel beg lim 0
                else s0 <- gets id ;;
                     when (negb (out_quiet s0))
                          (prline X o fuel beg lim SEP_CHAR_SELECTED) ;;;
                     ret (1, lim)) s
               (fun _ s' => s' = s) (fun _ _ => False)) as Hnp.
  { destruct (out_invert o).
    - eapply post_weaken; [apply prtext_invert_loop_quiet, Hq | auto | done].
    - apply post_bind_gets. cbn [id]. rewrite Hq. cbn. reflexivity. }
  eapply post_weaken; [exact Hnp | | done]. clear Hnp.
  cbn beta. intros [n p] s1 ->.
  do 4 apply post_bind_modify. apply post_ret.
  exists n, p. unfold prtext_quiet_state. cbn. rewrite Hq. reflexivity.
Qed.

(** In a quiet state with [done_on_match] and [exit_on_match], the
    match loop either finds nothing and leaves the state as it is,
    or exits at the first match: with status 0 when no error was seen,
    with [exit_failure] otherwise; nothing is written. *)
Lemma grepbuf_loop_quiet fuel p lim s :
  exit_on_match o = true -> out_quiet s = true -> done_on_match s = true ->
  post (grepbuf_loop X o fuel p lim) s
       (fun _ s' => s' = s)
       (fun c s' => c = (if errseen s then exit_failure o else EXIT_SUCCESS)
                    /\ stdout s' = stdout s /\ errseen s' = errseen s).
Proof.
  intros He Hq Hd. revert p. induction fuel as [| fuel IH]; intros p;
    cbn [grepbuf_loop].
  - destruct (p <? lim)%nat; done.
  - destruct (p <? lim)%nat; [| done].
    apply post_bind_reads; [auto with reads | intros range]. cbv zeta.
    destruct (match execute X range None with
              | Some m => Some m
              | None => if out_invert o then Some ((lim - p)%nat, 0%nat) else None
              end) as [[mo ms] |]; [| done].
    destruct (negb (out_invert o) && _); [done |].
    destruct (negb (out_invert o) || _); [| apply IH].
    apply post_bind. eapply post_weaken; [apply prtext_quiet, Hq | | done].
    cbn beta. intros _ s1 (n & p' & ->).
    apply post_bind_gets. cbn [id].
    replace (done_on_match (prtext_quiet_state s n p')) with true
      by (symmetry; exact Hd).
    rewrite orb_true_r, He. cbn. repeat split.
Qed.

Lemma prtext_quiet_select fuel beg lim s :
  out_quiet s = true -> out_invert o = false ->
  prtext X o fuel beg lim s = Ret tt (prtext_quiet_state s 1 lim).
Proof.
  intros Hq Hinv. unfold prtext, lock_output, unlock_output.
  unfold bind, gets, when, ret, modify. cbn [id].
  repeat (progress (rewrite ?Hq, ?Hinv; cbn)). reflexivity.
Qed.

Lemma grepbuf_quiet fuel p lim s :
  exit_on_match o = true -> out_quiet s = true -> done_on_match s = true ->
  post (grepbuf X o fuel p lim) s
       (fun n s' => n = 0 /\ s' = s)
       (fun c s' => c = (if errseen s then exit_failure o else EXIT_SUCCESS)
                    /\ stdout s' = stdout s /\ errseen s' = errseen s).
Proof.
  intros He Hq Hd. unfold grepbuf. apply post_bind_gets.
  apply post_bind.
  eapply post_weaken; [apply grepbuf_loop_quiet; assumption | | auto].
  cbn beta. intros _ s1 ->. cbn. split; [lia | reflexivity].
Qed.

(** The first match: when the matcher finds a line in the range, the
    loop exits there. *)
Lemma grepbuf_quiet_match fuel p lim s range mo ms :
  exit_on_match o = true -> out_quiet s = true -> done_on_match s = true ->
  out_invert o = false ->
  (p < lim)%nat -> load_range p (lim - p) s = Ret range s ->
  execute X range None = Some (mo, ms) -> (p + mo)%nat <> lim ->
  exists s', grepbuf X o (S fuel) p lim s =
             Exits (if errseen s then exit_failure o else EXIT_SUCCESS) s'
             /\ stdout s' = stdout s /\ errseen s' = errseen s.
Proof.
  intros He Hq Hd Hinv Hlt Hload Hex Hne.
  unfold grepbuf. unfold bind at 1, gets. unfold bind at 1.
  cbn [grepbuf_loop]. apply Nat.ltb_lt in Hlt. rewrite Hlt.
  unfold bind at 1. rewrite Hload. rewrite Hex. cbv zeta.
  rewrite Hinv. cbn [negb andb orb].
  apply Nat.eqb_neq in Hne. rewrite Hne.
  unfold bind at 1. rewrite (prtext_quiet_select _ _ _ _ Hq Hinv).
  unfold bind at 1, gets. cbn [id].
  replace (done_on_match (prtext_quiet_state s 1 (p + mo + ms))) with true
    by (symmetry; exact Hd).
  rewrite orb_true_r, He. cbn. eexists. repeat split.
Qed.

End Quiet.

(** ** The error flag *)

#[export] Instance err_rel_preorder : PreOrder err_rel.
Proof. split; unfold err_rel; [intros s; auto | intros s1 s2 s3; auto]. Qed.

Lemma scan_rel_err_rel s s' : scan_rel s s' -> err_rel s s'.
Proof. intros [] H. congruence. Qed.

Lemma io_rel_err_rel s s' : io_rel s s' -> err_rel s s'.
Proof. intros []. assumption. Qed.

Ltac solve_err_rel := intros; unfold err_rel; cbn; auto.

Ltac pres_err := repeat first [ pres_step | apply preserves_modify; solve_err_rel ].

Ltac from_scan := eapply preserves_weaken; [apply scan_rel_err_rel | auto with pres].
Ltac from_pend :=
  eapply preserves_weaken;
  [intros ? ? ?; apply scan_rel_err_rel, pend_rel_scan_rel; eassumption
  | auto with pres].
Ltac from_line :=
  eapply preserves_weaken;
  [intros ? ? ?; apply scan_rel_err_rel, line_rel_scan_rel; eassumption
  | auto with pres].
Ltac from_io := eapply preserves_weaken; [apply io_rel_err_rel | auto with pres].

Section ErrPreserves.

Variable X : collaborators.
Variable o : options.

Lemma grepbuf_err_rel fuel p lim : preserves err_rel (grepbuf X o fuel p lim).
Proof. from_scan. Qed.
Lemma prpending_err_rel fuel lim : preserves err_rel (prpending X o fuel lim).
Proof. from_pend. Qed.
Lemma fputs_errno_err_rel l : preserves err_rel (fputs_errno l).
Proof. from_line. Qed.
Lemma putchar_errno_err_rel c : preserves err_rel (putchar_errno c).
Proof. from_line. Qed.
Lemma print_filename_err_rel : preserves err_rel (print_filename o).
Proof. from_line. Qed.
Lemma print_sep_err_rel c : preserves err_rel (print_sep o c).
Proof. from_line. Qed.
Lemma grep_binary_check_err_rel v : preserves err_rel (grep_binary_check o v).
Proof. from_io. Qed.
Lemma grep_limits_err_rel v beg : preserves err_rel (grep_limits o v beg).
Proof. from_io. Qed.
Lemma grep_refill_err_rel v lim : preserves err_rel (grep_refill o v lim).
Proof. from_io. Qed.
Lemma fillbuf_err_rel save : preserves err_rel (fillbuf o save).
Proof. from_io. Qed.
Lemma store_err_rel p c : preserves err_rel (store p c).
Proof. from_io. Qed.
Lemma suppressible_error_err_rel l : preserves err_rel (suppressible_error o l).
Proof. from_io. Qed.
Hint Resolve grepbuf_err_rel prpending_err_rel fputs_errno_err_rel
  putchar_errno_err_rel print_filename_err_rel print_sep_err_rel
  grep_binary_check_err_rel grep_limits_err_rel grep_refill_err_rel
  fillbuf_err_rel store_err_rel suppressible_error_err_rel : pres.

Lemma grep_scan_err_rel fuel v beg lim :
  preserves err_rel (grep_scan X o fuel v beg lim).
Proof. unfold grep_scan. pres_err. Qed.
Hint Resolve grep_scan_err_rel : pres.

Lemma grep_body_err_rel fuel v : preserves err_rel (grep_body X o fuel v).
Proof.
  unfold grep_body.
  apply preserves_bind; [apply _ | auto with pres | intros c].
  destruct c as [v1 |]; [| pres].
  apply preserves_bind; [apply _ | apply preserves_modify; solve_err_rel | intros _].
  apply preserves_bind; [apply _ | | intros _].
  { apply preserves_modify. intros s. destruct (lastout s); solve_err_rel. }
  apply preserves_bind; [apply _ | pres | intros s].
  cbv beta zeta.
  destruct (_ =? _)%nat; [pres |].
  apply preserves_bind; [apply _ | auto with pres | intros [[beg lim] residue']].
  apply preserves_bind; [apply _ | pres | intros [nlines' finish]].
  destruct finish; [pres | auto with pres].
Qed.
Hint Resolve grep_body_err_rel : pres.

Lemma grep_loop_err_rel fuel n v : preserves err_rel (grep_loop X o fuel n v).
Proof.
  revert v. induction n as [| n IH]; intros v; cbn [grep_loop]; pres_err.
Qed.

Lemma grep_residue_err_rel fuel v : preserves err_rel (grep_residue X o fuel v).
Proof. unfold grep_residue. pres_err. Qed.

Lemma finish_grep_err_rel d q v : preserves err_rel (finish_grep o d q v).
Proof. unfold finish_grep, lock_output, unlock_output, fflush_errno. pres_err. Qed.

Lemma reset_err_rel wf : preserves err_rel (reset o wf).
Proof. unfold reset. pres_err. Qed.
Hint Resolve grep_loop_err_rel grep_residue_err_rel finish_grep_err_rel
  reset_err_rel : pres.

Lemma grep_err_rel fuel wf : preserves err_rel (grep X o fuel wf).
Proof. unfold grep. pres_err. Qed.
Hint Resolve grep_err_rel : pres.




End ErrPreserves.
(** ** The NUL bytes of the buffer *)

Lemma strlen_list_spec (l : list byte) n :
  strlen_list l = Some n <->
  l !! n = Some 0 /\ forall i, (i < n)%nat -> l !! i <> Some 0.
Proof.
  revert n. induction l as [| c l IH]; intros n; cbn [strlen_list].
  - split; [discriminate | intros [H _]; destruct n; discriminate].
  - destruct (Z.eqb_spec c 0) as [-> | Hc].
    + split.
      * intros [= <-]. split; [reflexivity | lia].
      * intros [H0 Hlt]. destruct n as [| n]; [reflexivity |].
        exfalso. apply (Hlt 0%nat); [lia | reflexivity].
    + destruct n as [| n].
      * split.
        -- destruct (strlen_list l); discriminate.
        -- intros [[= H0] _]. contradiction.
      * specialize (IH n). split.
        -- destruct (strlen_list l) as [m |]; [| discriminate].
           intros [= <-]. destruct IH as [IH _]. destruct (IH eq_refl) as [H0 Hlt].
           split; [exact H0 |]. intros [| i] Hi; cbn; [congruence | apply Hlt; lia].
        -- intros [H0 Hlt]. cbn in H0.
           destruct IH as [_ IH]. rewrite IH; [reflexivity |].
           split; [exact H0 |]. intros i Hi. apply (Hlt (S i)). lia.
Qed.

Lemma strlen_list_exists (l : list byte) k :
  l !! k = Some 0 -> exists n, strlen_list l = Some n /\ (n <= k)%nat.
Proof.
  revert k. induction l as [| c l IH]; intros k H; [destruct k; discriminate |].
  cbn [strlen_list]. destruct (Z.eqb_spec c 0) as [-> | Hc].
  - exists 0%nat. split; [reflexivity | lia].
  - destruct k as [| k]; [cbn in H; congruence |].
    destruct (IH k H) as (n & -> & Hn). exists (S n). split; [reflexivity | lia].
Qed.

Lemma strlen_spec p s lim :
  (p <= lim)%nat -> buffer s !! lim = Some 0 ->
  exists n, strlen p s = Ret n s /\ (p + n <= lim)%nat
            /\ buffer s !! (p + n)%nat = Some 0
            /\ no_nul (buffer s) p (p + n).
Proof.
  intros Hle H0. unfold strlen.
  destruct (strlen_list_exists (drop p (buffer s)) (lim - p)) as (n & Hn & Hle').
  { rewrite lookup_drop. replace (p + (lim - p))%nat with lim by lia. exact H0. }
  rewrite Hn. exists n. split; [reflexivity |]. split; [lia |].
  apply strlen_list_spec in Hn as [Hz Hnz]. rewrite lookup_drop in Hz.
  split; [exact Hz |]. intros i Hi. specialize (Hnz (i - p)%nat).
  rewrite lookup_drop in Hnz. replace (p + (i - p))%nat with i in Hnz by lia.
  apply Hnz. lia.
Qed.

(** What the inner loop of [zap_nuls] does: from a NUL byte at [p] it
    writes [eol] over the NUL bytes that follow one another, up to the
    first byte that is not NUL. *)
Lemma zap_run_spec fuel p lim eol s :
  eol <> 0 -> (p < lim)%nat -> (lim - p <= fuel)%nat ->
  buffer s !! lim = Some eol -> buffer s !! p = Some 0 ->
  exists q s', zap_run fuel p eol s = Ret q s'
    /\ s' = set_buffer (buffer s') s
    /\ (p < q <= lim)%nat
    /\ length (buffer s') = length (buffer s)
    /\ (forall i, (i < p \/ q <= i)%nat -> buffer s' !! i = buffer s !! i)
    /\ (forall i, (p <= i < q)%nat -> buffer s' !! i = Some eol
                                      /\ buffer s !! i = Some 0)
    /\ buffer s' !! q <> Some 0.
Proof.
  intros Heol. revert p s. induction fuel as [| fuel IH]; intros p s Hlt Hf Hlim Hp;
    [lia |].
  cbn [zap_run]. unfold bind at 1, store.
  assert (lim < length (buffer s))%nat as Hlen by (eapply lookup_lt_Some; eassumption).
  case_decide; [| lia].
  set (s1 := set_buffer (<[p:=eol]> (buffer s)) s).
  assert (buffer s1 !! S p = buffer s !! S p) as HSp.
  { subst s1. cbn. apply list_lookup_insert_ne. lia. }
  unfold bind at 1, load. fold s1.
  destruct (buffer s1 !! S p) as [c |] eqn:Hc.
  2:{ apply lookup_ge_None in Hc. subst s1. cbn in Hc. rewrite length_insert in Hc. lia. }
  destruct (Z.eqb_spec c 0) as [-> | Hc0].
  - (* the next byte is NUL too *)
    assert (S p < lim)%nat as Hlt'.
    { destruct (decide (S p = lim)) as [E | E]; [| lia].
      subst lim. exfalso.
      pose proof (eq_trans HSp Hlim) as [= E']. auto. }
    destruct (IH (S p) s1) as (q & s' & Hrun & Hs' & Hq & Hl & Hout & Hin & Hnz);
      [lia | lia | | exact Hc |].
    { subst s1. cbn. rewrite list_lookup_insert_ne by lia. exact Hlim. }
    exists q, s'. split; [exact Hrun |].
    split; [rewrite Hs' at 1; subst s1; reflexivity |].
    split; [lia |].
    split; [rewrite Hl; subst s1; cbn; apply length_insert |].
    split; [| split; [| exact Hnz]].
    + intros i Hi. rewrite Hout by lia. subst s1. cbn.
      apply list_lookup_insert_ne. lia.
    + intros i Hi. destruct (decide (i = p)) as [-> | Hne].
      * rewrite Hout by lia. subst s1. cbn.
        split; [apply list_lookup_insert_eq; eapply lookup_lt_Some; exact Hp | exact Hp].
      * destruct (Hin i) as [H1 H2]; [lia |]. split; [exact H1 |].
        subst s1. cbn in H2. rewrite list_lookup_insert_ne in H2 by lia. exact H2.
  - exists (S p), s1. split; [reflexivity |].
    split; [reflexivity |]. split; [lia |].
    split; [subst s1; cbn; apply length_insert |].
    split; [| split].
    + intros i Hi. subst s1. cbn. apply list_lookup_insert_ne. lia.
    + intros i Hi. assert (i = p) as -> by lia. subst s1. cbn.
      split; [apply list_lookup_insert_eq; eapply lookup_lt_Some; exact Hp | exact Hp].
    + intros E. pose proof (eq_trans (eq_sym Hc) E) as [= ?]. done.
Qed.

Lemma zap_nonzero eol c : eol <> 0 -> zap eol c <> 0.
Proof. unfold zap. destruct (Z.eqb_spec c 0); done. Qed.

Lemma zap_id eol c : c <> 0 -> zap eol c = c.
Proof. unfold zap. destruct (Z.eqb_spec c 0); done. Qed.

Lemma store_Ret p c s :
  (p < length (buffer s))%nat ->
  store p c s = Ret tt (set_buffer (<[p := c]> (buffer s)) s).
Proof. intros H. unfold store. case_decide; [reflexivity | lia]. Qed.

Lemma set_buffer_twice b b' s : set_buffer b (set_buffer b' s) = set_buffer b s.
Proof. reflexivity. Qed.

Lemma set_buffer_same s : set_buffer (buffer s) s = s.
Proof. now destruct s. Qed.

(** The loop of [zap_nuls], for an end-of-line byte that is not NUL:
    each NUL byte of [p, lim) becomes [eol], the other bytes stay, and
    [eol] is left at [lim]. *)
Lemma zap_nuls_loop_spec fuel p lim eol s :
  eol <> 0 -> (p <= lim)%nat -> (lim - p < fuel)%nat ->
  (lim < length (buffer s))%nat ->
  exists s', zap_nuls_loop fuel p lim eol s = Ret tt s'
    /\ s' = set_buffer (buffer s') s
    /\ length (buffer s') = length (buffer s)
    /\ (forall i, (p <= i < lim)%nat ->
                  buffer s' !! i = zap eol <$> buffer s !! i)
    /\ (forall i, (i < p \/ lim < i)%nat -> buffer s' !! i = buffer s !! i)
    /\ buffer s' !! lim = Some eol.
Proof.
  intros Heol. revert p s.
  induction fuel as [| fuel IH]; intros p s Hle Hf Hlen; [lia |].
  cbn [zap_nuls_loop].
  rewrite (bind_Ret _ _ _ _ _ (store_Ret lim 0 s Hlen)).
  set (s1 := set_buffer (<[lim:=0]> (buffer s)) s).
  assert (buffer s1 = <[lim:=0]> (buffer s)) as Hb1 by reflexivity.
  destruct (strlen_spec p s1 lim Hle) as (n & Hn & Hpn & Hz & Hnn).
  { rewrite Hb1. apply list_lookup_insert_eq. exact Hlen. }
  rewrite (bind_Ret _ _ _ _ _ Hn).
  assert (lim < length (buffer s1))%nat as Hlen1
    by (rewrite Hb1, length_insert; exact Hlen).
  rewrite (bind_Ret _ _ _ _ _ (store_Ret lim eol s1 Hlen1)).
  set (s2 := set_buffer (<[lim:=eol]> (buffer s1)) s1).
  assert (buffer s2 = <[lim:=eol]> (<[lim:=0]> (buffer s))) as Hb2 by reflexivity.
  assert (forall i, i <> lim -> buffer s2 !! i = buffer s !! i) as Hne.
  { intros i Hi. rewrite Hb2, !list_lookup_insert_ne by lia. reflexivity. }
  assert (buffer s2 !! lim = Some eol) as Hlim2.
  { rewrite Hb2. apply list_lookup_insert_eq. rewrite length_insert. exact Hlen. }
  assert (length (buffer s2) = length (buffer s)) as Hl2
    by (rewrite Hb2, !length_insert; reflexivity).
  assert (forall i, (p <= i < p + n)%nat -> i <> lim ->
                    buffer s2 !! i = zap eol <$> buffer s !! i) as Hkeep.
  { intros i Hi Hil. rewrite Hne by exact Hil.
    specialize (Hnn i Hi). rewrite Hb1, list_lookup_insert_ne in Hnn by lia.
    destruct (buffer s !! i) as [c |] eqn:Hc; [| reflexivity].
    cbn. rewrite zap_id; [reflexivity |]. intros ->. apply Hnn; first [reflexivity | exact Hc]. }
  destruct (Nat.eqb_spec (p + n) lim) as [Heq | Hneq].
  - exists s2. split; [reflexivity |]. split; [reflexivity |].
    split; [exact Hl2 |]. split; [| split; [| exact Hlim2]].
    + intros i Hi. apply Hkeep; lia.
    + intros i Hi. apply Hne. lia.
  - assert (p + n < lim)%nat as Hlt by lia.
    destruct (zap_run_spec (lim - (p + n)) (p + n) lim eol s2)
      as (q & s3 & Hrun & Hs3 & Hq & Hl3 & Hout & Hin & Hnz);
      [exact Heol | exact Hlt | lia | exact Hlim2 | |].
    { rewrite Hne by lia. rewrite Hb1, list_lookup_insert_ne in Hz by lia.
      exact Hz. }
    rewrite (bind_Ret _ _ _ _ _ Hrun).
    destruct (IH q s3) as (s' & Hloop & Hs' & Hl' & Hmid & Hout' & Hlim');
      [lia | lia | rewrite Hl3, Hl2; exact Hlen |].
    exists s'. split; [exact Hloop |].
    split; [rewrite Hs' at 1; rewrite Hs3; reflexivity |].
    split; [rewrite Hl', Hl3; exact Hl2 |].
    split; [| split; [| exact Hlim']].
    + intros i Hi. destruct (decide (q <= i)%nat) as [Hqi | Hqi].
      * rewrite Hmid by lia. f_equal. etrans; [apply Hout; lia | apply Hne; lia].
      * rewrite Hout' by lia.
        destruct (decide (p + n <= i)%nat) as [Hpi | Hpi].
        -- destruct (Hin i) as [H1 H2]; [lia |]. etrans; [exact H1 |].
           assert (buffer s !! i = Some 0) as ->
               by (etrans; [symmetry; apply Hne; lia | exact H2]).
           cbn. unfold zap. reflexivity.
        -- etrans; [apply Hout; lia | apply Hkeep; lia].
    + intros i Hi. rewrite Hout' by lia. etrans; [apply Hout; lia | apply Hne; lia].
Qed.

Lemma zap_nuls_spec p lim eol s :
  eol <> 0 -> (p <= lim)%nat -> (lim < length (buffer s))%nat ->
  exists s', zap_nuls p lim eol s = Ret tt s'
    /\ s' = set_buffer (buffer s') s
    /\ length (buffer s') = length (buffer s)
    /\ (forall i, (p <= i < lim)%nat ->
                  buffer s' !! i = zap eol <$> buffer s !! i)
    /\ (forall i, (i < p \/ lim < i)%nat -> buffer s' !! i = buffer s !! i)
    /\ buffer s' !! lim = Some eol.
Proof.
  intros Heol Hle Hlen. unfold zap_nuls.
  destruct (Z.eqb_spec eol 0) as [| _]; [done |].
  apply zap_nuls_loop_spec; [exact Heol | exact Hle | lia | exact Hlen].
Qed.

Lemma zap_nuls_zero p lim s : zap_nuls p lim 0 s = Ret tt s.
Proof. reflexivity. Qed.


Lemma load_Ret p c s : buffer s !! p = Some c -> load p s = Ret c s.
Proof. intros H. unfold load. rewrite H. reflexivity. Qed.

Lemma load_range_Ret p n s :
  (p + n <= length (buffer s))%nat ->
  load_range p n s = Ret (take n (drop p (buffer s))) s.
Proof. intros H. unfold load_range. case_decide; [reflexivity | lia]. Qed.

Lemma buf_has_nulls_spec buf size s :
  (buf + size < length (buffer s))%nat ->
  exists b, buf_has_nulls buf size s
            = Ret b (set_buffer (<[(buf + size)%nat := 0]> (buffer s)) s)
    /\ (b = false <-> no_nul (buffer s) buf (buf + size)).
Proof.
  intros Hlen. unfold buf_has_nulls.
  rewrite (bind_Ret _ _ _ _ _ (store_Ret _ 0 s Hlen)).
  set (s1 := set_buffer _ s).
  destruct (strlen_spec buf s1 (buf + size)%nat) as (n & Hn & Hle & Hz & Hnn);
    [lia | apply list_lookup_insert_eq; exact Hlen |].
  rewrite (bind_Ret _ _ _ _ _ Hn). exists (negb (n =? size)%nat).
  split; [reflexivity |].
  assert (forall i, (i < buf + size)%nat -> buffer s1 !! i = buffer s !! i) as Hsame.
  { intros i Hi. apply list_lookup_insert_ne. lia. }
  destruct (Nat.eqb_spec n size) as [-> | Hne]; cbn.
  - split; [intros _ | reflexivity].
    intros i Hi. rewrite <- Hsame by lia. apply Hnn. exact Hi.
  - split; [done |]. intros Hno. exfalso.
    apply (Hno (buf + n)%nat); [lia |]. rewrite <- Hsame by lia. exact Hz.
Qed.



Section Limits.
Variable o : options.

End Limits.

Section BinaryCheck.
Variable o : options.

End BinaryCheck.

(** ** The match loops come to an end *)

Lemma finishes_ret {A : Type} (a : A) : finishes (ret a).
Proof. intros s. discriminate. Qed.

Lemma finishes_bind {A B : Type} (m : M A) (k : A -> M B) :
  finishes m -> (forall a, finishes (k a)) -> finishes (bind m k).
Proof.
  intros Hm Hk s. unfold bind. specialize (Hm s).
  destruct (m s) as [a s' | | |]; try done. apply Hk.
Qed.

Lemma finishes_gets {A : Type} (f : state -> A) : finishes (gets f).
Proof. intros s. discriminate. Qed.

Lemma finishes_modify (f : state -> state) : finishes (modify f).
Proof. intros s. discriminate. Qed.

Lemma finishes_exit {A : Type} (c : Z) : finishes (@exit A c).
Proof. intros s. discriminate. Qed.

Lemma finishes_undefined {A : Type} : finishes (@undefined A).
Proof. intros s. discriminate. Qed.

Lemma finishes_when (b : bool) (m : M unit) : finishes m -> finishes (when b m).
Proof. intros H. destruct b; [exact H | apply finishes_ret]. Qed.

Lemma finishes_load p : finishes (load p).
Proof. intros s. unfold load. destruct (buffer s !! p); discriminate. Qed.

Lemma finishes_store p c : finishes (store p c).
Proof. intros s. unfold store. case_decide; discriminate. Qed.

Lemma finishes_load_range p n : finishes (load_range p n).
Proof. intros s. unfold load_range. case_decide; discriminate. Qed.

Lemma finishes_strlen p : finishes (strlen p).
Proof. intros s. unfold strlen. destruct (strlen_list _); discriminate. Qed.

Lemma finishes_skip_easy_bytes X p : finishes (skip_easy_bytes X p).
Proof. intros s. unfold skip_easy_bytes. destruct (skip_easy _ _); discriminate. Qed.

Create HintDb fin discriminated.

#[export] Hint Resolve finishes_ret finishes_gets finishes_modify finishes_exit
  finishes_undefined finishes_load finishes_store finishes_load_range
  finishes_strlen finishes_skip_easy_bytes : fin.

Ltac fin_step :=
  cbv beta;
  lazymatch goal with
  | |- finishes (bind _ _) => apply finishes_bind; [| intros ?]
  | |- finishes (when _ _) => apply finishes_when
  | |- finishes (if ?b then _ else _) => destruct b
  | |- finishes (match ?x with _ => _ end) => destruct x
  | |- finishes (let '(_, _) := ?x in _) => destruct x
  | |- finishes _ => solve [auto 2 with fin nocore]
  end.

Ltac fin := repeat fin_step.

Lemma memchr_spec buf p n c q :
  memchr buf p n c = Some q ->
  (p <= q < p + n)%nat /\ buf !! q = Some c
  /\ forall i, (p <= i < q)%nat -> exists x, buf !! i = Some x /\ x <> c.
Proof.
  revert p. induction n as [| n IH]; intros p; cbn [memchr]; [discriminate |].
  destruct (buf !! p) as [x |] eqn:Hx; [| discriminate].
  destruct (Z.eqb_spec x c) as [-> | Hne].
  - intros [= <-]. split; [lia |]. split; [exact Hx |]. intros i Hi. lia.
  - intros H. destruct (IH _ H) as (Hr & Hq & Hbefore).
    split; [lia |]. split; [exact Hq |].
    intros i Hi. destruct (decide (i = p)) as [-> | Hip].
    + exists x. split; [exact Hx | exact Hne].
    + apply Hbefore. lia.
Qed.

Lemma skip_easy_spec X l k :
  skip_easy X l = Some k ->
  exists c, l !! k = Some c /\ Z.land c (unibyte_mask (locale_of X)) <> 0.
Proof.
  revert k. induction l as [| c l IH]; intros k; cbn [skip_easy]; [discriminate |].
  destruct (Z.eqb_spec (Z.land c (unibyte_mask (locale_of X))) 0) as [Hz | Hnz].
  - destruct (skip_easy X l) as [k' |] eqn:Hk; [| discriminate].
    intros [= <-]. apply (IH k' eq_refl).
  - intros [= <-]. exists c. split; [reflexivity | exact Hnz].
Qed.

Section Finishes.
Variable X : collaborators.
Variable o : options.

Hypothesis Hstart : start_contract (execute X).
Hypothesis Hline : line_contract (execute X).
Hypothesis Hlocale : locale_contract (locale_of X).

Lemma finishes_fputs_errno l : finishes (fputs_errno l).
Proof. unfold fputs_errno. fin. Qed.
Lemma finishes_putchar_errno c : finishes (putchar_errno c).
Proof. unfold putchar_errno. fin. Qed.
Hint Resolve finishes_fputs_errno finishes_putchar_errno : fin.
Lemma finishes_fwrite_errno p n : finishes (fwrite_errno p n).
Proof. unfold fwrite_errno. fin. Qed.
Lemma finishes_pr_sgr_start l : finishes (pr_sgr_start o l).
Proof. unfold pr_sgr_start. fin. Qed.
Lemma finishes_pr_sgr_end l : finishes (pr_sgr_end o l).
Proof. unfold pr_sgr_end. fin. Qed.
Hint Resolve finishes_fwrite_errno finishes_pr_sgr_start finishes_pr_sgr_end : fin.
Lemma finishes_pr_sgr_start_if l : finishes (pr_sgr_start_if o l).
Proof. unfold pr_sgr_start_if. fin. Qed.
Lemma finishes_pr_sgr_end_if l : finishes (pr_sgr_end_if o l).
Proof. unfold pr_sgr_end_if. fin. Qed.
Hint Resolve finishes_pr_sgr_start_if finishes_pr_sgr_end_if : fin.
Lemma finishes_ts_error c l : finishes (ts_error c l).
Proof. unfold ts_error. fin. Qed.
Hint Resolve finishes_ts_error : fin.
Lemma finishes_add_count a b : finishes (add_count a b).
Proof. unfold add_count. fin. Qed.
Hint Resolve finishes_add_count : fin.
Lemma finishes_nlscan lim : finishes (nlscan o lim).
Proof. unfold nlscan. fin. Qed.
Lemma finishes_print_filename : finishes (print_filename o).
Proof. unfold print_filename. fin. Qed.
Lemma finishes_print_sep c : finishes (print_sep o c).
Proof. unfold print_sep. fin. Qed.
Lemma finishes_print_offset pos w c : finishes (print_offset o pos w c).
Proof. unfold print_offset. fin. Qed.
Hint Resolve finishes_nlscan finishes_print_filename finishes_print_sep
  finishes_print_offset : fin.

(** The loop of [buf_has_encoding_errors] moves forward by a character
    at each turn. *)
Lemma finishes_encoding_errors_loop fuel lim p mbs :
  (lim - p < fuel)%nat -> finishes (encoding_errors_loop X fuel lim p mbs).
Proof.
  revert p mbs. induction fuel as [| fuel IH]; intros p mbs Hf; [lia |].
  cbn [encoding_errors_loop]. intros s. unfold bind at 1, skip_easy_bytes.
  destruct (skip_easy X (drop p (buffer s))) as [k |] eqn:Hk; [| discriminate].
  destruct (skip_easy_spec X _ _ Hk) as (c & Hc & Hmask).
  rewrite lookup_drop in Hc.
  destruct (Nat.ltb_spec (p + k) lim) as [Hlt | Hge]; [| discriminate].
  unfold bind at 1, load_range. case_decide as Hlen; [| discriminate].
  assert (exists bytes, take (lim - (p + k)) (drop (p + k) (buffer s)) = c :: bytes)
    as [bytes Hbytes].
  { destruct (lim - (p + k))%nat as [| n] eqn:Hn; [lia |].
    rewrite (drop_S _ c _ Hc). cbn. eauto. }
  rewrite Hbytes.
  destruct (mbrlen (locale_of X) (c :: bytes) mbs) as [[| | clen] mbs'] eqn:Hmb;
    try discriminate.
  apply IH. pose proof (Hlocale _ _ _ _ _ Hmask Hmb). lia.
Qed.

Lemma finishes_buf_has_encoding_errors buf size :
  finishes (buf_has_encoding_errors X buf size).
Proof.
  unfold buf_has_encoding_errors. fin.
  apply finishes_encoding_errors_loop. lia.
Qed.
Hint Resolve finishes_buf_has_encoding_errors : fin.

Lemma finishes_line_has_encoding_errors beg len :
  finishes (line_has_encoding_errors X o beg len).
Proof. unfold line_has_encoding_errors. fin. Qed.
Hint Resolve finishes_line_has_encoding_errors : fin.

Lemma finishes_print_line_head beg len lim sep :
  finishes (print_line_head X o beg len lim sep).
Proof. unfold print_line_head. fin. Qed.
Hint Resolve finishes_print_line_head : fin.

(** The loop of [print_line_middle]: after a match at [b] the next
    search starts behind [b], for an empty match too. *)
Lemma finishes_print_line_middle_loop fuel beg lim lc mc cur mid :
  (beg <= cur)%nat -> (lim - cur < fuel)%nat ->
  finishes (print_line_middle_loop X o fuel beg lim lc mc cur mid).
Proof.
  revert cur mid. induction fuel as [| fuel IH]; intros cur mid Hbeg Hf; [lia |].
  cbn [print_line_middle_loop].
  destruct (Nat.ltb_spec cur lim) as [Hlt | Hge]; [| fin].
  apply finishes_bind; [fin | intros range].
  destruct (execute X range (Some (cur - beg)%nat)) as [[off size] |] eqn:He;
    [| fin].
  apply Hstart in He.
  destruct (Nat.eqb_spec (beg + off) lim) as [| Hne]; [fin |].
  destruct (Nat.eqb_spec size 0) as [-> | Hsz].
  - apply IH; lia.
  - apply finishes_bind; [fin | intros r].
    destruct r as [mid' |]; [| fin].
    do 4 (apply finishes_bind; [fin | intros _]).
    apply IH; lia.
Qed.

Lemma finishes_print_line_middle fuel beg lim lc mc :
  (lim - beg < fuel)%nat ->
  finishes (print_line_middle X o fuel beg lim lc mc).
Proof.
  intros Hf. unfold print_line_middle.
  apply finishes_bind; [apply finishes_print_line_middle_loop; lia |].
  intros r. fin.
Qed.

Lemma finishes_print_line_tail beg lim lc : finishes (print_line_tail o beg lim lc).
Proof. unfold print_line_tail. fin. Qed.
Hint Resolve finishes_print_line_tail : fin.

Lemma finishes_prline fuel beg lim sep :
  (lim - beg < fuel)%nat -> finishes (prline X o fuel beg lim sep).
Proof.
  intros Hf. pose proof (finishes_print_line_middle fuel beg lim) as Hmid.
  specialize (fun lc mc => Hmid lc mc Hf).
  unfold prline, fflush_errno. fin.
Qed.

Lemma finishes_prpending_loop n fuel lim :
  (lim < fuel)%nat -> finishes (prpending_loop X o n fuel lim).
Proof.
  intros Hf. induction n as [| n IH]; cbn [prpending_loop]; [fin |].
  apply finishes_bind; [fin | intros s]. cbn [id].
  destruct (lastout s) as [lo |]; [| fin].
  destruct ((0 <? pending s) && (lo <? lim)%nat); [| fin].
  apply finishes_bind; [fin | intros _].
  apply finishes_bind; [fin | intros _].
  destruct (memchr (buffer s) lo (lim - lo) (eolbyte o)) as [nl |] eqn:Hnl; [| fin].
  apply memchr_spec in Hnl as (Hr & _).
  apply finishes_bind; [fin | intros sel].
  apply finishes_bind; [| intros _; exact IH].
  destruct sel; [apply finishes_prline; lia | fin].
Qed.

Lemma finishes_prpending fuel lim :
  (lim < fuel)%nat -> finishes (prpending X o fuel lim).
Proof.
  intros Hf. pose proof (fun n => finishes_prpending_loop n fuel lim Hf).
  unfold prpending, lock_output, unlock_output. fin.
Qed.

Lemma finishes_prtext_context_loop n fuel p beg :
  (beg - p <= n)%nat -> (beg < fuel)%nat ->
  finishes (prtext_context_loop X o n fuel p beg).
Proof.
  intros Hn Hf. revert p Hn. induction n as [| n IH]; intros p Hn;
    cbn [prtext_context_loop].
  - destruct (Nat.ltb_spec p beg); [lia | fin].
  - destruct (Nat.ltb_spec p beg) as [Hlt | Hge]; [| fin].
    apply finishes_bind; [fin | intros _].
    apply finishes_bind; [fin | intros buf].
    destruct (memchr buf p (beg - p) (eolbyte o)) as [nl |] eqn:Hnl; [| fin].
    apply memchr_spec in Hnl as (Hr & _).
    apply finishes_bind; [apply finishes_prline; lia | intros _].
    apply IH. lia.
Qed.

Lemma finishes_prtext_invert_loop k fuel p lim n :
  (lim < fuel)%nat -> finishes (prtext_invert_loop X o k fuel p lim n).
Proof.
  intros Hf. revert p n. induction k as [| k IH]; intros p n;
    cbn [prtext_invert_loop]; [fin |].
  apply finishes_bind; [fin | intros s]. cbn [id].
  destruct ((p <? lim)%nat && (n <? outleft s)); [| fin].
  apply finishes_bind; [fin | intros _].
  destruct (memchr (buffer s) p (lim - p) (eolbyte o)) as [nl |] eqn:Hnl; [| fin].
  apply memchr_spec in Hnl as (Hr & _).
  apply finishes_bind; [| intros _; apply IH].
  apply finishes_when. apply finishes_prline. lia.
Qed.

Lemma finishes_prtext fuel beg lim :
  (beg < fuel)%nat -> (lim < fuel)%nat -> finishes (prtext X o fuel beg lim).
Proof.
  intros Hb Hl. unfold prtext, lock_output, unlock_output.
  apply finishes_bind; [fin | intros s].
  apply finishes_bind; [apply finishes_when, finishes_prpending; lia | intros _].
  apply finishes_bind; [fin | intros _].
  apply finishes_bind; [fin | intros s1]. cbn [id].
  apply finishes_bind.
  - destruct (negb (out_quiet s1)); [| fin].
    destruct (leading_context _ _ _ _ _) as [p |]; [| fin].
    apply finishes_bind; [fin | intros _].
    apply finishes_bind; [| intros _; fin].
    apply finishes_prtext_context_loop; lia.
  - intros p. apply finishes_bind; [| intros [n p']; fin].
    destruct (out_invert o).
    + apply finishes_prtext_invert_loop. lia.
    + apply finishes_bind; [fin | intros s2].
      apply finishes_bind; [| intros _; fin].
      apply finishes_when, finishes_prline. lia.
Qed.

(** The loop of [grepbuf]: the next search starts behind the line that
    [execute] reported. *)
Lemma finishes_grepbuf_loop fuel p lim :
  (lim + (lim - p) < fuel)%nat -> finishes (grepbuf_loop X o fuel p lim).
Proof.
  revert p. induction fuel as [| fuel IH]; intros p Hf; [lia |].
  cbn [grepbuf_loop].
  destruct (Nat.ltb_spec p lim) as [Hlt | Hge]; [| fin].
  assert (forall off size,
             (1 <= off + size)%nat -> (off + size <= lim - p)%nat ->
             finishes
               (if negb (out_invert o) && (p + off =? lim)%nat then ret tt
                else if negb (out_invert o) || (p <? p + off)%nat then
                  prtext X o (S fuel) (if out_invert o then p else (p + off)%nat)
                         (if out_invert o then (p + off)%nat
                          else (p + off + size)%nat) ;;;
                  s <- gets id ;;
                  if (outleft s =? 0) || done_on_match s then
                    if exit_on_match o then
                      exit (if errseen s then exit_failure o else EXIT_SUCCESS)
                    else ret tt
                  else grepbuf_loop X o fuel (p + off + size) lim
                else grepbuf_loop X o fuel (p + off + size) lim)) as Hstep.
  { intros off size H1 H2.
    assert (finishes (grepbuf_loop X o fuel (p + off + size) lim)) as Hnext
        by (apply IH; lia).
    destruct (negb (out_invert o) && (p + off =? lim)%nat); [fin |].
    destruct (negb (out_invert o) || (p <? p + off)%nat); [| exact Hnext].
    apply finishes_bind; [| intros _; fin].
    destruct (out_invert o); apply finishes_prtext; lia. }
  intros s. unfold bind at 1, load_range.
  case_decide as Hlen; [| discriminate].
  set (range := take (lim - p) (drop p (buffer s))).
  assert (length range = (lim - p)%nat) as Hrange.
  { subst range. rewrite length_take, length_drop. lia. }
  destruct (execute X range None) as [[off size] |] eqn:He.
  - apply Hline in He as [H1 H2]. apply (Hstep off size); lia.
  - pose proof (Hstep (lim - p)%nat 0%nat ltac:(lia) ltac:(lia) s) as Hs.
    destruct (out_invert o); [exact Hs | discriminate].
Qed.

Lemma finishes_grepbuf fuel beg lim :
  (lim + (lim - beg) < fuel)%nat -> finishes (grepbuf X o fuel beg lim).
Proof.
  intros Hf. pose proof (finishes_grepbuf_loop fuel beg lim Hf).
  unfold grepbuf. fin.
Qed.
End Finishes.

(** The matcher and the locales of the examples keep the contracts. *)
Lemma line_search_bounds sel eol l off acc o' size :
  line_search sel eol l off acc = Some (o', size) ->
  (1 <= size)%nat /\ (off <= o')%nat
  /\ (o' + size <= off + length acc + length l)%nat.
Proof.
  revert off acc. induction l as [| c l IH]; intros off acc; cbn [line_search];
    [discriminate |].
  destruct (c =? eol).
  - destruct (sel (rev acc)).
    + intros [= <- <-]. cbn. lia.
    + intros H. apply IH in H. cbn in *. lia.
  - intros H. apply IH in H. cbn in *. lia.
Qed.

Lemma fixed_execute_line_contract eol pat : line_contract (fixed_execute eol pat).
Proof.
  intros range off size H. cbn in H. apply line_search_bounds in H. cbn in H. lia.
Qed.

Lemma fixed_execute_start_contract eol pat : start_contract (fixed_execute eol pat).
Proof.
  intros range start off size H. cbn in H.
  destruct (find_sub pat (drop start range)); [| discriminate].
  injection H as <- <-. lia.
Qed.

Lemma unibyte_locale_contract : locale_contract unibyte_locale.
Proof. intros c bytes mbs clen mbs' _ [= <- _]. lia. Qed.

Lemma ascii_locale_contract : locale_contract ascii_locale.
Proof.
  intros c bytes mbs clen mbs' _ H. cbn in H.
  destruct (c <? 128); [| discriminate]. injection H as <-. lia.
Qed.

(** ** Counting lines and printing numbers *)

Lemma memchr_None buf p n c :
  memchr buf p n c = None -> (p + n <= length buf)%nat ->
  forall i, (p <= i < p + n)%nat -> buf !! i <> Some c.
Proof.
  revert p. induction n as [| n IH]; intros p; cbn [memchr]; [lia |].
  destruct (buf !! p) as [x |] eqn:Hx.
  - destruct (Z.eqb_spec x c) as [| Hne]; [discriminate |].
    intros H Hlen i Hi. destruct (decide (i = p)) as [-> | Hip].
    + rewrite Hx. congruence.
    + apply (IH (S p)); [exact H | lia | lia].
  - intros _ Hlen. apply lookup_ge_None in Hx. lia.
Qed.

Lemma count_byte_app c l1 l2 :
  count_byte c (l1 ++ l2) = (count_byte c l1 + count_byte c l2)%nat.
Proof.
  induction l1 as [| x l1 IH]; cbn; [reflexivity |].
  destruct (x =? c); rewrite IH; lia.
Qed.

Lemma slice_nil buf a b : (b <= a)%nat -> slice buf a b = [].
Proof. intros H. unfold slice. replace (b - a)%nat with 0%nat by lia. reflexivity. Qed.

Lemma slice_cons buf a b x :
  buf !! a = Some x -> (a < b)%nat -> slice buf a b = x :: slice buf (S a) b.
Proof.
  intros Hx Hlt. unfold slice.
  replace (b - a)%nat with (S (b - S a)) by lia.
  rewrite (drop_S _ _ _ Hx). reflexivity.
Qed.

Lemma slice_split buf a m b :
  (a <= m <= b)%nat -> slice buf a b = slice buf a m ++ slice buf m b.
Proof.
  intros H. unfold slice.
  replace (b - a)%nat with ((m - a) + (b - m))%nat by lia.
  rewrite <- take_take_drop, drop_drop.
  replace (a + (m - a))%nat with m by lia. reflexivity.
Qed.

Lemma slice_length buf a b :
  (b <= length buf)%nat -> length (slice buf a b) = (b - a)%nat.
Proof. intros H. unfold slice. rewrite length_take, length_drop. lia. Qed.

Lemma slice_lookup buf a b i :
  (i < b - a)%nat -> slice buf a b !! i = buf !! (a + i)%nat.
Proof. intros H. unfold slice. rewrite lookup_take_lt by lia. apply lookup_drop. Qed.

Lemma count_byte_slice_none c buf a b :
  (forall i, (a <= i < b)%nat -> buf !! i <> Some c) ->
  count_byte c (slice buf a b) = 0%nat.
Proof.
  intros H. remember (b - a)%nat as n eqn:Hn. revert a H Hn.
  induction n as [| n IH]; intros a H Hn.
  - rewrite slice_nil by lia. reflexivity.
  - destruct (buf !! a) as [x |] eqn:Hx.
    + rewrite (slice_cons _ _ _ _ Hx) by lia. cbn.
      destruct (Z.eqb_spec x c) as [-> | _].
      * exfalso. apply (H a); [lia | exact Hx].
      * apply IH; [| lia]. intros i Hi. apply H. lia.
    + unfold slice. rewrite drop_ge; [by rewrite take_nil |].
      apply lookup_ge_None. exact Hx.
Qed.

Section Counting.
Variable o : options.

(** The loop of [nlscan] counts the end-of-line bytes. *)
Lemma nlscan_loop_count fuel buf beg lim n :
  (lim - beg <= fuel)%nat -> (lim <= length buf)%nat ->
  nlscan_loop o fuel buf beg lim n
  = n + Z.of_nat (count_byte (eolbyte o) (slice buf beg lim)).
Proof.
  revert beg n. induction fuel as [| fuel IH]; intros beg n Hf Hlen;
    cbn [nlscan_loop].
  - rewrite slice_nil by lia. cbn. lia.
  - destruct (Nat.ltb_spec beg lim) as [Hlt | Hge].
    2:{ rewrite slice_nil by lia. cbn. lia. }
    destruct (memchr buf beg (lim - beg) (eolbyte o)) as [q |] eqn:Hq.
    + apply memchr_spec in Hq as (Hr & Hbq & Hbefore).
      rewrite IH by lia.
      rewrite (slice_split buf beg q lim) by lia.
      rewrite (slice_cons buf q lim _ Hbq) by lia.
      rewrite count_byte_app. cbn [count_byte].
      rewrite Z.eqb_refl.
      rewrite (count_byte_slice_none _ buf beg q); [lia |].
      intros i Hi. destruct (Hbefore i Hi) as (x & -> & Hne). congruence.
    + rewrite count_byte_slice_none; [lia |].
      intros i Hi. apply (memchr_None _ _ _ _ Hq); lia.
Qed.
End Counting.


Lemma decimal_value_snoc ds d :
  decimal_value (ds ++ [d]) = 10 * decimal_value ds + (d - 48).
Proof. unfold decimal_value. rewrite fold_left_app. reflexivity. Qed.

(** The loop of [print_offset] writes the decimal digits of [pos], the
    first of which is not 0 unless [pos] is. *)
Lemma offset_digits_spec k fuel pos w acc :
  0 <= pos < 10 ^ Z.of_nat k -> (1 <= k <= fuel)%nat ->
  exists ds, offset_digits fuel pos w acc = (ds ++ acc, w - Z.of_nat (length ds))
    /\ Forall (fun d => 48 <= d <= 57) ds
    /\ decimal_value ds = pos
    /\ (1 <= length ds <= k)%nat
    /\ (0 < pos -> exists d ds', ds = d :: ds' /\ d <> 48).
Proof.
  revert fuel pos w acc. induction k as [| k IH]; intros fuel pos w acc Hpos Hk;
    [lia |].
  destruct fuel as [| fuel]; [lia |]. cbn [offset_digits].
  assert (0 <= pos mod 10 < 10) as Hmod by (apply Z.mod_pos_bound; lia).
  assert (pos = 10 * (pos / 10) + pos mod 10) as Hdiv by (apply Z.div_mod; lia).
  destruct (Z.eqb_spec (pos / 10) 0) as [Hz | Hnz].
  - exists [48 + pos mod 10]. split; [reflexivity |].
    split; [constructor; [lia | constructor] |].
    split; [unfold decimal_value; cbn; lia |].
    split; [cbn; lia |].
    intros Hp. exists (48 + pos mod 10), []. split; [reflexivity | lia].
  - assert (0 < pos / 10) as Hq by (pose proof (Z.div_pos pos 10); lia).
    assert (pos / 10 < 10 ^ Z.of_nat k) as Hlt.
    { apply Z.div_lt_upper_bound; [lia |].
      replace (Z.of_nat (S k)) with (Z.of_nat k + 1) in Hpos by lia.
      rewrite Z.pow_add_r, Z.pow_1_r in Hpos by lia. lia. }
    assert (1 <= k)%nat as Hk1.
    { destruct k; [| lia]. cbn in Hlt. lia. }
    destruct (IH fuel (pos / 10) (w - 1) ((48 + pos mod 10) :: acc))
      as (ds & Hrun & Hdig & Hval & Hlen & Hlead); [lia | lia |].
    exists (ds ++ [48 + pos mod 10]). rewrite Hrun.
    split; [rewrite <- app_assoc, length_app; cbn; f_equal; lia |].
    split; [apply Forall_app; split; [exact Hdig | constructor; [lia | constructor]] |].
    split; [rewrite decimal_value_snoc, Hval; lia |].
    split; [rewrite length_app; cbn; lia |].
    intros _. destruct (Hlead Hq) as (d & ds' & -> & Hd).
    exists d, (ds' ++ [48 + pos mod 10]). split; [reflexivity | exact Hd].
Qed.


Lemma no_nul_or_nul buf a b :
  no_nul buf a b \/ exists i, (a <= i < b)%nat /\ buf !! i = Some 0.
Proof.
  induction b as [| b IH].
  - left. intros i Hi. lia.
  - destruct IH as [Hno | (i & Hi & Hz)].
    + destruct (decide (buf !! b = Some 0)) as [Hb | Hb].
      * destruct (decide (a <= b)%nat).
        -- right. exists b. split; [lia | exact Hb].
        -- left. intros i Hi. lia.
      * left. intros i Hi. destruct (decide (i = b)) as [-> | Hne];
          [exact Hb | apply Hno; lia].
    + right. exists i. split; [lia | exact Hz].
Qed.

Lemma returns_bind_ret {A B : Type} (a : A) (k : A -> M B) (P : B -> Prop) :
  returns (k a) P -> returns (bind (ret a) k) P.
Proof. intros H s. exact (H s). Qed.

(** ** The selected lines in plain output *)

Lemma line_search_line sel eol body rest off acc :
  eol_free eol body ->
  line_search sel eol (body ++ eol :: rest) off acc
  = if sel (rev acc ++ body)
    then Some (off, S (length acc + length body))
    else line_search sel eol rest (off + S (length acc + length body)) [].
Proof.
  intros Hfree. revert acc. induction body as [| c body IH]; intros acc; cbn.
  - rewrite Z.eqb_refl, app_nil_r, Nat.add_0_r. reflexivity.
  - unfold eol_free in Hfree, IH. apply Forall_cons_1 in Hfree as [Hc Hfree].
    destruct (Z.eqb_spec c eol) as [| _]; [done |].
    rewrite (IH Hfree). cbn [rev length]. rewrite <- app_assoc. cbn [app].
    replace (S (length acc) + length body)%nat
      with (length acc + S (length body))%nat by lia.
    reflexivity.
Qed.

(** The first selected line of a range of lines: the lines in front of
    it are not selected. *)
Lemma line_search_unlines sel eol lines off :
  Forall (eol_free eol) lines ->
  line_search sel eol (unlines eol lines) off [] =
  match list_find (fun l => sel l = true) lines with
  | Some (j, l) => Some ((off + length (unlines eol (take j lines)))%nat,
                         S (length l))
  | None => None
  end.
Proof.
  intros Hfree. revert off. induction lines as [| l lines IH]; intros off.
  - reflexivity.
  - apply Forall_cons_1 in Hfree as [Hl Hfree].
    unfold unlines at 1. cbn [List.map concat]. rewrite <- app_assoc. cbn [app].
    rewrite (line_search_line _ _ _ _ _ _ Hl). cbn [rev app length Nat.add].
    fold (unlines eol lines).
    cbn [list_find]. destruct (decide (sel l = true)) as [Hs | Hs].
    + rewrite Hs. cbn. f_equal. f_equal. unfold unlines. cbn. lia.
    + destruct (sel l); [done |]. rewrite IH by exact Hfree.
      destruct (list_find _ lines) as [[j l'] |]; cbn; [| reflexivity].
      f_equal. f_equal. unfold unlines. cbn.
      rewrite length_app, length_app. cbn. lia.
Qed.

Lemma printed_refl s : printed s s.
Proof. unfold printed. now destruct s. Qed.

Lemma printed_trans s1 s2 s3 : printed s1 s2 -> printed s2 s3 -> printed s1 s3.
Proof.
  unfold printed. intros H12 H23. rewrite H23 at 1. rewrite H12 at 1.
  reflexivity.
Qed.

Lemma printed_buffer s s' : printed s s' -> buffer s' = buffer s.
Proof. intros H. rewrite H. reflexivity. Qed.

Lemma printed_flags s s' :
  printed s s' -> out_quiet s' = out_quiet s /\ done_on_match s' = done_on_match s.
Proof. intros H. rewrite H. split; reflexivity. Qed.

Lemma shown_printed s s' out : printed s s' -> shown s' out = shown s out.
Proof. intros H. unfold shown. rewrite (proj1 (printed_flags _ _ H)). reflexivity. Qed.

Lemma shown_app s a b : shown s (a ++ b) = shown s a ++ shown s b.
Proof. unfold shown. destruct (out_quiet s); reflexivity. Qed.

Lemma shown_nil s : shown s [] = [].
Proof. unfold shown. destruct (out_quiet s); reflexivity. Qed.

Lemma unlines_cons eol l lines :
  unlines eol (l :: lines) = l ++ eol :: unlines eol lines.
Proof. unfold unlines. cbn. rewrite <- app_assoc. reflexivity. Qed.

Lemma unlines_app eol l1 l2 :
  unlines eol (l1 ++ l2) = unlines eol l1 ++ unlines eol l2.
Proof. unfold unlines. rewrite List.map_app, concat_app. reflexivity. Qed.

Lemma unlines_length_ge eol lines : (length lines <= length (unlines eol lines))%nat.
Proof.
  induction lines as [| l lines IH]; [cbn; lia |].
  rewrite unlines_cons, length_app. cbn. lia.
Qed.

Lemma slice_app_inv buf p lim l1 l2 :
  slice buf p lim = l1 ++ l2 -> (p <= lim <= length buf)%nat ->
  slice buf p (p + length l1) = l1 /\ slice buf (p + length l1) lim = l2
  /\ (p + length l1 <= lim)%nat.
Proof.
  intros H Hr.
  assert (length l1 + length l2 = lim - p)%nat as Hlen.
  { rewrite <- length_app, <- H. apply slice_length. lia. }
  rewrite (slice_split buf p (p + length l1) lim) in H by lia.
  apply app_inj_1 in H; [| rewrite slice_length by lia; lia].
  destruct H as [H1 H2]. split; [exact H1 |]. split; [exact H2 | lia].
Qed.

Lemma slice_drop buf p lim :
  drop p buf = slice buf p lim ++ drop lim buf \/ (lim < p)%nat.
Proof.
  destruct (decide (lim < p)%nat) as [| Hge]; [right; assumption | left].
  unfold slice. rewrite <- (take_drop (lim - p) (drop p buf)) at 1.
  rewrite drop_drop. replace (p + (lim - p))%nat with lim by lia. reflexivity.
Qed.

Lemma memchr_first buf p n c body rest :
  drop p buf = body ++ c :: rest -> Forall (fun x => x <> c) body ->
  (length body < n)%nat ->
  memchr buf p n c = Some (p + length body)%nat.
Proof.
  revert p n. induction body as [| x body IH]; intros p n Hd Hfree Hn.
  - destruct n as [| n]; [cbn in Hn; lia |]. cbn [memchr].
    assert (buf !! p = Some c) as ->.
    { rewrite <- (Nat.add_0_r p), <- lookup_drop, Hd. reflexivity. }
    rewrite Z.eqb_refl. cbn. f_equal. lia.
  - destruct n as [| n]; [cbn in Hn; lia |]. cbn [memchr].
    apply Forall_cons_1 in Hfree as [Hx Hfree].
    assert (buf !! p = Some x) as ->.
    { rewrite <- (Nat.add_0_r p), <- lookup_drop, Hd. reflexivity. }
    destruct (Z.eqb_spec x c) as [| _]; [done |].
    rewrite (IH (S p) n); [cbn; f_equal; lia | | exact Hfree | cbn in Hn; lia].
    replace (S p) with (p + 1)%nat by lia.
    rewrite <- (drop_drop buf 1 p), Hd. reflexivity.
Qed.

(** The first line that [sel] accepts, or none. *)
Lemma line_search_first sel eol lines off :
  Forall (eol_free eol) lines ->
  (exists pre l post,
      lines = pre ++ l :: post
      /\ Forall (fun x => sel x = false) pre /\ sel l = true
      /\ line_search sel eol (unlines eol lines) off []
         = Some ((off + length (unlines eol pre))%nat, S (length l)))
  \/ (Forall (fun x => sel x = false) lines
      /\ line_search sel eol (unlines eol lines) off [] = None).
Proof.
  intros Hfree. revert off. induction lines as [| l lines IH]; intros off.
  - right. split; [constructor | reflexivity].
  - apply Forall_cons_1 in Hfree as [Hl Hfree].
    rewrite unlines_cons, (line_search_line _ _ _ _ _ _ Hl).
    cbn [rev app length Nat.add].
    destruct (sel l) eqn:Hs.
    + left. exists [], l, lines. split; [reflexivity |].
      split; [constructor |]. split; [exact Hs |]. cbn. f_equal. f_equal. lia.
    + destruct (IH Hfree (off + S (length l))%nat)
        as [(pre & l' & post & -> & Hpre & Hl' & Hrun) | [Hall Hrun]].
      * left. exists (l :: pre), l', post. split; [reflexivity |].
        split; [constructor; assumption |]. split; [exact Hl' |].
        rewrite Hrun. f_equal. f_equal. rewrite unlines_cons, length_app. cbn. lia.
      * right. split; [constructor; assumption | exact Hrun].
Qed.

Lemma selected_lines_app sel inv l1 l2 :
  selected_lines sel inv (l1 ++ l2)
  = selected_lines sel inv l1 ++ selected_lines sel inv l2.
Proof. apply List.filter_app. Qed.

Lemma selected_lines_none sel l :
  Forall (fun x => sel x = false) l -> selected_lines sel false l = [].
Proof.
  induction 1 as [| x l Hx _ IH]; [reflexivity |].
  cbn. rewrite Hx. exact IH.
Qed.

Lemma selected_lines_all sel l :
  Forall (fun x => sel x = false) l -> selected_lines sel true l = l.
Proof.
  induction 1 as [| x l Hx _ IH]; [reflexivity |].
  cbn. rewrite Hx. cbn. f_equal. exact IH.
Qed.

Section Plain.
Variable X : collaborators.
Variable o : options.
Hypothesis Hplain : plain_output o.
Hypothesis Hnoenc : no_encoding_test X o.

Lemma line_has_encoding_errors_plain beg len s :
  (beg + len < length (buffer s))%nat ->
  line_has_encoding_errors X o beg len s = Ret false s.
Proof.
  intros Hlt. unfold line_has_encoding_errors.
  destruct Hnoenc as [Ht | Hm].
  - rewrite Ht. reflexivity.
  - destruct (negb _); [| reflexivity].
    destruct (buffer s !! (beg + len)%nat) as [ch |] eqn:Hch.
    2:{ apply lookup_ge_None in Hch. lia. }
    rewrite (bind_Ret _ _ _ _ _ (load_Ret _ _ _ Hch)).
    unfold buf_has_encoding_errors. rewrite Hm. cbn [Z.eqb].
    rewrite (bind_Ret _ _ s false s) by reflexivity.
    rewrite (bind_Ret _ _ s tt s); [reflexivity |].
    rewrite store_Ret by exact Hlt.
    rewrite list_insert_id by exact Hch. f_equal. now destruct s.
Qed.

Lemma print_line_head_plain beg len lim sep s :
  (beg + len < length (buffer s))%nat ->
  print_line_head X o beg len lim sep s = Ret true s.
Proof.
  intros Hlt. destruct Hplain as (_ & _ & Hf & Hl & Hb & _).
  unfold print_line_head.
  rewrite (bind_Ret _ _ _ _ _ (line_has_encoding_errors_plain _ _ _ Hlt)).
  rewrite Hf, Hl, Hb. reflexivity.
Qed.

(** A line is printed as it is. *)
Lemma prline_plain fuel beg lim sep s :
  (beg < lim <= length (buffer s))%nat ->
  prline X o fuel beg lim sep s
  = Ret tt (set_lastout (Some lim)
              (set_stdout (stdout s ++ slice (buffer s) beg lim) s)).
Proof.
  intros Hr. pose proof Hplain as (Hom & Hco & _).
  unfold prline. rewrite Hom, Hco. cbn [negb andb orb Z.eqb].
  destruct (Nat.ltb_spec lim (beg + 1)) as [| _]; [lia |].
  rewrite bind_assoc. rewrite (bind_Ret _ _ s tt s) by reflexivity.
  assert (beg + (lim - beg - 1) < length (buffer s))%nat as Hh by lia.
  rewrite (bind_Ret _ _ _ _ _ (print_line_head_plain _ _ lim sep _ Hh)).
  cbn [negb]. rewrite (bind_Ret _ _ s (Some beg) s) by reflexivity.
  destruct (Nat.ltb_spec beg lim) as [_ |]; [| lia].
  unfold when, fwrite_errno, fflush_errno.
  rewrite bind_assoc.
  assert (beg + (lim - beg) <= length (buffer s))%nat as Hrange by lia.
  rewrite (bind_Ret _ _ _ _ _ (load_range_Ret beg (lim - beg) s Hrange)).
  unfold fputs_errno. unfold bind, modify, ret.
  destruct (line_buffered o); reflexivity.
Qed.

(** A line is printed unless the state is quiet. *)
Lemma prline_when fuel beg lim sep s :
  (beg < lim <= length (buffer s))%nat ->
  exists s1,
    when (negb (out_quiet s)) (prline X o fuel beg lim sep) s = Ret tt s1
    /\ stdout s1 = stdout s ++ shown s (slice (buffer s) beg lim)
    /\ outleft s1 = outleft s
    /\ after_last_match s1 = after_last_match s
    /\ pending s1 = pending s /\ used s1 = used s
    /\ printed s s1.
Proof.
  intros Hr. unfold shown. destruct (out_quiet s) eqn:Hq; cbn [negb when].
  - exists s. split; [reflexivity |]. rewrite app_nil_r.
    repeat (split; [reflexivity |]). apply printed_refl.
  - rewrite (prline_plain fuel beg lim sep s Hr).
    eexists. split; [reflexivity |]. cbn.
    repeat (split; [reflexivity |]). unfold printed. now destruct s.
Qed.

(** The loop of [prtext] on a region of lines that are all selected:
    it prints as many of them as [outleft] allows. *)
Lemma prtext_invert_loop_plain k fuel p lim n s lines :
  slice (buffer s) p lim = unlines (eolbyte o) lines ->
  Forall (eol_free (eolbyte o)) lines ->
  (p <= lim <= length (buffer s))%nat ->
  (length lines <= k)%nat -> 0 <= n ->
  let m := Nat.min (length lines) (Z.to_nat (outleft s - n)) in
  exists s',
    prtext_invert_loop X o k fuel p lim n s
    = Ret (n + Z.of_nat m,
           (p + length (unlines (eolbyte o) (take m lines)))%nat) s'
    /\ stdout s' = stdout s ++ shown s (unlines (eolbyte o) (take m lines))
    /\ outleft s' = outleft s
    /\ after_last_match s' = after_last_match s
    /\ pending s' = pending s /\ used s' = used s
    /\ printed s s'.
Proof.
  revert k p n s. induction lines as [| l lines IH];
    intros k p n s Hsl Hfree Hr Hk Hn m.
  - assert (p = lim) as ->.
    { pose proof (slice_length (buffer s) p lim ltac:(lia)) as Hl.
      rewrite Hsl in Hl. cbn in Hl. lia. }
    exists s. subst m. cbn [length Nat.min take unlines List.map concat].
    rewrite shown_nil, app_nil_r, Nat.add_0_r, Z.add_0_r.
    split; [| repeat (split; [reflexivity |]); apply printed_refl].
    destruct k; cbn [prtext_invert_loop]; [reflexivity |].
    rewrite (bind_Ret _ _ s s s) by reflexivity. cbn [id].
    rewrite Nat.ltb_irrefl. reflexivity.
  - apply Forall_cons_1 in Hfree as [Hl Hfree].
    destruct k as [| k]; [cbn in Hk; lia |].
    rewrite unlines_cons in Hsl.
    change (l ++ eolbyte o :: unlines (eolbyte o) lines)
      with (l ++ [eolbyte o] ++ unlines (eolbyte o) lines) in Hsl.
    rewrite app_assoc in Hsl.
    destruct (slice_app_inv _ _ _ _ _ Hsl Hr) as (Hline & Hrest & Hle).
    rewrite length_app in Hline, Hrest, Hle. cbn [length] in Hline, Hrest, Hle.
    cbn [prtext_invert_loop].
    rewrite (bind_Ret _ _ s s s) by reflexivity. cbn [id].
    destruct (Nat.ltb_spec p lim) as [_ |]; [| lia]. cbn [andb].
    destruct (Z.ltb_spec n (outleft s)) as [Hlt | Hge].
    + assert (p + (lim - p) <= length (buffer s))%nat as Hrange by lia.
      rewrite (bind_Ret _ _ _ _ _ (load_range_Ret p (lim - p) s Hrange)).
      rewrite (memchr_first (buffer s) p (lim - p) (eolbyte o) l
                 (unlines (eolbyte o) lines ++ drop lim (buffer s))).
      2:{ destruct (slice_drop (buffer s) p lim) as [-> |]; [| lia].
          rewrite Hsl, <- !app_assoc. reflexivity. }
      2:{ exact Hl. }
      2:{ lia. }
      replace (p + length l + 1)%nat with (p + (length l + 1))%nat by lia.
      destruct (prline_when fuel p (p + (length l + 1)) SEP_CHAR_SELECTED s
                            ltac:(lia))
        as (s1 & Hrun1 & Hout1 & Hol1 & Ha1 & Hp1 & Hu1 & Hpr1).
      rewrite (bind_Ret _ _ _ _ _ Hrun1).
      rewrite Hline in Hout1.
      pose proof (printed_buffer _ _ Hpr1) as Hbuf1.
      destruct (IH k (p + (length l + 1))%nat (n + 1) s1)
        as (s' & Hrun & Hout & Hol & Ha & Hp & Hu & Hpr);
        [rewrite Hbuf1; exact Hrest | exact Hfree | rewrite Hbuf1; lia
        | cbn in Hk; lia | lia |].
      exists s'.
      assert (m = S (Nat.min (length lines) (Z.to_nat (outleft s1 - (n + 1)))))
        as ->.
      { subst m. rewrite Hol1. cbn [length]. lia. }
      rewrite Hol1 in Hrun, Hout |- *.
      cbn [take]. rewrite unlines_cons.
      split.
      { rewrite Hrun. f_equal. f_equal; [lia |].
        rewrite length_app. cbn [length]. lia. }
      split.
      { rewrite Hout, Hout1, (shown_printed _ _ _ Hpr1).
        rewrite <- app_assoc, <- shown_app. f_equal. f_equal.
        rewrite <- app_assoc. reflexivity. }
      split; [rewrite Hol; exact Hol1 |].
      split; [rewrite Ha; exact Ha1 |].
      split; [rewrite Hp; exact Hp1 |].
      split; [rewrite Hu; exact Hu1 |].
      eapply printed_trans; eassumption.
    + exists s.
      assert (m = 0%nat) as -> by (subst m; lia).
      cbn [take unlines List.map concat length].
      rewrite shown_nil, app_nil_r, Nat.add_0_r, Z.add_0_r.
      split; [reflexivity |]. repeat (split; [reflexivity |]). apply printed_refl.
Qed.

(** The start of [prtext] without context: nothing is pending, no
    leading context, no separator. *)
Lemma prtext_plain_start fuel beg s (k : M unit) :
  scanning s ->
  (x <- gets id ;;
   when (negb (out_quiet x) && (0 <? pending x)) (prpending X o fuel beg) ;;;
   k) s = k s.
Proof.
  intros (_ & Hp). rewrite (bind_Ret _ _ s s s) by reflexivity. cbn [id].
  destruct (Z.ltb_spec 0 (pending s)); [lia |]. rewrite andb_false_r. reflexivity.
Qed.

Lemma prtext_plain_context fuel beg s :
  (if negb (out_quiet s) then
     let bp := match lastout s with Some lo => lo | None => bufbeg s end in
     match leading_context o (Z.to_nat (out_before o)) (buffer s) bp beg with
     | None => undefined
     | Some p =>
         when (((0 <=? out_before o) || (0 <=? out_after o))
               && used s
               && negb (bool_decide (Some p = lastout s))
               && bool_decide (is_Some (group_separator o)))
              (pr_sgr_start_if o (sep_color o) ;;;
               fputs_errno (default [] (group_separator o)) ;;;
               pr_sgr_end_if o (sep_color o) ;;;
               putchar_errno LF) ;;;
         prtext_context_loop X o (beg - p) fuel p beg ;;;
         ret beg
     end
   else ret beg) s = Ret beg s.
Proof.
  destruct Hplain as (_ & _ & _ & _ & _ & Hb & Ha & _).
  destruct (out_quiet s); cbn [negb]; [reflexivity |]. cbv zeta.
  replace (Z.to_nat (out_before o)) with 0%nat by lia.
  cbn [leading_context].
  destruct (Z.leb_spec 0 (out_before o)); [lia |].
  destruct (Z.leb_spec 0 (out_after o)); [lia |].
  cbn [orb andb when]. rewrite Nat.sub_diag. cbn [prtext_context_loop].
  rewrite Nat.ltb_irrefl. reflexivity.
Qed.

Lemma prtext_plain_end n p s :
  (modify (fun s => set_after_last_match
                      (bufoffset s - (Z.of_nat (buflim s) - Z.of_nat p)) s) ;;;
   modify (fun s => set_pending
                      (if out_quiet s then 0 else Z.max 0 (out_after o)) s) ;;;
   modify (set_used true) ;;;
   modify (fun s => set_outleft (outleft s - n) s) ;;;
   unlock_output) s
  = Ret tt (set_outleft (outleft s - n)
              (set_used true
                 (set_pending 0
                    (set_after_last_match
                       (bufoffset s - (Z.of_nat (buflim s) - Z.of_nat p)) s)))).
Proof.
  destruct Hplain as (_ & _ & _ & _ & _ & _ & Ha & _).
  unfold bind, modify, unlock_output, ret. cbn.
  destruct (out_quiet s); [reflexivity |].
  rewrite Z.max_l by lia. reflexivity.
Qed.

(** [prtext] on a selected line. *)
Lemma prtext_plain_line fuel beg lim s :
  out_invert o = false -> scanning s ->
  (beg < lim <= length (buffer s))%nat ->
  exists s',
    prtext X o fuel beg lim s = Ret tt s'
    /\ stdout s' = stdout s ++ shown s (slice (buffer s) beg lim)
    /\ outleft s' = outleft s - 1
    /\ pending s' = 0
    /\ printed s s'.
Proof.
  intros Hinv Hpr Hr.
  unfold prtext. rewrite (prtext_plain_start _ _ _ _ Hpr).
  unfold lock_output at 1. rewrite (bind_Ret _ _ s tt s) by reflexivity.
  rewrite (bind_Ret _ _ s s s) by reflexivity. cbn [id].
  rewrite (bind_Ret _ _ _ _ _ (prtext_plain_context fuel beg s)).
  rewrite Hinv.
  rewrite bind_assoc. rewrite (bind_Ret _ _ s s s) by reflexivity.
  rewrite bind_assoc.
  destruct (prline_when fuel beg lim SEP_CHAR_SELECTED s Hr)
    as (s1 & Hrun1 & Hout1 & Hol1 & Ha1 & Hp1 & Hu1 & Hpr1).
  rewrite (bind_Ret _ _ _ _ _ Hrun1).
  rewrite (bind_Ret _ _ s1 (1, lim) s1) by reflexivity.
  rewrite (prtext_plain_end 1 lim s1).
  eexists. split; [reflexivity |]. cbn.
  split; [exact Hout1 |]. split; [rewrite Hol1; reflexivity |].
  split; [reflexivity |].
  eapply printed_trans; [exact Hpr1 |].
  unfold printed. now destruct s1.
Qed.

(** [prtext] with [-v] on a region of lines. *)
Lemma prtext_plain_invert fuel beg lim s lines :
  out_invert o = true -> scanning s ->
  slice (buffer s) beg lim = unlines (eolbyte o) lines ->
  Forall (eol_free (eolbyte o)) lines ->
  (beg <= lim <= length (buffer s))%nat ->
  let m := Nat.min (length lines) (Z.to_nat (outleft s)) in
  exists s',
    prtext X o fuel beg lim s = Ret tt s'
    /\ stdout s' = stdout s ++ shown s (unlines (eolbyte o) (take m lines))
    /\ outleft s' = outleft s - Z.of_nat m
    /\ pending s' = 0
    /\ printed s s'.
Proof.
  intros Hinv Hpr Hsl Hfree Hr m.
  unfold prtext. rewrite (prtext_plain_start _ _ _ _ Hpr).
  unfold lock_output at 1. rewrite (bind_Ret _ _ s tt s) by reflexivity.
  rewrite (bind_Ret _ _ s s s) by reflexivity. cbn [id].
  rewrite (bind_Ret _ _ _ _ _ (prtext_plain_context fuel beg s)).
  rewrite Hinv.
  destruct (prtext_invert_loop_plain (lim - beg) fuel beg lim 0 s lines)
    as (s1 & Hrun & Hout & Hol & Ha & Hp & Hu & Hpr1);
    [exact Hsl | exact Hfree | exact Hr | | lia |].
  { pose proof (unlines_length_ge (eolbyte o) lines) as Hge.
    rewrite <- Hsl, slice_length in Hge by lia. exact Hge. }
  rewrite Z.sub_0_r in Hrun, Hout. fold m in Hrun, Hout.
  rewrite (bind_Ret _ _ _ _ _ Hrun). cbv beta iota.
  rewrite (prtext_plain_end _ _ s1).
  eexists. split; [reflexivity |]. cbn.
  split; [exact Hout |]. split; [rewrite Hol; lia |]. split; [reflexivity |].
  eapply printed_trans; [exact Hpr1 |].
  unfold printed. now destruct s1.
Qed.

Variable sel : list byte -> bool.
Hypothesis Hsel : selects_lines (execute X) (eolbyte o) sel.

Lemma scanning_printed s s' :
  scanning s -> printed s s' -> pending s' = 0 -> scanning s'.
Proof.
  intros (Hd & _) Hpr Hp. destruct (printed_flags _ _ Hpr) as [Hq' Hd'].
  split; [congruence | lia].
Qed.

(** The match loop on a region of lines prints the selected ones in
    order, as many as [outleft] allows. *)
Lemma grepbuf_loop_plain fuel lines : forall p lim s,
  slice (buffer s) p lim = unlines (eolbyte o) lines ->
  Forall (eol_free (eolbyte o)) lines ->
  (p <= lim <= length (buffer s))%nat ->
  scanning s -> 0 < outleft s -> (length lines <= fuel)%nat ->
  let out := take (Z.to_nat (outleft s))
                  (selected_lines sel (out_invert o) lines) in
  exists s',
    grepbuf_loop X o fuel p lim s = Ret tt s'
    /\ stdout s' = stdout s ++ shown s (unlines (eolbyte o) out)
    /\ outleft s' = outleft s - Z.of_nat (length out)
    /\ printed s s' /\ scanning s'.
Proof.
  revert lines. induction fuel as [| fuel IH];
    intros lines p lim s Hsl Hfree Hr Hpr Hol Hf out.
  - destruct lines; [| cbn in Hf; lia].
    assert (p = lim) as ->.
    { pose proof (slice_length (buffer s) p lim ltac:(lia)) as Hl.
      rewrite Hsl in Hl. cbn in Hl. lia. }
    exists s. cbn [grepbuf_loop]. rewrite Nat.ltb_irrefl.
    subst out. cbn [selected_lines List.filter]. rewrite take_nil.
    change (unlines (eolbyte o) []) with (@nil Z).
    rewrite shown_nil, app_nil_r. cbn [length]. rewrite Z.sub_0_r.
    repeat (split; [reflexivity |]). split; [apply printed_refl | exact Hpr].
  - cbn [grepbuf_loop].
    destruct (Nat.ltb_spec p lim) as [Hlt | Hge].
    2:{ assert (lines = []) as ->.
        { pose proof (slice_length (buffer s) p lim ltac:(lia)) as Hl.
          rewrite Hsl in Hl. pose proof (unlines_length_ge (eolbyte o) lines).
          destruct lines; [reflexivity | cbn in *; lia]. }
        exists s. subst out. cbn [selected_lines List.filter]. rewrite take_nil.
        change (unlines (eolbyte o) []) with (@nil Z).
        rewrite shown_nil, app_nil_r. cbn [length]. rewrite Z.sub_0_r.
        repeat (split; [reflexivity |]). split; [apply printed_refl | exact Hpr]. }
    assert (p + (lim - p) <= length (buffer s))%nat as Hrange by lia.
    rewrite (bind_Ret _ _ _ _ _ (load_range_Ret p (lim - p) s Hrange)).
    change (take (lim - p) (drop p (buffer s))) with (slice (buffer s) p lim).
    rewrite Hsl, Hsel.
    destruct (line_search_first sel (eolbyte o) lines 0 Hfree)
      as [(pre & l & post & Hlines & Hpre & Hl & Hrun) | [Hall Hrun]];
      rewrite Hrun; clear Hrun.
    + (* a line is found *)
      subst lines. rewrite Nat.add_0_l.
      apply Forall_app in Hfree as [Hfpre Hfree].
      apply Forall_cons_1 in Hfree as [Hfl Hfpost].
      rewrite unlines_app, unlines_cons in Hsl.
      destruct (slice_app_inv _ _ _ _ _ Hsl Hr) as (Hspre & Hsrest & Hle1).
      change (l ++ eolbyte o :: unlines (eolbyte o) post)
        with (l ++ [eolbyte o] ++ unlines (eolbyte o) post) in Hsrest.
      rewrite app_assoc in Hsrest.
      destruct (slice_app_inv _ _ _ _ _ Hsrest ltac:(lia))
        as (Hsl_l & Hspost & Hle2).
      rewrite length_app in Hsl_l, Hspost, Hle2.
      cbn [length] in Hsl_l, Hspost, Hle2.
      set (b := (p + length (unlines (eolbyte o) pre))%nat) in *.
      replace (b + S (length l))%nat with (b + (length l + 1))%nat by lia.
      set (endp := (b + (length l + 1))%nat) in *.
      rewrite length_app in Hf. cbn [length] in Hf.
      destruct (out_invert o) eqn:Hinv; cbn [negb andb orb].
      * (* -v: the lines in front of it are printed *)
        assert (selected_lines sel true (pre ++ l :: post)
                = pre ++ selected_lines sel true post) as Hselected.
        { rewrite selected_lines_app, (selected_lines_all _ _ Hpre).
          cbn. rewrite Hl. reflexivity. }
        subst out. rewrite Hselected.
        destruct (Nat.ltb_spec p b) as [Hpb | Hpb].
        -- destruct (prtext_plain_invert (S fuel) p b s pre Hinv Hpr Hspre Hfpre
                       ltac:(lia))
             as (s1 & Hrun & Hout & Hol1 & Hp1 & Hpr1).
           rewrite (bind_Ret _ _ _ _ _ Hrun).
           rewrite (bind_Ret _ _ s1 s1 s1) by reflexivity. cbn [id].
           pose proof (scanning_printed _ _ Hpr Hpr1 Hp1) as Hpr1'.
           pose proof Hpr1' as (Hd1 & Hpe1). rewrite Hd1, orb_false_r.
           set (m := Nat.min (length pre) (Z.to_nat (outleft s))) in *.
           destruct (Z.eqb_spec (outleft s1) 0) as [Hz | Hnz].
           ++ destruct Hplain as (_ & _ & _ & _ & _ & _ & _ & ->).
              exists s1. split; [reflexivity |].
              assert (Z.to_nat (outleft s) = m) as Hm by lia.
              assert (m <= length pre)%nat by lia.
              rewrite Hm, take_app_le by lia.
              split; [exact Hout |].
              split; [rewrite length_take; lia | split; [exact Hpr1 | exact Hpr1']].
           ++ assert (m = length pre) as Hm by lia.
              rewrite Hm, firstn_all in Hout.
              destruct (IH post endp lim s1)
                as (s2 & Hrun2 & Hout2 & Hol2 & Hpr2 & Hsc2);
                [rewrite (printed_buffer _ _ Hpr1); exact Hspost
                | exact Hfpost
                | rewrite (printed_buffer _ _ Hpr1); lia
                | exact Hpr1' | lia | lia |].
              exists s2. split; [exact Hrun2 |].
              rewrite take_app_ge by lia.
              replace (Z.to_nat (outleft s) - length pre)%nat
                with (Z.to_nat (outleft s1)) by lia.
              split; [rewrite Hout2, Hout, (shown_printed _ _ _ Hpr1), unlines_app, shown_app,
                        app_assoc; reflexivity |].
              split; [rewrite Hol2, length_app; lia |].
              split; [eapply printed_trans; eassumption | exact Hsc2].
        -- assert (pre = []) as ->.
           { pose proof (unlines_length_ge (eolbyte o) pre).
             destruct pre; [reflexivity | cbn in *; lia]. }
           cbn [app].
           destruct (IH post endp lim s)
             as (s2 & Hrun2 & Hout2 & Hol2 & Hpr2 & Hsc2);
             [exact Hspost | exact Hfpost | lia | exact Hpr | lia
             | cbn in Hf; lia |].
           exists s2. split; [exact Hrun2 |]. auto.
      * (* the line is printed *)
        assert (selected_lines sel false (pre ++ l :: post)
                = l :: selected_lines sel false post) as Hselected.
        { rewrite selected_lines_app, (selected_lines_none _ _ Hpre).
          cbn. rewrite Hl. reflexivity. }
        subst out. rewrite Hselected.
        destruct (Nat.eqb_spec b lim) as [| _]; [lia |].
        destruct (prtext_plain_line (S fuel) b endp s Hinv Hpr ltac:(lia))
          as (s1 & Hrun & Hout & Hol1 & Hp1 & Hpr1).
        rewrite Hsl_l in Hout.
        rewrite (bind_Ret _ _ _ _ _ Hrun).
        rewrite (bind_Ret _ _ s1 s1 s1) by reflexivity. cbn [id].
        pose proof (scanning_printed _ _ Hpr Hpr1 Hp1) as Hpr1'.
        pose proof Hpr1' as (Hd1 & Hpe1). rewrite Hd1, orb_false_r.
        assert (Z.to_nat (outleft s) = S (Z.to_nat (outleft s1))) as Hn by lia.
        rewrite Hn. cbn [take].
        destruct (Z.eqb_spec (outleft s1) 0) as [Hz | Hnz].
        -- destruct Hplain as (_ & _ & _ & _ & _ & _ & _ & ->).
           exists s1. split; [reflexivity |].
           rewrite Hz. change (Z.to_nat 0) with 0%nat. rewrite take_0.
           split; [rewrite Hout; unfold unlines; cbn [List.map concat]; rewrite app_nil_r;
                   reflexivity |].
           split; [cbn [length]; lia | split; [exact Hpr1 | exact Hpr1']].
        -- destruct (IH post endp lim s1)
             as (s2 & Hrun2 & Hout2 & Hol2 & Hpr2 & Hsc2);
             [rewrite (printed_buffer _ _ Hpr1); exact Hspost
             | exact Hfpost
             | rewrite (printed_buffer _ _ Hpr1); lia
             | exact Hpr1' | lia | lia |].
           exists s2. split; [exact Hrun2 |].
           split; [rewrite Hout2, Hout, (shown_printed _ _ _ Hpr1), unlines_cons;
                   rewrite <- app_assoc, <- shown_app; f_equal; f_equal;
                   rewrite <- app_assoc; reflexivity |].
           split; [rewrite Hol2; cbn [length]; lia |].
           split; [eapply printed_trans; eassumption | exact Hsc2].
    + (* no line is found *)
      destruct (out_invert o) eqn:Hinv.
      * subst out. rewrite (selected_lines_all _ _ Hall).
        cbn [negb andb orb].
        replace (p + (lim - p))%nat with lim by lia.
        destruct (Nat.ltb_spec p lim) as [_ |]; [| lia].
        destruct (prtext_plain_invert (S fuel) p lim s lines Hinv Hpr Hsl Hfree Hr)
          as (s1 & Hrun & Hout & Hol1 & Hp1 & Hpr1).
        rewrite (bind_Ret _ _ _ _ _ Hrun).
        rewrite (bind_Ret _ _ s1 s1 s1) by reflexivity. cbn [id].
        pose proof (scanning_printed _ _ Hpr Hpr1 Hp1) as Hpr1'.
        pose proof Hpr1' as (Hd1 & Hpe1). rewrite Hd1, orb_false_r.
        set (m := Nat.min (length lines) (Z.to_nat (outleft s))) in *.
        assert (take (Z.to_nat (outleft s)) lines = take m lines) as Htake.
        { subst m. destruct (Nat.min_spec (length lines) (Z.to_nat (outleft s)))
            as [[Hlt' ->] | [Hge' ->]]; [| reflexivity].
          rewrite !take_ge by lia. reflexivity. }
        rewrite Htake.
        assert (length (take m lines) = m) as Hlen
          by (rewrite length_take; lia).
        assert (exists s', (if outleft s1 =? 0
                            then if exit_on_match o
                                 then exit (if errseen s1 then exit_failure o
                                            else EXIT_SUCCESS)
                                 else ret tt
                            else grepbuf_loop X o fuel (lim + 0) lim) s1
                           = Ret tt s' /\ s' = s1) as (s' & -> & ->).
        { destruct (outleft s1 =? 0).
          - destruct Hplain as (_ & _ & _ & _ & _ & _ & _ & ->). eauto.
          - rewrite Nat.add_0_r. exists s1. split; [| reflexivity].
            destruct fuel; cbn [grepbuf_loop]; rewrite Nat.ltb_irrefl;
              reflexivity. }
        exists s1. split; [reflexivity |]. split; [exact Hout |].
        split; [rewrite Hlen; exact Hol1 | split; [exact Hpr1 | exact Hpr1']].
      * subst out. rewrite (selected_lines_none _ _ Hall).
        exists s. split; [reflexivity |]. rewrite take_nil.
        change (unlines (eolbyte o) []) with (@nil Z).
        rewrite shown_nil, app_nil_r. cbn [length]. rewrite Z.sub_0_r.
        repeat (split; [reflexivity |]). split; [apply printed_refl | exact Hpr].
Qed.
End Plain.



Lemma fixed_execute_selects_lines eol pat :
  selects_lines (fixed_execute eol pat) eol
                (fun line => bool_decide (is_Some (find_sub pat line))).
Proof. intros range. reflexivity. Qed.




(** The match loop counts the selected lines of a region, and prints
    them unless the state is quiet. *)
Lemma grepbuf_scan (X : collaborators) (o : options)
      (sel : list byte -> bool) (fuel beg lim : nat) (s : state)
      (lines : list (list byte)) :
  plain_output o -> no_encoding_test X o ->
  selects_lines (execute X) (eolbyte o) sel ->
  slice (buffer s) beg lim = unlines (eolbyte o) lines ->
  Forall (eol_free (eolbyte o)) lines ->
  (beg <= lim <= length (buffer s))%nat ->
  scanning s -> 0 < outleft s -> (length lines <= fuel)%nat ->
  let out := take (Z.to_nat (outleft s))
                  (selected_lines sel (out_invert o) lines) in
  exists s',
    grepbuf X o fuel beg lim s = Ret (Z.of_nat (length out)) s'
    /\ stdout s' = stdout s ++ shown s (unlines (eolbyte o) out)
    /\ outleft s' = outleft s - Z.of_nat (length out)
    /\ printed s s' /\ scanning s'.
Proof.
  intros Hplain Hnoenc Hsel Hsl Hfree Hr Hpr Hol Hf out.
  destruct (grepbuf_loop_plain X o Hplain Hnoenc sel Hsel fuel lines beg lim s
              Hsl Hfree Hr Hpr Hol Hf) as (s' & Hrun & Hout & Hol' & Hpr' & Hsc').
  exists s'. unfold grepbuf.
  rewrite (bind_Ret _ _ s (outleft s) s) by reflexivity.
  rewrite (bind_Ret _ _ _ _ _ Hrun).
  rewrite (bind_Ret _ _ s' (outleft s') s') by reflexivity.
  split; [| split; [exact Hout | split; [exact Hol' | split; assumption]]].
  unfold ret. f_equal. subst out. cbv zeta in Hol'. lia.
Qed.


(** ** The parser of [GREP_COLORS] *)

Lemma parse_colors_name n q acc o :
  name_chars n ->
  parse_colors_loop (n ++ q) acc None o = parse_colors_loop q (acc ++ n) None o.
Proof.
  intros Hn. revert acc. induction Hn as [| c n (H58 & H0 & H61) _ IH]; intros acc.
  - rewrite app_nil_r. reflexivity.
  - cbn [app parse_colors_loop].
    destruct (Z.eqb_spec c 58); [done |]. destruct (Z.eqb_spec c 0); [done |].
    destruct (Z.eqb_spec c 61); [done |]. cbn [orb].
    rewrite IH, <- app_assoc. reflexivity.
Qed.

Lemma sgr_char_test c :
  c = 59 \/ 48 <= c <= 57 ->
  (c =? 58) = false /\ (c =? 0) = false /\ (c =? 61) = false
  /\ (c =? 59) || ((48 <=? c) && (c <=? 57)) = true.
Proof.
  intros H. repeat split; try (apply Z.eqb_neq; lia).
  destruct H as [-> | H]; [reflexivity |].
  destruct (Z.leb_spec 48 c); [| lia]. destruct (Z.leb_spec c 57); [| lia].
  apply orb_true_r.
Qed.

Lemma parse_colors_value v q name acc o :
  sgr_chars v ->
  parse_colors_loop (v ++ q) name (Some acc) o
  = parse_colors_loop q name (Some (acc ++ v)) o.
Proof.
  intros Hv. revert acc. induction Hv as [| c v Hc _ IH]; intros acc.
  - rewrite app_nil_r. reflexivity.
  - cbn [app parse_colors_loop].
    destruct (sgr_char_test c Hc) as (-> & -> & -> & ->). cbn [orb].
    rewrite IH, <- app_assoc. reflexivity.
Qed.

(** A well-formed capability is read up to the colon or the end. *)
Lemma parse_colors_cap cap q o :
  well_formed_cap cap ->
  parse_colors_loop (render_cap cap ++ q) [] None o
  = parse_colors_loop q (fst cap) (snd cap) o.
Proof.
  destruct cap as [name [v |]]; unfold render_cap; cbn [fst snd];
    intros [Hn Hv].
  - destruct Hv as [Hne Hv]. rewrite <- app_assoc, parse_colors_name by exact Hn.
    cbn [app parse_colors_loop orb Z.eqb].
    rewrite bool_decide_eq_false_2 by exact Hne.
    cbn [orb]. rewrite bool_decide_eq_false_2 by (intros [? [=]]).
    rewrite parse_colors_value by exact Hv. reflexivity.
  - rewrite app_nil_r, parse_colors_name by exact Hn. reflexivity.
Qed.

Lemma apply_cap_empty o : apply_cap [] None o = o.
Proof. reflexivity. Qed.

Lemma parse_colors_caps caps o :
  Forall well_formed_cap caps ->
  parse_colors_loop (join_caps caps) [] None o = apply_caps caps o.
Proof.
  intros Hwf. revert o. induction Hwf as [| cap caps Hcap Hwf IH]; intros o.
  - reflexivity.
  - destruct caps as [| cap' caps].
    + cbn [join_caps]. rewrite <- (app_nil_r (render_cap cap)).
      rewrite parse_colors_cap by exact Hcap. reflexivity.
    + change (join_caps (cap :: cap' :: caps))
        with (render_cap cap ++ 58 :: join_caps (cap' :: caps)).
      rewrite parse_colors_cap by exact Hcap.
      cbn [parse_colors_loop Z.eqb orb]. rewrite IH. reflexivity.
Qed.

Lemma join_caps_snoc cap caps cap' :
  join_caps (cap :: caps ++ [cap'])
  = render_cap cap ++ 58 :: join_caps (caps ++ [cap']).
Proof. destruct caps; reflexivity. Qed.

Lemma parse_colors_caps_then caps cap q o :
  Forall well_formed_cap caps ->
  parse_colors_loop (join_caps (caps ++ [cap]) ++ q) [] None o
  = parse_colors_loop (render_cap cap ++ q) [] None (apply_caps caps o).
Proof.
  intros Hwf. revert o. induction Hwf as [| c caps Hc Hwf IH]; intros o.
  - cbn. reflexivity.
  - change ((c :: caps) ++ [cap]) with (c :: caps ++ [cap]).
    rewrite join_caps_snoc, <- app_assoc.
    rewrite parse_colors_cap by exact Hc.
    cbn [app parse_colors_loop Z.eqb orb]. rewrite IH. reflexivity.
Qed.

Lemma sgr_chars_app l1 l2 : sgr_chars l1 -> sgr_chars l2 -> sgr_chars (l1 ++ l2).
Proof. intros H1 H2. apply Forall_app. split; assumption. Qed.

Lemma find_cap_Forall (P : color_cap -> Prop) dict name :
  P (mkColorCap [] None None) -> Forall P dict -> P (find_cap dict name).
Proof.
  intros H0 Hd. induction Hd as [| cap dict Hcap _ IH]; cbn [find_cap];
    [exact H0 |].
  destruct (bool_decide _); [exact Hcap | exact IH].
Qed.

(** A capability with a safe value keeps the colors safe. *)
Lemma apply_cap_safe name val o :
  match val with Some v => sgr_chars v | None => True end ->
  colors_safe o -> colors_safe (apply_cap name val o).
Proof.
  intros Hv Ho. unfold apply_cap.
  apply (find_cap_Forall
           (fun cap =>
              colors_safe
                (match cap_fct cap with
                 | Some fct =>
                     fct match cap_var cap, val with
                         | Some var, Some v => var v o
                         | _, _ => o
                         end
                 | None =>
                     match cap_var cap, val with
                     | Some var, Some v => var v o
                     | _, _ => o
                     end
                 end))).
  - exact Ho.
  - unfold color_dict, colors_safe in *.
    destruct Ho as (H1 & H2 & H3 & H4 & H5 & H6 & H7 & H8).
    repeat constructor; cbn; destruct val; cbn; tauto.
Qed.

Lemma parse_colors_loop_safe q name val o :
  match val with Some v => sgr_chars v | None => True end ->
  colors_safe o -> colors_safe (parse_colors_loop q name val o).
Proof.
  revert name val o. induction q as [| c q IH]; intros name val o Hv Ho;
    cbn [parse_colors_loop].
  - apply apply_cap_safe; assumption.
  - destruct ((c =? 58) || (c =? 0)).
    + destruct (c =? 0); [apply apply_cap_safe; assumption |].
      apply IH; [exact I | apply apply_cap_safe; assumption].
    + destruct (c =? 61).
      * destruct (_ || _); [exact Ho |]. apply IH; [constructor | exact Ho].
      * destruct val as [v |]; [| apply IH; [exact I | exact Ho]].
        destruct (Z.eqb_spec c 59) as [-> | Hne]; cbn [orb].
        -- apply IH; [| exact Ho]. apply sgr_chars_app; [exact Hv |].
           repeat constructor.
        -- destruct (Z.leb_spec 48 c); cbn [andb]; [| exact Ho].
           destruct (Z.leb_spec c 57); [| exact Ho].
           apply IH; [| exact Ho]. apply sgr_chars_app; [exact Hv |].
           constructor; [right; lia | constructor].
Qed.

Ltac solve_caps :=
  unfold colors_safe, well_formed_cap, name_chars, sgr_chars;
  cbn [fst snd bytes_of_string List.map list_byte_of_string initial_options
       selected_match_color context_match_color filename_color line_num_color
       byte_num_color sep_color selected_line_color context_line_color];
  repeat first [apply Forall_cons | apply Forall_nil | split];
  first [lia | discriminate
        | vm_compute;
          first [discriminate | left; reflexivity | right; split; discriminate]].

(** ** The options of [GREP_OPTIONS] *)

Lemma prepend_args_token_spec n : forall o c,
  (length o <= n)%nat -> c <> 0 ->
  (fst (prepend_args_token (c :: o)) <> []
   /\ (length (fst (prepend_args_token (c :: o)))
       + length (snd (prepend_args_token (c :: o))) <= S (length o))%nat
   /\ at_break (snd (prepend_args_token (c :: o)))).
Proof.
  induction n as [n IH] using lt_wf_ind. intros o c Hlen Hc.
  assert (forall ch o2,
             (length o2 <= length o)%nat ->
             let r := match o2 with
                      | [] => ([ch], o2)
                      | d :: _ =>
                          if (d =? 0) || c_isspace d then ([ch], o2)
                          else (ch :: fst (prepend_args_token o2),
                                snd (prepend_args_token o2))
                      end in
             fst r <> [] /\ (length (fst r) + length (snd r) <= S (length o2))%nat
             /\ at_break (snd r)) as Hcont.
  { intros ch o2 Hl2. destruct o2 as [| d o2']; cbn zeta.
    - cbn. split; [discriminate |]. split; [lia | exact I].
    - destruct ((d =? 0) || c_isspace d) eqn:Hb.
      + cbn [fst snd length at_break]. split; [discriminate |].
        split; [lia | exact Hb].
      + apply orb_false_iff in Hb as [Hd _]. apply Z.eqb_neq in Hd.
        destruct (IH (length o2') ltac:(cbn in *; lia) o2' d) as (H1 & H2 & H3);
          [lia | exact Hd |].
        cbn [fst snd length]. split; [discriminate |]. split; [lia | exact H3]. }
  cbn [prepend_args_token]. destruct (Z.eqb_spec c 92) as [-> | Hne].
  - destruct o as [| d o2].
    + cbn. split; [discriminate |]. split; [lia | exact I].
    + destruct (Z.eqb_spec d 0) as [-> | Hd].
      * cbn [Z.eqb orb fst snd length at_break]. split; [discriminate |].
        split; [lia | reflexivity].
      * destruct (Hcont d o2 ltac:(cbn; lia)) as (H1 & H2 & H3).
        split; [exact H1 |]. split; [cbn [length]; lia | exact H3].
  - apply (Hcont c o). lia.
Qed.

Lemma skip_spaces_length o : (length (skip_spaces o) <= length o)%nat.
Proof.
  induction o as [| c o IH]; cbn; [lia |].
  destruct (c_isspace c); cbn; lia.
Qed.

Lemma prepend_args_loop_size fuel : forall o,
  (prepend_args_size (prepend_args_loop fuel o) <= S (length (skip_spaces o)))%nat
  /\ (at_break o ->
      (prepend_args_size (prepend_args_loop fuel o) <= length o)%nat).
Proof.
  induction fuel as [| fuel IH]; intros o.
  - cbn. split; intros; lia.
  - assert (prepend_args_size (prepend_args_loop (S fuel) o)
            <= S (length (skip_spaces o)))%nat as HA.
    { cbn [prepend_args_loop].
      destruct (skip_spaces o) as [| c o'] eqn:Hs; [cbn; lia |].
      destruct (Z.eqb_spec c 0) as [| Hc]; [cbn; lia |].
      pose proof (prepend_args_token_spec (length o') o' c (le_n _) Hc)
        as (Hne & Hlen & Hbreak).
      destruct (prepend_args_token (c :: o')) as [tok rest].
      cbn [fst snd] in *. unfold prepend_args_size. cbn [List.map list_sum].
      pose proof (proj2 (IH rest) Hbreak) as Hrest.
      unfold prepend_args_size in Hrest. change (list_sum (?x :: ?l)) with (x + list_sum l)%nat. cbn [length]. lia. }
    split; [exact HA |].
    intros Hb. destruct o as [| d o']; [cbn; lia |].
    cbn [at_break] in Hb. apply orb_true_iff in Hb as [Hd | Hd].
    + apply Z.eqb_eq in Hd as ->. cbn. lia.
    + cbn [skip_spaces] in HA. rewrite Hd in HA.
      pose proof (skip_spaces_length o'). cbn [length]. lia.
Qed.

Lemma escape_arg_cons c arg :
  escape_arg (c :: arg)
  = (if c_isspace c || (c =? 92) then [92; c] else [c]) ++ escape_arg arg.
Proof. reflexivity. Qed.

Lemma escape_arg_head arg rest :
  passable_arg arg ->
  exists h t, escape_arg arg ++ rest = h :: t
              /\ h <> 0 /\ c_isspace h = false.
Proof.
  intros [Hne Hnz]. destruct arg as [| c arg]; [done |].
  apply Forall_cons_1 in Hnz as [Hc _]. rewrite escape_arg_cons.
  destruct (c_isspace c || (c =? 92)) eqn:Hs.
  - eexists _, _. split; [reflexivity |]. split; [discriminate | reflexivity].
  - apply orb_false_iff in Hs as [Hsp _].
    eexists _, _. split; [reflexivity |]. split; [exact Hc | exact Hsp].
Qed.

(** An escaped option is read back as it was. *)
Lemma prepend_args_token_escape arg rest :
  passable_arg arg -> at_break rest ->
  prepend_args_token (escape_arg arg ++ rest) = (arg, rest).
Proof.
  intros [Hne Hnz] Hrest. induction arg as [| c arg IH]; [done |].
  apply Forall_cons_1 in Hnz as [Hc Hnz].
  assert (match escape_arg arg ++ rest with
          | [] => ([c], escape_arg arg ++ rest)
          | d :: _ =>
              if (d =? 0) || c_isspace d then ([c], escape_arg arg ++ rest)
              else (c :: fst (prepend_args_token (escape_arg arg ++ rest)),
                    snd (prepend_args_token (escape_arg arg ++ rest)))
          end = (c :: arg, rest)) as Hcont.
  { destruct arg as [| c' arg'].
    - cbn [escape_arg List.map concat app]. destruct rest as [| d rest']; [reflexivity |].
      cbn [at_break] in Hrest. rewrite Hrest. reflexivity.
    - destruct (escape_arg_head (c' :: arg') rest) as (h & t & Heq & Hh & Hsp);
        [split; [discriminate | exact Hnz] |].
      rewrite IH by (discriminate || exact Hnz). rewrite Heq.
      apply Z.eqb_neq in Hh. rewrite Hh, Hsp. reflexivity. }
  rewrite escape_arg_cons.
  destruct (c_isspace c || (c =? 92)) eqn:Hs.
  - cbn [app prepend_args_token Z.eqb].
    destruct (Z.eqb_spec c 0) as [| _]; [done |]. exact Hcont.
  - apply orb_false_iff in Hs as [_ H92].
    cbn [app prepend_args_token]. rewrite H92. exact Hcont.
Qed.

Lemma join_args_cons arg arg' args :
  join_args (arg :: arg' :: args) = escape_arg arg ++ 32 :: join_args (arg' :: args).
Proof. reflexivity. Qed.

Lemma prepend_args_loop_join args : forall fuel,
  Forall passable_arg args -> (length args <= fuel)%nat ->
  prepend_args_loop fuel (join_args args) = args.
Proof.
  induction args as [| arg args IH]; intros fuel Hp Hf.
  - destruct fuel; reflexivity.
  - apply Forall_cons_1 in Hp as [Harg Hp].
    destruct fuel as [| fuel]; [cbn in Hf; lia |].
    cbn [prepend_args_loop].
    assert (exists rest, join_args (arg :: args) = escape_arg arg ++ rest
                         /\ at_break rest
                         /\ prepend_args_loop fuel rest = args)
      as (rest & -> & Hbreak & Hrest).
    { destruct args as [| arg' args'].
      - exists []. cbn [join_args]. rewrite app_nil_r.
        split; [reflexivity |]. split; [exact I |]. destruct fuel; reflexivity.
      - exists (32 :: join_args (arg' :: args')).
        split; [apply join_args_cons |]. split; [reflexivity |].
        destruct fuel as [| fuel']; [cbn in Hf; lia |].
        cbn [prepend_args_loop skip_spaces].
        change (c_isspace 32) with true. cbn iota.
        specialize (IH (S fuel') Hp ltac:(cbn in *; lia)).
        cbn [prepend_args_loop] in IH. 
        destruct (escape_arg_head arg' (match args' with
                                        | [] => []
                                        | _ => 32 :: join_args args' end))
          as (h & t & Heq & Hh & Hsp);
          [apply Forall_cons_1 in Hp as [? _]; assumption |].
        exact IH. }
    destruct (escape_arg_head arg rest Harg) as (h & t & Heq & Hh & Hsp).
    rewrite Heq. cbn [skip_spaces]. rewrite Hsp.
    apply Z.eqb_neq in Hh. rewrite Hh. rewrite <- Heq.
    rewrite (prepend_args_token_escape _ _ Harg Hbreak). rewrite Hrest.
    reflexivity.
Qed.

Lemma escape_arg_length arg : (length arg <= length (escape_arg arg))%nat.
Proof.
  induction arg as [| c arg IH]; [cbn; lia |].
  rewrite escape_arg_cons, length_app. destruct (_ || _); cbn; lia.
Qed.

Lemma join_args_length args :
  Forall passable_arg args -> (length args <= length (join_args args))%nat.
Proof.
  induction 1 as [| arg args [Hne _] _ IH]; [cbn; lia |].
  pose proof (escape_arg_length arg).
  assert (1 <= length arg)%nat by (destruct arg; [done | cbn; lia]).
  destruct args as [| arg' args']; [cbn [join_args length]; lia |].
  rewrite join_args_cons, length_app. cbn [length] in *. lia.
Qed.

(** ** From a fixed string to a regular expression *)

Lemma fgrep_escape_length c : (length (fgrep_escape c) <= 2)%nat.
Proof. unfold fgrep_escape. destruct (fgrep_special c); cbn; lia. Qed.

Lemma fgrep_to_grep_loop_length L fuel : forall keys mbs,
  (length (fgrep_to_grep_loop L fuel keys mbs) <= 2 * length keys)%nat.
Proof.
  induction fuel as [| fuel IH]; intros keys mbs; cbn [fgrep_to_grep_loop];
    [cbn; lia |].
  destruct keys as [| c keys']; [cbn; lia |].
  destruct (mbrlen L (c :: keys') mbs) as [[| | clen] mbs'].
  - rewrite length_app. pose proof (fgrep_escape_length c).
    pose proof (IH keys' (mbs_initial L)). cbn [length]. lia.
  - lia.
  - destruct clen as [| [| clen]].
    + cbn [length]. pose proof (IH keys' mbs'). lia.
    + rewrite length_app. pose proof (fgrep_escape_length c).
      pose proof (IH keys' mbs'). cbn [length]. lia.
    + rewrite length_app.
      pose proof (IH (drop (S (S clen)) (c :: keys')) mbs') as H.
      rewrite length_take. rewrite length_drop in H. lia.
Qed.

Lemma fgrep_to_grep_loop_one_byte L fuel : forall keys mbs,
  one_byte_chars L -> (length keys <= fuel)%nat ->
  fgrep_to_grep_loop L fuel keys mbs = concat (List.map fgrep_escape keys).
Proof.
  intros keys mbs H1. revert keys mbs.
  induction fuel as [| fuel IH]; intros keys mbs Hf.
  - destruct keys; [reflexivity | cbn in Hf; lia].
  - cbn [fgrep_to_grep_loop]. destruct keys as [| c keys']; [reflexivity |].
    pose proof (H1 (c :: keys') mbs ltac:(discriminate)) as Hm.
    destruct (mbrlen L (c :: keys') mbs) as [r mbs']. cbn [fst] in Hm. subst r.
    rewrite IH by (cbn in Hf; lia). reflexivity.
Qed.

Lemma unescape_escape keys : unescape (concat (List.map fgrep_escape keys)) = keys.
Proof.
  induction keys as [| c keys IH]; [reflexivity |].
  cbn [List.map concat]. unfold fgrep_escape at 1.
  destruct (fgrep_special c) eqn:Hs.
  - cbn [app unescape Z.eqb]. rewrite IH. reflexivity.
  - cbn [app unescape].
    destruct (Z.eqb_spec c 92) as [-> | _]; [discriminate |].
    rewrite IH. reflexivity.
Qed.

(** ** The mask of the unibyte characters *)

Lemma ms1b_loop_spec fuel : forall k i,
  0 <= k -> 2 ^ k <= i < 2 ^ (k + Z.of_nat fuel) ->
  ms1b_loop fuel (2 ^ k) i = 2 ^ Z.log2 i.
Proof.
  induction fuel as [| fuel IH]; intros k i Hk Hi.
  - rewrite Z.add_0_r in Hi. lia.
  - cbn [ms1b_loop].
    assert (2 ^ k * 2 = 2 ^ (k + 1)) as Hpow
      by (rewrite Z.pow_add_r, Z.pow_1_r by lia; reflexivity).
    destruct (Z.leb_spec (2 ^ k * 2) i) as [Hle | Hgt].
    + rewrite Hpow. apply IH; [lia |].
      replace (k + 1 + Z.of_nat fuel) with (k + Z.of_nat (S fuel)) by lia. lia.
    + f_equal. symmetry. apply Z.log2_unique; [lia |]. 
      replace (Z.succ k) with (k + 1) by lia. lia.
Qed.

Lemma land_pow2_log2 i : 0 < i -> Z.land (2 ^ Z.log2 i) i <> 0.
Proof.
  intros Hi H.
  assert (Z.testbit (Z.land (2 ^ Z.log2 i) i) (Z.log2 i) = true) as Hb.
  { rewrite Z.land_spec, Z.pow2_bits_true by apply Z.log2_nonneg.
    apply Z.bit_log2. exact Hi. }
  rewrite H, Z.bits_0 in Hb. discriminate.
Qed.

Lemma lor_byte a b : 0 <= a < 256 -> 0 <= b < 256 -> 0 <= Z.lor a b < 256.
Proof.
  intros Ha Hb. split; [apply Z.lor_nonneg; lia |].
  destruct (Z.eq_dec (Z.lor a b) 0) as [-> | Hne]; [lia |].
  apply (Z.log2_lt_pow2 _ 8); [pose proof (Z.lor_nonneg a b); lia |].
  rewrite Z.log2_lor by lia.
  apply Z.max_lub_lt.
  - destruct (Z.eq_dec a 0) as [-> | ?]; [cbn; lia |]. apply Z.log2_lt_pow2; lia.
  - destruct (Z.eq_dec b 0) as [-> | ?]; [cbn; lia |]. apply Z.log2_lt_pow2; lia.
Qed.

Lemma land_lor_nonzero a b j : Z.land a j <> 0 -> Z.land (Z.lor a b) j <> 0.
Proof.
  intros H. rewrite Z.land_lor_distr_l. intros E.
  apply Z.lor_eq_0_iff in E as [E _]. auto.
Qed.

Lemma land_lor_nonzero_r a b j : Z.land b j <> 0 -> Z.land (Z.lor a b) j <> 0.
Proof.
  intros H. rewrite Z.land_lor_distr_l. intros E.
  apply Z.lor_eq_0_iff in E as [_ E]. auto.
Qed.

(** One byte more. *)
Lemma mask_inv_step cache n st :
  0 <= n < 255 -> mask_inv cache n st ->
  mask_inv cache (n + 1) (unibyte_mask_step cache st (n + 1)).
Proof.
  intros Hn (Hm & (k & Hk & Hms & Hle) & Hdet). destruct st as [mask ms1b].
  cbn [fst snd] in *. unfold unibyte_mask_step.
  destruct (negb (cache (n + 1) =? 1) && (Z.land mask (n + 1) =? 0)) eqn:Hc.
  - apply andb_true_iff in Hc as [Hc1 Hc2].
    apply Z.eqb_eq in Hc2.
    assert (ms1b_loop 8 ms1b (n + 1) = 2 ^ Z.log2 (n + 1)) as Hloop.
    { rewrite Hms. apply ms1b_loop_spec; [exact Hk |].
      split; [lia |].
      assert (2 ^ 8 <= 2 ^ (k + Z.of_nat 8)) by (apply Z.pow_le_mono_r; lia).
      change (2 ^ 8) with 256 in *. lia. }
    rewrite Hloop.
    assert (0 <= Z.log2 (n + 1) < 8) as Hlog.
    { split; [apply Z.log2_nonneg |]. apply Z.log2_lt_pow2; [lia |].
      change (2 ^ 8) with 256. lia. }
    assert (0 < 2 ^ Z.log2 (n + 1) <= n + 1) as Hp.
    { split; [apply Z.pow_pos_nonneg; lia |]. apply Z.log2_spec. lia. }
    assert (0 <= Z.lor mask (2 ^ Z.log2 (n + 1)) < 256) as Hlor
      by (apply lor_byte; lia).
    rewrite Z.mod_small by exact Hlor. unfold mask_inv. cbn [fst snd].
    split; [exact Hlor |]. split.
    + exists (Z.log2 (n + 1)). split; [lia |]. split; [reflexivity | lia].
    + intros j Hj Hcj. destruct (Z.eq_dec j (n + 1)) as [-> | Hne].
      * apply land_lor_nonzero_r, land_pow2_log2. lia.
      * apply land_lor_nonzero, Hdet; [lia | exact Hcj].
  - unfold mask_inv. cbn [fst snd]. split; [exact Hm |]. split.
    + exists k. split; [exact Hk |]. split; [exact Hms | lia].
    + intros j Hj Hcj. destruct (Z.eq_dec j (n + 1)) as [-> | Hne].
      * apply andb_false_iff in Hc as [Hc | Hc].
        -- apply negb_false_iff, Z.eqb_eq in Hc. done.
        -- apply Z.eqb_neq in Hc. exact Hc.
      * apply Hdet; [lia | exact Hcj].
Qed.

Lemma mask_inv_fold cache len : forall n st,
  0 <= n -> n + Z.of_nat len <= 255 -> mask_inv cache n st ->
  mask_inv cache (n + Z.of_nat len)
           (fold_left (unibyte_mask_step cache) (seqZ (n + 1) (Z.of_nat len)) st).
Proof.
  induction len as [| len IH]; intros n st Hn Hlen Hinv.
  - cbn. rewrite Z.add_0_r. exact Hinv.
  - rewrite seqZ_cons by lia. cbn [fold_left].
    replace (Z.pred (Z.of_nat (S len))) with (Z.of_nat len) by lia.
    replace (Z.succ (n + 1)) with (n + 1 + 1) by lia.
    replace (n + Z.of_nat (S len)) with (n + 1 + Z.of_nat len) by lia.
    apply IH; [lia | lia |]. apply mask_inv_step; [lia | exact Hinv].
Qed.

Lemma unibyte_byte_mask_inv cache :
  mask_inv cache 255 (fold_left (unibyte_mask_step cache) (seqZ 1 UCHAR_MAX) (0, 1)).
Proof.
  apply (mask_inv_fold cache 255 0 (0, 1)); [lia | lia |].
  split; [cbn; lia |]. split.
  - exists 0. cbn. lia.
  - intros j Hj. lia.
Qed.

(** A byte against the mask repeated in a word: only the low byte of the
    word counts. *)
Lemma land_byte_repeated c mask :
  0 <= c < 256 -> 0 <= mask < 256 ->
  Z.land c ((uintmax_modulus - 1) / UCHAR_MAX * mask) = Z.land c mask.
Proof.
  intros Hc Hm.
  replace ((uintmax_modulus - 1) / UCHAR_MAX) with (1 + 256 * 282578800148737)
    by (vm_compute; reflexivity).
  assert (c = Z.land c (Z.ones 8)) as Hc8.
  { rewrite Z.land_ones by lia. change (2 ^ 8) with 256.
    symmetry. apply Z.mod_small. exact Hc. }
  rewrite Hc8 at 1. rewrite <- Z.land_assoc.
  rewrite (Z.land_comm (Z.ones 8)), Z.land_ones by lia. change (2 ^ 8) with 256.
  replace ((1 + 256 * 282578800148737) * mask)
    with (mask + (282578800148737 * mask) * 256) by lia.
  rewrite Z.mod_add by lia. rewrite Z.mod_small by exact Hm. reflexivity.
Qed.

Lemma unibyte_mask_fold_unibyte cache l st :
  Forall (fun i => cache i = 1) l ->
  fold_left (unibyte_mask_step cache) l st = st.
Proof.
  intros H. revert st. induction H as [| i l Hi _ IH]; intros st; [reflexivity |].
  cbn [fold_left]. unfold unibyte_mask_step at 2. destruct st as [mask ms1b].
  rewrite Hi. cbn [Z.eqb Pos.eqb negb andb]. apply IH.
Qed.

(** ** A file with plain output *)

Lemma memrchr_last buf p n c q :
  (p <= q < p + n)%nat -> buf !! q = Some c ->
  (forall i, (q < i < p + n)%nat -> exists x, buf !! i = Some x /\ x <> c) ->
  memrchr buf p n c = Some q.
Proof.
  revert q. induction n as [| n IH]; intros q Hq Hc Hafter; [lia |].
  cbn [memrchr]. destruct (decide (q = p + n)%nat) as [-> | Hne].
  - rewrite Hc, Z.eqb_refl. reflexivity.
  - destruct (Hafter (p + n)%nat ltac:(lia)) as (x & -> & Hx).
    destruct (Z.eqb_spec x c) as [| _]; [done |].
    apply IH; [lia | exact Hc |]. intros i Hi. apply Hafter. lia.
Qed.

Lemma unlines_last eol lines :
  lines <> [] -> exists front, unlines eol lines = front ++ [eol].
Proof.
  intros Hne. destruct (exists_last Hne) as (init & l & ->).
  rewrite unlines_app. exists (unlines eol init ++ l).
  unfold unlines at 2. cbn [List.map concat]. rewrite app_nil_r, app_assoc.
  reflexivity.
Qed.

Lemma unlines_nil_length eol lines : length (unlines eol lines) = 0%nat -> lines = [].
Proof.
  destruct lines as [| l lines]; [reflexivity |].
  rewrite unlines_cons, length_app. cbn [length]. lia.
Qed.

Lemma slice_lookup_app buf beg lim l i :
  slice buf beg lim = l -> (lim <= length buf)%nat -> (i < length l)%nat ->
  buf !! (beg + i)%nat = l !! i.
Proof.
  intros Hs Hlim Hi. rewrite <- Hs. rewrite slice_lookup; [reflexivity |].
  rewrite <- Hs, slice_length in Hi by exact Hlim. exact Hi.
Qed.

Lemma slice_middle (a b c : list byte) :
  slice (a ++ b ++ c) (length a) (length a + length b) = b.
Proof.
  unfold slice. rewrite drop_app_length.
  replace (length a + length b - length a)%nat with (length b) by lia.
  apply take_app_length.
Qed.

Lemma printed_frame s s' :
  printed s s' ->
  buffer s' = buffer s /\ bufbeg s' = bufbeg s /\ buflim s' = buflim s
  /\ bufdesc s' = bufdesc s /\ encoding_error_output s' = encoding_error_output s
  /\ stderr s' = stderr s /\ errseen s' = errseen s
  /\ out_quiet s' = out_quiet s /\ done_on_match s' = done_on_match s
  /\ skip_nuls s' = skip_nuls s.
Proof. intros H. rewrite H. repeat split. Qed.

Lemma take_selected_app {A : Type} (m : nat) (l1 l2 : list A) :
  take m (l1 ++ l2) = take m l1 ++ take (m - length (take m l1)) l2.
Proof.
  rewrite take_app. f_equal. rewrite length_take.
  destruct (Nat.le_gt_cases m (length l1)) as [Hle | Hgt].
  - rewrite Nat.min_l by exact Hle.
    replace (m - length l1)%nat with 0%nat by lia.
    replace (m - m)%nat with 0%nat by lia. reflexivity.
  - rewrite Nat.min_r by lia. reflexivity.
Qed.


Lemma lines_of_free eol t : eol_free eol t -> lines_of eol t = ([], t).
Proof.
  induction 1 as [| c t Hc _ IH]; [reflexivity |].
  cbn [lines_of]. rewrite IH. destruct (Z.eqb_spec c eol); [done | reflexivity].
Qed.

Lemma lines_of_line eol x rest :
  eol_free eol x ->
  lines_of eol (x ++ eol :: rest)
  = (x :: fst (lines_of eol rest), snd (lines_of eol rest)).
Proof.
  induction 1 as [| c x Hc _ IH].
  - cbn [app lines_of]. rewrite Z.eqb_refl. destruct (lines_of eol rest).
    reflexivity.
  - cbn [app lines_of]. rewrite IH.
    destruct (Z.eqb_spec c eol); [done | reflexivity].
Qed.

Lemma lines_of_unlines eol L t :
  Forall (eol_free eol) L -> eol_free eol t ->
  lines_of eol (unlines eol L ++ t) = (L, t).
Proof.
  intros HL Ht. induction HL as [| x L Hx _ IH].
  - apply lines_of_free, Ht.
  - rewrite unlines_cons, <- !app_assoc. cbn [app].
    rewrite lines_of_line by exact Hx. rewrite IH. reflexivity.
Qed.

Lemma lines_of_spec eol l :
  l = unlines eol (fst (lines_of eol l)) ++ snd (lines_of eol l)
  /\ Forall (eol_free eol) (fst (lines_of eol l))
  /\ eol_free eol (snd (lines_of eol l)).
Proof.
  induction l as [| c l (IHl & IHf & IHt)].
  - repeat split; constructor.
  - cbn [lines_of]. destruct (lines_of eol l) as [ls t]. cbn [fst snd] in *.
    destruct (Z.eqb_spec c eol) as [-> | Hc].
    + cbn [fst snd]. rewrite unlines_cons. cbn [app].
      repeat split; [congruence | constructor; [constructor | exact IHf] | exact IHt].
    + destruct ls as [| x ls]; cbn [fst snd].
      * repeat split; [cbn in *; congruence | constructor |].
        constructor; assumption.
      * rewrite unlines_cons in *. cbn [app].
        apply Forall_cons_1 in IHf as [Hx Hls].
        repeat split; [congruence | | exact IHt].
        constructor; [constructor; assumption | exact Hls].
Qed.

Lemma lines_of_app eol a b :
  lines_of eol (a ++ b)
  = (fst (lines_of eol a) ++ fst (lines_of eol (snd (lines_of eol a) ++ b)),
     snd (lines_of eol (snd (lines_of eol a) ++ b))).
Proof.
  destruct (lines_of_spec eol a) as (Ha & Hfa & Hta).
  destruct (lines_of_spec eol (snd (lines_of eol a) ++ b)) as (Hb & Hfb & Htb).
  rewrite Ha at 1. rewrite <- app_assoc. rewrite Hb at 1.
  rewrite app_assoc, <- unlines_app.
  apply lines_of_unlines; [apply Forall_app; split; assumption | exact Htb].
Qed.

Section Chunks.
Variable X : collaborators.
Variable o : options.

(** Without zapping, [grep_limits] leaves the state as it was: the
    scan starts at the residue of the last buffer, the limit is behind
    the last complete line, and what follows is the new residue. *)
Lemma grep_limits_text v beg s r d L r' :
  nul_zapper v = 0 -> residue v = length r ->
  (length r + 1 <= beg)%nat -> (beg + length d)%nat = buflim s ->
  (buflim s < length (buffer s))%nat ->
  slice (buffer s) (beg - length r) (buflim s) = r ++ d ->
  r ++ d = unlines (eolbyte o) L ++ r' ->
  eol_free (eolbyte o) r -> eol_free (eolbyte o) r' ->
  grep_limits o v beg s
  = Ret ((beg - length r)%nat,
         (beg - length r + length (unlines (eolbyte o) L))%nat,
         length r') s.
Proof.
  intros Hz Hres Hbeg Hlim Hlen Hsl Hsplit Hr Hr'. unfold grep_limits.
  rewrite (bind_Ret _ _ s s s) by reflexivity. rewrite Hz.
  rewrite (bind_Ret _ _ s tt s) by reflexivity.
  destruct (Nat.eqb_spec beg 0) as [| _]; [lia |].
  destruct (Nat.ltb_spec (buflim s) beg) as [| _]; [lia |].
  cbn [orb]. rewrite (bind_Ret _ _ s tt s) by reflexivity.
  destruct (buffer s !! (beg - 1)%nat) as [oldc |] eqn:Hold.
  2:{ apply lookup_ge_None in Hold. lia. }
  rewrite (bind_Ret _ _ _ _ _ (load_Ret _ _ _ Hold)).
  assert (beg - 1 < length (buffer s))%nat as Hb1 by lia.
  rewrite (bind_Ret _ _ _ _ _ (store_Ret _ (eolbyte o) s Hb1)).
  set (s2 := set_buffer _ s).
  assert (length (buffer s2) = length (buffer s)) as Hl2
    by (subst s2; cbn; apply length_insert).
  rewrite (bind_Ret _ _ s2 (buffer s2) s2) by reflexivity.
  assert (beg - 1 + (buflim s - beg + 1) <= length (buffer s2))%nat as Hrange by lia.
  rewrite (bind_Ret _ _ _ _ _ (load_range_Ret _ _ s2 Hrange)).
  set (b0 := (beg - length r)%nat) in *.
  set (n := length (unlines (eolbyte o) L)).
  assert (length (r ++ d) = n + length r')%nat as Hrd
    by (rewrite Hsplit, length_app; reflexivity).
  assert (length (r ++ d) = length r + length d)%nat as Hrd' by apply length_app.
  assert (forall i, (i < length (r ++ d))%nat ->
                    buffer s !! (b0 + i)%nat = (r ++ d) !! i) as Hlook.
  { intros i Hi. apply (slice_lookup_app _ _ (buflim s)); [exact Hsl | lia | exact Hi]. }
  assert (forall i, (n <= i < length (r ++ d))%nat ->
                    exists x, (r ++ d) !! i = Some x /\ x <> eolbyte o) as Hafter.
  { intros i Hi. rewrite Hsplit, lookup_app_r by (fold n; lia). fold n.
    destruct (r' !! (i - n)%nat) as [x |] eqn:Hx.
    - exists x. split; [reflexivity |].
      unfold eol_free in Hr'. rewrite Forall_lookup in Hr'. apply (Hr' _ _ Hx).
    - apply lookup_ge_None in Hx. lia. }
  assert (exists q, memrchr (buffer s2) (beg - 1) (buflim s - beg + 1) (eolbyte o)
                    = Some q
                    /\ (if (q + 1 =? beg)%nat then (beg - length r)%nat
                        else (q + 1)%nat) = (b0 + n)%nat) as (q & Hm & Hq).
  { destruct (decide (n = 0)%nat) as [Hn0 | Hn0].
    - exists (beg - 1)%nat. split.
      + apply memrchr_last; [lia | |].
        * subst s2. cbn. apply list_lookup_insert_eq. exact Hb1.
        * intros i Hi. subst s2. cbn. rewrite list_lookup_insert_ne by lia.
          replace i with (b0 + (i - b0))%nat by lia.
          rewrite Hlook by lia. apply Hafter. lia.
      + replace (beg - 1 + 1)%nat with beg by lia. rewrite Nat.eqb_refl. lia.
    - destruct (unlines_last (eolbyte o) L) as [front Hfront].
      { intros ->. apply Hn0. reflexivity. }
      assert (n = length front + 1)%nat as Hnf
        by (subst n; rewrite Hfront, length_app; reflexivity).
      assert ((r ++ d) !! (n - 1)%nat = Some (eolbyte o)) as Heol.
      { rewrite Hsplit, lookup_app_l by (fold n; lia).
        rewrite Hfront, lookup_app_r by lia.
        replace (n - 1 - length front)%nat with 0%nat by lia. reflexivity. }
      assert (length r <= n - 1)%nat as Hrn.
      { destruct (Nat.le_gt_cases (length r) (n - 1)) as [| Hlt]; [assumption |].
        rewrite lookup_app_l in Heol by exact Hlt.
        unfold eol_free in Hr. rewrite Forall_lookup in Hr.
        exfalso. apply (Hr _ _ Heol). reflexivity. }
      exists (b0 + (n - 1))%nat. split.
      + apply memrchr_last; [lia | |].
        * subst s2. cbn. rewrite list_lookup_insert_ne by lia.
          rewrite Hlook by lia. exact Heol.
        * intros i Hi. subst s2. cbn. rewrite list_lookup_insert_ne by lia.
          replace i with (b0 + (i - b0))%nat by lia.
          rewrite Hlook by lia. apply Hafter. lia.
      + destruct (Nat.eqb_spec (b0 + (n - 1) + 1) beg); lia. }
  rewrite Hm.
  assert (beg - 1 < length (buffer s2))%nat as Hb2 by lia.
  rewrite (bind_Ret _ _ _ _ _ (store_Ret _ oldc s2 Hb2)).
  set (s3 := set_buffer _ s2).
  assert (s3 = s) as ->.
  { subst s3 s2. cbn [buffer set_buffer].
    rewrite list_insert_insert_eq, list_insert_id by exact Hold.
    now destruct s. }
  rewrite Hres.
  destruct (Nat.ltb_spec beg (length r)) as [| _]; [lia |].
  rewrite (bind_Ret _ _ s tt s) by reflexivity.
  fold b0. change (beg - length r)%nat with b0 in Hq. rewrite Hq.
  replace (buflim s - (b0 + n))%nat with (length r') by lia. reflexivity.
Qed.

Hypothesis Heol : eolbyte o <> 0.

Lemma reset_accepts wf s :
  reset_ok wf ->
  exists off,
    reset o wf s
    = Ret true (set_bufoffset off
                  (set_bufdesc (wf_reads wf)
                     (set_buffer [eolbyte o]
                        (set_bufbeg 1%nat (set_buflim 1%nat s))))).
Proof.
  intros Hok. unfold reset.
  destruct (wf_is_reg wf) eqn:Hreg.
  - destruct (wf_is_stdin wf) eqn:Hin; cbn [negb].
    + destruct (wf_lseek_cur wf) as [off |] eqn:Hcur.
      * exists off. reflexivity.
      * destruct Hok as [? | [? | [x Hx]]]; congruence.
    + exists 0. reflexivity.
  - exists (bufoffset s). cbn. now destruct s.
Qed.

Lemma grep_binary_check_text v s :
  binary_files o = TEXT_BINARY_FILES \/ no_nul (buffer s) (bufbeg s) (buflim s) ->
  (bufbeg s <= buflim s < length (buffer s))%nat ->
  buffer s !! buflim s = Some 0 ->
  grep_binary_check o v s = Ret (Some v) s.
Proof.
  intros Htext Hr Hz. unfold grep_binary_check.
  rewrite (bind_Ret _ _ s s s) by reflexivity.
  destruct (Z.eqb_spec (eolbyte o) 0) as [| _]; [done |].
  destruct (binary_files_eqb (binary_files o) TEXT_BINARY_FILES) eqn:Hb.
  - rewrite andb_false_r. reflexivity.
  - destruct Htext as [Ht | Hno]; [rewrite Ht in Hb; discriminate |].
    destruct (nlines_first_null v <? 0); [| reflexivity].
    cbn [negb andb].
    destruct (buf_has_nulls_spec (bufbeg s) (buflim s - bufbeg s) s)
      as (b & Hrun & Hiff); [lia |].
    replace (bufbeg s + (buflim s - bufbeg s))%nat with (buflim s) in * by lia.
    rewrite list_insert_id, set_buffer_same in Hrun by exact Hz.
    apply Hiff in Hno. subst b.
    rewrite bind_assoc. rewrite (bind_Ret _ _ _ _ _ Hrun).
    destruct (firsttime v); reflexivity.
Qed.

Lemma fillbuf_first s mv data rest :
  bufdesc s = ReadData mv data :: rest -> buffer s = [eolbyte o] ->
  buflim s = 1%nat -> skip_nuls s = false ->
  fillbuf o 0 s
  = Ret true
      (set_buffer (eolbyte o :: data ++ replicate 8 0)
         (set_buflim (1 + length data)%nat
            (set_bufoffset (bufoffset s + Z.of_nat (length data))
               (set_bufdesc rest (set_bufbeg 1%nat s))))).
Proof.
  intros Hdesc Hbuf Hlim Hskip. unfold fillbuf.
  rewrite (bind_Ret _ _ s s s) by reflexivity.
  rewrite Hlim, Hdesc. cbn [Nat.ltb Nat.leb fillbuf_moved].
  rewrite (bind_Ret _ _ s tt s) by reflexivity.
  destruct mv; cbn [negb].
  - unfold load_range, bind, modify, ret, gets. rewrite Hbuf. cbn.
    destruct (decide (1 <= 1)%nat) as [_ |]; [| lia]. cbn.
    rewrite Hskip. cbn. rewrite orb_true_r. cbn.
    destruct s; cbn in *. subst. reflexivity.
  - unfold load_range, bind, modify, ret, gets. cbn.
    rewrite Hskip. cbn. rewrite orb_true_r. cbn.
    destruct s; cbn in *. subst. reflexivity.
Qed.

Lemma fillbuf_eof s n :
  bufdesc s = [] -> (n <= buflim s)%nat ->
  fillbuf o n s
  = Ret true
      (set_buffer (take (buflim s) (buffer s) ++ replicate 8 0)
         (set_bufbeg (buflim s - n)%nat s)).
Proof.
  intros Hdesc Hn. unfold fillbuf.
  rewrite (bind_Ret _ _ s s s) by reflexivity.
  destruct (Nat.ltb_spec (buflim s) n) as [| _]; [lia |].
  rewrite (bind_Ret _ _ s tt s) by reflexivity.
  rewrite Hdesc. cbn [fillbuf_moved negb fillbuf_read].
  unfold bind, modify, ret. cbn. rewrite Nat.add_0_r.
  destruct s; cbn in *. subst. reflexivity.
Qed.

Lemma fillbuf_read_data s mv data rest :
  skip_nuls s = false \/ data = [] \/ all_zeros data = false ->
  fillbuf_read (ReadData mv data :: rest) s
  = Ret (data, true)
        (set_bufoffset (bufoffset s + Z.of_nat (length data))
           (set_bufdesc rest s)).
Proof.
  intros Hskip. cbn [fillbuf_read].
  rewrite (bind_Ret (modify _) _ _ tt _) by reflexivity.
  rewrite (bind_Ret (modify _) _ _ tt _) by reflexivity.
  cbn beta.
  match goal with |- bind _ _ ?st = _ =>
    rewrite (bind_Ret _ _ st (skip_nuls s) st) by reflexivity
  end.
  assert (negb (nonempty data) || negb (skip_nuls s) || negb (all_zeros data)
          = true) as ->.
  { destruct Hskip as [-> | [-> | ->]]; cbn; rewrite ?orb_true_r; reflexivity. }
  reflexivity.
Qed.

(** [fillbuf] when the read delivers data: the state it leaves. *)
Lemma fillbuf_data s save mv data rest :
  (save <= buflim s <= length (buffer s))%nat ->
  bufdesc s = ReadData mv data :: rest ->
  skip_nuls s = false \/ data = [] \/ all_zeros data = false ->
  fillbuf o save s
  = Ret true
      (set_buffer ((if mv
                    then eolbyte o :: slice (buffer s) (buflim s - save) (buflim s)
                    else take (buflim s) (buffer s))
                   ++ data ++ replicate 8 0)
         (set_buflim ((if mv then 1 + save else buflim s) + length data)%nat
            (set_bufoffset (bufoffset s + Z.of_nat (length data))
               (set_bufdesc rest
                  (set_bufbeg (if mv then 1 else buflim s - save)%nat s))))).
Proof.
  intros Hr Hdesc Hskip. unfold fillbuf.
  rewrite (bind_Ret _ _ s s s) by reflexivity.
  destruct (Nat.ltb_spec (buflim s) save) as [| _]; [lia |].
  rewrite (bind_Ret _ _ s tt s) by reflexivity.
  rewrite Hdesc. cbn [fillbuf_moved].
  destruct mv; cbn [negb].
  - rewrite !bind_assoc.
    rewrite (bind_Ret _ _ _ _ _
               (load_range_Ret (buflim s - save) save s ltac:(lia))).
    rewrite !bind_assoc.
    rewrite (bind_Ret (modify _) _ _ tt _) by reflexivity.
    rewrite !bind_assoc.
    rewrite (bind_Ret (modify _) _ _ tt _) by reflexivity.
    match goal with |- context [bind (ret ?a) _ ?st] =>
      rewrite (bind_Ret (ret a) _ st a st) by reflexivity
    end.
    match goal with |- context [bind (fillbuf_read _) _ ?st] =>
      rewrite (bind_Ret _ _ _ _ _
                 (fillbuf_read_data st true data rest Hskip))
    end.
    rewrite (bind_Ret (modify _) _ _ tt _) by reflexivity.
    rewrite (bind_Ret (modify _) _ _ tt _) by reflexivity.
    cbn [buffer bufoffset set_buffer set_bufbeg set_buflim set_bufdesc
         set_bufoffset].
    assert (length (take save (drop (buflim s - save) (buffer s))) = save)
      as Hlen by (rewrite length_take, length_drop; lia).
    rewrite take_ge by (cbn [length]; rewrite Hlen; lia).
    unfold slice. replace (buflim s - (buflim s - save))%nat with save by lia.
    unfold ret. f_equal; try (destruct s; reflexivity).
  - rewrite !bind_assoc.
    rewrite (bind_Ret (modify _) _ _ tt _) by reflexivity.
    match goal with |- context [bind (ret ?a) _ ?st] =>
      rewrite (bind_Ret (ret a) _ st a st) by reflexivity
    end.
    match goal with |- context [bind (fillbuf_read _) _ ?st] =>
      rewrite (bind_Ret _ _ _ _ _
                 (fillbuf_read_data st false data rest Hskip))
    end.
    rewrite (bind_Ret (modify _) _ _ tt _) by reflexivity.
    rewrite (bind_Ret (modify _) _ _ tt _) by reflexivity.
    reflexivity.
Qed.

Lemma grep_first_read fuel wf s mv data rest :
  reset_ok wf -> wf_reads wf = ReadData mv data :: rest ->
  exists s2,
    grep X o fuel wf s
    = (ve <- grep_loop X o fuel fuel (mkGrepVars true 0 0%nat 0%nat (-1) 0) ;;
       let '(v, e) := ve in
       match e with
       | ReturnZero => ret 0
       | GotoFinish => finish_grep o (done_on_match s) (out_quiet s) v
       | LoopBreak =>
           v' <- grep_residue X o fuel v ;;
           finish_grep o (done_on_match s) (out_quiet s) v'
       end) s2
    /\ buffer s2 = eolbyte o :: data ++ replicate 8 0
    /\ bufbeg s2 = 1%nat /\ buflim s2 = (1 + length data)%nat
    /\ bufdesc s2 = rest /\ outleft s2 = max_count o /\ pending s2 = 0
    /\ lastout s2 = None /\ encoding_error_output s2 = false
    /\ stdout s2 = stdout s /\ stderr s2 = stderr s /\ errseen s2 = errseen s
    /\ out_quiet s2 = out_quiet s /\ done_on_match s2 = done_on_match s.
Proof.
  intros Hok Hreads. destruct (reset_accepts wf s Hok) as [off Hreset].
  unfold grep. rewrite (bind_Ret _ _ s s s) by reflexivity.
  rewrite (bind_Ret _ _ _ _ _ Hreset). cbn [negb].
  rewrite Hreads.
  destruct (Z.eqb_spec (eolbyte o) 0) as [| _]; [done |].
  rewrite andb_false_r.
  repeat rewrite (bind_Ret (modify _) _ _ tt _) by reflexivity.
  match goal with |- context [bind (fillbuf o 0%nat) _ ?st] =>
    rewrite (bind_Ret _ _ _ _ _ (fillbuf_first st mv data rest eq_refl eq_refl eq_refl eq_refl))
  end.
  cbn [negb]. eexists. split; [reflexivity |].
  repeat split.
Qed.

(** At the end of the file nothing is read; without context lines
    only the residue is kept. *)
Lemma grep_refill_eof_bare v lim s :
  out_line o = false -> out_byte o = false -> out_before o < 0 ->
  bufdesc s = [] -> (residue v <= buflim s)%nat ->
  let s1 := if bool_decide (Some lim = lastout s) then s
            else set_lastout None s in
  grep_refill o v lim s
  = Ret (inl (mkGrepVars false (nlines v) (residue v) (residue v)
                         (nlines_first_null v) (nul_zapper v)))
        (set_buffer (take (buflim s) (buffer s) ++ replicate 8 0)
           (set_bufbeg (buflim s - residue v)%nat s1)).
Proof.
  intros Hline Hbyte Hbefore Hdesc Hres s1.
  unfold grep_refill. rewrite (bind_Ret _ _ s s s) by reflexivity.
  replace (Z.to_nat (out_before o)) with 0%nat by lia.
  cbn [save_context].
  assert (when (negb (bool_decide (Some lim = lastout s)))
               (modify (set_lastout None)) s = Ret tt s1) as Hwhen.
  { subst s1. destruct (bool_decide (Some lim = lastout s)); reflexivity. }
  rewrite (bind_Ret _ _ _ _ _ Hwhen).
  rewrite Nat.ltb_irrefl. rewrite (bind_Ret _ _ s1 tt s1) by reflexivity.
  rewrite Hbyte, Hline. cbn [when].
  rewrite (bind_Ret _ _ s1 tt s1) by reflexivity.
  rewrite (bind_Ret _ _ s1 tt s1) by reflexivity.
  replace (residue v + lim - lim)%nat with (residue v) by lia.
  assert (bufdesc s1 = [] /\ buflim s1 = buflim s /\ buffer s1 = buffer s)
    as (Hd1 & Hl1 & Hb1)
    by (subst s1; destruct (bool_decide (Some lim = lastout s));
        repeat split; assumption).
  rewrite (bind_Ret _ _ _ _ _
             (fillbuf_eof s1 (residue v) Hd1 ltac:(rewrite Hl1; exact Hres))).
  rewrite Hl1, Hb1. reflexivity.
Qed.

(** The buffer is filled again with the residue kept. *)
Lemma grep_refill_data_bare v lim s mv d rest :
  out_line o = false -> out_byte o = false -> out_before o < 0 ->
  bufdesc s = ReadData mv d :: rest ->
  (residue v <= buflim s <= length (buffer s))%nat ->
  skip_nuls s = false ->
  let s1 := if bool_decide (Some lim = lastout s) then s
            else set_lastout None s in
  grep_refill o v lim s
  = Ret (inl (mkGrepVars false (nlines v) (residue v) (residue v)
                         (nlines_first_null v) (nul_zapper v)))
        (set_buffer ((if mv
                      then eolbyte o
                           :: slice (buffer s) (buflim s - residue v) (buflim s)
                      else take (buflim s) (buffer s))
                     ++ d ++ replicate 8 0)
           (set_buflim ((if mv then 1 + residue v else buflim s) + length d)%nat
              (set_bufoffset (bufoffset s + Z.of_nat (length d))
                 (set_bufdesc rest
                    (set_bufbeg (if mv then 1 else buflim s - residue v)%nat
                                s1))))).
Proof.
  intros Hline Hbyte Hbefore Hdesc Hres Hskip s1.
  unfold grep_refill. rewrite (bind_Ret _ _ s s s) by reflexivity.
  replace (Z.to_nat (out_before o)) with 0%nat by lia.
  cbn [save_context].
  assert (when (negb (bool_decide (Some lim = lastout s)))
               (modify (set_lastout None)) s = Ret tt s1) as Hwhen.
  { subst s1. destruct (bool_decide (Some lim = lastout s)); reflexivity. }
  rewrite (bind_Ret _ _ _ _ _ Hwhen).
  rewrite Nat.ltb_irrefl. rewrite (bind_Ret _ _ s1 tt s1) by reflexivity.
  rewrite Hbyte, Hline. cbn [when].
  rewrite (bind_Ret _ _ s1 tt s1) by reflexivity.
  rewrite (bind_Ret _ _ s1 tt s1) by reflexivity.
  replace (residue v + lim - lim)%nat with (residue v) by lia.
  assert (bufdesc s1 = bufdesc s /\ buflim s1 = buflim s
          /\ buffer s1 = buffer s /\ skip_nuls s1 = skip_nuls s
          /\ bufoffset s1 = bufoffset s)
    as (Hd1 & Hl1 & Hb1 & Hs1 & Ho1)
    by (subst s1; destruct (bool_decide (Some lim = lastout s));
        repeat split; assumption).
  rewrite (bind_Ret _ _ _ _ _
             (fillbuf_data s1 (residue v) mv d rest
                ltac:(rewrite Hl1, Hb1; exact Hres)
                ltac:(rewrite Hd1; exact Hdesc)
                ltac:(left; rewrite Hs1; exact Hskip))).
  rewrite Hl1, Hb1, Ho1. reflexivity.
Qed.

Lemma buffer_holds_no_nul pre live s :
  buffer_holds pre live s ->
  binary_files o = TEXT_BINARY_FILES \/ Forall (fun c => c <> 0) live ->
  binary_files o = TEXT_BINARY_FILES \/ no_nul (buffer s) (bufbeg s) (buflim s).
Proof.
  intros (Hbuf & Hbeg & Hlim & _) [Ht | Hnn]; [left; exact Ht | right].
  intros i Hi. rewrite Hbuf, Hbeg, Hlim in *.
  rewrite lookup_app_r by lia. rewrite lookup_app_l by lia.
  intros Hc. rewrite Forall_lookup in Hnn. apply (Hnn _ _ Hc). reflexivity.
Qed.

Lemma buffer_holds_zero pre live s :
  buffer_holds pre live s ->
  buffer s !! buflim s = Some 0
  /\ length (buffer s) = (buflim s + 8)%nat.
Proof.
  intros (Hbuf & Hbeg & Hlim & _). rewrite Hbuf, Hlim. split.
  - rewrite lookup_app_r by lia. rewrite lookup_app_r by lia.
    replace (length pre + length live - length pre - length live)%nat
      with 0%nat by lia.
    reflexivity.
  - rewrite !length_app, length_replicate. lia.
Qed.

(** A turn of the loop on a buffer with new data, up to the scan of
    its complete lines. *)
Lemma grep_body_limits fuel v s pre r d :
  buffer_holds pre (r ++ d) s -> d <> [] -> eol_free (eolbyte o) r ->
  residue v = length r -> save v = length r -> nul_zapper v = 0 ->
  binary_files o = TEXT_BINARY_FILES \/ Forall (fun c => c <> 0) (r ++ d) ->
  let L := fst (lines_of (eolbyte o) (r ++ d)) in
  let r' := snd (lines_of (eolbyte o) (r ++ d)) in
  let lim := (length pre + length (unlines (eolbyte o) L))%nat in
  exists lo,
    grep_body X o fuel v s
    = (res <- (if (length pre <? lim)%nat
               then grep_scan X o fuel v (length pre) lim
               else ret (nlines v, false)) ;;
       let '(nlines', finish) := res in
       let v' := mkGrepVars (firsttime v) nlines' (length r') (length r)
                            (nlines_first_null v) 0 in
       if finish : bool then ret (inr (v', GotoFinish))
       else grep_refill o v' lim)
        (set_lastout lo (set_lastnl (bufbeg s) s))
    /\ slice (buffer s) (length pre) lim = unlines (eolbyte o) L
    /\ (lim <= buflim s)%nat.
Proof.
  intros Hh Hd Hr Hres Hsave Hzap Htext L r' lim.
  destruct (buffer_holds_zero _ _ _ Hh) as [Hz Hblen].
  pose proof (buffer_holds_no_nul _ _ _ Hh Htext) as Hnn.
  destruct Hh as (Hbuf & Hbeg & Hlim & Hpre).
  rewrite length_app in Hlim.
  assert (0 < length d)%nat as Hdl by (destruct d; [done | cbn; lia]).
  destruct (lines_of_spec (eolbyte o) (r ++ d)) as (Hsplit & HL & Hr').
  fold L r' in Hsplit, HL, Hr'.
  assert (length r + length d
          = length (unlines (eolbyte o) L) + length r')%nat as Hrd.
  { rewrite <- (length_app r d), Hsplit, length_app. reflexivity. }
  assert (slice (buffer s) (length pre) lim = unlines (eolbyte o) L) as Hsl1.
  { rewrite Hbuf, Hsplit. subst lim.
    rewrite <- !app_assoc. apply slice_middle. }
  unfold grep_body.
  rewrite (bind_Ret _ _ _ _ _
             (grep_binary_check_text v s Hnn ltac:(lia) Hz)).
  rewrite (bind_Ret (modify _) _ _ tt _) by reflexivity.
  rewrite (bind_Ret (modify _) _ _ tt _) by reflexivity.
  cbn beta.
  set (s0 := match lastout (set_lastnl (bufbeg s) s) with
             | Some _ => _ | None => _ end).
  assert (exists lo, s0 = set_lastout lo (set_lastnl (bufbeg s) s)) as [lo Hs0].
  { subst s0. cbn [lastout set_lastnl]. destruct (lastout s) eqn:Hlo.
    - eexists. reflexivity.
    - exists None. destruct s; cbn in *; subst; reflexivity. }
  clearbody s0. subst s0. exists lo.
  set (s0 := set_lastout lo (set_lastnl (bufbeg s) s)).
  split; [| split; [exact Hsl1 | subst lim; lia]].
  rewrite (bind_Ret _ _ s0 s0 s0) by reflexivity.
  change (bufbeg s0) with (bufbeg s). change (buflim s0) with (buflim s).
  rewrite Hsave, Hbeg.
  destruct (Nat.eqb_spec (length pre + length r) (buflim s)) as [| _]; [lia |].
  assert (slice (buffer s0) (length pre + length r - length r) (buflim s0)
          = r ++ d) as Hsl.
  { change (buffer s0) with (buffer s). change (buflim s0) with (buflim s).
    rewrite Hbuf, Hlim.
    replace (length pre + length r - length r)%nat with (length pre) by lia.
    replace (length r + length d)%nat with (length (r ++ d))
      by apply length_app.
    apply slice_middle. }
  rewrite (bind_Ret _ _ _ _ _
             (grep_limits_text v (length pre + length r)%nat s0 r d L r'
                Hzap Hres ltac:(lia)
                ltac:(change (buflim s0) with (buflim s); lia)
                ltac:(change (buflim s0) with (buflim s);
                      change (buffer s0) with (buffer s); lia)
                Hsl Hsplit Hr Hr')).
  replace (length pre + length r - length r)%nat with (length pre) by lia.
  fold lim. rewrite Hzap. reflexivity.
Qed.

Hypothesis Hplain : plain_output o.
Hypothesis Hnoenc : no_encoding_test X o.
Variable sel : list byte -> bool.
Hypothesis Hsel : selects_lines (execute X) (eolbyte o) sel.

(** The scan of the complete lines of a buffer. *)
Lemma grep_scan_plain fuel v beg lim s lines :
  slice (buffer s) beg lim = unlines (eolbyte o) lines ->
  Forall (eol_free (eolbyte o)) lines ->
  (lim <= length (buffer s))%nat ->
  scanning s -> 0 < outleft s -> (length lines <= fuel)%nat ->
  let out := take (Z.to_nat (outleft s))
                  (selected_lines sel (out_invert o) lines) in
  exists s',
    (if (beg <? lim)%nat then grep_scan X o fuel v beg lim
     else ret (nlines v, false)) s
    = Ret (nlines v + Z.of_nat (length out), outleft s' =? 0) s'
    /\ stdout s' = stdout s ++ shown s (unlines (eolbyte o) out)
    /\ outleft s' = outleft s - Z.of_nat (length out)
    /\ printed s s' /\ scanning s'.
Proof.
  intros Hsl Hfree Hlen Hsc Hol Hfuel out.
  destruct (Nat.ltb_spec beg lim) as [Hlt | Hge].
  - destruct (grepbuf_scan X o sel fuel beg lim s lines Hplain Hnoenc Hsel
                Hsl Hfree ltac:(lia) Hsc Hol Hfuel)
      as (s' & Hrun & Hout & Hol' & Hpr & Hsc').
    exists s'. split; [| repeat split; assumption || apply Hsc'].
    unfold grep_scan. rewrite (bind_Ret _ _ s s s) by reflexivity.
    destruct (Z.eqb_spec (outleft s) 0) as [| _]; [lia |]. cbn [negb].
    rewrite (bind_Ret _ _ _ _ _ Hrun).
    rewrite (bind_Ret _ _ s' s' s') by reflexivity.
    destruct Hsc' as [Hd Hp]. rewrite Hp. cbn [Z.eqb negb when].
    rewrite (bind_Ret _ _ s' tt s') by reflexivity.
    rewrite (bind_Ret _ _ s' s' s') by reflexivity.
    rewrite Hd, Hp. cbn [Z.eqb andb orb]. rewrite andb_true_r, orb_false_r.
    reflexivity.
  - assert (lines = []) as ->.
    { apply (unlines_nil_length (eolbyte o)). rewrite <- Hsl.
      rewrite slice_nil by lia. reflexivity. }
    exists s. subst out. cbn.
    destruct (Z.eqb_spec (outleft s) 0) as [| _]; [lia |].
    rewrite take_nil. cbn [length Z.of_nat unlines List.map concat].
    change (unlines (eolbyte o) []) with (@nil byte).
    rewrite Z.add_0_r, shown_nil, app_nil_r, Z.sub_0_r.
    repeat split; try apply Hsc. apply printed_refl.
Qed.

Lemma grep_refill_eof v lim s :
  bufdesc s = [] -> (residue v <= buflim s)%nat ->
  let s1 := if bool_decide (Some lim = lastout s) then s
            else set_lastout None s in
  grep_refill o v lim s
  = Ret (inl (mkGrepVars false (nlines v) (residue v) (residue v)
                         (nlines_first_null v) (nul_zapper v)))
        (set_buffer (take (buflim s) (buffer s) ++ replicate 8 0)
           (set_bufbeg (buflim s - residue v)%nat s1)).
Proof.
  destruct Hplain as (_ & _ & _ & Hline & Hbyte & Hbefore & _).
  apply grep_refill_eof_bare; assumption.
Qed.

Lemma grep_refill_data v lim s mv d rest :
  bufdesc s = ReadData mv d :: rest ->
  (residue v <= buflim s <= length (buffer s))%nat ->
  skip_nuls s = false ->
  let s1 := if bool_decide (Some lim = lastout s) then s
            else set_lastout None s in
  grep_refill o v lim s
  = Ret (inl (mkGrepVars false (nlines v) (residue v) (residue v)
                         (nlines_first_null v) (nul_zapper v)))
        (set_buffer ((if mv
                      then eolbyte o
                           :: slice (buffer s) (buflim s - residue v) (buflim s)
                      else take (buflim s) (buffer s))
                     ++ d ++ replicate 8 0)
           (set_buflim ((if mv then 1 + residue v else buflim s) + length d)%nat
              (set_bufoffset (bufoffset s + Z.of_nat (length d))
                 (set_bufdesc rest
                    (set_bufbeg (if mv then 1 else buflim s - residue v)%nat
                                s1))))).
Proof.
  destruct Hplain as (_ & _ & _ & Hline & Hbyte & Hbefore & _).
  apply grep_refill_data_bare; assumption.
Qed.

(** A turn of the loop at the end of the file: nothing new was read. *)
Lemma grep_body_eof fuel v s :
  binary_files o = TEXT_BINARY_FILES \/ no_nul (buffer s) (bufbeg s) (buflim s) ->
  (bufbeg s <= buflim s < length (buffer s))%nat ->
  buffer s !! buflim s = Some 0 ->
  (bufbeg s + save v)%nat = buflim s ->
  grep_body X o fuel v s
  = Ret (inr (v, LoopBreak))
        (match lastout s with
         | Some _ => set_lastout (Some (bufbeg s)) (set_lastnl (bufbeg s) s)
         | None => set_lastnl (bufbeg s) s
         end).
Proof.
  intros Htext Hr Hz Hsave. unfold grep_body.
  rewrite (bind_Ret _ _ _ _ _ (grep_binary_check_text v s Htext Hr Hz)).
  rewrite (bind_Ret (modify _) _ _ tt _) by reflexivity.
  rewrite (bind_Ret (modify _) _ _ tt _) by reflexivity.
  cbn beta.
  set (s1 := match lastout (set_lastnl (bufbeg s) s) with
             | Some _ => _ | None => _ end).
  rewrite (bind_Ret _ _ s1 s1 s1) by reflexivity.
  assert (bufbeg s1 = bufbeg s /\ buflim s1 = buflim s) as [-> ->]
    by (subst s1; cbn; destruct (lastout s); split; reflexivity).
  rewrite Hsave, Nat.eqb_refl. subst s1. cbn. destruct (lastout s); reflexivity.
Qed.

(** A turn of the loop on a buffer with new data, up to the decision
    to stop or to fill the buffer again. *)
Lemma grep_body_scan fuel v s pre r d :
  buffer_holds pre (r ++ d) s -> d <> [] -> eol_free (eolbyte o) r ->
  residue v = length r -> save v = length r ->
  nul_zapper v = 0 -> nlines_first_null v = -1 ->
  scanning s -> 0 < outleft s ->
  binary_files o = TEXT_BINARY_FILES \/ Forall (fun c => c <> 0) (r ++ d) ->
  let L := fst (lines_of (eolbyte o) (r ++ d)) in
  let r' := snd (lines_of (eolbyte o) (r ++ d)) in
  (length L <= fuel)%nat ->
  let out := take (Z.to_nat (outleft s))
                  (selected_lines sel (out_invert o) L) in
  let v1 := mkGrepVars (firsttime v) (nlines v + Z.of_nat (length out))
                       (length r') (length r) (-1) 0 in
  exists s1,
    grep_body X o fuel v s
    = (if outleft s1 =? 0 then ret (inr (v1, GotoFinish))
       else grep_refill o v1 (length pre + length (unlines (eolbyte o) L))%nat)
        s1
    /\ stdout s1 = stdout s ++ shown s (unlines (eolbyte o) out)
    /\ outleft s1 = outleft s - Z.of_nat (length out)
    /\ scanning s1
    /\ buffer s1 = buffer s /\ bufbeg s1 = bufbeg s /\ buflim s1 = buflim s
    /\ bufdesc s1 = bufdesc s
    /\ encoding_error_output s1 = encoding_error_output s
    /\ stderr s1 = stderr s /\ errseen s1 = errseen s
    /\ out_quiet s1 = out_quiet s /\ skip_nuls s1 = skip_nuls s.
Proof.
  intros Hh Hd Hr Hres Hsave Hzap Hnull Hsc Hol Htext L r' Hfuel out v1.
  destruct (buffer_holds_zero _ _ _ Hh) as [Hz Hblen].
  pose proof (buffer_holds_no_nul _ _ _ Hh Htext) as Hnn.
  destruct Hh as (Hbuf & Hbeg & Hlim & Hpre).
  rewrite length_app in Hlim.
  assert (0 < length d)%nat as Hdl by (destruct d; [done | cbn; lia]).
  destruct (lines_of_spec (eolbyte o) (r ++ d)) as (Hsplit & HL & Hr').
  fold L r' in Hsplit, HL, Hr'.
  unfold grep_body.
  rewrite (bind_Ret _ _ _ _ _
             (grep_binary_check_text v s Hnn ltac:(lia) Hz)).
  rewrite (bind_Ret (modify _) _ _ tt _) by reflexivity.
  rewrite (bind_Ret (modify _) _ _ tt _) by reflexivity.
  cbn beta.
  set (s0 := match lastout (set_lastnl (bufbeg s) s) with
             | Some _ => _ | None => _ end).
  assert (exists lo, s0 = set_lastout lo (set_lastnl (bufbeg s) s)) as [lo Hs0].
  { subst s0. cbn [lastout set_lastnl]. destruct (lastout s) eqn:Hlo.
    - eexists. reflexivity.
    - exists None. destruct s; cbn in *; subst; reflexivity. }
  clearbody s0. subst s0.
  set (s0 := set_lastout lo (set_lastnl (bufbeg s) s)).
  rewrite (bind_Ret _ _ s0 s0 s0) by reflexivity.
  change (bufbeg s0) with (bufbeg s). change (buflim s0) with (buflim s).
  rewrite Hsave, Hbeg.
  destruct (Nat.eqb_spec (length pre + length r) (buflim s)) as [| _]; [lia |].
  assert (slice (buffer s0) (length pre + length r - length r) (buflim s0)
          = r ++ d) as Hsl.
  { change (buffer s0) with (buffer s). change (buflim s0) with (buflim s).
    rewrite Hbuf, Hlim.
    replace (length pre + length r - length r)%nat with (length pre) by lia.
    replace (length r + length d)%nat with (length (r ++ d))
      by apply length_app.
    apply slice_middle. }
  rewrite (bind_Ret _ _ _ _ _
             (grep_limits_text v (length pre + length r)%nat s0 r d L r'
                Hzap Hres ltac:(lia)
                ltac:(change (buflim s0) with (buflim s); lia)
                ltac:(change (buflim s0) with (buflim s);
                      change (buffer s0) with (buffer s); lia)
                Hsl Hsplit Hr Hr')).
  replace (length pre + length r - length r)%nat with (length pre) by lia.
  set (n := length (unlines (eolbyte o) L)).
  assert (length r + length d = n + length r')%nat as Hrd.
  { rewrite <- (length_app r d), Hsplit, length_app. reflexivity. }
  assert (slice (buffer s0) (length pre) (length pre + n)
          = unlines (eolbyte o) L) as Hsl1.
  { change (buffer s0) with (buffer s). rewrite Hbuf, Hsplit.
    rewrite <- !app_assoc. apply slice_middle. }
  destruct (grep_scan_plain fuel v (length pre) (length pre + n)%nat s0 L
              Hsl1 HL
              ltac:(change (buffer s0) with (buffer s); lia) Hsc Hol Hfuel)
    as (s2 & Hscan & Hout & Hol2 & Hpr & Hsc2).
  cbv zeta in Hscan, Hout, Hol2.
  change (outleft s0) with (outleft s) in Hscan, Hout, Hol2.
  change (stdout s0) with (stdout s) in Hout.
  change (shown s0) with (shown s) in Hout.
  fold out in Hscan, Hout, Hol2.
  rewrite (bind_Ret _ _ _ _ _ Hscan).
  destruct (printed_frame _ _ Hpr)
    as (Fbuf & Fbeg & Flim & Fdesc & Fenc & Ferr & Fseen & Fq & Fd & Fskip).
  exists s2. rewrite ?Hsave, ?Hnull, ?Hzap. fold v1.
  split; [destruct (outleft s2 =? 0); reflexivity |].
  repeat split;
    first [assumption | apply Hsc2 | rewrite Fbeg; exact Hbeg].
Qed.

Lemma bind_run {A B : Type} (m m' : M A) (k : A -> M B) s s' :
  m s = m' s' -> bind m k s = bind m' k s'.
Proof. intros H. unfold bind. rewrite H. reflexivity. Qed.

(** The loop of [grep] on a file that arrives in several reads, from
    a buffer that holds the residue [r] and the new data [d]. *)
Lemma grep_loop_chunks fuel (reads : list (bool * list byte)) :
  forall k v s pre r d,
  buffer_holds pre (r ++ d) s -> d <> [] -> eol_free (eolbyte o) r ->
  residue v = length r -> save v = length r ->
  nul_zapper v = 0 -> nlines_first_null v = -1 ->
  bufdesc s = reads_of reads -> Forall (fun p => snd p <> []) reads ->
  scanning s -> 0 < outleft s -> skip_nuls s = false ->
  binary_files o = TEXT_BINARY_FILES
  \/ Forall (fun c => c <> 0) (r ++ d ++ file_data reads) ->
  (length reads + 2 <= k)%nat ->
  let L := fst (lines_of (eolbyte o) (r ++ d ++ file_data reads)) in
  let t := snd (lines_of (eolbyte o) (r ++ d ++ file_data reads)) in
  (length L <= fuel)%nat ->
  let out := take (Z.to_nat (outleft s))
                  (selected_lines sel (out_invert o) L) in
  exists v' e s',
    grep_loop X o fuel k v s = Ret (v', e) s'
    /\ nlines v' = nlines v + Z.of_nat (length out)
    /\ nlines_first_null v' = -1
    /\ stdout s' = stdout s ++ shown s (unlines (eolbyte o) out)
    /\ outleft s' = outleft s - Z.of_nat (length out)
    /\ scanning s'
    /\ encoding_error_output s' = encoding_error_output s
    /\ stderr s' = stderr s /\ errseen s' = errseen s
    /\ out_quiet s' = out_quiet s
    /\ ((e = GotoFinish /\ outleft s' = 0)
        \/ (e = LoopBreak /\ 0 < outleft s' /\ residue v' = length t
            /\ save v' = length t
            /\ exists pre', buffer_holds pre' t s')).
Proof.
  induction reads as [| [mv d'] rest IH];
    intros k v s pre r d Hh Hd Hr Hres Hsave Hzap Hnull Hdesc Hne Hsc Hol
           Hskip Htext Hk L t Hfuel out.
  all: destruct k as [| k]; [lia |]; cbn [grep_loop].
  all: set (L1 := fst (lines_of (eolbyte o) (r ++ d)));
       set (r' := snd (lines_of (eolbyte o) (r ++ d)));
       set (out1 := take (Z.to_nat (outleft s))
                         (selected_lines sel (out_invert o) L1)).
  all: assert (length out1 <= Z.to_nat (outleft s))%nat as Hlen1
         by (subst out1; rewrite length_take; lia).
  all: destruct (lines_of_spec (eolbyte o) (r ++ d)) as (Hsplit & HL1 & Hr');
       fold L1 r' in Hsplit, HL1, Hr'.
  - (* the last buffer *)
    assert (L = L1 /\ t = r') as [HL Ht].
    { subst L t. unfold file_data. cbn [List.map concat].
      rewrite app_nil_r. split; reflexivity. }
    assert (binary_files o = TEXT_BINARY_FILES
            \/ Forall (fun c => c <> 0) (r ++ d)) as Htext1.
    { destruct Htext as [Ht1 | Hnn]; [left; exact Ht1 | right].
      unfold file_data in Hnn. cbn [List.map concat] in Hnn.
      rewrite app_nil_r in Hnn. exact Hnn. }
    destruct (grep_body_scan fuel v s pre r d Hh Hd Hr Hres Hsave Hzap Hnull
                Hsc Hol Htext1 ltac:(fold L1; rewrite <- HL; exact Hfuel))
      as (s1 & Hbody & Hout & Hol1 & Hsc1 & Fbuf & Fbeg & Flim & Fdesc
          & Fenc & Ferr & Fseen & Fq & Fskip).
    fold L1 r' out1 in Hbody, Hout, Hol1.
    rewrite (bind_run _ _ _ _ _ Hbody).
    subst out. rewrite HL. fold out1.
    destruct (Z.eqb_spec (outleft s1) 0) as [H0 | Hn0].
    + rewrite (bind_Ret _ _ s1 _ s1) by reflexivity.
      eexists. exists GotoFinish, s1. split; [reflexivity |].
      cbn [nlines nlines_first_null].
      repeat split; try assumption; try apply Hsc1.
      left. split; [reflexivity | exact H0].
    + destruct Hh as (Hbuf & Hbeg & Hlim & Hpre).
      assert (length (r ++ d)
              = length (unlines (eolbyte o) L1) + length r')%nat as Hrd
        by (rewrite Hsplit at 1; apply length_app).
      assert (length r' <= buflim s1)%nat as Hres1 by (rewrite Flim, Hlim; lia).
      assert (bufdesc s1 = []) as Hd1 by (rewrite Fdesc; exact Hdesc).
      match goal with |- context [grep_refill o ?v1 ?lim] =>
        rewrite (bind_Ret _ _ _ _ _ (grep_refill_eof v1 lim s1 Hd1 Hres1))
      end.
      cbn [residue nlines nlines_first_null nul_zapper].
      set (s2 := set_buffer _ _).
      set (v2 := mkGrepVars false _ _ _ _ _).
      destruct k as [| k]; [lia |]. cbn [grep_loop].
      set (pre' := pre ++ unlines (eolbyte o) L1).
      assert (buffer_holds pre' r' s2) as Hh2.
      { subst s2. unfold buffer_holds.
        cbn [buffer bufbeg buflim set_buffer set_bufbeg].
        assert (forall z, buflim (if bool_decide (Some z = lastout s1) then s1
                                  else set_lastout None s1) = buflim s1)
          as Hl by (intros z; destruct (bool_decide _); reflexivity).
        rewrite Fbuf, Flim, Hbuf, Hlim, Hsplit. subst pre'.
        rewrite !length_app. repeat split; try lia.
        - rewrite <- !app_assoc.
          rewrite (app_assoc pre), (app_assoc (pre ++ _) r').
          rewrite take_app_length'
            by (rewrite !length_app; lia).
          rewrite <- !app_assoc. reflexivity.
        - destruct (bool_decide _); cbn [buflim set_lastout];
            rewrite Flim, Hlim, Hrd; lia. }
      destruct (buffer_holds_zero _ _ _ Hh2) as [Hz2 Hblen2].
      assert (binary_files o = TEXT_BINARY_FILES
              \/ Forall (fun c => c <> 0) r') as Htext2.
      { destruct Htext1 as [Ht1 | Hnn]; [left; exact Ht1 | right].
        rewrite Hsplit in Hnn. apply Forall_app in Hnn. apply Hnn. }
      pose proof (buffer_holds_no_nul _ _ _ Hh2 Htext2) as Hnn2.
      destruct Hh2 as (Hbuf2 & Hbeg2 & Hlim2 & Hpre2).
      rewrite (bind_Ret _ _ _ _ _
                 (grep_body_eof fuel v2 s2 Hnn2 ltac:(lia) Hz2
                    ltac:(rewrite Hbeg2, Hlim2; reflexivity))).
      set (s3 := match lastout s2 with Some _ => _ | None => _ end).
      exists v2, LoopBreak, s3. split; [reflexivity |].
      assert (exists lo, s3 = set_lastout lo (set_lastnl (bufbeg s2) s2))
        as [lo ->].
      { subst s3. destruct (lastout s2) eqn:Hlo.
        - eexists. reflexivity.
        - exists None. destruct s2; cbn in *; subst; reflexivity. }
      assert (0 < outleft s1) by lia.
      subst s2 v2.
      cbn [nlines nlines_first_null residue save stdout outleft
           encoding_error_output stderr errseen out_quiet scanning
           done_on_match pending set_lastout set_lastnl set_buffer
           set_bufbeg].
      destruct (bool_decide _);
        cbn [stdout outleft encoding_error_output stderr errseen out_quiet
             done_on_match pending set_lastout];
        (split; [reflexivity |]; split; [reflexivity |];
         split; [exact Hout |]; split; [exact Hol1 |];
         split; [exact Hsc1 |]; split; [exact Fenc |]; split; [exact Ferr |];
         split; [exact Fseen |]; split; [exact Fq |];
         right; split; [reflexivity |]; split; [assumption |];
         split; [rewrite Ht; reflexivity |];
         split; [rewrite Ht; reflexivity |];
         exists pre'; rewrite Ht; unfold buffer_holds;
         cbn [buffer bufbeg buflim set_lastout set_lastnl set_buffer
              set_bufbeg];
         cbn [buffer bufbeg buflim set_lastout set_buffer set_bufbeg]
           in Hbuf2, Hbeg2, Hlim2;
         repeat split; assumption).
  - (* a buffer that is followed by another *)
    set (L2 := fst (lines_of (eolbyte o) (r' ++ d' ++ file_data rest))).
    set (t2 := snd (lines_of (eolbyte o) (r' ++ d' ++ file_data rest))).
    assert (file_data ((mv, d') :: rest) = d' ++ file_data rest) as Hfd
      by reflexivity.
    assert (L = L1 ++ L2 /\ t = t2) as [HL Ht].
    { subst L t L2 t2. rewrite Hfd, (app_assoc r d), lines_of_app.
      split; reflexivity. }
    assert (binary_files o = TEXT_BINARY_FILES
            \/ Forall (fun c => c <> 0) (r ++ d)) as Htext1.
    { destruct Htext as [Ht1 | Hnn]; [left; exact Ht1 | right].
      rewrite app_assoc in Hnn. apply Forall_app in Hnn. apply Hnn. }
    assert (binary_files o = TEXT_BINARY_FILES
            \/ Forall (fun c => c <> 0) (r' ++ d' ++ file_data rest)) as Htext2.
    { destruct Htext as [Ht1 | Hnn]; [left; exact Ht1 | right].
      rewrite Hfd, app_assoc, Hsplit, <- app_assoc in Hnn.
      apply Forall_app in Hnn. apply Hnn. }
    assert (length L = length L1 + length L2)%nat as HLlen
      by (rewrite HL; apply length_app).
    destruct (grep_body_scan fuel v s pre r d Hh Hd Hr Hres Hsave Hzap Hnull
                Hsc Hol Htext1 ltac:(fold L1; lia))
      as (s1 & Hbody & Hout & Hol1 & Hsc1 & Fbuf & Fbeg & Flim & Fdesc
          & Fenc & Ferr & Fseen & Fq & Fskip).
    fold L1 r' out1 in Hbody, Hout, Hol1.
    rewrite (bind_run _ _ _ _ _ Hbody).
    assert (out = out1 ++ take (Z.to_nat (outleft s) - length out1)
                            (selected_lines sel (out_invert o) L2)) as Hsplit_out.
    { subst out out1. rewrite HL, selected_lines_app. apply take_selected_app. }
    destruct (Z.eqb_spec (outleft s1) 0) as [H0 | Hn0].
    + rewrite (bind_Ret _ _ s1 _ s1) by reflexivity.
      assert (out = out1) as ->.
      { rewrite Hsplit_out.
        replace (Z.to_nat (outleft s) - length out1)%nat with 0%nat by lia.
        rewrite take_0, app_nil_r. reflexivity. }
      eexists. exists GotoFinish, s1. split; [reflexivity |].
      cbn [nlines nlines_first_null].
      repeat split; try assumption; try apply Hsc1.
      left. split; [reflexivity | exact H0].
    + destruct Hh as (Hbuf & Hbeg & Hlim & Hpre).
      assert (length (r ++ d)
              = length (unlines (eolbyte o) L1) + length r')%nat as Hrd
        by (rewrite Hsplit at 1; apply length_app).
      assert (length (buffer s1) = (buflim s1 + 8)%nat) as Hblen.
      { rewrite Fbuf, Flim, Hbuf, Hlim, !length_app, length_replicate. lia. }
      assert (length r' <= buflim s1 <= length (buffer s1))%nat as Hres1
        by (rewrite Hblen, Flim, Hlim; lia).
      assert (bufdesc s1 = ReadData mv d' :: reads_of rest) as Hd1
        by (rewrite Fdesc; exact Hdesc).
      assert (skip_nuls s1 = false) as Hskip1 by (rewrite Fskip; exact Hskip).
      match goal with |- context [grep_refill o ?v1 ?lim] =>
        rewrite (bind_Ret _ _ _ _ _
                   (grep_refill_data v1 lim s1 mv d' (reads_of rest)
                      Hd1 Hres1 Hskip1));
        assert (exists lo, (if bool_decide (Some lim = lastout s1) then s1
                            else set_lastout None s1) = set_lastout lo s1)
          as [lo ->]
      end.
      { destruct (bool_decide _).
        - exists (lastout s1). now destruct s1.
        - eexists. reflexivity. }
      cbn [residue nlines nlines_first_null nul_zapper buffer buflim bufoffset
           set_lastout].
      set (s2 := set_buffer _ _).
      set (v2 := mkGrepVars false _ _ _ _ _).
      set (pre1 := pre ++ unlines (eolbyte o) L1).
      assert (buffer s1 = pre1 ++ r' ++ replicate 8 0) as Hbuf1.
      { rewrite Fbuf, Hbuf, Hsplit. subst pre1. rewrite <- !app_assoc.
        reflexivity. }
      assert (buflim s1 = length pre1 + length r')%nat as Hlim1.
      { rewrite Flim, Hlim, Hrd. subst pre1. rewrite length_app. lia. }
      set (pre2 := if mv then [eolbyte o] else pre1).
      assert (buffer_holds pre2 (r' ++ d') s2) as Hh2.
      { subst s2 pre2. unfold buffer_holds.
        cbn [buffer bufbeg buflim set_buffer set_bufbeg set_buflim
             set_bufdesc set_bufoffset set_lastout].
        rewrite Hbuf1, Hlim1. rewrite length_app.
        replace (length pre1 + length r' - length r')%nat with (length pre1)
          by lia.
        destruct mv.
        - rewrite slice_middle. cbn [length app].
          rewrite <- !app_assoc. repeat split; lia.
        - rewrite (app_assoc pre1 r').
          rewrite take_app_length' by (rewrite length_app; lia).
          rewrite <- !app_assoc.
          repeat split; [lia | subst pre1; rewrite length_app; lia]. }
      apply Forall_cons_1 in Hne as [Hd'ne Hne].
      destruct (IH k v2 s2 pre2 r' d' Hh2 Hd'ne Hr' eq_refl eq_refl eq_refl
                  eq_refl eq_refl Hne
                  ltac:(split; [apply Hsc1 | apply Hsc1])
                  ltac:(change (outleft s2) with (outleft s1); lia)
                  Hskip1 Htext2 ltac:(cbn [length] in Hk; lia)
                  ltac:(fold L2; lia))
        as (v' & e & s' & Hloop & Hn' & Hnull' & Hout' & Hol' & Hsc' & Fenc'
            & Ferr' & Fseen' & Fq' & Hcase).
      fold L2 t2 in Hn', Hout', Hol', Hcase.
      change (outleft s2) with (outleft s1) in Hn', Hout', Hol'.
      change (stdout s2) with (stdout s1) in Hout'.
      change (shown s2) with (shown s1) in Hout'.
      change (encoding_error_output s2) with (encoding_error_output s1) in Fenc'.
      change (stderr s2) with (stderr s1) in Ferr'.
      change (errseen s2) with (errseen s1) in Fseen'.
      change (out_quiet s2) with (out_quiet s1) in Fq'.
      change (nlines v2) with (nlines v + Z.of_nat (length out1)) in Hn'.
      assert (Z.to_nat (outleft s1) = Z.to_nat (outleft s) - length out1)%nat
        as Hleft by lia.
      rewrite Hleft in Hn', Hout', Hol'.
      assert (shown s1 = shown s) as Hshown
        by (unfold shown; rewrite Fq; reflexivity).
      exists v', e, s'. split; [exact Hloop |].
      rewrite Hsplit_out, length_app, unlines_app, shown_app, app_assoc.
      rewrite Ht.
      split; [rewrite Hn'; lia |]. split; [exact Hnull' |].
      split; [rewrite Hout', Hout, Hshown; reflexivity |].
      split; [rewrite Hol', Hol1; lia |]. split; [exact Hsc' |].
      split; [rewrite Fenc'; exact Fenc |].
      split; [rewrite Ferr'; exact Ferr |].
      split; [rewrite Fseen'; exact Fseen |].
      split; [rewrite Fq'; exact Fq |].
      exact Hcase.
Qed.

(** [grep] up to the first call of [fillbuf]. *)
Lemma grep_started fuel wf s :
  reset_ok wf ->
  exists s1,
    grep X o fuel wf s
    = (cc <- fillbuf o 0 ;;
       if negb cc then
         name <- gets filename ;;
         suppressible_error o name ;;;
         ret 0
       else
         ve <- grep_loop X o fuel fuel (mkGrepVars true 0 0%nat 0%nat (-1) 0) ;;
         let '(v, e) := ve in
         match e with
         | ReturnZero => ret 0
         | GotoFinish => finish_grep o (done_on_match s) (out_quiet s) v
         | LoopBreak =>
             v' <- grep_residue X o fuel v ;;
             finish_grep o (done_on_match s) (out_quiet s) v'
         end) s1
    /\ buffer s1 = [eolbyte o] /\ bufbeg s1 = 1%nat /\ buflim s1 = 1%nat
    /\ bufdesc s1 = wf_reads wf /\ outleft s1 = max_count o /\ pending s1 = 0
    /\ lastout s1 = None /\ encoding_error_output s1 = false
    /\ skip_nuls s1 = false
    /\ stdout s1 = stdout s /\ stderr s1 = stderr s /\ errseen s1 = errseen s
    /\ out_quiet s1 = out_quiet s /\ done_on_match s1 = done_on_match s
    /\ filename s1 = filename s.
Proof.
  intros Hok. destruct (reset_accepts wf s Hok) as [off Hreset].
  unfold grep. rewrite (bind_Ret _ _ s s s) by reflexivity.
  rewrite (bind_Ret _ _ _ _ _ Hreset). cbn [negb].
  destruct (Z.eqb_spec (eolbyte o) 0) as [| _]; [done |].
  rewrite andb_false_r.
  repeat rewrite (bind_Ret (modify _) _ _ tt _) by reflexivity.
  eexists. split; [reflexivity |]. repeat split.
Qed.

(** The line at the end of the file that has no end-of-line byte. *)
Lemma grep_residue_plain fuel v s pre tail :
  residue v = length tail -> save v = length tail ->
  buffer_holds pre tail s ->
  scanning s -> 0 < outleft s -> eol_free (eolbyte o) tail ->
  (1 <= fuel)%nat ->
  let out := take (Z.to_nat (outleft s))
                  (selected_lines sel (out_invert o)
                     match tail with [] => [] | _ => [tail] end) in
  exists v' s',
    grep_residue X o fuel v s = Ret v' s'
    /\ nlines v' = nlines v + Z.of_nat (length out)
    /\ nlines_first_null v' = nlines_first_null v
    /\ stdout s' = stdout s ++ shown s (unlines (eolbyte o) out)
    /\ encoding_error_output s' = encoding_error_output s
    /\ stderr s' = stderr s /\ errseen s' = errseen s.
Proof.
  intros Hres Hsave (Hbuf & Hbeg & Hlim & Hpre) Hsc Hol Htail Hfuel out.
  unfold grep_residue. rewrite Hres.
  destruct (decide (tail = [])) as [-> | Hne].
  - cbn [length Nat.eqb negb]. exists v, s. subst out.
    cbn [selected_lines List.filter]. rewrite take_nil.
    cbn [length Z.of_nat]. change (unlines (eolbyte o) []) with (@nil byte).
    rewrite shown_nil, app_nil_r, Z.add_0_r. repeat split.
  - assert (0 < length tail)%nat as Htl by (destruct tail; [done | cbn; lia]).
    assert (match tail with [] => [] | _ => [tail] end = [tail]) as Hm
      by (destruct tail; [done | reflexivity]).
    subst out. rewrite Hm. clear Hm.
    set (out := take _ (selected_lines sel (out_invert o) [tail])).
    destruct (Nat.eqb_spec (length tail) 0) as [| _]; [lia |]. cbn [negb].
    assert (length (buffer s) = (length pre + length tail + 8)%nat)
      as Hblen.
    { rewrite Hbuf. rewrite !length_app, length_replicate. lia. }
    rewrite (bind_Ret _ _ s s s) by reflexivity.
    rewrite (bind_Ret _ _ _ _ _ (store_Ret (buflim s) (eolbyte o) s ltac:(lia))).
    rewrite (bind_Ret (modify _) _ _ tt _) by reflexivity.
    set (s2 := set_buflim _ _).
    rewrite Hsave.
    destruct (Nat.ltb_spec (bufbeg s + length tail) (length tail)) as [| _];
      [lia |].
    rewrite (bind_Ret _ _ s2 tt s2) by reflexivity.
    rewrite (bind_Ret _ _ s2 s2 s2) by reflexivity.
    change (outleft s2) with (outleft s). change (bufbeg s2) with (bufbeg s).
    change (buflim s2) with (buflim s + 1)%nat.
    destruct (Z.eqb_spec (outleft s) 0) as [| _]; [lia |]. cbn [negb].
    assert (buffer s2 = pre ++ (tail ++ [eolbyte o]) ++ replicate 7 0)
      as Hbuf2.
    { subst s2. cbn [buffer set_buflim set_buffer]. rewrite Hbuf, Hlim.
      rewrite (app_assoc pre tail).
      rewrite insert_app_r_alt by (rewrite length_app; lia).
      replace (length pre + length tail - length (pre ++ tail))%nat
        with 0%nat by (rewrite length_app; lia).
      cbn [replicate insert list_insert]. rewrite <- !app_assoc. reflexivity. }
    assert (slice (buffer s2) (bufbeg s + length tail - length tail)
                  (buflim s + 1)
            = unlines (eolbyte o) [tail]) as Hsl.
    { rewrite Hbuf2.
      replace (bufbeg s + length tail - length tail)%nat
        with (length pre) by lia.
      replace (buflim s + 1)%nat
        with (length pre + length (tail ++ [eolbyte o]))%nat
        by (rewrite length_app; cbn [length]; lia).
      rewrite slice_middle. unfold unlines. cbn [List.map concat].
      rewrite app_nil_r. reflexivity. }
    destruct (grepbuf_scan X o sel fuel _ _ s2 [tail] Hplain Hnoenc Hsel Hsl
                ltac:(constructor; [exact Htail | constructor])
                ltac:(rewrite Hbuf2;
                      rewrite !length_app, length_replicate; cbn [length]; lia)
                Hsc Hol Hfuel)
      as (s3 & Hrun & Hout & Hol3 & Hpr & Hsc3).
    cbv zeta in Hrun, Hout. change (outleft s2) with (outleft s) in Hrun, Hout.
    change (stdout s2) with (stdout s) in Hout.
    change (shown s2) with (shown s) in Hout.
    fold out in Hrun, Hout.
    rewrite (bind_Ret _ _ _ _ _ Hrun).
    rewrite (bind_Ret _ _ s3 s3 s3) by reflexivity.
    destruct Hsc3 as [_ Hp3]. rewrite Hp3. cbn [Z.eqb negb when].
    rewrite (bind_Ret _ _ s3 tt s3) by reflexivity.
    destruct (printed_frame _ _ Hpr)
      as (_ & _ & _ & _ & Fenc & Ferr & Fseen & _).
    eexists. exists s3. split; [reflexivity |].
    cbn [nlines nlines_first_null].
    repeat split; assumption.
Qed.

Lemma finish_grep_silent d q v s :
  encoding_error_output s = false -> nlines_first_null v = -1 ->
  finish_grep o d q v s
  = Ret (nlines v) (set_out_quiet q (set_done_on_match d s)).
Proof.
  intros Henc Hn. unfold finish_grep.
  rewrite (bind_Ret (modify _) _ _ tt _) by reflexivity.
  rewrite (bind_Ret (modify _) _ _ tt _) by reflexivity.
  set (s1 := set_out_quiet _ _).
  rewrite (bind_Ret _ _ s1 s1 s1) by reflexivity.
  change (encoding_error_output s1) with (encoding_error_output s).
  rewrite Henc, Hn. cbn [Z.leb Z.compare andb orb].
  rewrite andb_false_r. reflexivity.
Qed.
End Chunks.
(** [grep] on a file with plain output: the selected lines. *)
Lemma grep_plain (X : collaborators) (o : options)
        (sel : list byte -> bool) (fuel : nat) (wf : workfile) (s : state)
        (chunks : list (bool * list byte))
        (lines : list (list byte)) (tail : list byte) :
  plain_output o -> no_encoding_test X o ->
  selects_lines (execute X) (eolbyte o) sel ->
  eolbyte o <> 0 -> 0 < max_count o ->
  reset_ok wf ->
  wf_reads wf = reads_of chunks -> Forall (fun p => snd p <> []) chunks ->
  file_data chunks = unlines (eolbyte o) lines ++ tail ->
  read_as_text o (file_data chunks) ->
  Forall (eol_free (eolbyte o)) lines -> eol_free (eolbyte o) tail ->
  done_on_match s = false ->
  (length chunks + 1 <= fuel)%nat -> (length lines <= fuel)%nat ->
  let out := take (Z.to_nat (max_count o))
                  (selected_lines sel (out_invert o) (file_lines lines tail)) in
  exists s',
    grep X o fuel wf s = Ret (Z.of_nat (length out)) s'
    /\ stdout s' = stdout s ++ shown s (unlines (eolbyte o) out)
    /\ stderr s' = stderr s /\ errseen s' = errseen s
    /\ out_quiet s' = out_quiet s /\ done_on_match s' = done_on_match s.
Proof.
  intros Hplain Hnoenc Hsel Heol Hmax Hok Hreads Hne Hdata Htext Hfree Htail
         Hdone Hf2 Hfuel out.
  destruct (grep_started X o Heol fuel wf s Hok)
    as (s1 & -> & Hbuf & Hbeg & Hlim & Hdesc & Hol & Hpend & Hlast & Henc
        & Hskip & Hso & Hse & Hes & Hq & Hd & _).
  rewrite Hreads in Hdesc.
  assert (shown s1 = shown s) as Hshown1
    by (unfold shown; rewrite Hq; reflexivity).
  destruct chunks as [| [mv d] rest].
  - (* the empty file *)
    assert (lines = [] /\ tail = []) as [-> ->].
    { symmetry in Hdata. apply app_eq_nil in Hdata as [Hu Ht]. split; [| exact Ht].
      apply (unlines_nil_length (eolbyte o)). rewrite Hu. reflexivity. }
    rewrite (bind_Ret _ _ _ _ _
               (fillbuf_eof o s1 0 Hdesc ltac:(lia))).
    cbn [negb]. set (s2 := set_buffer _ _).
    destruct fuel as [| k]; [cbn in Hf2; lia |]. cbn [grep_loop].
    set (v0 := mkGrepVars true 0 0%nat 0%nat (-1) 0).
    assert (buffer_holds [eolbyte o] [] s2) as Hh.
    { subst s2. unfold buffer_holds.
      cbn [buffer bufbeg buflim set_buffer set_bufbeg].
      rewrite Hbuf, Hlim. cbn. repeat split; lia. }
    destruct (buffer_holds_zero _ _ _ Hh) as [Hz Hblen].
    pose proof (buffer_holds_no_nul o _ _ _ Hh (or_intror (Forall_nil _)))
      as Hnn.
    destruct Hh as (Hbuf2 & Hbeg2 & Hlim2 & _).
    rewrite !bind_assoc.
    rewrite (bind_Ret _ _ _ _ _
               (grep_body_eof X o Heol (S k) v0 s2 Hnn ltac:(lia) Hz
                  ltac:(rewrite Hbeg2, Hlim2; reflexivity))).
    rewrite (bind_Ret _ _ _ (v0, LoopBreak) _) by reflexivity.
    cbn [grep_residue residue v0 Nat.eqb negb].
    rewrite (bind_Ret _ _ _ v0 _) by reflexivity.
    rewrite finish_grep_silent
      by (try reflexivity; subst s2; cbn [lastout set_buffer set_bufbeg];
          rewrite Hlast; exact Henc).
    assert (out = []) as ->
      by (subst out; cbn [file_lines app selected_lines List.filter];
          apply take_nil).
    eexists. split; [reflexivity |].
    subst s2. change (unlines (eolbyte o) []) with (@nil byte).
    rewrite shown_nil, app_nil_r.
    cbn [lastout set_buffer set_bufbeg]. rewrite Hlast.
    cbn [stdout stderr errseen out_quiet done_on_match set_out_quiet
         set_done_on_match set_lastnl].
    repeat split; assumption.
  - (* a file with data *)
    apply Forall_cons_1 in Hne as [Hdne Hne]. cbn [snd] in Hdne.
    change (reads_of ((mv, d) :: rest))
      with (ReadData mv d :: reads_of rest) in Hdesc.
    rewrite (bind_Ret _ _ _ _ _
               (fillbuf_data o s1 0 mv d (reads_of rest)
                  ltac:(rewrite Hlim, Hbuf; cbn; lia) Hdesc (or_introl Hskip))).
    cbn [negb]. set (s2 := set_buffer _ _).
    assert (buffer_holds [eolbyte o] ([] ++ d) s2) as Hh.
    { subst s2. unfold buffer_holds.
      cbn [buffer bufbeg buflim set_buffer set_bufbeg set_buflim set_bufdesc
           set_bufoffset app].
      rewrite Hbuf, Hlim. destruct mv; cbn; repeat split; lia. }
    assert (file_data ((mv, d) :: rest) = d ++ file_data rest) as Hfd
      by reflexivity.
    rewrite Hfd in Hdata, Htext.
    pose proof (lines_of_unlines (eolbyte o) lines tail Hfree Htail) as Hlo.
    rewrite <- Hdata in Hlo.
    destruct (grep_loop_chunks X o Heol Hplain Hnoenc sel Hsel fuel rest fuel
                (mkGrepVars true 0 0%nat 0%nat (-1) 0) s2 [eolbyte o] [] d
                Hh Hdne (Forall_nil _) eq_refl eq_refl eq_refl eq_refl eq_refl
                Hne
                ltac:(split; [change (done_on_match s2) with (done_on_match s1);
                              rewrite Hd; exact Hdone
                             | exact Hpend])
                ltac:(change (outleft s2) with (outleft s1); rewrite Hol;
                      exact Hmax)
                Hskip Htext ltac:(cbn [length] in Hf2; lia)
                ltac:(cbn [app]; rewrite Hlo; exact Hfuel))
      as (v & e & s3 & Hloop & Hn & Hnull & Hout & Hol3 & Hsc3 & Fenc & Ferr
          & Fseen & Fq & Hcase).
    cbn [app] in Hn, Hout, Hol3, Hcase. rewrite Hlo in Hn, Hout, Hol3, Hcase.
    cbn [fst snd nlines] in Hn, Hout, Hol3, Hcase.
    change (outleft s2) with (outleft s1) in Hn, Hout, Hol3.
    change (stdout s2) with (stdout s1) in Hout.
    change (shown s2) with (shown s1) in Hout.
    change (encoding_error_output s2) with (encoding_error_output s1) in Fenc.
    change (stderr s2) with (stderr s1) in Ferr.
    change (errseen s2) with (errseen s1) in Fseen.
    change (out_quiet s2) with (out_quiet s1) in Fq.
    rewrite Hol in Hn, Hout, Hol3. rewrite Z.add_0_l in Hn.
    set (out1 := take (Z.to_nat (max_count o))
                      (selected_lines sel (out_invert o) lines)) in *.
    assert (out = out1
                  ++ take (Z.to_nat (max_count o) - length out1)
                       (selected_lines sel (out_invert o)
                          match tail with [] => [] | _ => [tail] end)) as Hsplit.
    { subst out out1. unfold file_lines. rewrite selected_lines_app.
      apply take_selected_app. }
    assert (length out1 <= Z.to_nat (max_count o))%nat as Hlen1
      by (subst out1; rewrite length_take; lia).
    rewrite (bind_Ret _ _ _ _ _ Hloop).
    destruct Hcase as [[-> H0] | (-> & Hpos & Hres & Hsave & pre' & Hh3)].
    + rewrite (finish_grep_silent o _ _ v s3)
        by (rewrite ?Fenc; assumption).
      eexists. split.
      * f_equal. rewrite Hn, Hsplit.
        replace (Z.to_nat (max_count o) - length out1)%nat with 0%nat by lia.
        rewrite take_0, app_nil_r. reflexivity.
      * cbn [stdout stderr errseen out_quiet done_on_match set_out_quiet
             set_done_on_match].
        rewrite Hout, Hso, Hshown1, Ferr, Fseen, Hse, Hes, Hsplit.
        replace (Z.to_nat (max_count o) - length out1)%nat with 0%nat by lia.
        rewrite take_0, app_nil_r. repeat split.
    + destruct (grep_residue_plain X o Hplain Hnoenc sel Hsel fuel v s3
                  pre' tail Hres Hsave Hh3 Hsc3 Hpos Htail ltac:(lia))
        as (v' & s4 & Hrun & Hn' & Hnull' & Hout4 & Fenc4 & Ferr4 & Fseen4).
      rewrite (bind_Ret _ _ _ _ _ Hrun).
      rewrite (finish_grep_silent o _ _ v' s4)
        by (rewrite ?Fenc4, ?Fenc, ?Hnull'; assumption).
      assert (Z.to_nat (outleft s3) = Z.to_nat (max_count o) - length out1)%nat
        as Hleft by lia.
      cbv zeta in Hn', Hout4. rewrite Hleft in Hn', Hout4.
      eexists. split.
      * f_equal. rewrite Hn', Hn, Hsplit, length_app. lia.
      * cbn [stdout stderr errseen out_quiet done_on_match set_out_quiet
             set_done_on_match].
        rewrite Hout4, Hout, Hso, Ferr4, Fseen4, Ferr, Fseen, Hse, Hes, Hsplit.
        assert (shown s3 = shown s) as ->
          by (unfold shown; rewrite Fq, Hq; reflexivity).
        rewrite Hshown1, unlines_app, shown_app, app_assoc. repeat split.
Qed.

(** ** The program on one file *)

Lemma plain_main_initial : plain_main initial_main_state.
Proof. vm_compute. repeat split; reflexivity. Qed.

Lemma plain_main_flag f m :
  counting_flag f = true -> plain_main m -> plain_main (apply_flag f m).
Proof.
  unfold plain_main, plain_output.
  intros Hf (Hp & He & Hm & Hl & Hw & Hd & Hh & Hv & Hk).
  destruct f; try discriminate Hf; cbn in *; try (repeat split; tauto).
  unfold counting_flag, plain_flag in Hf. rewrite orb_false_r in Hf.
  apply Z.ltb_lt in Hf. repeat split; tauto.
Qed.

Lemma plain_main_flags flags m :
  forallb counting_flag flags = true -> plain_main m ->
  plain_main (fold_left (fun m f => apply_flag f m) flags m).
Proof.
  revert m. induction flags as [| f flags IH]; intros m Hf Hm; [exact Hm |].
  cbn in Hf. apply andb_true_iff in Hf as [Hf Hfs].
  cbn [fold_left]. apply IH; [exact Hfs |]. apply plain_main_flag; assumption.
Qed.

Lemma plain_flags_counting flags :
  forallb plain_flag flags = true -> forallb counting_flag flags = true.
Proof.
  rewrite !forallb_forall. intros H f Hf. unfold counting_flag.
  rewrite (H f Hf). reflexivity.
Qed.

Lemma plain_flags_no_count flags m :
  forallb plain_flag flags = true -> count_matches (opts m) = false ->
  count_matches (opts (fold_left (fun m f => apply_flag f m) flags m)) = false.
Proof.
  revert m. induction flags as [| f flags IH]; intros m Hf Hm; [exact Hm |].
  cbn in Hf. apply andb_true_iff in Hf as [Hf Hfs].
  cbn [fold_left]. apply IH; [exact Hfs |].
  destruct f; try discriminate Hf; exact Hm.
Qed.

Lemma count_flag_kept f m :
  count_matches (opts m) = true -> count_matches (opts (apply_flag f m)) = true.
Proof. intros H. destruct f; exact H || reflexivity. Qed.

Lemma count_flags_kept flags m :
  count_matches (opts m) = true ->
  count_matches (opts (fold_left (fun m f => apply_flag f m) flags m)) = true.
Proof.
  revert m. induction flags as [| f flags IH]; intros m Hm; [exact Hm |].
  cbn [fold_left]. apply IH, count_flag_kept, Hm.
Qed.

Lemma count_flag_set flags m :
  In Flag_c flags ->
  count_matches (opts (fold_left (fun m f => apply_flag f m) flags m)) = true.
Proof.
  revert m. induction flags as [| f flags IH]; intros m Hin; [destruct Hin |].
  cbn [fold_left]. destruct Hin as [-> | Hin]; [| apply IH, Hin].
  apply count_flags_kept. reflexivity.
Qed.

Section OneFile.
Variable X : collaborators.
Variable o : options.

(** Without [-c], [-l] and [-L] the worker adds nothing to what [grep]
    wrote. *)
Lemma process_workfile_plain fuel wf s count s' :
  count_matches o = false -> list_files o = LISTFILES_NONE ->
  released_ok wf ->
  grep X o fuel wf (set_filename (wf_path wf) s) = Ret count s' ->
  process_workfile X o fuel wf s = Ret count s'.
Proof.
  intros Hc Hl Hrel Hgrep. unfold process_workfile.
  rewrite (bind_Ret (modify _) _ _ tt _) by reflexivity.
  rewrite (bind_Ret _ _ _ _ _ Hgrep).
  rewrite Hc, Hl. cbn [when list_files_eqb andb orb].
  rewrite (bind_Ret _ _ s' tt s') by reflexivity.
  rewrite (bind_Ret _ _ s' tt s') by reflexivity.
  unfold released_ok in Hrel. destruct (wf_is_stdin wf); cbn [when negb andb].
  - rewrite bind_assoc. rewrite (bind_Ret _ _ s' s' s') by reflexivity.
    assert (forall b, b && negb (wf_lseek_set_ok wf) && wf_is_reg wf = false)
      as Hcond.
    { intros b. destruct Hrel as [-> | ->]; cbn;
        rewrite ?andb_false_r; reflexivity. }
    rewrite Hcond. cbn [when].
    rewrite (bind_Ret _ _ s' tt s') by reflexivity.
    rewrite (bind_Ret _ _ s' tt s') by reflexivity. reflexivity.
  - rewrite (bind_Ret _ _ s' tt s') by reflexivity.
    rewrite Hrel. cbn [negb when].
    rewrite (bind_Ret _ _ s' tt s') by reflexivity. reflexivity.
Qed.

(** With [-c] the worker prints the count of [grep]. *)
Lemma process_workfile_count fuel wf s count s' :
  count_matches o = true -> out_file o = false ->
  list_files o = LISTFILES_NONE -> released_ok wf ->
  grep X o fuel wf (set_filename (wf_path wf) s) = Ret count s' ->
  process_workfile X o fuel wf s
  = Ret count (set_stdout (stdout s' ++ decimal count ++ [LF]) s').
Proof.
  intros Hc Hof Hl Hrel Hgrep. unfold process_workfile.
  rewrite (bind_Ret (modify _) _ _ tt _) by reflexivity.
  rewrite (bind_Ret _ _ _ _ _ Hgrep).
  rewrite Hc, Hof, Hl. cbn [when list_files_eqb andb orb].
  set (s2 := set_stdout (stdout s' ++ decimal count ++ [LF]) s').
  assert ((lock_output;;; ret tt;;; fputs_errno (decimal count ++ [LF]);;;
           (if line_buffered o then fflush_errno else ret tt);;;
           unlock_output) s' = Ret tt s2) as Hprint.
  { destruct (line_buffered o); reflexivity. }
  rewrite (bind_Ret _ _ _ _ _ Hprint).
  rewrite (bind_Ret _ _ s2 tt s2) by reflexivity.
  unfold released_ok in Hrel. destruct (wf_is_stdin wf); cbn [when negb andb].
  - rewrite bind_assoc. rewrite (bind_Ret _ _ s2 s2 s2) by reflexivity.
    assert (forall b, b && negb (wf_lseek_set_ok wf) && wf_is_reg wf = false)
      as Hcond.
    { intros b. destruct Hrel as [-> | ->]; cbn;
        rewrite ?andb_false_r; reflexivity. }
    rewrite Hcond. cbn [when].
    rewrite (bind_Ret _ _ s2 tt s2) by reflexivity.
    rewrite (bind_Ret _ _ s2 tt s2) by reflexivity. reflexivity.
  - rewrite (bind_Ret _ _ s2 tt s2) by reflexivity.
    rewrite Hrel. cbn [negb when].
    rewrite (bind_Ret _ _ s2 tt s2) by reflexivity. reflexivity.
Qed.

(** The status of the search of one file by one worker. *)
Lemma main_search_one_file fuel wf s count s' :
  max_count o <> 0 ->
  process_workfile X o fuel wf
    (set_out_quiet (global_out_quiet o)
       (set_done_on_match (global_done_on_match o) s)) = Ret count s' ->
  main_search X o fuel [] [[wf]] s
  = Ret (if errseen s' then EXIT_TROUBLE
         else if count =? 0 then EXIT_FAILURE else EXIT_SUCCESS) s'.
Proof.
  intros Hmax Hrun. unfold main_search.
  destruct (Z.eqb_spec (max_count o) 0) as [| _]; [done |].
  cbn [report_errors]. rewrite (bind_Ret _ _ s tt s) by reflexivity.
  cbn [join_workers]. unfold worker_thread_func.
  rewrite !bind_assoc.
  rewrite (bind_Ret (modify _) _ _ tt _) by reflexivity.
  cbn [worker_loop]. rewrite !bind_assoc.
  rewrite (bind_Ret _ _ _ _ _ Hrun).
  unfold bind, ret, gets. cbn.
  destruct (errseen s'); [reflexivity |].
  destruct (count =? 0); reflexivity.
Qed.
End OneFile.
(** [main] with such flags, a pattern and one file: the options with
    which the file is searched. *)
Lemma main_one_file (compile : list byte -> option matcher) (L : locale)
      (exec : matcher) (fuel : nat) (env : environment) (flags : list flag)
      (pat : list byte) (wf : workfile) (s : state) :
  forallb counting_flag flags = true ->
  let o := opts (fold_left (fun m f => apply_flag f m) flags initial_main_state) in
  compile pat = Some exec ->
  stdout_is_dev_null env = false -> open_errors env = [] ->
  workers env = [[wf]] ->
  exists o',
    main compile L fuel env flags [pat] s
    = main_search (mkCollaborators exec L) o' fuel [] [[wf]] s
    /\ plain_output o' /\ eolbyte o' = LF /\ 0 < max_count o'
    /\ max_count o' = max_count o /\ out_invert o' = out_invert o
    /\ binary_files o' = binary_files o
    /\ count_matches o' = count_matches o
    /\ list_files o' = LISTFILES_NONE
    /\ global_out_quiet o' = count_matches o
    /\ global_done_on_match o' = false.
Proof.
  intros Hflags o Hcomp Hnull Herrs Hworkers.
  pose proof (plain_main_flags flags initial_main_state Hflags plain_main_initial)
    as (Hp & He & Hm & Hl & Hw & Hd & Hh & Hv & Hk).
  unfold main, main_after_options.
  set (m := fold_left _ flags initial_main_state) in *.
  fold o in Hp, He, Hm, Hl |- *.
  rewrite Hv, Hh, Hk, Hcomp, Hnull, Herrs, Hworkers, Hw, Hd.
  destruct Hp as (Hom & Hcol & Hof & Holn & Hob & Hbef & Haft & Hex).
  rewrite Hex, Hl, Hcol.
  cbn [orb list_files_eqb negb length Nat.ltb Nat.leb andb Z.eqb].
  destruct (Z.ltb_spec (out_after o) 0) as [_ |]; [| lia].
  destruct (Z.ltb_spec (out_before o) 0) as [_ |]; [| lia].
  eexists. split; [reflexivity |].
  unfold plain_output. cbn. rewrite orb_false_r.
  repeat split; assumption || reflexivity.
Qed.

(** ** Files that are skipped *)

Section Skipped.
Variable X : collaborators.
Variable o : options.

Lemma suppressible_error_Ret mesg s :
  suppressible_error o mesg s
  = Ret tt (set_errseen true
              (set_stderr (stderr s ++ (if suppress_errors o then [] else [mesg]))
                 s)).
Proof.
  unfold suppressible_error, ts_error, when, bind, modify, ret.
  destruct (suppress_errors o); cbn.
  - rewrite app_nil_r. now destruct s.
  - reflexivity.
Qed.

(** With [-I], a NUL byte in the buffer ends the search of the file. *)
Lemma grep_binary_check_without_match v s :
  binary_files o = WITHOUT_MATCH_BINARY_FILES -> eolbyte o <> 0 ->
  nlines_first_null v < 0 ->
  (bufbeg s <= buflim s < length (buffer s))%nat ->
  ~ no_nul (buffer s) (bufbeg s) (buflim s) ->
  grep_binary_check o v s
  = Ret None (set_buffer (<[buflim s := 0]> (buffer s)) s).
Proof.
  intros Hbin Heol Hneg Hr Hnul. unfold grep_binary_check.
  rewrite (bind_Ret _ _ s s s) by reflexivity.
  destruct (Z.eqb_spec (eolbyte o) 0) as [| _]; [done |].
  destruct (Z.ltb_spec (nlines_first_null v) 0) as [_ |]; [| lia].
  rewrite Hbin. cbn [binary_files_eqb negb andb].
  destruct (buf_has_nulls_spec (bufbeg s) (buflim s - bufbeg s) s)
    as (b & Hrun & Hiff); [lia |].
  replace (bufbeg s + (buflim s - bufbeg s))%nat with (buflim s) in * by lia.
  destruct b; [| exfalso; apply Hnul, Hiff; reflexivity].
  rewrite bind_assoc. rewrite (bind_Ret _ _ _ _ _ Hrun). reflexivity.
Qed.

Lemma fillbuf_read_error s mv rest :
  bufdesc s = ReadError mv :: rest -> buffer s = [eolbyte o] ->
  buflim s = 1%nat ->
  fillbuf o 0 s
  = Ret false
      (set_buffer (eolbyte o :: replicate 8 0)
         (set_buflim 1%nat (set_bufdesc rest (set_bufbeg 1%nat s)))).
Proof.
  intros Hdesc Hbuf Hlim. unfold fillbuf.
  rewrite (bind_Ret _ _ s s s) by reflexivity.
  rewrite Hlim, Hdesc. cbn [Nat.ltb Nat.leb fillbuf_moved].
  rewrite (bind_Ret _ _ s tt s) by reflexivity.
  destruct mv; cbn [negb].
  - unfold load_range, bind, modify, ret, gets. rewrite Hbuf. cbn.
    destruct (decide (1 <= 1)%nat) as [_ |]; [| lia]. cbn.
    destruct s; cbn in *. subst. reflexivity.
  - unfold load_range, bind, modify, ret, gets. cbn.
    destruct s; cbn in *. subst. reflexivity.
Qed.

Lemma reset_rejects wf s :
  wf_is_reg wf = true -> wf_is_stdin wf = true -> wf_lseek_cur wf = None ->
  reset o wf s
  = Ret false
      (set_errseen true
         (set_stderr (stderr s ++ (if suppress_errors o then []
                                   else [bytes_of_string "lseek failed"]))
            (set_bufoffset (-1)
               (set_bufdesc (wf_reads wf)
                  (set_buffer [eolbyte o]
                     (set_bufbeg 1%nat (set_buflim 1%nat s))))))).
Proof.
  intros Hreg Hin Hcur. unfold reset. rewrite Hreg, Hin, Hcur. cbn [negb].
  repeat rewrite (bind_Ret (modify _) _ _ tt _) by reflexivity.
  rewrite (bind_Ret _ _ _ _ _ (suppressible_error_Ret _ _)).
  reflexivity.
Qed.
End Skipped.

(** ** Files that are only tested for a match *)

Lemma printed_filename s s' : printed s s' -> filename s' = filename s.
Proof. intros H. rewrite H. reflexivity. Qed.

Lemma match_only_printed s s' : match_only s -> printed s s' -> match_only s'.
Proof.
  intros [Hd Hq] Hpr. destruct (printed_flags _ _ Hpr) as [Hq' Hd'].
  split; congruence.
Qed.

Lemma selected_lines_nil_cons sel inv l lines :
  selected_lines sel inv (l :: lines) = [] ->
  xorb (sel l) inv = false /\ selected_lines sel inv lines = [].
Proof.
  unfold selected_lines. cbn [List.filter].
  destruct (xorb (sel l) inv); [discriminate | intros H; split; [reflexivity | exact H]].
Qed.

Section Quiet.
Variable X : collaborators.
Variable o : options.

(** Without output, the loop of [prtext] only counts the lines. *)
Lemma prtext_invert_loop_silent fuel lim lines : forall k p n s,
  out_quiet s = true ->
  slice (buffer s) p lim = unlines (eolbyte o) lines ->
  Forall (eol_free (eolbyte o)) lines ->
  (p <= lim <= length (buffer s))%nat ->
  (length lines <= k)%nat ->
  exists p',
    prtext_invert_loop X o k fuel p lim n s
    = Ret (n + Z.of_nat (Nat.min (length lines) (Z.to_nat (outleft s - n))), p') s.
Proof.
  induction lines as [| l lines IH]; intros k p n s Hq Hsl Hfree Hr Hk.
  - assert (p = lim) as ->.
    { pose proof (slice_length (buffer s) p lim ltac:(lia)) as Hl.
      rewrite Hsl in Hl. cbn in Hl. lia. }
    exists lim. cbn [length Nat.min Z.of_nat]. rewrite Z.add_0_r.
    destruct k as [| k]; cbn [prtext_invert_loop]; [reflexivity |].
    rewrite (bind_Ret _ _ s s s) by reflexivity.
    rewrite Nat.ltb_irrefl. reflexivity.
  - destruct k as [| k]; [cbn in Hk; lia |]. cbn [prtext_invert_loop].
    rewrite (bind_Ret _ _ s s s) by reflexivity. cbn [id].
    apply Forall_cons_1 in Hfree as [Hl Hfree].
    rewrite unlines_cons in Hsl.
    assert (length (slice (buffer s) p lim) = lim - p)%nat as Hlen
      by (apply slice_length; lia).
    rewrite Hsl, length_app in Hlen. cbn [length] in Hlen.
    destruct (Nat.ltb_spec p lim) as [_ |]; [| lia].
    destruct (Z.ltb_spec n (outleft s)) as [Hn | Hn]; cbn [andb].
    2:{ exists p. replace (Z.to_nat (outleft s - n)) with 0%nat by lia.
        rewrite Nat.min_0_r. cbn. rewrite Z.add_0_r. reflexivity. }
    rewrite (bind_Ret _ _ _ _ _ (load_range_Ret p (lim - p) s ltac:(lia))).
    destruct (slice_drop (buffer s) p lim) as [Hdrop |]; [| lia].
    rewrite Hsl, <- app_assoc in Hdrop. cbn [app] in Hdrop.
    assert (length l < lim - p)%nat as Hlt by lia.
    rewrite (memchr_first _ _ _ _ _ _ Hdrop Hl Hlt).
    rewrite Hq. cbn [negb when].
    rewrite (bind_Ret _ _ s tt s) by reflexivity.
    change (l ++ eolbyte o :: unlines (eolbyte o) lines)
      with (l ++ [eolbyte o] ++ unlines (eolbyte o) lines) in Hsl.
    rewrite app_assoc in Hsl.
    destruct (slice_app_inv _ _ _ _ _ Hsl Hr) as (_ & Hsl2 & Hle).
    rewrite length_app in Hsl2, Hle. cbn [length] in Hsl2, Hle.
    replace (p + (length l + 1))%nat with (p + length l + 1)%nat in Hsl2 by lia.
    destruct (IH k (p + length l + 1)%nat (n + 1) s Hq Hsl2 Hfree
                ltac:(lia) ltac:(cbn in Hk; lia)) as [p' Hrun].
    exists p'. rewrite Hrun. f_equal. f_equal. cbn [length]. lia.
Qed.

(** Without output, [prtext] only counts: one line, or with [-v] the
    lines of the region as far as [outleft] allows. *)
Lemma prtext_silent fuel beg lim s lines :
  out_quiet s = true ->
  slice (buffer s) beg lim = unlines (eolbyte o) lines ->
  Forall (eol_free (eolbyte o)) lines ->
  (beg <= lim <= length (buffer s))%nat ->
  let n := if out_invert o
           then Z.of_nat (Nat.min (length lines) (Z.to_nat (outleft s)))
           else 1 in
  exists s',
    prtext X o fuel beg lim s = Ret tt s'
    /\ outleft s' = outleft s - n /\ stdout s' = stdout s
    /\ pending s' = 0 /\ printed s s'.
Proof.
  intros Hq Hsl Hfree Hr n. unfold prtext.
  rewrite (bind_Ret _ _ s s s) by reflexivity. cbn [id].
  rewrite Hq. cbn [negb andb when].
  rewrite (bind_Ret _ _ s tt s) by reflexivity.
  unfold lock_output at 1. rewrite (bind_Ret _ _ s tt s) by reflexivity.
  rewrite (bind_Ret _ _ s s s) by reflexivity. cbn [id].
  rewrite Hq. cbn [negb]. rewrite (bind_Ret _ _ s beg s) by reflexivity.
  assert (exists np,
             (if out_invert o then prtext_invert_loop X o (lim - beg) fuel beg lim 0
              else s0 <- gets id ;;
                   when (negb (out_quiet s0))
                        (prline X o fuel beg lim SEP_CHAR_SELECTED) ;;;
                   ret (1, lim)) s = Ret (n, np) s) as [np Hnp].
  { subst n. destruct (out_invert o).
    - destruct (prtext_invert_loop_silent fuel lim lines (lim - beg)%nat beg 0 s
                  Hq Hsl Hfree Hr) as [p' Hrun].
      { pose proof (unlines_length_ge (eolbyte o) lines) as Hge.
        rewrite <- Hsl, slice_length in Hge by lia. exact Hge. }
      exists p'. rewrite Hrun, Z.sub_0_r. reflexivity.
    - exists lim. rewrite (bind_Ret _ _ s s s) by reflexivity. cbn [id].
      rewrite Hq. reflexivity. }
  rewrite (bind_Ret _ _ _ _ _ Hnp). cbv beta iota.
  unfold bind, modify, unlock_output, ret. cbn. rewrite Hq.
  eexists. split; [reflexivity |]. cbn.
  repeat split; try (unfold printed; now destruct s).
Qed.

Variable sel : list byte -> bool.
Hypothesis Hsel : selects_lines (execute X) (eolbyte o) sel.

(** What follows a call of [prtext] in the match loop when the scan
    stops at the first match. *)
Lemma grepbuf_stop fuel endp lim s :
  done_on_match s = true ->
  (s0 <- gets id ;;
   if (outleft s0 =? 0) || done_on_match s0 then
     if exit_on_match o then
       exit (if errseen s0 then exit_failure o else EXIT_SUCCESS)
     else ret tt
   else grepbuf_loop X o fuel endp lim) s
  = stopped o tt s.
Proof.
  intros Hd. rewrite (bind_Ret _ _ s s s) by reflexivity. cbn [id].
  rewrite Hd, orb_true_r. unfold stopped. destruct (exit_on_match o); reflexivity.
Qed.

(** The match loop when the scan stops at the first match: it leaves
    the state as it was if no line is selected, and stops after
    counting at least one line otherwise. *)
Lemma grepbuf_loop_done lines : forall fuel p lim s,
  match_only s -> 0 < outleft s ->
  slice (buffer s) p lim = unlines (eolbyte o) lines ->
  Forall (eol_free (eolbyte o)) lines ->
  (p <= lim <= length (buffer s))%nat ->
  (length lines <= fuel)%nat ->
  (selected_lines sel (out_invert o) lines = []
   /\ grepbuf_loop X o fuel p lim s = Ret tt s)
  \/ (selected_lines sel (out_invert o) lines <> []
      /\ exists s',
           grepbuf_loop X o fuel p lim s = stopped o tt s'
           /\ 0 <= outleft s' < outleft s
           /\ stdout s' = stdout s /\ pending s' = 0 /\ printed s s').
Proof.
  induction lines as [| l lines IH]; intros fuel p lim s Hm Hol Hsl Hfree Hr Hf.
  - left. split; [reflexivity |].
    assert (p = lim) as ->.
    { pose proof (slice_length (buffer s) p lim ltac:(lia)) as Hl.
      rewrite Hsl in Hl. cbn in Hl. lia. }
    destruct fuel; cbn [grepbuf_loop]; rewrite Nat.ltb_irrefl; reflexivity.
  - destruct fuel as [| fuel]; [cbn in Hf; lia |]. cbn [grepbuf_loop].
    assert (length (slice (buffer s) p lim) = lim - p)%nat as Hlen
      by (apply slice_length; lia).
    rewrite Hsl in Hlen.
    pose proof (unlines_length_ge (eolbyte o) (l :: lines)) as Hge.
    cbn [length] in Hge.
    destruct (Nat.ltb_spec p lim) as [Hlt |]; [| lia].
    rewrite (bind_Ret _ _ _ _ _ (load_range_Ret p (lim - p) s ltac:(lia))).
    fold (slice (buffer s) p lim). rewrite Hsl, Hsel.
    destruct Hm as [Hd Hq].
    destruct (line_search_first sel (eolbyte o) (l :: lines) 0 Hfree)
      as [(pre & l' & post & Hlines & Hpre & Hl' & ->) | [Hall ->]].
    + (* [execute] finds the line [l'] *)
      cbn [Nat.add].
      assert (unlines (eolbyte o) (l :: lines)
              = unlines (eolbyte o) pre
                ++ unlines (eolbyte o) [l'] ++ unlines (eolbyte o) post) as Hu.
      { rewrite Hlines, unlines_app.
        change (l' :: post) with ([l'] ++ post). rewrite unlines_app.
        reflexivity. }
      rewrite Hu in Hsl.
      destruct (slice_app_inv _ _ _ _ _ Hsl Hr) as (Hsl1 & Hsl2 & Hle1).
      destruct (slice_app_inv _ _ _ _ _ Hsl2 ltac:(lia)) as (Hsl3 & Hsl4 & Hle2).
      assert (length (unlines (eolbyte o) [l']) = S (length l')) as Hl1.
      { unfold unlines. cbn [List.map concat]. rewrite app_nil_r, length_app.
        cbn. lia. }
      rewrite Hl1 in Hsl3, Hsl4, Hle2.
      set (b := (p + length (unlines (eolbyte o) pre))%nat) in *.
      destruct (Nat.eqb_spec b lim) as [| _]; [lia |].
      rewrite andb_false_r.
      destruct (out_invert o) eqn:Hinv; cbn [negb orb].
      * (* with [-v] the lines before [l'] are selected *)
        destruct pre as [| x pre].
        -- (* none: the loop goes on behind [l'] *)
           cbn [app] in Hlines. injection Hlines as -> ->.
           change (unlines (eolbyte o) []) with (@nil byte) in *.
           cbn [length] in b. subst b. rewrite Nat.add_0_r in *.
           rewrite Nat.ltb_irrefl.
           apply Forall_cons_1 in Hfree as [_ Hfree].
           replace (p + S (length l'))%nat with (p + S (length l'))%nat by lia.
           destruct (IH fuel (p + S (length l'))%nat lim s (conj Hd Hq) Hol Hsl4
                       Hfree ltac:(lia) ltac:(cbn in Hf; lia))
             as [[Hnone Hrun] | (Hsome & s' & Hrun & Hol' & Hso & Hp' & Hpr)].
           ++ left. split; [| exact Hrun].
              unfold selected_lines in *. cbn [List.filter]. rewrite Hl'. exact Hnone.
           ++ right. split.
              ** unfold selected_lines in *. cbn [List.filter]. rewrite Hl'.
                 exact Hsome.
              ** exists s'. repeat split; assumption || lia.
        -- right. split.
           ++ rewrite Hlines. apply Forall_cons_1 in Hpre as [Hx _].
              unfold selected_lines. cbn [app List.filter]. rewrite Hx. discriminate.
           ++ assert (p < b)%nat as Hpb.
              { subst b. pose proof (unlines_length_ge (eolbyte o) (x :: pre)).
                cbn [length] in *. lia. }
              destruct (Nat.ltb_spec p b) as [_ |]; [| lia].
              assert (Forall (eol_free (eolbyte o)) (x :: pre)) as Hfpre.
              { rewrite Hlines in Hfree. apply Forall_app in Hfree. apply Hfree. }
              destruct (prtext_silent (S fuel) p b s (x :: pre) Hq Hsl1 Hfpre
                          ltac:(lia))
                as (s' & Hrun & Hol' & Hso & Hp' & Hpr).
              rewrite Hinv in Hol'. cbn [length] in Hol'.
              rewrite (bind_Ret _ _ _ _ _ Hrun).
              destruct (printed_flags _ _ Hpr) as [Hq' Hd'].
              rewrite (grepbuf_stop _ _ _ s') by congruence.
              exists s'. split; [reflexivity |].
              split; [lia |]. repeat split; assumption.
      * (* without [-v] the line [l'] is selected *)
        right. split.
        -- rewrite Hlines, selected_lines_app.
           unfold selected_lines at 2. cbn [List.filter]. rewrite Hl'.
           cbn [xorb]. intros Hnil. apply app_eq_nil in Hnil as [_ Hnil].
           discriminate.
        -- assert (Forall (eol_free (eolbyte o)) [l']) as Hfl.
           { rewrite Hlines in Hfree. apply Forall_app in Hfree as [_ Hfree].
             apply Forall_cons_1 in Hfree as [Hfl _].
             constructor; [exact Hfl | constructor]. }
           destruct (prtext_silent (S fuel) b (b + S (length l'))%nat s [l'] Hq
                       Hsl3 Hfl ltac:(lia))
             as (s' & Hrun & Hol' & Hso & Hp' & Hpr).
           rewrite Hinv in Hol'.
           rewrite (bind_Ret _ _ _ _ _ Hrun).
           destruct (printed_flags _ _ Hpr) as [Hq' Hd'].
           rewrite (grepbuf_stop _ _ _ s') by congruence.
           exists s'. split; [reflexivity |].
           split; [lia |]. repeat split; assumption.
    + (* [execute] finds nothing *)
      destruct (out_invert o) eqn:Hinv.
      * right. split.
        -- rewrite selected_lines_all by exact Hall. discriminate.
        -- replace (p + (lim - p))%nat with lim by lia.
           rewrite Nat.eqb_refl. cbn [negb andb orb].
           destruct (Nat.ltb_spec p lim) as [_ |]; [| lia].
           rewrite Nat.add_0_r.
           destruct (prtext_silent (S fuel) p lim s (l :: lines) Hq Hsl Hfree Hr)
             as (s' & Hrun & Hol' & Hso & Hp' & Hpr).
           rewrite Hinv in Hol'. cbn [length] in Hol'.
           rewrite (bind_Ret _ _ _ _ _ Hrun).
           destruct (printed_flags _ _ Hpr) as [Hq' Hd'].
           rewrite (grepbuf_stop _ _ _ s') by congruence.
           exists s'. split; [reflexivity |].
           split; [lia |]. repeat split; assumption.
      * left. split; [apply selected_lines_none, Hall | reflexivity].
Qed.

(** The scan of the complete lines of a buffer when it stops at the
    first match. *)
Lemma grep_scan_done fuel v beg lim s lines :
  match_only s -> pending s = 0 -> 0 < outleft s ->
  nlines v = 0 -> nlines_first_null v = -1 ->
  slice (buffer s) beg lim = unlines (eolbyte o) lines ->
  Forall (eol_free (eolbyte o)) lines ->
  (lim <= length (buffer s))%nat -> (length lines <= fuel)%nat ->
  (selected_lines sel (out_invert o) lines = []
   /\ (if (beg <? lim)%nat then grep_scan X o fuel v beg lim
       else ret (nlines v, false)) s = Ret (0, false) s)
  \/ (selected_lines sel (out_invert o) lines <> []
      /\ exists n s',
           0 < n
           /\ (if (beg <? lim)%nat then grep_scan X o fuel v beg lim
               else ret (nlines v, false)) s = stopped o (n, true) s'
           /\ stdout s' = stdout s /\ pending s' = 0 /\ printed s s').
Proof.
  intros Hm Hp Hol Hn Hnull Hsl Hfree Hlen Hfuel.
  destruct (Nat.ltb_spec beg lim) as [Hlt | Hge].
  - unfold grep_scan. rewrite (bind_Ret _ _ s s s) by reflexivity. cbn [id].
    destruct (Z.eqb_spec (outleft s) 0) as [| _]; [lia |]. cbn [negb].
    unfold grepbuf. rewrite ?bind_assoc.
    rewrite (bind_Ret _ _ s (outleft s) s) by reflexivity.
    rewrite ?bind_assoc.
    destruct (grepbuf_loop_done lines fuel beg lim s Hm Hol Hsl Hfree
                ltac:(lia) Hfuel)
      as [[Hnone Hrun] | (Hsome & s' & Hrun & Hol' & Hso & Hp' & Hpr)].
    + left. split; [exact Hnone |].
      rewrite (bind_Ret _ _ _ _ _ Hrun).
      rewrite ?bind_assoc. rewrite (bind_Ret _ _ s (outleft s) s) by reflexivity.
      rewrite ?bind_assoc.
      match goal with |- context [bind (ret ?a) _ s] =>
        rewrite (bind_Ret (ret a) _ s a s) by reflexivity
      end.
      rewrite (bind_Ret _ _ s s s) by reflexivity. cbn [id].
      rewrite Hp. cbn [Z.eqb negb when].
      rewrite (bind_Ret _ _ s tt s) by reflexivity.
      rewrite (bind_Ret _ _ s s s) by reflexivity. cbn [id].
      rewrite Hn, Hnull, Hp, Z.sub_diag.
      destruct (Z.eqb_spec (outleft s) 0) as [| _]; [lia |].
      cbn. rewrite andb_false_r. reflexivity.
    + right. split; [exact Hsome |].
      exists (outleft s - outleft s'), s'. split; [lia |].
      split; [| repeat split; assumption].
      unfold stopped in *. unfold bind at 1. rewrite Hrun.
      destruct (exit_on_match o); [reflexivity |].
      rewrite ?bind_assoc.
      rewrite (bind_Ret _ _ s' (outleft s') s') by reflexivity.
      rewrite ?bind_assoc.
      match goal with |- context [bind (ret ?a) _ s'] =>
        rewrite (bind_Ret (ret a) _ s' a s') by reflexivity
      end.
      rewrite (bind_Ret _ _ s' s' s') by reflexivity. cbn [id].
      rewrite Hp'. cbn [Z.eqb negb when].
      rewrite (bind_Ret _ _ s' tt s') by reflexivity.
      rewrite (bind_Ret _ _ s' s' s') by reflexivity. cbn [id].
      destruct (match_only_printed _ _ Hm Hpr) as [Hd' _].
      rewrite Hn, Hnull, Hd', Z.add_0_l.
      destruct (Z.ltb_spec (Z.max 0 (-1)) (outleft s - outleft s')) as [_ |];
        [| lia].
      rewrite orb_true_r. reflexivity.
  - left.
    assert (lines = []) as ->.
    { pose proof (unlines_length_ge (eolbyte o) lines) as Hge'.
      rewrite <- Hsl, slice_nil in Hge' by lia.
      destruct lines; [reflexivity | cbn in Hge'; lia]. }
    split; [reflexivity |]. rewrite Hn. reflexivity.
Qed.

Hypothesis Heol : eolbyte o <> 0.
Hypothesis Hline : out_line o = false.
Hypothesis Hbyte : out_byte o = false.
Hypothesis Hbefore : out_before o < 0.

(** The buffer is filled again behind the residue [r']. *)
Lemma refill_step v lim s pre r' reads :
  buffer s = pre ++ r' ++ replicate 8 0 ->
  buflim s = (length pre + length r')%nat -> (1 <= length pre)%nat ->
  residue v = length r' ->
  bufdesc s = reads_of reads -> skip_nuls s = false ->
  exists s2,
    grep_refill o v lim s
    = Ret (inl (mkGrepVars false (nlines v) (length r') (length r')
                           (nlines_first_null v) (nul_zapper v))) s2
    /\ refilled s s2
    /\ match reads with
       | [] => buffer_holds pre r' s2 /\ bufdesc s2 = []
       | (mv, d') :: rest =>
           exists pre2, buffer_holds pre2 (r' ++ d') s2
                        /\ bufdesc s2 = reads_of rest
       end.
Proof.
  intros Hbuf Hlim Hpre Hres Hdesc Hskip.
  assert (length (buffer s) = (buflim s + 8)%nat) as Hblen
    by (rewrite Hbuf, Hlim, !length_app, length_replicate; lia).
  assert (exists lo, (if bool_decide (Some lim = lastout s) then s
                      else set_lastout None s) = set_lastout lo s) as [lo Hlo].
  { destruct (bool_decide _).
    - exists (lastout s). now destruct s.
    - eexists. reflexivity. }
  destruct reads as [| [mv d'] rest].
  - rewrite (grep_refill_eof_bare o v lim s Hline Hbyte Hbefore Hdesc
               ltac:(lia)).
    rewrite Hlo, Hres. eexists. split; [reflexivity |].
    split; [repeat split |].
    unfold buffer_holds.
    cbn [buffer bufbeg buflim bufdesc set_buffer set_bufbeg set_lastout].
    rewrite Hbuf, Hlim. rewrite (app_assoc pre r').
    rewrite take_app_length' by (rewrite length_app; lia).
    rewrite <- app_assoc. repeat split; try lia. exact Hdesc.
  - rewrite (grep_refill_data_bare o v lim s mv d' (reads_of rest) Hline Hbyte
               Hbefore Hdesc ltac:(lia) Hskip).
    rewrite Hlo, Hres. eexists. split; [reflexivity |].
    split; [repeat split |].
    exists (if mv then [eolbyte o] else pre).
    unfold buffer_holds.
    cbn [buffer bufbeg buflim bufdesc set_buffer set_bufbeg set_buflim
         set_bufdesc set_bufoffset set_lastout].
    rewrite Hbuf, Hlim. rewrite length_app.
    replace (length pre + length r' - length r')%nat with (length pre) by lia.
    destruct mv.
    + rewrite slice_middle. cbn [length app].
      rewrite <- !app_assoc. repeat split; lia.
    + rewrite (app_assoc pre r').
      rewrite take_app_length' by (rewrite length_app; lia).
      rewrite <- !app_assoc. repeat split; lia.
Qed.

(** The turn of the loop that finds the end of the file. *)
Lemma body_at_eof fuel v s pre r' :
  buffer_holds pre r' s -> save v = length r' ->
  binary_files o = TEXT_BINARY_FILES \/ Forall (fun c => c <> 0) r' ->
  exists s3,
    grep_body X o fuel v s = Ret (inr (v, LoopBreak)) s3
    /\ refilled s s3 /\ buffer_holds pre r' s3.
Proof.
  intros Hh Hsave Htext.
  destruct (buffer_holds_zero _ _ _ Hh) as [Hz Hblen].
  pose proof (buffer_holds_no_nul o _ _ _ Hh Htext) as Hnn.
  destruct Hh as (Hbuf & Hbeg & Hlim & Hpre).
  rewrite (grep_body_eof X o Heol fuel v s Hnn ltac:(lia) Hz
             ltac:(rewrite Hbeg, Hlim, Hsave; reflexivity)).
  eexists. split; [reflexivity |].
  destruct (lastout s); (split; [repeat split | repeat split; assumption]).
Qed.

Lemma bind_stopped {A B : Type} (m : M A) (k : A -> M B) s a s' :
  m s = stopped o a s' ->
  bind m k s = if exit_on_match o
               then Exits (if errseen s' then exit_failure o else EXIT_SUCCESS) s'
               else k a s'.
Proof.
  intros H. unfold bind. rewrite H. unfold stopped.
  destruct (exit_on_match o); reflexivity.
Qed.

(** A turn of the loop on a buffer with new data: without a selected
    line the buffer is filled again, otherwise the loop is left. *)
Lemma grep_body_done fuel v s pre r d :
  buffer_holds pre (r ++ d) s -> d <> [] -> eol_free (eolbyte o) r ->
  residue v = length r -> save v = length r ->
  nul_zapper v = 0 -> nlines_first_null v = -1 -> nlines v = 0 ->
  match_only s -> pending s = 0 -> 0 < outleft s ->
  binary_files o = TEXT_BINARY_FILES \/ Forall (fun c => c <> 0) (r ++ d) ->
  let L := fst (lines_of (eolbyte o) (r ++ d)) in
  let r' := snd (lines_of (eolbyte o) (r ++ d)) in
  (length L <= fuel)%nat ->
  (selected_lines sel (out_invert o) L = []
   /\ exists lo,
        grep_body X o fuel v s
        = grep_refill o (mkGrepVars (firsttime v) 0 (length r') (length r)
                                    (-1) 0)
                      (length pre + length (unlines (eolbyte o) L))%nat
                      (set_lastout lo (set_lastnl (bufbeg s) s)))
  \/ (selected_lines sel (out_invert o) L <> []
      /\ exists v' s',
           0 < nlines v' /\ nlines_first_null v' = -1
           /\ grep_body X o fuel v s = stopped o (inr (v', GotoFinish)) s'
           /\ quiet_step s s').
Proof.
  intros Hh Hd Hr Hres Hsave Hzap Hnull Hn Hm Hp Hol Htext L r' Hfuel.
  destruct (grep_body_limits X o Heol fuel v s pre r d Hh Hd Hr Hres Hsave
              Hzap Htext) as (lo & Hbody & Hsl & Hlim).
  fold L r' in Hbody, Hsl, Hlim.
  set (s0 := set_lastout lo (set_lastnl (bufbeg s) s)) in *.
  destruct (buffer_holds_zero _ _ _ Hh) as [_ Hblen].
  destruct (lines_of_spec (eolbyte o) (r ++ d)) as (_ & HL & _). fold L in HL.
  destruct (grep_scan_done fuel v (length pre)
              (length pre + length (unlines (eolbyte o) L))%nat s0 L
              Hm Hp Hol Hn Hnull Hsl HL
              ltac:(change (buffer s0) with (buffer s); lia) Hfuel)
    as [[Hnone Hscan] | (Hsome & n & s' & Hpos & Hscan & Hso & Hp' & Hpr)].
  - left. split; [exact Hnone |]. exists lo. rewrite Hbody.
    rewrite (bind_Ret _ _ _ _ _ Hscan). rewrite Hnull. reflexivity.
  - right. split; [exact Hsome |].
    exists (mkGrepVars (firsttime v) n (length r') (length r) (-1) 0), s'.
    split; [exact Hpos |]. split; [reflexivity |].
    destruct (printed_frame _ _ Hpr)
      as (_ & _ & _ & _ & Fenc & Ferr & Fseen & _).
    pose proof (printed_filename _ _ Hpr) as Ffn.
    split; [| repeat split; assumption].
    rewrite Hbody. rewrite (bind_stopped _ _ _ _ _ Hscan).
    unfold stopped. rewrite Hnull. destruct (exit_on_match o); reflexivity.
Qed.

(** The loop of [grep] when the scan stops at the first match. *)
Lemma grep_loop_done fuel (reads : list (bool * list byte)) :
  forall k v s pre r d,
  buffer_holds pre (r ++ d) s -> d <> [] -> eol_free (eolbyte o) r ->
  residue v = length r -> save v = length r ->
  nul_zapper v = 0 -> nlines_first_null v = -1 -> nlines v = 0 ->
  bufdesc s = reads_of reads -> Forall (fun p => snd p <> []) reads ->
  match_only s -> pending s = 0 -> 0 < outleft s -> skip_nuls s = false ->
  binary_files o = TEXT_BINARY_FILES
  \/ Forall (fun c => c <> 0) (r ++ d ++ file_data reads) ->
  (length reads + 2 <= k)%nat ->
  let L := fst (lines_of (eolbyte o) (r ++ d ++ file_data reads)) in
  let t := snd (lines_of (eolbyte o) (r ++ d ++ file_data reads)) in
  (length L <= fuel)%nat ->
  (selected_lines sel (out_invert o) L = []
   /\ exists v' s',
        grep_loop X o fuel k v s = Ret (v', LoopBreak) s'
        /\ nlines v' = 0 /\ nlines_first_null v' = -1
        /\ residue v' = length t /\ save v' = length t
        /\ (exists pre', buffer_holds pre' t s')
        /\ match_only s' /\ pending s' = 0 /\ 0 < outleft s'
        /\ quiet_step s s')
  \/ (selected_lines sel (out_invert o) L <> []
      /\ exists v' s',
           0 < nlines v' /\ nlines_first_null v' = -1
           /\ grep_loop X o fuel k v s = stopped o (v', GotoFinish) s'
           /\ quiet_step s s').
Proof.
  induction reads as [| [mv d'] rest IH];
    intros k v s pre r d Hh Hd Hr Hres Hsave Hzap Hnull Hn Hdesc Hne Hm Hp
           Hol Hskip Htext Hk L t Hfuel.
  all: destruct k as [| k]; [lia |]; cbn [grep_loop].
  all: set (L1 := fst (lines_of (eolbyte o) (r ++ d)));
       set (r' := snd (lines_of (eolbyte o) (r ++ d))).
  all: destruct (lines_of_spec (eolbyte o) (r ++ d)) as (Hsplit & HL1 & Hr');
       fold L1 r' in Hsplit, HL1, Hr'.
  all: set (pre1 := pre ++ unlines (eolbyte o) L1).
  all: assert (buffer s = pre1 ++ r' ++ replicate 8 0
               /\ buflim s = (length pre1 + length r')%nat
               /\ (1 <= length pre1)%nat) as (Hbuf1 & Hlim1 & Hpre1)
         by (destruct Hh as (Hbuf & _ & Hlim & Hpre); subst pre1;
             rewrite Hbuf, Hlim, Hsplit, !length_app, <- !app_assoc;
             repeat split; lia).
  - assert (L = L1 /\ t = r') as [HL Ht].
    { subst L t. unfold file_data. cbn [List.map concat].
      rewrite app_nil_r. split; reflexivity. }
    assert (binary_files o = TEXT_BINARY_FILES
            \/ Forall (fun c => c <> 0) (r ++ d)) as Htext1.
    { destruct Htext as [Ht1 | Hnn]; [left; exact Ht1 | right].
      unfold file_data in Hnn. cbn [List.map concat] in Hnn.
      rewrite app_nil_r in Hnn. exact Hnn. }
    assert (binary_files o = TEXT_BINARY_FILES
            \/ Forall (fun c => c <> 0) r') as Htext2.
    { destruct Htext1 as [Ht1 | Hnn]; [left; exact Ht1 | right].
      rewrite Hsplit in Hnn. apply Forall_app in Hnn. apply Hnn. }
    rewrite HL, Ht.
    destruct (grep_body_done fuel v s pre r d Hh Hd Hr Hres Hsave Hzap Hnull
                Hn Hm Hp Hol Htext1 ltac:(fold L1; rewrite <- HL; exact Hfuel))
      as [[Hnone [lo Hbody]] | (Hsome & v' & s' & Hpos & Hnull' & Hbody & Hsil)].
    + left. split; [exact Hnone |].
      fold L1 r' in Hbody. rewrite (bind_run _ _ _ _ _ Hbody).
      set (s0 := set_lastout lo (set_lastnl (bufbeg s) s)).
      destruct (refill_step
                  (mkGrepVars (firsttime v) 0 (length r') (length r) (-1) 0)
                  (length pre + length (unlines (eolbyte o) L1))%nat
                  s0 pre1 r' [] Hbuf1 Hlim1 Hpre1 eq_refl Hdesc Hskip)
        as (s2 & Hrefill & Hkept & Hh2 & Hd2).
      rewrite (bind_Ret _ _ _ _ _ Hrefill).
      destruct k as [| k]; [lia |]. cbn [grep_loop].
      destruct (body_at_eof fuel
                  (mkGrepVars false 0 (length r') (length r') (-1) 0)
                  s2 pre1 r' Hh2 eq_refl Htext2)
        as (s3 & Hbody3 & Hkept3 & Hh3).
      cbn [nlines nlines_first_null nul_zapper].
      rewrite (bind_Ret _ _ _ _ _ Hbody3).
      eexists. exists s3. split; [reflexivity |].
      cbn [nlines nlines_first_null residue save].
      destruct Hkept as (K1 & K2 & K3 & K4 & K5 & K6 & K7 & K8 & K9 & K10).
      destruct Hkept3 as (J1 & J2 & J3 & J4 & J5 & J6 & J7 & J8 & J9 & J10).
      cbn in K1, K2, K3, K4, K5, K6, K7, K8, K9, K10.
      destruct Hm as [Hd0 Hq0].
      repeat split; try congruence; try lia.
      exists pre1. exact Hh3.
    + right. split; [exact Hsome |]. exists v', s'.
      split; [exact Hpos |]. split; [exact Hnull' |]. split; [| exact Hsil].
      rewrite (bind_stopped _ _ _ _ _ Hbody). unfold stopped.
      destruct (exit_on_match o); reflexivity.
  - set (L2 := fst (lines_of (eolbyte o) (r' ++ d' ++ file_data rest))).
    set (t2 := snd (lines_of (eolbyte o) (r' ++ d' ++ file_data rest))).
    assert (file_data ((mv, d') :: rest) = d' ++ file_data rest) as Hfd
      by reflexivity.
    assert (L = L1 ++ L2 /\ t = t2) as [HL Ht].
    { subst L t L2 t2. rewrite Hfd, (app_assoc r d), lines_of_app.
      split; reflexivity. }
    assert (binary_files o = TEXT_BINARY_FILES
            \/ Forall (fun c => c <> 0) (r ++ d)) as Htext1.
    { destruct Htext as [Ht1 | Hnn]; [left; exact Ht1 | right].
      rewrite app_assoc in Hnn. apply Forall_app in Hnn. apply Hnn. }
    assert (binary_files o = TEXT_BINARY_FILES
            \/ Forall (fun c => c <> 0) (r' ++ d' ++ file_data rest)) as Htext2.
    { destruct Htext as [Ht1 | Hnn]; [left; exact Ht1 | right].
      rewrite Hfd, app_assoc, Hsplit, <- app_assoc in Hnn.
      apply Forall_app in Hnn. apply Hnn. }
    assert (length L = length L1 + length L2)%nat as HLlen
      by (rewrite HL; apply length_app).
    rewrite HL, Ht, selected_lines_app.
    destruct (grep_body_done fuel v s pre r d Hh Hd Hr Hres Hsave Hzap Hnull
                Hn Hm Hp Hol Htext1 ltac:(fold L1; lia))
      as [[Hnone [lo Hbody]] | (Hsome & v' & s' & Hpos & Hnull' & Hbody & Hsil)].
    + fold L1 r' in Hbody. rewrite (bind_run _ _ _ _ _ Hbody).
      set (s0 := set_lastout lo (set_lastnl (bufbeg s) s)).
      destruct (refill_step
                  (mkGrepVars (firsttime v) 0 (length r') (length r) (-1) 0)
                  (length pre + length (unlines (eolbyte o) L1))%nat
                  s0 pre1 r' ((mv, d') :: rest) Hbuf1 Hlim1 Hpre1 eq_refl
                  Hdesc Hskip)
        as (s2 & Hrefill & Hkept & pre2 & Hh2 & Hd2).
      rewrite (bind_Ret _ _ _ _ _ Hrefill).
      subst s0.
      destruct Hkept as (K1 & K2 & K3 & K4 & K5 & K6 & K7 & K8 & K9 & K10).
      cbn in K1, K2, K3, K4, K5, K6, K7, K8, K9, K10.
      destruct Hm as [Hd0 Hq0].
      apply Forall_cons_1 in Hne as [Hd'ne Hne].
      cbn [nlines nlines_first_null nul_zapper].
      destruct (IH k (mkGrepVars false 0 (length r') (length r') (-1) 0)
                  s2 pre2 r' d' Hh2 Hd'ne Hr' eq_refl eq_refl eq_refl eq_refl
                  eq_refl Hd2 Hne
                  ltac:(split; congruence) ltac:(congruence) ltac:(lia)
                  ltac:(congruence) Htext2 ltac:(cbn [length] in Hk; lia)
                  ltac:(fold L2; lia))
        as [(Hnone2 & v' & s' & Hloop & Hrest)
           | (Hsome2 & v' & s' & Hpos & Hnull' & Hloop & Hsil)].
      * fold L2 in Hnone2. fold L2 t2 in Hrest. fold L1 in Hnone.
        left. split; [rewrite Hnone, Hnone2; reflexivity |].
        exists v', s'. split; [exact Hloop |].
        destruct Hrest as (R1 & R2 & R3 & R4 & R5 & R6 & R7 & R8 & R9 & R10
                           & R11 & R12 & R13).
        repeat split; try assumption; try apply R6; congruence.
      * fold L2 in Hsome2. fold L1 in Hnone.
        right. split; [rewrite Hnone; exact Hsome2 |].
        exists v', s'. split; [exact Hpos |]. split; [exact Hnull' |].
        split; [exact Hloop |].
        destruct Hsil as (R9 & R10 & R11 & R12 & R13).
        repeat split; congruence.
    + right. split.
      * intros Hnil. apply app_eq_nil in Hnil as [Hnil _]. exact (Hsome Hnil).
      * exists v', s'. split; [exact Hpos |]. split; [exact Hnull' |].
        split; [| exact Hsil].
        rewrite (bind_stopped _ _ _ _ _ Hbody). unfold stopped.
        destruct (exit_on_match o); reflexivity.
Qed.

(** The line at the end of the file that has no end-of-line byte. *)
Lemma grep_residue_done fuel v s pre tail :
  residue v = length tail -> save v = length tail -> nlines v = 0 ->
  buffer_holds pre tail s ->
  match_only s -> pending s = 0 -> 0 < outleft s ->
  eol_free (eolbyte o) tail -> (1 <= fuel)%nat ->
  let tl := match tail with [] => [] | _ => [tail] end in
  (selected_lines sel (out_invert o) tl = []
   /\ exists v' s',
        grep_residue X o fuel v s = Ret v' s'
        /\ nlines v' = 0 /\ nlines_first_null v' = nlines_first_null v
        /\ match_only s' /\ quiet_step s s')
  \/ (selected_lines sel (out_invert o) tl <> []
      /\ exists v' s',
           0 < nlines v' /\ nlines_first_null v' = nlines_first_null v
           /\ grep_residue X o fuel v s = stopped o v' s'
           /\ match_only s' /\ quiet_step s s').
Proof.
  intros Hres Hsave Hn (Hbuf & Hbeg & Hlim & Hpre) Hm Hp Hol Htail Hfuel tl.
  unfold grep_residue. rewrite Hres.
  destruct (decide (tail = [])) as [-> | Hne].
  - left. split; [reflexivity |]. cbn [length Nat.eqb negb].
    exists v, s. repeat split; assumption || apply Hm.
  - assert (0 < length tail)%nat as Htl by (destruct tail; [done | cbn; lia]).
    assert (tl = [tail]) as -> by (subst tl; destruct tail; [done | reflexivity]).
    destruct (Nat.eqb_spec (length tail) 0) as [| _]; [lia |]. cbn [negb].
    assert (length (buffer s) = (length pre + length tail + 8)%nat)
      as Hblen.
    { rewrite Hbuf. rewrite !length_app, length_replicate. lia. }
    rewrite (bind_Ret _ _ s s s) by reflexivity.
    rewrite (bind_Ret _ _ _ _ _ (store_Ret (buflim s) (eolbyte o) s ltac:(lia))).
    rewrite (bind_Ret (modify _) _ _ tt _) by reflexivity.
    set (s2 := set_buflim _ _).
    rewrite Hsave.
    destruct (Nat.ltb_spec (bufbeg s + length tail) (length tail)) as [| _];
      [lia |].
    rewrite (bind_Ret _ _ s2 tt s2) by reflexivity.
    rewrite (bind_Ret _ _ s2 s2 s2) by reflexivity.
    change (outleft s2) with (outleft s). change (bufbeg s2) with (bufbeg s).
    change (buflim s2) with (buflim s + 1)%nat.
    destruct (Z.eqb_spec (outleft s) 0) as [| _]; [lia |]. cbn [negb].
    assert (buffer s2 = pre ++ (tail ++ [eolbyte o]) ++ replicate 7 0)
      as Hbuf2.
    { subst s2. cbn [buffer set_buflim set_buffer]. rewrite Hbuf, Hlim.
      rewrite (app_assoc pre tail).
      rewrite insert_app_r_alt by (rewrite length_app; lia).
      replace (length pre + length tail - length (pre ++ tail))%nat
        with 0%nat by (rewrite length_app; lia).
      cbn [replicate insert list_insert]. rewrite <- !app_assoc. reflexivity. }
    assert (slice (buffer s2) (bufbeg s + length tail - length tail)
                  (buflim s + 1)
            = unlines (eolbyte o) [tail]) as Hsl.
    { rewrite Hbuf2.
      replace (bufbeg s + length tail - length tail)%nat
        with (length pre) by lia.
      replace (buflim s + 1)%nat
        with (length pre + length (tail ++ [eolbyte o]))%nat
        by (rewrite length_app; cbn [length]; lia).
      rewrite slice_middle. unfold unlines. cbn [List.map concat].
      rewrite app_nil_r. reflexivity. }
    unfold grepbuf. rewrite ?bind_assoc.
    rewrite (bind_Ret _ _ s2 (outleft s) s2) by reflexivity.
    rewrite ?bind_assoc.
    destruct (grepbuf_loop_done [tail] fuel _ _ s2 Hm Hol Hsl
                ltac:(constructor; [exact Htail | constructor])
                ltac:(rewrite Hbuf2, !length_app, length_replicate;
                      cbn [length]; lia)
                Hfuel)
      as [[Hnone Hrun] | (Hsome & s' & Hrun & Hol' & Hso & Hp' & Hpr)].
    + left. split; [exact Hnone |].
      rewrite (bind_Ret _ _ _ _ _ Hrun).
      rewrite ?bind_assoc.
      rewrite (bind_Ret _ _ s2 (outleft s) s2) by reflexivity.
      rewrite ?bind_assoc.
      match goal with |- context [bind (ret ?a) _ s2] =>
        rewrite (bind_Ret (ret a) _ s2 a s2) by reflexivity
      end.
      rewrite (bind_Ret _ _ s2 s2 s2) by reflexivity. cbn [id].
      change (pending s2) with (pending s). rewrite Hp. cbn [Z.eqb negb when].
      rewrite (bind_Ret _ _ s2 tt s2) by reflexivity.
      eexists. exists s2. split; [reflexivity |].
      cbn [nlines nlines_first_null]. rewrite Hn, Z.sub_diag.
      repeat split; apply Hm.
    + right. split; [exact Hsome |].
      change (outleft s2) with (outleft s) in Hol'.
      change (stdout s2) with (stdout s) in Hso.
      exists (mkGrepVars (firsttime v) (nlines v + (outleft s - outleft s'))
                         (length tail) (length tail) (nlines_first_null v)
                         (nul_zapper v)), s'.
      cbn [nlines nlines_first_null].
      split; [lia |]. split; [reflexivity |].
      destruct (printed_frame _ _ Hpr)
        as (_ & _ & _ & _ & Fenc & Ferr & Fseen & _).
      pose proof (printed_filename _ _ Hpr) as Ffn.
      split; [| split; [apply (match_only_printed s2 s' Hm Hpr)
                       | repeat split; assumption]].
      unfold stopped in *. unfold bind at 1. rewrite Hrun.
      destruct (exit_on_match o); [reflexivity |].
      rewrite ?bind_assoc.
      rewrite (bind_Ret _ _ s' (outleft s') s') by reflexivity.
      rewrite ?bind_assoc.
      match goal with |- context [bind (ret ?a) _ s'] =>
        rewrite (bind_Ret (ret a) _ s' a s') by reflexivity
      end.
      rewrite (bind_Ret _ _ s' s' s') by reflexivity. cbn [id].
      rewrite Hp'. cbn [Z.eqb negb when].
      rewrite (bind_Ret _ _ s' tt s') by reflexivity.
      rewrite ?Hres, ?Hsave. reflexivity.
Qed.
End Quiet.

(** [grep] when the file is only tested for a match. *)
Lemma grep_done (X : collaborators) (o : options) (sel : list byte -> bool)
      (fuel : nat) (wf : workfile) (s : state)
      (chunks : list (bool * list byte))
      (lines : list (list byte)) (tail : list byte) :
  selects_lines (execute X) (eolbyte o) sel ->
  eolbyte o <> 0 -> out_line o = false -> out_byte o = false ->
  out_before o < 0 -> 0 < max_count o ->
  reset_ok wf ->
  wf_reads wf = reads_of chunks -> Forall (fun p => snd p <> []) chunks ->
  file_data chunks = unlines (eolbyte o) lines ++ tail ->
  read_as_text o (file_data chunks) ->
  Forall (eol_free (eolbyte o)) lines -> eol_free (eolbyte o) tail ->
  match_only s ->
  (length chunks + 1 <= fuel)%nat -> (length lines <= fuel)%nat ->
  let selected := selected_lines sel (out_invert o) (file_lines lines tail) in
  (selected = []
   /\ exists s', grep X o fuel wf s = Ret 0 s'
                 /\ match_only s' /\ silent s s')
  \/ (selected <> []
      /\ exists n s',
           0 < n /\ grep X o fuel wf s = stopped o n s' /\ silent s s').
Proof.
  intros Hsel Heol Hline Hbyte Hbefore Hmax Hok Hreads Hne Hdata Htext Hfree
         Htail Hm Hf2 Hfuel selected.
  destruct (grep_started X o Heol fuel wf s Hok)
    as (s1 & -> & Hbuf & Hbeg & Hlim & Hdesc & Hol & Hpend & Hlast & Henc
        & Hskip & Hso & Hse & Hes & Hq & Hd & Hfn).
  rewrite Hreads in Hdesc.
  destruct Hm as [Hd0 Hq0].
  assert (match_only s1) as Hm1 by (split; congruence).
  destruct chunks as [| [mv d] rest].
  - (* the empty file *)
    assert (lines = [] /\ tail = []) as [-> ->].
    { symmetry in Hdata. apply app_eq_nil in Hdata as [Hu Ht]. split; [| exact Ht].
      apply (unlines_nil_length (eolbyte o)). rewrite Hu. reflexivity. }
    left. split; [reflexivity |].
    rewrite (bind_Ret _ _ _ _ _ (fillbuf_eof o s1 0 Hdesc ltac:(lia))).
    cbn [negb]. set (s2 := set_buffer _ _).
    destruct fuel as [| k]; [cbn in Hf2; lia |]. cbn [grep_loop].
    set (v0 := mkGrepVars true 0 0%nat 0%nat (-1) 0).
    assert (buffer_holds [eolbyte o] [] s2) as Hh.
    { subst s2. unfold buffer_holds.
      cbn [buffer bufbeg buflim set_buffer set_bufbeg].
      rewrite Hbuf, Hlim. cbn. repeat split; lia. }
    destruct (body_at_eof X o Heol (S k) v0 s2 _ _ Hh eq_refl
                (or_intror (Forall_nil _))) as (s3 & Hbody & Hkept & Hh3).
    rewrite !bind_assoc. rewrite (bind_Ret _ _ _ _ _ Hbody).
    rewrite (bind_Ret _ _ _ (v0, LoopBreak) _) by reflexivity.
    cbn [grep_residue residue v0 Nat.eqb negb].
    rewrite (bind_Ret _ _ _ v0 _) by reflexivity.
    subst s2.
    destruct Hkept as (K1 & K2 & K3 & K4 & K5 & K6 & K7 & K8 & K9 & K10).
    cbn in K1, K2, K3, K4, K5, K6, K7, K8, K9, K10.
    rewrite finish_grep_silent by (try reflexivity; congruence).
    eexists. split; [reflexivity |]. rewrite Hd0, Hq0.
    split; [split; reflexivity |].
    unfold silent. cbn. repeat split; congruence.
  - (* a file with data *)
    apply Forall_cons_1 in Hne as [Hdne Hne]. cbn [snd] in Hdne.
    change (reads_of ((mv, d) :: rest))
      with (ReadData mv d :: reads_of rest) in Hdesc.
    rewrite (bind_Ret _ _ _ _ _
               (fillbuf_data o s1 0 mv d (reads_of rest)
                  ltac:(rewrite Hlim, Hbuf; cbn; lia) Hdesc (or_introl Hskip))).
    cbn [negb]. set (s2 := set_buffer _ _).
    assert (buffer_holds [eolbyte o] ([] ++ d) s2) as Hh.
    { subst s2. unfold buffer_holds.
      cbn [buffer bufbeg buflim set_buffer set_bufbeg set_buflim set_bufdesc
           set_bufoffset app].
      rewrite Hbuf, Hlim. destruct mv; cbn; repeat split; lia. }
    assert (file_data ((mv, d) :: rest) = d ++ file_data rest) as Hfd
      by reflexivity.
    rewrite Hfd in Hdata, Htext.
    pose proof (lines_of_unlines (eolbyte o) lines tail Hfree Htail) as Hlo.
    rewrite <- Hdata in Hlo.
    subst selected. unfold file_lines. rewrite selected_lines_app.
    destruct (grep_loop_done X o sel Hsel Heol Hline Hbyte Hbefore fuel rest fuel
                (mkGrepVars true 0 0%nat 0%nat (-1) 0) s2 [eolbyte o] [] d
                Hh Hdne (Forall_nil _) eq_refl eq_refl eq_refl eq_refl eq_refl
                eq_refl Hne Hm1 Hpend
                ltac:(change (outleft s2) with (outleft s1); rewrite Hol;
                      exact Hmax)
                Hskip Htext ltac:(cbn [length] in Hf2; lia)
                ltac:(cbn [app]; rewrite Hlo; exact Hfuel))
      as [(Hnone & v & s3 & Hloop & Hn & Hnull & Hres & Hsave & [pre' Hh3]
           & Hm3 & Hp3 & Hol3 & Hsil)
         | (Hsome & v & s3 & Hpos & Hnull & Hloop & Hsil)];
      cbn [app] in *; rewrite Hlo in *; cbn [fst snd] in *.
    + (* no complete line is selected *)
      rewrite (bind_Ret _ _ _ _ _ Hloop). rewrite Hnone. cbn [app].
      destruct Hsil as (S1 & S2 & S3 & S4 & S5).
      cbn in S1, S2, S3, S4, S5.
      destruct (grep_residue_done X o sel Hsel fuel v s3 pre' tail Hres Hsave Hn
                  Hh3 Hm3 Hp3 Hol3 Htail ltac:(lia))
        as [(Hnone2 & v' & s4 & Hrun & Hn' & Hnull' & Hm4 & Hsil4)
           | (Hsome2 & v' & s4 & Hpos & Hnull' & Hrun & Hm4 & Hsil4)];
        destruct Hsil4 as (T1 & T2 & T3 & T4 & T5).
      * left. split; [exact Hnone2 |].
        rewrite (bind_Ret _ _ _ _ _ Hrun).
        rewrite finish_grep_silent by congruence.
        eexists. split; [rewrite Hn'; reflexivity |]. rewrite Hd0, Hq0.
        split; [split; reflexivity |].
        unfold silent. cbn. repeat split; congruence.
      * right. split; [exact Hsome2 |].
        unfold stopped in *. destruct (exit_on_match o).
        -- exists 1, s4. split; [lia |].
           unfold bind at 1. rewrite Hrun.
           replace (errseen s4) with (errseen s) by congruence.
           split; [reflexivity |].
           repeat split; congruence.
        -- rewrite (bind_Ret _ _ _ _ _ Hrun).
           rewrite finish_grep_silent by congruence.
           eexists. eexists. split; [exact Hpos |].
           split; [reflexivity |].
           unfold silent. cbn. repeat split; congruence.
    + (* a complete line is selected *)
      right. split.
      * intros Hnil. apply app_eq_nil in Hnil as [Hnil _]. exact (Hsome Hnil).
      * destruct Hsil as (S1 & S2 & S3 & S4 & S5).
        cbn in S1, S2, S3, S4, S5.
        unfold stopped in *. destruct (exit_on_match o).
        -- exists 1, s3. split; [lia |].
           unfold bind at 1. rewrite Hloop.
           replace (errseen s3) with (errseen s) by congruence.
           split; [reflexivity |].
           repeat split; congruence.
        -- rewrite (bind_Ret _ _ _ _ _ Hloop).
           rewrite finish_grep_silent by congruence.
           eexists. eexists. split; [exact Hpos |].
           split; [reflexivity |].
           unfold silent. cbn. repeat split; congruence.
Qed.

Lemma bare_main_initial : bare_main initial_main_state.
Proof. vm_compute. repeat split; reflexivity. Qed.

Lemma bare_main_flag f m :
  testing_flag f = true -> bare_main m -> bare_main (apply_flag f m).
Proof.
  unfold bare_main.
  intros Hf (H1 & H2 & H3 & H4 & H5 & H6 & H7 & H8 & H9 & H10 & H11 & H12
             & H13 & H14).
  destruct f; try discriminate Hf; cbn in *; try (repeat split; assumption).
  unfold testing_flag, counting_flag, plain_flag in Hf.
  rewrite !orb_false_r in Hf. apply Z.ltb_lt in Hf. repeat split; assumption.
Qed.

Lemma bare_main_flags flags m :
  forallb testing_flag flags = true -> bare_main m ->
  bare_main (fold_left (fun m f => apply_flag f m) flags m).
Proof.
  revert m. induction flags as [| f flags IH]; intros m Hf Hm; [exact Hm |].
  cbn in Hf. apply andb_true_iff in Hf as [Hf Hfs].
  cbn [fold_left]. apply IH; [exact Hfs |]. apply bare_main_flag; assumption.
Qed.

(** [main] with such flags, a pattern and one file that is only tested
    for a match: the options with which the file is searched. *)
Lemma main_test_file (compile : list byte -> option matcher) (L : locale)
      (exec : matcher) (fuel : nat) (env : environment) (flags : list flag)
      (pat : list byte) (wf : workfile) (s : state) :
  forallb testing_flag flags = true ->
  let o := opts (fold_left (fun m f => apply_flag f m) flags initial_main_state) in
  let quiet := exit_on_match o || stdout_is_dev_null env in
  let listing := if quiet then LISTFILES_NONE else list_files o in
  compile pat = Some exec ->
  open_errors env = [] -> workers env = [[wf]] ->
  quiet = true \/ listing <> LISTFILES_NONE ->
  exists o',
    main compile L fuel env flags [pat] s
    = main_search (mkCollaborators exec L) o' fuel [] [[wf]] s
    /\ eolbyte o' = LF /\ out_line o' = false /\ out_byte o' = false
    /\ out_before o' < 0 /\ 0 < max_count o'
    /\ out_invert o' = out_invert o /\ binary_files o' = binary_files o
    /\ exit_on_match o' = quiet /\ list_files o' = listing
    /\ count_matches o' = false
    /\ global_done_on_match o' = true /\ global_out_quiet o' = true
    /\ color_option o' = 0 /\ filename_mask o' = filename_mask o
    /\ exit_failure o' = exit_failure o.
Proof.
  intros Hflags o quiet listing Hcomp Herrs Hworkers Hmode.
  pose proof (bare_main_flags flags initial_main_state Hflags bare_main_initial)
    as (H1 & H2 & H3 & H4 & H5 & H6 & H7 & H8 & H9 & H10 & H11 & H12 & H13 & H14).
  unfold main, main_after_options.
  set (m := fold_left _ flags initial_main_state) in *.
  fold o in H1, H2, H3, H4, H5, H6, H7, H8, H9 |- *.
  rewrite H13, H12, H14, Hcomp, Herrs, Hworkers, H10, H11, H2.
  fold quiet. fold listing.
  cbn [length Nat.ltb Nat.leb andb orb Z.eqb].
  destruct (Z.ltb_spec (out_after o) 0) as [_ |]; [| lia].
  destruct (Z.ltb_spec (out_before o) 0) as [_ |]; [| lia].
  assert (quiet || negb (list_files_eqb listing LISTFILES_NONE) = true) as Hq.
  { destruct Hmode as [-> | Hl]; [reflexivity |].
    destruct listing; [done | |]; rewrite orb_true_r; reflexivity. }
  rewrite Hq. cbn [orb].
  eexists. split; [reflexivity |].
  cbn. repeat split; assumption || reflexivity || lia.
Qed.

Section Listing.
Variable X : collaborators.
Variable o : options.

(** With [-l] or [-L] the worker prints the file name, or nothing. *)
Lemma process_workfile_list fuel wf s count s' :
  count_matches o = false -> color_option o = 0 -> released_ok wf ->
  grep X o fuel wf (set_filename (wf_path wf) s) = Ret count s' ->
  filename s' = wf_path wf ->
  process_workfile X o fuel wf s
  = Ret count
        (if listed o count
         then set_stdout (stdout s' ++ wf_path wf
                          ++ [if filename_mask o then LF else 0]) s'
         else s').
Proof.
  intros Hc Hcol Hrel Hgrep Hfn. unfold process_workfile.
  rewrite (bind_Ret (modify _) _ _ tt _) by reflexivity.
  rewrite (bind_Ret _ _ _ _ _ Hgrep).
  rewrite Hc. cbn [when]. rewrite (bind_Ret _ _ s' tt s') by reflexivity.
  fold (listed o count).
  set (s2 := if listed o count
             then set_stdout (stdout s' ++ wf_path wf
                              ++ [if filename_mask o then LF else 0]) s'
             else s').
  assert (when (listed o count)
               (lock_output ;;; print_filename o ;;;
                putchar_errno (if filename_mask o then LF else 0) ;;;
                when (line_buffered o) fflush_errno ;;; unlock_output) s'
          = Ret tt s2) as Hprint.
  { subst s2. destruct (listed o count); [| reflexivity]. cbn [when].
    unfold print_filename, pr_sgr_start_if, pr_sgr_end_if. rewrite Hcol.
    cbn [Z.eqb negb when].
    unfold bind, lock_output, unlock_output, fputs_errno, putchar_errno,
      fflush_errno, modify, gets, ret, when.
    cbn. rewrite Hfn, <- app_assoc.
    destruct (line_buffered o); reflexivity. }
  rewrite (bind_Ret _ _ _ _ _ Hprint).
  unfold released_ok in Hrel. destruct (wf_is_stdin wf); cbn [when negb andb].
  - rewrite bind_assoc. rewrite (bind_Ret _ _ s2 s2 s2) by reflexivity.
    assert (forall b, b && negb (wf_lseek_set_ok wf) && wf_is_reg wf = false)
      as Hcond.
    { intros b. destruct Hrel as [-> | ->]; cbn;
        rewrite ?andb_false_r; reflexivity. }
    rewrite Hcond. cbn [when].
    rewrite (bind_Ret _ _ s2 tt s2) by reflexivity.
    rewrite (bind_Ret _ _ s2 tt s2) by reflexivity. reflexivity.
  - rewrite (bind_Ret _ _ s2 tt s2) by reflexivity.
    rewrite Hrel. cbn [negb when].
    rewrite (bind_Ret _ _ s2 tt s2) by reflexivity. reflexivity.
Qed.

End Listing.

(** ** The exit status of a run on one file *)








Lemma suppress_flag_plain f m :
  suppress_errors (opts (apply_flag f m))
  = suppress_errors (opts m) || match f with Flag_s => true | _ => false end.
Proof. destruct f; cbn; rewrite ?orb_false_r, ?orb_true_r; reflexivity. Qed.



(** ** C1: the exit status *)





(** C1 as stated fails: with [-I] on a file whose first read holds the
    line [x] and whose second read holds a NUL byte, the line is written
    to stdout and no error occurs, yet [main] returns 1: when the NUL
    byte is found [grep] returns 0 for the file, as for a file without a
    match. *)
Lemma exit_status_spec_counterexample :
  exists s',
    main (fixed_compile LF) unibyte_locale 10
         (stdin_environment [[120; 10]; [0; 10]]) [Flag_I] [bytes_of_string "x"]
         initial_state
    = Ret EXIT_FAILURE s'
    /\ stdout s' = [120; 10]
    /\ stderr s' = [] /\ errseen s' = false.
Proof. eexists. repeat split; vm_compute; reflexivity. Qed.

(** ** C7: the NUL bytes of the live range *)




(** ** C5: the value of a worker *)

Lemma join_workers_values (X : collaborators) (o : options) fuel workers
      (b : bool) s :
  join_workers X o fuel workers (if b then 1 else 0) s =
  (values <- mapM (worker_thread_func X o fuel) workers ;;
   ret (if b && forallb id values then 1 else 0)) s.
Proof.
  revert b s. induction workers as [| wfs workers IH]; intros b s.
  - cbn. unfold bind, ret. now rewrite andb_true_r.
  - cbn [join_workers mapM]. unfold bind at 1 2 3.
    destruct (worker_thread_func X o fuel wfs s) as [v s1 | | |]; try reflexivity.
    replace (if negb ((if b then 1 else 0) =? 0) && v then 1 else 0)
      with (if b && v then 1 else 0) by (now destruct b, v).
    rewrite IH. unfold bind.
    destruct (mapM (worker_thread_func X o fuel) workers s1) as [vs s2 | | |];
      try reflexivity.
    unfold ret. cbn [forallb id]. now rewrite andb_assoc.
Qed.

(** C5 as amended.  The value that a worker returns is true exactly when
    [grep] returned 0 for every file the worker processed, that is, when
    none of its files had a match; and the status that [main] computes
    from the workers is the conjunction of their values: 1 when every
    worker returned true, 0 otherwise. *)
Theorem worker_return_value (X : collaborators) (o : options)
        (fuel : nat) (wfs : list workfile) (workers : list (list workfile))
        (s : state) :
  worker_thread_func X o fuel wfs s =
  (counts <- worker_counts X o fuel wfs ;;
   ret (forallb (fun count => count =? 0) counts)) s
  /\
  join_workers X o fuel workers 1 s =
  (values <- mapM (worker_thread_func X o fuel) workers ;;
   ret (if forallb id values then 1 else 0)) s.
Proof.
  split; [apply worker_thread_func_counts |].
  apply (join_workers_values X o fuel workers true).
Qed.

(** C5 as stated fails: a worker whose only file has a matching line
    ([grep] returns 1 for it, so every file it processed produced a
    match) returns false. *)
Lemma worker_return_value_counterexample :
  let X := mkCollaborators (fixed_execute LF (bytes_of_string "a")) unibyte_locale in
  let wf := stdin_file [text ["a"%string]] in
  exists s1 s2,
    worker_counts X initial_options 10 [wf] initial_state = Ret [1] s1
    /\ forallb (fun count => 0 <? count) [1] = true
    /\ worker_thread_func X initial_options 10 [wf] initial_state = Ret false s2.
Proof. cbv zeta. do 2 eexists. split; [| split]; vm_compute; reflexivity. Qed.

(** ** C10: [max_count] is 0 *)



(** C10 as stated fails when the arguments ask for the help or the
    version, or give no pattern or one that [compile] rejects: these are
    dealt with before [max_count] is tested.  With [-m 0 --help] the help
    is written to stdout and the process exits with status 0; with
    [-m 0 -V] the version is written and [main] returns 0; without a
    pattern, or with one that is rejected, the process exits with status
    2. *)
Lemma max_count_zero_exit_counterexample :
  main (fixed_compile LF) unibyte_locale 10 help_environment
       [Flag_m 0; Flag_help] [bytes_of_string "x"] initial_state
  = Exits EXIT_SUCCESS
          (set_stdout (bytes_of_string "Usage: grep [OPTION]... PATTERN [FILE]...")
                      initial_state)
  /\ main (fixed_compile LF) unibyte_locale 10 help_environment
          [Flag_m 0; Flag_V] [bytes_of_string "x"] initial_state
     = Ret EXIT_SUCCESS
           (set_stdout (bytes_of_string "grep (GNU grep)") initial_state)
  /\ main (fixed_compile LF) unibyte_locale 10 help_environment
          [Flag_m 0] [] initial_state
     = Exits EXIT_TROUBLE (set_stderr [bytes_of_string "Usage"] initial_state)
  /\ main (fun _ => None) unibyte_locale 10 help_environment
          [Flag_m 0] [bytes_of_string "x"] initial_state
     = Exits EXIT_TROUBLE (set_stderr [bytes_of_string "x"] initial_state).
Proof. repeat split; vm_compute; reflexivity. Qed.

(** ** C3: the budget of lines *)



(** C3 as stated fails for a negative [max_count], which [-m] accepts:
    with [-m -1] the budget starts at -1 and goes down from there, and
    the three lines that hold [x] are all written. *)
Lemma max_count_budget_counterexample :
  let X := mkCollaborators (fixed_execute LF (bytes_of_string "x")) unibyte_locale in
  let o := opts (apply_flag (Flag_m (-1)) initial_main_state) in
  max_count o = -1
  /\ (exists s',
         grep X o 10 (stdin_file [text ["x"; "ax"; "xb"]%string]) initial_state
         = Ret 3 s'
         /\ stdout s' = text ["x"; "ax"; "xb"]%string
         /\ outleft s' = -4)
  /\ run_grep [Flag_m (-1)] (bytes_of_string "x") [text ["x"; "ax"; "xb"]%string]
     = Some (text ["x"; "ax"; "xb"]%string, 0).
Proof.
  cbv zeta. split; [reflexivity |].
  split; [eexists; split; [| split]; vm_compute; reflexivity |].
  vm_compute. reflexivity.
Qed.

(** ** Further properties of the engine *)

(** X1.  [print_line_middle] comes to an end on every line: when
    [execute], given a start position, reports no match in front of it,
    and [mbrlen] takes at least one byte for a character, fuel beyond the
    length of the line is never used up.  After an empty match the next
    search starts one byte behind it, as after a match of one byte. *)
Theorem print_line_middle_terminates (X : collaborators) (o : options)
        (fuel beg lim : nat) (lc mc : list byte) (s : state) :
  start_contract (execute X) -> locale_contract (locale_of X) ->
  (lim - beg < fuel)%nat ->
  print_line_middle X o fuel beg lim lc mc s <> OutOfFuel.
Proof.
  intros Hs Hl Hf. apply (finishes_print_line_middle X o Hs Hl fuel beg lim lc mc Hf).
Qed.

(** The fixed-string matcher on a line of three bytes, with colors. *)
Lemma print_line_middle_terminates_witness :
  print_line_middle
    (mkCollaborators (fixed_execute LF (bytes_of_string "x")) ascii_locale)
    (with_color_option 1 initial_options) 4 1 4 [51; 49] [51; 50]
    zap_example_state <> OutOfFuel.
Proof.
  apply print_line_middle_terminates.
  - apply fixed_execute_start_contract.
  - apply ascii_locale_contract.
  - lia.
Defined.

(** X2.  [grepbuf] comes to an end on every buffer: when [execute],
    without a start position, reports a line of at least one byte that
    lies inside the range it was given, the loop moves forward at every
    turn and its fuel, beyond twice the distance to [lim], is never used
    up; neither is that of the formatter and of the context tracker
    below it. *)
Theorem grepbuf_terminates (X : collaborators) (o : options)
        (fuel beg lim : nat) (s : state) :
  start_contract (execute X) -> line_contract (execute X) ->
  locale_contract (locale_of X) ->
  (lim + (lim - beg) < fuel)%nat ->
  grepbuf X o fuel beg lim s <> OutOfFuel.
Proof.
  intros Hs Hli Hl Hf. apply (finishes_grepbuf X o Hs Hli Hl fuel beg lim Hf).
Qed.

(** The fixed-string matcher on a buffer of four bytes. *)
Lemma grepbuf_terminates_witness :
  grepbuf (mkCollaborators (fixed_execute LF (bytes_of_string "a")) ascii_locale)
          initial_options 10 1 5 zap_example_state <> OutOfFuel.
Proof.
  apply grepbuf_terminates.
  - apply fixed_execute_start_contract.
  - apply fixed_execute_line_contract.
  - apply ascii_locale_contract.
  - lia.
Defined.

(** X3.  [grepbuf] has no guard of its own against an empty match: with
    [-v] and a matcher that reports an empty match at the start of every
    range, the search starts again at the same place at every turn, and no
    amount of fuel is enough. *)
Theorem grepbuf_empty_match_no_progress (X : collaborators) (o : options)
        (fuel p lim : nat) (s : state) :
  (forall range, execute X range None = Some (0%nat, 0%nat)) ->
  out_invert o = true ->
  (p < lim)%nat -> (lim <= length (buffer s))%nat ->
  grepbuf X o fuel p lim s = OutOfFuel.
Proof.
  intros He Hinv Hlt Hlen. unfold grepbuf.
  unfold bind at 1. cbn [gets].
  assert (grepbuf_loop X o fuel p lim s = OutOfFuel) as Hloop.
  { induction fuel as [| fuel IH]; cbn [grepbuf_loop].
    - destruct (Nat.ltb_spec p lim); [reflexivity | lia].
    - destruct (Nat.ltb_spec p lim); [| lia].
      unfold bind at 1, load_range. case_decide; [| lia].
      rewrite He, Hinv. cbn [negb andb orb].
      rewrite !Nat.add_0_r.
      destruct (Nat.ltb_spec p p); [lia |]. exact IH. }
  unfold bind at 1. rewrite Hloop. reflexivity.
Qed.

(** The matcher [empty_execute] on a buffer of four bytes. *)
Lemma grepbuf_empty_match_no_progress_witness :
  grepbuf (mkCollaborators empty_execute unibyte_locale)
          (with_out_invert true initial_options) 1000 1 5 zap_example_state
  = OutOfFuel.
Proof.
  apply grepbuf_empty_match_no_progress.
  - intros range. reflexivity.
  - reflexivity.
  - lia.
  - vm_compute. lia.
Defined.

(** X4.  [nlscan] adds to [totalnl] the number of end-of-line bytes from
    [lastnl] up to [lim] and moves [lastnl] to [lim], when the count does
    not overflow. *)
Theorem nlscan_counts_lines (o : options) (lim : nat) (s : state) :
  (lim <= length (buffer s))%nat ->
  0 <= totalnl s ->
  totalnl s + Z.of_nat (count_byte (eolbyte o) (slice (buffer s) (lastnl s) lim))
  < uintmax_modulus ->
  nlscan o lim s
  = Ret tt (set_lastnl lim
              (set_totalnl
                 (totalnl s
                  + Z.of_nat (count_byte (eolbyte o)
                                         (slice (buffer s) (lastnl s) lim))) s)).
Proof.
  intros Hlen Hnn Hlt. unfold nlscan.
  rewrite (bind_Ret _ _ s s s) by reflexivity. cbn [id].
  assert ((if (lastnl s <? lim)%nat
           then load_range (lastnl s) (lim - lastnl s) ;;; ret tt
           else ret tt) s = Ret tt s) as Hload.
  { destruct (Nat.ltb_spec (lastnl s) lim); [| reflexivity].
    unfold bind, load_range. case_decide; [reflexivity | lia]. }
  rewrite (bind_Ret _ _ _ _ _ Hload).
  rewrite nlscan_loop_count by lia.
  rewrite Z.add_0_l.
  rewrite (bind_Ret _ _ _ _ _ (add_count_exact _ _ s Hnn (Nat2Z.is_nonneg _) Hlt)).
  reflexivity.
Qed.

(** X5.  [print_offset] writes a number below 2^64 in decimal: at most
    20 digits that stand for the number, without a leading zero unless
    the number is 0, behind blanks up to [min_width] when [align_tabs] is
    set; the array of 64 bytes is never too short for the digits. *)
Theorem print_offset_decimal (o : options) (pos min_width : Z)
        (color : list byte) (s : state) :
  0 <= pos < uintmax_modulus ->
  exists digits,
    print_offset o pos min_width color s
    = (pr_sgr_start_if o color ;;;
       fputs_errno
         ((if align_tabs o
           then replicate (Z.to_nat (min_width - Z.of_nat (length digits))) 32
           else []) ++ digits) ;;;
       pr_sgr_end_if o color) s
    /\ Forall (fun d => 48 <= d <= 57) digits
    /\ decimal_value digits = pos
    /\ (1 <= length digits <= 20)%nat
    /\ (pos <> 0 -> head digits <> Some 48).
Proof.
  intros Hpos.
  destruct (offset_digits_spec 20 64 pos min_width [])
    as (ds & Hrun & Hdig & Hval & Hlen & Hlead); [| lia |].
  { assert (uintmax_modulus < 10 ^ Z.of_nat 20) by (vm_compute; reflexivity). lia. }
  exists ds. unfold print_offset. rewrite Hrun, app_nil_r.
  split; [destruct (align_tabs o); reflexivity |].
  split; [exact Hdig |]. split; [exact Hval |]. split; [exact Hlen |].
  intros Hnz. destruct Hlead as (d & ds' & -> & Hd); [lia |].
  cbn. congruence.
Qed.

(** The number 1234 in a field of 6. *)
Lemma print_offset_decimal_witness :
  exists digits,
    print_offset initial_options 1234 6 [] initial_state
    = (pr_sgr_start_if initial_options [] ;;;
       fputs_errno
         ((if align_tabs initial_options
           then replicate (Z.to_nat (6 - Z.of_nat (length digits))) 32
           else []) ++ digits) ;;;
       pr_sgr_end_if initial_options []) initial_state
    /\ Forall (fun d => 48 <= d <= 57) digits
    /\ decimal_value digits = 1234
    /\ (1 <= length digits <= 20)%nat
    /\ (1234 <> 0 -> head digits <> Some 48).
Proof. apply (print_offset_decimal initial_options 1234 6 [] initial_state).
  vm_compute. split; [discriminate | reflexivity].
Defined.

(** Two line feeds in the first five bytes of the buffer. *)
Lemma nlscan_counts_lines_witness :
  nlscan initial_options 5 zap_example_state
  = Ret tt (set_lastnl 5%nat (set_totalnl 2 zap_example_state)).
Proof.
  apply (nlscan_counts_lines initial_options 5 zap_example_state).
  - vm_compute. lia.
  - vm_compute. discriminate.
  - vm_compute. reflexivity.
Defined.

(** X6.  [zap_nuls] with an end-of-line byte that is not NUL returns;
    afterwards each NUL byte from [p] up to [lim] is the end-of-line
    byte, every other byte of the buffer is what it was, the byte at
    [lim] is the end-of-line byte again, and no NUL byte is left from [p]
    to [lim]. *)
Theorem zap_nuls_replaces_nuls (p lim : nat) (eol : byte) (s : state) :
  eol <> 0 -> (p <= lim)%nat -> (lim < length (buffer s))%nat ->
  exists buf',
    zap_nuls p lim eol s = Ret tt (set_buffer buf' s)
    /\ length buf' = length (buffer s)
    /\ (forall i, (p <= i < lim)%nat -> buf' !! i = zap eol <$> buffer s !! i)
    /\ (forall i, (i < p \/ lim < i)%nat -> buf' !! i = buffer s !! i)
    /\ buf' !! lim = Some eol
    /\ no_nul buf' p (S lim).
Proof.
  intros Heol Hle Hlen.
  destruct (zap_nuls_spec p lim eol s Heol Hle Hlen)
    as (s' & Hrun & Hs' & Hl & Hmid & Hout & Hlim).
  exists (buffer s'). rewrite <- Hs'.
  repeat (split; [assumption |]).
  intros i Hi. destruct (decide (i = lim)) as [-> | Hne].
  - rewrite Hlim. congruence.
  - rewrite Hmid by lia. destruct (buffer s !! i) as [x |]; [| done].
    cbn. intros [= E]. revert E. apply zap_nonzero. exact Heol.
Qed.

(** The line [a NUL b] behind the sentinel. *)
Lemma zap_nuls_replaces_nuls_witness :
  exists buf',
    zap_nuls 1 5 10 zap_example_state = Ret tt (set_buffer buf' zap_example_state)
    /\ length buf' = length (buffer zap_example_state)
    /\ (forall i, (1 <= i < 5)%nat ->
                  buf' !! i = zap 10 <$> buffer zap_example_state !! i)
    /\ (forall i, (i < 1 \/ 5 < i)%nat -> buf' !! i = buffer zap_example_state !! i)
    /\ buf' !! 5%nat = Some 10
    /\ no_nul buf' 1 6.
Proof.
  apply (zap_nuls_replaces_nuls 1 5 10 zap_example_state).
  - discriminate.
  - lia.
  - vm_compute. lia.
Defined.

(** X7.  [buf_has_nulls] answers true exactly when one of the [size]
    bytes from [buf] on is NUL; it writes one byte, a NUL at
    [buf + size], just behind them. *)
Theorem buf_has_nulls_finds_nul (buf size : nat) (s : state) :
  (buf + size < length (buffer s))%nat ->
  exists b,
    buf_has_nulls buf size s
    = Ret b (set_buffer (<[(buf + size)%nat := 0]> (buffer s)) s)
    /\ (b = true <-> exists i, (buf <= i < buf + size)%nat
                               /\ buffer s !! i = Some 0).
Proof.
  intros Hlen. destruct (buf_has_nulls_spec buf size s Hlen) as (b & Hrun & Hiff).
  exists b. split; [exact Hrun |]. split.
  - intros ->. destruct (no_nul_or_nul (buffer s) buf (buf + size)) as [Hno | Hex];
      [| exact Hex].
    apply Hiff in Hno. discriminate.
  - intros (i & Hi & Hz). destruct b; [reflexivity |].
    exfalso. apply (proj1 Hiff eq_refl i Hi Hz).
Qed.

(** The line [a NUL b]. *)
Lemma buf_has_nulls_finds_nul_witness :
  exists b,
    buf_has_nulls 1 4 zap_example_state
    = Ret b (set_buffer (<[(1 + 4)%nat := 0]> (buffer zap_example_state))
                        zap_example_state)
    /\ (b = true <-> exists i, (1 <= i < 1 + 4)%nat
                               /\ buffer zap_example_state !! i = Some 0).
Proof.
  apply (buf_has_nulls_finds_nul 1 4 zap_example_state). vm_compute. lia.
Defined.

(** X8.  When [binary_files] is not [text] and [buf_has_encoding_errors]
    finds an encoding error in the line, [print_line_head] returns false
    without writing anything: it sets [encoding_error_output],
    [done_on_match] and [out_quiet] and leaves the rest of the state,
    the buffer included, as it was. *)
Theorem print_line_head_suppresses (X : collaborators) (o : options)
        (beg len lim : nat) (sep : byte) (s s1 : state) :
  binary_files o <> TEXT_BINARY_FILES ->
  is_Some (buffer s !! (beg + len)%nat) ->
  buf_has_encoding_errors X beg len s = Ret true s1 ->
  print_line_head X o beg len lim sep s
  = Ret false (set_encoding_error_output true
                 (set_done_on_match true (set_out_quiet true s))).
Proof.
  intros Hbin [ch Hch] Herr.
  assert (beg + len < length (buffer s))%nat as Hlt
    by (eapply lookup_lt_Some; exact Hch).
  assert (s1 = set_buffer (<[(beg + len)%nat := 255]> (buffer s)) s) as ->.
  { unfold buf_has_encoding_errors in Herr.
    destruct (unibyte_mask (locale_of X) =? 0); [discriminate |].
    rewrite (bind_Ret _ _ _ _ _ (store_Ret _ 255 s Hlt)) in Herr.
    match type of Herr with
    | encoding_errors_loop ?X ?f ?l ?p ?m ?s2 = _ =>
        pose proof (encoding_errors_loop_reads X f l p m s2) as Hr
    end.
    rewrite Herr in Hr. exact Hr. }
  assert (line_has_encoding_errors X o beg len s = Ret true s) as Hline.
  { unfold line_has_encoding_errors.
    assert (binary_files_eqb (binary_files o) TEXT_BINARY_FILES = false) as ->
      by (destruct (binary_files o); done).
    cbn [negb].
    rewrite (bind_Ret _ _ _ _ _ (load_Ret _ _ _ Hch)).
    rewrite (bind_Ret _ _ _ _ _ Herr).
    rewrite (bind_Ret _ _ _ tt s); [reflexivity |].
    rewrite store_Ret by (cbn; rewrite length_insert; exact Hlt).
    cbn [buffer set_buffer]. rewrite list_insert_insert_eq, list_insert_id by exact Hch.
    f_equal. now destruct s. }
  unfold print_line_head. rewrite (bind_Ret _ _ _ _ _ Hline). reflexivity.
Qed.

(** A line with the byte 200 in the locale of the ASCII characters. *)
Lemma print_line_head_suppresses_witness :
  print_line_head
    (mkCollaborators (fixed_execute LF (bytes_of_string "a")) ascii_locale)
    initial_options 1 2 4 SEP_CHAR_SELECTED encoding_example_state
  = Ret false (set_encoding_error_output true
                 (set_done_on_match true
                    (set_out_quiet true encoding_example_state))).
Proof.
  apply (print_line_head_suppresses _ _ 1 2 4 SEP_CHAR_SELECTED
           encoding_example_state
           (set_buffer (<[3%nat := 255]> (buffer encoding_example_state))
                       encoding_example_state)).
  - discriminate.
  - vm_compute. eauto.
  - vm_compute. reflexivity.
Defined.

(** X9.  With [-a] ([binary_files] is [text]) [print_line_head] never
    suppresses a line: whenever it returns, it returns true. *)
Theorem print_line_head_text (X : collaborators) (o : options)
        (beg len lim : nat) (sep : byte) :
  binary_files o = TEXT_BINARY_FILES ->
  returns (print_line_head X o beg len lim sep) (fun ok => ok = true).
Proof.
  intros Hbin. unfold print_line_head, line_has_encoding_errors.
  rewrite Hbin. cbn [binary_files_eqb negb].
  apply returns_bind_ret. cbv beta iota.
  rets. reflexivity.
Qed.

(** The same line with [-a]. *)
Lemma print_line_head_text_witness :
  returns (print_line_head
             (mkCollaborators (fixed_execute LF (bytes_of_string "a")) ascii_locale)
             (with_binary_files TEXT_BINARY_FILES initial_options)
             1 2 4 SEP_CHAR_SELECTED)
          (fun ok => ok = true).
Proof. apply print_line_head_text. reflexivity. Defined.





(** X12.  [parse_grep_colors] on well-formed capabilities separated by
    colons ([name] or [name=value], the value made of digits and
    semicolons) applies them one after the other, from left to right:
    each sets the variable of its name when it has a value, and calls
    the function of its name; unknown names change nothing. *)
Theorem parse_grep_colors_well_formed
        (caps : list (list byte * option (list byte))) (o : options) :
  Forall well_formed_cap caps ->
  parse_grep_colors (Some (join_caps caps)) o = apply_caps caps o.
Proof.
  intros Hwf. pose proof (parse_colors_caps caps o Hwf) as H.
  unfold parse_grep_colors. destruct (join_caps caps) as [| c q]; [| exact H].
  rewrite <- H. reflexivity.
Qed.

(** [ms=01;32:ne:fn=34]. *)
Lemma parse_grep_colors_well_formed_witness :
  parse_grep_colors
    (Some (join_caps [(bytes_of_string "ms", Some (bytes_of_string "01;32"));
                      (bytes_of_string "ne", None);
                      (bytes_of_string "fn", Some (bytes_of_string "34"))]))
    initial_options
  = with_filename_color (bytes_of_string "34")
      (with_sgr_el false
         (with_selected_match_color (bytes_of_string "01;32") initial_options)).
Proof.
  assert (Forall well_formed_cap
            [(bytes_of_string "ms", Some (bytes_of_string "01;32"));
             (bytes_of_string "ne", None);
             (bytes_of_string "fn", Some (bytes_of_string "34"))]) as Hwf
    by solve_caps.
  exact (parse_grep_colors_well_formed _ initial_options Hwf).
Defined.

(** X13.  A value with a byte that is neither a digit nor a semicolon
    ends [parse_grep_colors]: the capability it belongs to and all that
    follows are dropped, the capabilities in front of it are kept. *)
Theorem parse_grep_colors_malformed_value
        (caps : list (list byte * option (list byte)))
        (name v rest : list byte) (c : byte) (o : options) :
  Forall well_formed_cap caps ->
  name_chars name -> name <> [] -> sgr_chars v ->
  c <> 58 -> c <> 0 -> c <> 59 -> ~ 48 <= c <= 57 ->
  parse_grep_colors
    (Some (join_caps (caps ++ [(name, Some v)]) ++ c :: rest)) o
  = apply_caps caps o.
Proof.
  intros Hwf Hn Hne Hv H58 H0 H59 Hdig.
  assert (parse_colors_loop (join_caps (caps ++ [(name, Some v)]) ++ c :: rest)
                            [] None o = apply_caps caps o) as H.
  { rewrite parse_colors_caps_then by exact Hwf.
    rewrite (parse_colors_cap (name, Some v)) by (split; [exact Hn | split; assumption]).
    cbn [fst snd parse_colors_loop].
    destruct (Z.eqb_spec c 58); [done |]. destruct (Z.eqb_spec c 0); [done |].
    cbn [orb]. destruct (Z.eqb_spec c 61).
    - rewrite bool_decide_eq_false_2 by exact Hne. cbn [orb].
      rewrite bool_decide_eq_true_2 by eauto. reflexivity.
    - destruct (Z.eqb_spec c 59); [done |]. cbn [orb].
      destruct (Z.leb_spec 48 c); [| reflexivity].
      destruct (Z.leb_spec c 57); [lia | reflexivity]. }
  unfold parse_grep_colors.
  destruct (join_caps (caps ++ [(name, Some v)]) ++ c :: rest) as [| c' q] eqn:E;
    [| exact H].
  destruct (join_caps (caps ++ [(name, Some v)])); discriminate.
Qed.

(** [fn=34:ms=01x:ln=33]: only [fn] is set. *)
Lemma parse_grep_colors_malformed_value_witness :
  parse_grep_colors
    (Some (join_caps ([(bytes_of_string "fn", Some (bytes_of_string "34"))]
                      ++ [(bytes_of_string "ms", Some (bytes_of_string "01"))])
           ++ 120 :: bytes_of_string ":ln=33"))
    initial_options
  = with_filename_color (bytes_of_string "34") initial_options.
Proof.
  apply (parse_grep_colors_malformed_value
           [(bytes_of_string "fn", Some (bytes_of_string "34"))]
           (bytes_of_string "ms") (bytes_of_string "01") (bytes_of_string ":ln=33")
           120 initial_options); solve_caps.
Defined.

(** X14.  Whatever [GREP_COLORS] holds, [parse_grep_colors] never puts
    a byte other than a digit or a semicolon into a color: colors that
    are SGR parameters stay SGR parameters. *)
Theorem parse_grep_colors_safe (env : option (list byte)) (o : options) :
  colors_safe o -> colors_safe (parse_grep_colors env o).
Proof.
  intros Ho. unfold parse_grep_colors.
  destruct env as [[| c q] |]; try exact Ho.
  apply parse_colors_loop_safe; [exact I | exact Ho].
Qed.

(** The colors of the start are safe, and stay so with
    [ms=01;3x:fn=7]. *)
Lemma parse_grep_colors_safe_witness :
  colors_safe (parse_grep_colors (Some (bytes_of_string "ms=01;3x:fn=7"))
                                 initial_options).
Proof.
  apply parse_grep_colors_safe. solve_caps.
Defined.

(** X15.  The options that [prepend_args] copies to [buf], each with the
    NUL byte behind it, take no more bytes than the string has, plus
    one: the buffer of [strlen (options) + 1] bytes that
    [prepend_default_options] allocates is never overrun. *)
Theorem prepend_args_fits (options : list byte) :
  (prepend_args_size (prepend_args options) <= S (length options))%nat.
Proof.
  unfold prepend_args.
  pose proof (proj1 (prepend_args_loop_size (length options) options)).
  pose proof (skip_spaces_length options). lia.
Qed.

(** X16.  Options written with a backslash in front of each white space
    and each backslash, and with a blank between them, are read back by
    [prepend_args] as they were, in number and in content, when none is
    empty or holds a NUL byte. *)
Theorem prepend_args_round_trip (args : list (list byte)) :
  Forall passable_arg args -> prepend_args (join_args args) = args.
Proof.
  intros Hp. unfold prepend_args. apply prepend_args_loop_join; [exact Hp |].
  apply join_args_length, Hp.
Qed.

(** Three options, one with a blank and one with a backslash. *)
Lemma prepend_args_round_trip_witness :
  prepend_args (join_args [bytes_of_string "-i"; bytes_of_string "a b";
                           bytes_of_string "c\d"])
  = [bytes_of_string "-i"; bytes_of_string "a b"; bytes_of_string "c\d"].
Proof.
  apply (prepend_args_round_trip
           [bytes_of_string "-i"; bytes_of_string "a b"; bytes_of_string "c\d"]).
  repeat first [apply Forall_cons | apply Forall_nil | split];
    first [discriminate | vm_compute; discriminate].
Defined.

(** X17.  In every locale the pattern that [fgrep_to_grep_pattern]
    writes is at most twice as long as the keys: it fits the
    [2 * (len + 1)] bytes allocated for it. *)
Theorem fgrep_to_grep_pattern_fits (L : locale) (keys : list byte) :
  (length (fgrep_to_grep_pattern L keys) <= 2 * length keys)%nat.
Proof. apply fgrep_to_grep_loop_length. Qed.

(** X18.  In a locale of one-byte characters [fgrep_to_grep_pattern]
    puts a backslash in front of each of the bytes [$*.[\^] (and of a
    NUL byte) and copies the others; removing from the result each
    backslash that protects a byte gives the keys back. *)
Theorem fgrep_to_grep_pattern_round_trip (L : locale) (keys : list byte) :
  one_byte_chars L ->
  fgrep_to_grep_pattern L keys = concat (List.map fgrep_escape keys)
  /\ unescape (fgrep_to_grep_pattern L keys) = keys.
Proof.
  intros H1. unfold fgrep_to_grep_pattern.
  rewrite fgrep_to_grep_loop_one_byte by (exact H1 || lia).
  split; [reflexivity | apply unescape_escape].
Qed.

(** The keys [a.b*[c]] in the unibyte locale. *)
Lemma fgrep_to_grep_pattern_round_trip_witness :
  fgrep_to_grep_pattern unibyte_locale (bytes_of_string "a.b*[c]")
  = concat (List.map fgrep_escape (bytes_of_string "a.b*[c]"))
  /\ unescape (fgrep_to_grep_pattern unibyte_locale (bytes_of_string "a.b*[c]"))
     = bytes_of_string "a.b*[c]".
Proof.
  apply (fgrep_to_grep_pattern_round_trip unibyte_locale).
  intros bytes mbs _. reflexivity.
Defined.

(** X19.  The mask that [initialize_unibyte_mask] computes detects every
    byte that is not a character by itself: such a byte has a bit in
    common with [unibyte_mask], whatever the lengths in [mbclen_cache]
    are. *)
Theorem initialize_unibyte_mask_detects (mbclen_cache : Z -> Z) (c : Z) :
  1 <= c <= 255 -> mbclen_cache c <> 1 ->
  Z.land c (initialize_unibyte_mask mbclen_cache) <> 0.
Proof.
  intros Hc Hcache. unfold initialize_unibyte_mask, unibyte_byte_mask.
  destruct (unibyte_byte_mask_inv mbclen_cache) as (Hm & _ & Hdet).
  rewrite land_byte_repeated by (exact Hm || lia).
  rewrite Z.land_comm. apply Hdet; [lia | exact Hcache].
Qed.

(** The byte 200 when the bytes below 128 are the characters. *)
Lemma initialize_unibyte_mask_detects_witness :
  Z.land 200 (initialize_unibyte_mask (fun i => if i <? 128 then 1 else -1)) <> 0.
Proof.
  apply (initialize_unibyte_mask_detects (fun i => if i <? 128 then 1 else -1) 200).
  - lia.
  - discriminate.
Defined.

(** X20.  When every byte from 1 to 255 is a character by itself,
    [unibyte_mask] is 0. *)
Theorem initialize_unibyte_mask_unibyte (mbclen_cache : Z -> Z) :
  (forall c, 1 <= c <= 255 -> mbclen_cache c = 1) ->
  initialize_unibyte_mask mbclen_cache = 0.
Proof.
  intros H. unfold initialize_unibyte_mask, unibyte_byte_mask.
  rewrite unibyte_mask_fold_unibyte; [reflexivity |].
  apply List.Forall_forall. intros c Hc. apply list_elem_of_In, elem_of_seqZ in Hc.
  apply H. unfold UCHAR_MAX in Hc. lia.
Qed.

(** A table of ones. *)
Lemma initialize_unibyte_mask_unibyte_witness :
  initialize_unibyte_mask (fun _ => 1) = 0.
Proof. apply initialize_unibyte_mask_unibyte. reflexivity. Defined.



(** X22.  The program with a pattern, flags that leave the output plain
    ([-v], [-a], [-I], [--binary-files], [-m] with a positive number,
    [-s], [-h], [-T], [-Z], [--group-separator], [--line-buffered]) and
    one file that is searched as text, however the reads cut it: [main]
    writes to stdout the selected lines of the file, in
    order and each followed by a line feed, at most [max_count] of them,
    and nothing to stderr; it returns 0 if a line was selected and 1 if
    none was. *)
Theorem main_prints_selected_lines
        (compile : list byte -> option matcher) (L : locale) (exec : matcher)
        (sel : list byte -> bool) (fuel : nat) (env : environment)
        (flags : list flag) (pat : list byte) (wf : workfile)
        (chunks : list (bool * list byte))
        (lines : list (list byte)) (tail : list byte) (s : state) :
  forallb plain_flag flags = true ->
  let o := opts (fold_left (fun m f => apply_flag f m) flags initial_main_state) in
  compile pat = Some exec -> selects_lines exec LF sel ->
  binary_files o = TEXT_BINARY_FILES \/ unibyte_mask L = 0 ->
  stdout_is_dev_null env = false -> open_errors env = [] ->
  workers env = [[wf]] ->
  reset_ok wf -> released_ok wf ->
  wf_reads wf = reads_of chunks -> Forall (fun p => snd p <> []) chunks ->
  file_data chunks = unlines LF lines ++ tail ->
  read_as_text o (file_data chunks) ->
  Forall (eol_free LF) lines -> eol_free LF tail ->
  errseen s = false ->
  (length chunks + 1 <= fuel)%nat -> (length lines <= fuel)%nat ->
  let out := take (Z.to_nat (max_count o))
                  (selected_lines sel (out_invert o) (file_lines lines tail)) in
  exists s',
    main compile L fuel env flags [pat] s
    = Ret (if (length out =? 0)%nat then EXIT_FAILURE else EXIT_SUCCESS) s'
    /\ stdout s' = stdout s ++ unlines LF out
    /\ stderr s' = stderr s.
Proof.
  intros Hflags o Hcomp Hsel Hnoenc Hnull Herrs Hworkers Hreset Hrel Hreads
         Hne Hdata Htext Hfree Htail Herr Hf2 Hfuel out.
  destruct (main_one_file compile L exec fuel env flags pat wf s
              (plain_flags_counting flags Hflags) Hcomp Hnull Herrs Hworkers)
    as (o' & -> & Hp' & He' & Hm' & Emax & Einv & Ebin & Ecount & Hl' & Hq' & Hd').
  fold o in Emax, Einv, Ebin, Ecount, Hq'.
  assert (count_matches o = false) as Hc
    by (apply plain_flags_no_count; [exact Hflags | reflexivity]).
  rewrite Hc in Ecount, Hq'.
  set (X := mkCollaborators exec L).
  destruct (grep_plain X o' sel fuel wf
              (set_filename (wf_path wf)
                 (set_out_quiet (global_out_quiet o')
                    (set_done_on_match (global_done_on_match o') s)))
              chunks lines tail Hp'
              ltac:(unfold no_encoding_test; rewrite Ebin; exact Hnoenc)
              ltac:(rewrite He'; exact Hsel)
              ltac:(rewrite He'; discriminate)
              Hm' Hreset Hreads Hne
              ltac:(rewrite He'; exact Hdata)
              ltac:(unfold read_as_text; rewrite Ebin; exact Htext)
              ltac:(rewrite He'; exact Hfree)
              ltac:(rewrite He'; exact Htail)
              Hd' Hf2 Hfuel)
    as (s' & Hgrep & Hout & Hstderr & Hseen & _).
  cbv zeta in Hgrep, Hout. rewrite He', Emax, Einv in Hout.
  rewrite Emax, Einv in Hgrep.
  fold out in Hgrep, Hout.
  unfold shown in Hout.
  cbn [out_quiet stdout stderr errseen set_filename set_out_quiet
       set_done_on_match] in Hout, Hstderr, Hseen.
  rewrite Hq' in Hout.
  exists s'.
  rewrite (main_search_one_file X o' fuel wf s _ s' ltac:(lia)
             (process_workfile_plain X o' fuel wf _ _ s' Ecount Hl' Hrel Hgrep)).
  rewrite Hseen, Herr.
  split; [| split; [exact Hout | exact Hstderr]].
  f_equal. destruct (length out); reflexivity.
Qed.

(** [grep -v -m 1 x] on the file [ab], [xy], [zx] whose last line has no
    line feed, read in two pieces. *)
Lemma main_prints_selected_lines_witness :
  let lines := List.map bytes_of_string ["ab"; "xy"]%string in
  let tail := bytes_of_string "zx" in
  let out := take (Z.to_nat 1)
                  (selected_lines
                     (fun line =>
                        bool_decide (is_Some (find_sub (bytes_of_string "x") line)))
                     true (file_lines lines tail)) in
  exists s',
    main (fixed_compile LF) unibyte_locale 3
         (stdin_environment [[97; 98; 10; 120]; [121; 10; 122; 120]])
         [Flag_v; Flag_m 1] [bytes_of_string "x"] initial_state
    = Ret (if (length out =? 0)%nat then EXIT_FAILURE else EXIT_SUCCESS) s'
    /\ stdout s' = stdout initial_state ++ unlines LF out
    /\ stderr s' = stderr initial_state.
Proof.
  cbv zeta.
  apply (main_prints_selected_lines
           (fixed_compile LF) unibyte_locale
           (fixed_execute LF (bytes_of_string "x")) _ 3
           (stdin_environment [[97; 98; 10; 120]; [121; 10; 122; 120]])
           [Flag_v; Flag_m 1] (bytes_of_string "x")
           (stdin_file [[97; 98; 10; 120]; [121; 10; 122; 120]])
           [(false, [97; 98; 10; 120]); (false, [121; 10; 122; 120])]
           (List.map bytes_of_string ["ab"; "xy"]%string)
           (bytes_of_string "zx") initial_state).
  - reflexivity.
  - reflexivity.
  - apply fixed_execute_selects_lines.
  - right. reflexivity.
  - reflexivity.
  - reflexivity.
  - reflexivity.
  - left. reflexivity.
  - left. reflexivity.
  - reflexivity.
  - repeat constructor; discriminate.
  - reflexivity.
  - right. repeat constructor; vm_compute; discriminate.
  - repeat constructor; vm_compute; discriminate.
  - repeat constructor; vm_compute; discriminate.
  - reflexivity.
  - vm_compute. lia.
  - vm_compute. lia.
Defined.

(** X23.  The same program with [-c] among the flags: [main] writes to
    stdout the number of selected lines (at most [max_count]) in decimal
    and a line feed, and not the lines; the exit status is as without
    [-c]. *)
Theorem main_counts_selected_lines
        (compile : list byte -> option matcher) (L : locale) (exec : matcher)
        (sel : list byte -> bool) (fuel : nat) (env : environment)
        (flags : list flag) (pat : list byte) (wf : workfile)
        (chunks : list (bool * list byte))
        (lines : list (list byte)) (tail : list byte) (s : state) :
  forallb counting_flag flags = true -> In Flag_c flags ->
  let o := opts (fold_left (fun m f => apply_flag f m) flags initial_main_state) in
  compile pat = Some exec -> selects_lines exec LF sel ->
  binary_files o = TEXT_BINARY_FILES \/ unibyte_mask L = 0 ->
  stdout_is_dev_null env = false -> open_errors env = [] ->
  workers env = [[wf]] ->
  reset_ok wf -> released_ok wf ->
  wf_reads wf = reads_of chunks -> Forall (fun p => snd p <> []) chunks ->
  file_data chunks = unlines LF lines ++ tail ->
  read_as_text o (file_data chunks) ->
  Forall (eol_free LF) lines -> eol_free LF tail ->
  errseen s = false ->
  (length chunks + 1 <= fuel)%nat -> (length lines <= fuel)%nat ->
  let out := take (Z.to_nat (max_count o))
                  (selected_lines sel (out_invert o) (file_lines lines tail)) in
  exists s',
    main compile L fuel env flags [pat] s
    = Ret (if (length out =? 0)%nat then EXIT_FAILURE else EXIT_SUCCESS) s'
    /\ stdout s' = stdout s ++ decimal (Z.of_nat (length out)) ++ [LF]
    /\ stderr s' = stderr s.
Proof.
  intros Hflags Hin o Hcomp Hsel Hnoenc Hnull Herrs Hworkers Hreset Hrel Hreads
         Hne Hdata Htext Hfree Htail Herr Hf2 Hfuel out.
  destruct (main_one_file compile L exec fuel env flags pat wf s
              Hflags Hcomp Hnull Herrs Hworkers)
    as (o' & -> & Hp' & He' & Hm' & Emax & Einv & Ebin & Ecount & Hl' & Hq' & Hd').
  fold o in Emax, Einv, Ebin, Ecount, Hq'.
  assert (count_matches o = true) as Hc by (apply count_flag_set, Hin).
  rewrite Hc in Ecount, Hq'.
  set (X := mkCollaborators exec L).
  destruct (grep_plain X o' sel fuel wf
              (set_filename (wf_path wf)
                 (set_out_quiet (global_out_quiet o')
                    (set_done_on_match (global_done_on_match o') s)))
              chunks lines tail Hp'
              ltac:(unfold no_encoding_test; rewrite Ebin; exact Hnoenc)
              ltac:(rewrite He'; exact Hsel)
              ltac:(rewrite He'; discriminate)
              Hm' Hreset Hreads Hne
              ltac:(rewrite He'; exact Hdata)
              ltac:(unfold read_as_text; rewrite Ebin; exact Htext)
              ltac:(rewrite He'; exact Hfree)
              ltac:(rewrite He'; exact Htail)
              Hd' Hf2 Hfuel)
    as (s' & Hgrep & Hout & Hstderr & Hseen & _).
  cbv zeta in Hgrep, Hout. rewrite He', Emax, Einv in Hout.
  rewrite Emax, Einv in Hgrep.
  fold out in Hgrep, Hout.
  unfold shown in Hout.
  cbn [out_quiet stdout stderr errseen set_filename set_out_quiet
       set_done_on_match] in Hout, Hstderr, Hseen.
  rewrite Hq', app_nil_r in Hout.
  destruct Hp' as (_ & _ & Hof & _).
  exists (set_stdout (stdout s' ++ decimal (Z.of_nat (length out)) ++ [LF]) s').
  rewrite (main_search_one_file X o' fuel wf s _ _ ltac:(lia)
             (process_workfile_count X o' fuel wf _ _ s' Ecount Hof Hl' Hrel
                Hgrep)).
  cbn [errseen stdout stderr set_stdout]. rewrite Hseen, Herr, Hout.
  split; [| split; [reflexivity | exact Hstderr]].
  f_equal. destruct (length out); reflexivity.
Qed.

(** [grep -c x] on the file [ab], [xy], [zx], read in two pieces. *)
Lemma main_counts_selected_lines_witness :
  let lines := List.map bytes_of_string ["ab"; "xy"]%string in
  let tail := bytes_of_string "zx" in
  let out := take (Z.to_nat INTMAX_MAX)
                  (selected_lines
                     (fun line =>
                        bool_decide (is_Some (find_sub (bytes_of_string "x") line)))
                     false (file_lines lines tail)) in
  exists s',
    main (fixed_compile LF) unibyte_locale 3
         (stdin_environment [[97; 98; 10; 120]; [121; 10; 122; 120]])
         [Flag_c] [bytes_of_string "x"] initial_state
    = Ret (if (length out =? 0)%nat then EXIT_FAILURE else EXIT_SUCCESS) s'
    /\ stdout s' = stdout initial_state ++ decimal (Z.of_nat (length out)) ++ [LF]
    /\ stderr s' = stderr initial_state.
Proof.
  cbv zeta.
  apply (main_counts_selected_lines
           (fixed_compile LF) unibyte_locale
           (fixed_execute LF (bytes_of_string "x")) _ 3
           (stdin_environment [[97; 98; 10; 120]; [121; 10; 122; 120]])
           [Flag_c] (bytes_of_string "x")
           (stdin_file [[97; 98; 10; 120]; [121; 10; 122; 120]])
           [(false, [97; 98; 10; 120]); (false, [121; 10; 122; 120])]
           (List.map bytes_of_string ["ab"; "xy"]%string)
           (bytes_of_string "zx") initial_state).
  - reflexivity.
  - left. reflexivity.
  - reflexivity.
  - apply fixed_execute_selects_lines.
  - right. reflexivity.
  - reflexivity.
  - reflexivity.
  - reflexivity.
  - left. reflexivity.
  - left. reflexivity.
  - reflexivity.
  - repeat constructor; discriminate.
  - reflexivity.
  - right. repeat constructor; vm_compute; discriminate.
  - repeat constructor; vm_compute; discriminate.
  - repeat constructor; vm_compute; discriminate.
  - reflexivity.
  - vm_compute. lia.
  - vm_compute. lia.
Defined.

(** X24.  With [--binary-files=without-match] ([-I]) and an end-of-line
    byte that is not NUL, a file whose first buffer holds a NUL byte is
    not searched: [grep] returns 0 whatever the pattern and whatever
    follows in the file, writes nothing and reports no error. *)
Theorem grep_skips_binary_file (X : collaborators) (o : options) (fuel : nat)
        (wf : workfile) (s : state) (mv : bool) (data : list byte)
        (rest : list read_event) :
  binary_files o = WITHOUT_MATCH_BINARY_FILES -> eolbyte o <> 0 ->
  reset_ok wf -> wf_reads wf = ReadData mv data :: rest ->
  In 0 data -> (1 <= fuel)%nat ->
  exists s',
    grep X o fuel wf s = Ret 0 s'
    /\ stdout s' = stdout s /\ stderr s' = stderr s /\ errseen s' = errseen s
    /\ out_quiet s' = out_quiet s /\ done_on_match s' = done_on_match s.
Proof.
  intros Hbin Heol Hok Hreads Hin Hfuel.
  destruct (grep_first_read X o Heol fuel wf s mv data rest Hok Hreads)
    as (s2 & -> & Hbuf & Hbeg & Hlim & Hdesc & Hol & Hpend & Hlast & Henc
        & Hso & Hse & Hes & Hq & Hd).
  destruct fuel as [| k]; [lia |]. cbn [grep_loop].
  set (v0 := mkGrepVars true 0 0%nat 0%nat (-1) 0).
  assert (length (buffer s2) = (1 + length data + 8)%nat) as Hblen.
  { rewrite Hbuf. cbn [length]. rewrite length_app, length_replicate. lia. }
  assert (~ no_nul (buffer s2) (bufbeg s2) (buflim s2)) as Hnul.
  { intros Hno. apply list_elem_of_In, list_elem_of_lookup in Hin as [i Hi].
    pose proof (lookup_lt_Some _ _ _ Hi) as Hlt.
    apply (Hno (S i)); [rewrite Hbeg, Hlim; lia |].
    rewrite Hbuf. change ((data ++ replicate 8 0) !! i = Some 0).
    rewrite lookup_app_l by exact Hlt. exact Hi. }
  pose proof (grep_binary_check_without_match o v0 s2 Hbin Heol
                ltac:(cbn; lia) ltac:(rewrite Hbeg, Hlim, Hblen; lia) Hnul)
    as Hcheck.
  unfold grep_body. rewrite !bind_assoc.
  rewrite (bind_Ret _ _ _ _ _ Hcheck).
  eexists. split; [reflexivity |]. cbn. tauto.
Qed.

(** The bytes [a NUL b LF] and a second buffer with the line [b], for
    the pattern [b]. *)
Lemma grep_skips_binary_file_witness :
  exists s',
    grep (mkCollaborators (fixed_execute LF (bytes_of_string "b")) unibyte_locale)
         (with_binary_files WITHOUT_MATCH_BINARY_FILES initial_options) 1
         (stdin_file [[97; 0; 98; 10]; [98; 10]]) initial_state
    = Ret 0 s'
    /\ stdout s' = stdout initial_state /\ stderr s' = stderr initial_state
    /\ errseen s' = errseen initial_state
    /\ out_quiet s' = out_quiet initial_state
    /\ done_on_match s' = done_on_match initial_state.
Proof.
  apply (grep_skips_binary_file
           (mkCollaborators (fixed_execute LF (bytes_of_string "b")) unibyte_locale)
           (with_binary_files WITHOUT_MATCH_BINARY_FILES initial_options) 1
           (stdin_file [[97; 0; 98; 10]; [98; 10]]) initial_state
           false [97; 0; 98; 10] [ReadData false [98; 10]]).
  - reflexivity.
  - vm_compute. discriminate.
  - left. reflexivity.
  - reflexivity.
  - right. left. reflexivity.
  - lia.
Defined.

(** X25.  When the first read of a file fails, [grep] returns 0 and
    writes nothing to stdout; the error is recorded in [errseen], and
    the diagnostic, which is the file name, is written unless [-s]
    suppresses it. *)
Theorem grep_read_error (X : collaborators) (o : options) (fuel : nat)
        (wf : workfile) (s : state) (mv : bool) (rest : list read_event) :
  reset_ok wf -> wf_reads wf = ReadError mv :: rest ->
  exists s',
    grep X o fuel wf s = Ret 0 s'
    /\ stdout s' = stdout s /\ errseen s' = true
    /\ stderr s' = stderr s ++ (if suppress_errors o then [] else [filename s]).
Proof.
  intros Hok Hreads. destruct (reset_accepts o wf s Hok) as [off Hreset].
  unfold grep. rewrite (bind_Ret _ _ s s s) by reflexivity.
  rewrite (bind_Ret _ _ _ _ _ Hreset). cbn [negb].
  repeat rewrite (bind_Ret (modify _) _ _ tt _) by reflexivity.
  rewrite Hreads.
  match goal with |- context [bind (fillbuf o 0%nat) _ ?st] =>
    rewrite (bind_Ret _ _ _ _ _
               (fillbuf_read_error o st mv rest eq_refl eq_refl eq_refl))
  end.
  cbn [negb].
  match goal with |- context [bind (gets filename) _ ?st] =>
    rewrite (bind_Ret _ _ st (filename s) st) by reflexivity
  end.
  rewrite (bind_Ret _ _ _ _ _ (suppressible_error_Ret o _ _)).
  eexists. split; [reflexivity |]. repeat split.
Qed.

(** A file [f] whose first read fails. *)
Lemma grep_read_error_witness :
  exists s',
    grep (mkCollaborators (fixed_execute LF (bytes_of_string "b")) unibyte_locale)
         initial_options 1
         (mkWorkfile false (bytes_of_string "f") true None [ReadError false]
                     false true)
         (set_filename (bytes_of_string "f") initial_state)
    = Ret 0 s'
    /\ stdout s' = [] /\ errseen s' = true
    /\ stderr s' = [] ++ [bytes_of_string "f"].
Proof.
  apply (grep_read_error
           (mkCollaborators (fixed_execute LF (bytes_of_string "b")) unibyte_locale)
           initial_options 1
           (mkWorkfile false (bytes_of_string "f") true None [ReadError false]
                       false true)
           (set_filename (bytes_of_string "f") initial_state) false []).
  - right. left. reflexivity.
  - reflexivity.
Defined.

(** X26.  When standard input is a regular file whose offset [lseek]
    cannot tell, [grep] returns 0 without reading from it: nothing is
    written to stdout, the error is recorded in [errseen], and the
    diagnostic is written unless [-s] suppresses it. *)
Theorem grep_lseek_failure (X : collaborators) (o : options) (fuel : nat)
        (wf : workfile) (s : state) :
  wf_is_reg wf = true -> wf_is_stdin wf = true -> wf_lseek_cur wf = None ->
  exists s',
    grep X o fuel wf s = Ret 0 s'
    /\ stdout s' = stdout s /\ errseen s' = true
    /\ stderr s' = stderr s ++ (if suppress_errors o then []
                                else [bytes_of_string "lseek failed"])
    /\ bufdesc s' = wf_reads wf.
Proof.
  intros Hreg Hin Hcur. unfold grep.
  rewrite (bind_Ret _ _ s s s) by reflexivity.
  rewrite (bind_Ret _ _ _ _ _ (reset_rejects o wf s Hreg Hin Hcur)).
  eexists. split; [reflexivity |]. repeat split.
Qed.

(** Standard input as a regular file for which [lseek] fails. *)
Lemma grep_lseek_failure_witness :
  exists s',
    grep (mkCollaborators (fixed_execute LF (bytes_of_string "b")) unibyte_locale)
         initial_options 1
         (mkWorkfile true (bytes_of_string "-") true None [ReadData false [98; 10]]
                     false true)
         initial_state
    = Ret 0 s'
    /\ stdout s' = [] /\ errseen s' = true
    /\ stderr s' = [] ++ [bytes_of_string "lseek failed"]
    /\ bufdesc s' = [ReadData false [98; 10]].
Proof.
  apply (grep_lseek_failure
           (mkCollaborators (fixed_execute LF (bytes_of_string "b")) unibyte_locale)
           initial_options 1
           (mkWorkfile true (bytes_of_string "-") true None
                       [ReadData false [98; 10]] false true)
           initial_state); reflexivity.
Defined.



(** X29.  [main] with [-l] or [-L] (and flags that leave the output
    plain), a pattern and one file read as text, stdout not being
    [/dev/null]: the output is the file name followed by a newline (a
    NUL with [-Z]) when the file has a selected line and [-l] is in
    force, or has none and [-L] is in force, and nothing otherwise; the
    status is [EXIT_SUCCESS] if a line is selected and [EXIT_FAILURE] if
    none is; nothing is written to stderr. *)
Theorem main_lists_file
        (compile : list byte -> option matcher) (L : locale) (exec : matcher)
        (sel : list byte -> bool) (fuel : nat) (env : environment)
        (flags : list flag) (pat : list byte) (wf : workfile)
        (chunks : list (bool * list byte))
        (lines : list (list byte)) (tail : list byte) (s : state) :
  forallb testing_flag flags = true ->
  let o := opts (fold_left (fun m f => apply_flag f m) flags initial_main_state) in
  exit_on_match o = false -> stdout_is_dev_null env = false ->
  list_files o <> LISTFILES_NONE ->
  compile pat = Some exec -> selects_lines exec LF sel ->
  open_errors env = [] -> workers env = [[wf]] ->
  reset_ok wf -> released_ok wf ->
  wf_reads wf = reads_of chunks -> Forall (fun p => snd p <> []) chunks ->
  file_data chunks = unlines LF lines ++ tail ->
  read_as_text o (file_data chunks) ->
  Forall (eol_free LF) lines -> eol_free LF tail ->
  errseen s = false ->
  (length chunks + 1 <= fuel)%nat -> (length lines <= fuel)%nat ->
  let selected := selected_lines sel (out_invert o) (file_lines lines tail) in
  let named := match list_files o, selected with
               | LISTFILES_MATCHING, _ :: _ => true
               | LISTFILES_NONMATCHING, [] => true
               | _, _ => false
               end in
  exists s',
    main compile L fuel env flags [pat] s
    = Ret (match selected with [] => EXIT_FAILURE | _ :: _ => EXIT_SUCCESS end) s'
    /\ stdout s' = stdout s
                   ++ (if named
                       then wf_path wf ++ [if filename_mask o then LF else 0]
                       else [])
    /\ stderr s' = stderr s.
Proof.
  intros Hflags o Hexit Hnull Hlist Hcomp Hsel Herrs Hworkers Hreset Hrel Hreads
         Hne Hdata Htext Hfree Htail Herr Hf2 Hfuel selected named.
  destruct (main_test_file compile L exec fuel env flags pat wf s Hflags Hcomp
              Herrs Hworkers)
    as (o' & -> & He' & Hline & Hbyte & Hbefore & Hmax & Einv & Ebin & Eexit
        & Elist & Ecount & Hgd & Hgq & Hcol & Emask & Efail).
  { fold o. rewrite Hexit, Hnull. right. exact Hlist. }
  fold o in Einv, Ebin, Eexit, Elist, Emask, Efail.
  rewrite Hexit, Hnull in Eexit, Elist. cbn [orb] in Eexit, Elist.
  set (X := mkCollaborators exec L).
  set (s0 := set_filename (wf_path wf)
               (set_out_quiet (global_out_quiet o')
                  (set_done_on_match (global_done_on_match o') s))).
  destruct (grep_done X o' sel fuel wf s0 chunks lines tail
              ltac:(rewrite He'; exact Hsel) ltac:(rewrite He'; discriminate)
              Hline Hbyte Hbefore Hmax Hreset Hreads Hne
              ltac:(rewrite He'; exact Hdata)
              ltac:(unfold read_as_text; rewrite Ebin; exact Htext)
              ltac:(rewrite He'; exact Hfree) ltac:(rewrite He'; exact Htail)
              ltac:(split; [exact Hgd | exact Hgq]) Hf2 Hfuel)
    as [(Hnone & s1 & Hgrep & _ & Hso & Hse & Hes & Hfn)
       | (Hsome & n & s1 & Hpos & Hgrep & Hso & Hse & Hes & Hfn)].
  - rewrite Einv in Hnone. fold selected in Hnone.
    rewrite (main_search_one_file X o' fuel wf s _ _ ltac:(lia)
               (process_workfile_list X o' fuel wf _ _ s1 Ecount Hcol Hrel
                  Hgrep Hfn)).
    subst named s0. cbn in Hso, Hse, Hes. rewrite Hnone.
    unfold listed. rewrite Elist, Emask.
    destruct (list_files o) eqn:Elf; [done | |];
      cbn [list_files_eqb Z.ltb Z.eqb Z.compare andb orb errseen set_stdout];
      rewrite Hes, Herr;
      (eexists; split; [reflexivity |]);
      cbn [stdout stderr set_stdout]; rewrite ?Hso, ?Hse, ?app_nil_r;
      split; reflexivity.
  - rewrite Einv in Hsome. fold selected in Hsome.
    unfold stopped in Hgrep. rewrite Eexit in Hgrep.
    rewrite (main_search_one_file X o' fuel wf s _ _ ltac:(lia)
               (process_workfile_list X o' fuel wf _ _ s1 Ecount Hcol Hrel
                  Hgrep Hfn)).
    subst named s0. cbn in Hso, Hse, Hes.
    destruct selected as [| x sl]; [done |].
    unfold listed. rewrite Elist, Emask.
    destruct (Z.ltb_spec 0 n) as [_ |]; [| lia].
    destruct (Z.eqb_spec n 0) as [| _]; [lia |].
    destruct (list_files o) eqn:Elf; [done | |];
      cbn [list_files_eqb andb orb errseen set_stdout];
      rewrite Hes, Herr;
      (eexists; split; [reflexivity |]);
      cbn [stdout stderr set_stdout]; rewrite ?Hso, ?Hse, ?app_nil_r;
      split; reflexivity.
Qed.

(** [grep -l x] on standard input holding [ab], [xy] and the
    unterminated line [zx]. *)
Lemma main_lists_file_witness :
  let selected :=
    selected_lines
      (fun line => bool_decide (is_Some (find_sub (bytes_of_string "x") line)))
      false
      (file_lines (List.map bytes_of_string ["ab"; "xy"]%string)
                  (bytes_of_string "zx")) in
  exists s',
    main (fixed_compile LF) unibyte_locale 3
         (stdin_environment [[97; 98; 10; 120]; [121; 10; 122; 120]])
         [Flag_l] [bytes_of_string "x"] initial_state
    = Ret (match selected with [] => EXIT_FAILURE | _ :: _ => EXIT_SUCCESS end) s'
    /\ stdout s'
       = stdout initial_state
         ++ (if match selected with _ :: _ => true | [] => false end
             then wf_path (stdin_file [[97; 98; 10; 120]; [121; 10; 122; 120]])
                  ++ [LF]
             else [])
    /\ stderr s' = stderr initial_state.
Proof.
  cbv zeta.
  apply (main_lists_file
           (fixed_compile LF) unibyte_locale
           (fixed_execute LF (bytes_of_string "x")) _ 3
           (stdin_environment [[97; 98; 10; 120]; [121; 10; 122; 120]])
           [Flag_l] (bytes_of_string "x")
           (stdin_file [[97; 98; 10; 120]; [121; 10; 122; 120]])
           [(false, [97; 98; 10; 120]); (false, [121; 10; 122; 120])]
           (List.map bytes_of_string ["ab"; "xy"]%string)
           (bytes_of_string "zx") initial_state).
  - reflexivity.
  - reflexivity.
  - reflexivity.
  - discriminate.
  - reflexivity.
  - apply fixed_execute_selects_lines.
  - reflexivity.
  - reflexivity.
  - left. reflexivity.
  - left. reflexivity.
  - reflexivity.
  - repeat constructor; discriminate.
  - reflexivity.
  - right. repeat constructor; vm_compute; discriminate.
  - repeat constructor; vm_compute; discriminate.
  - repeat constructor; vm_compute; discriminate.
  - reflexivity.
  - vm_compute. lia.
  - vm_compute. lia.
Defined.



